(* ===== verification/_CoqProject ===== *)
-Q . S2P
Prelude.v
SortedVec.v
Config.v
Protocol.v
Topic.v
Generator.v
PacketId.v
TimerMgr.v
State.v
Lifecycle.v
Completion.v
Session.v
SendOp.v
RecvOp.v
SubscribeOp.v
ConnectOp.v
Client.v
Invariant.v
Objects.v
Termination.v
Frame.v
Ownership.v
Preservation.v
Scenarios.v
Filters.v
Requests.v
Receiving.v
Safety.v
Publishing.v
Disconnect.v
Ticking.v
Delivery.v
Exchange.v
Conformance.v
Api.v
Options.v
AppSession.v
AppClient.v
AppProgram.v
Reactions.v
Programs.v
AflFuzz.v
FuzzDriver.v
Memory.v
Survival.v
Timeouts.v
Reconnection.v
Reception.v
MemoryApi.v
Liveness.v
Resending.v
Findings.v
