(* ===== verification/Prelude.v ===== *)
(** * Verification of the cc_mqtt311 client library

    This development models the client library of the repository, the C++ code
    under [client/lib], its command line applications under [client/app] and its
    fuzzing driver under [client/afl_fuzz], and proves properties of them.  The library keeps one MQTT 3.1.1 session per client: the application
    prepares, configures and sends operations (connect, publish, subscribe, ...),
    feeds it the bytes that arrive and the time that elapses, and gets output and
    completions through callbacks.

    ** How the program is modelled

    - A client is a value of the record [State.ClientImpl], whose fields carry the
      names of the members of the class.  The operations are objects that the
      client owns, points to from [m_ops] and names by address in timer data;
      they live in a store [g_store] indexed by addresses that are never used
      again, so that a use after destruction is the fault [FDangling] and not a
      silent read.  The fields [g_...] are the store and the ghost counters.
    - A function of the library is a computation of the monad [Prelude.M], which
      passes the state and stops at a [Prelude.fault]: the events for which the
      C++ code has no defined behaviour (null and dangling pointers, a full
      static vector, a changed vector under a range-for, an index out of range), a
      failed [COMMS_ASSERT] in a build that keeps assertions, and the bound of a
      model loop ([FFuel]).  No other computation is partial.
    - A callback appends an [State.Event] to the trace and then runs the reaction
      of the application ([State.App]), any computation: it may call the client
      again.  [Client.Script] describes reactions by the requests of the API they
      make, nested to any depth; [Client.reachable] are the states of a client
      under such an application.
    - A build is an instance of [Config.Config] (the options of [Config.h]); every
      theorem holds for all builds, with dynamic or static storage, with or
      without assertions.  Unsigned integers are [Z] with [u16] and [u32] written
      where the code wraps.
    - The message codec (the cc_mqtt311 and COMMS libraries) is not in the
      repository: it is the class [Protocol.CommsLib], with the documented facts
      that the proofs use in [Protocol.CommsLaws] and [Receiving.StreamLaws].
      [Scenarios] has a concrete instance, at which the witnesses run.

    ** The files and the code they model

    - [Prelude]: the monad, faults, [wp] (an execution ends well or with a
      tolerated fault), [Contract] and [keeps] (an invariant, a preorder and
      tolerated faults that a computation respects), automation.
    - [SortedVec]: [std::lower_bound], insertion and removal in sorted vectors,
      over the class [Ordered].
    - [Config]: [Config.h.templ], [ExtConfig.h], [ObjListType.h].
      [Protocol]: the public [common.h] and [ProtocolDefs.h].
    - [Topic]: the verification loops of [op/Op.cpp], [isTopicMatch] of
      [op/RecvOp.cpp], and their specifications on levels.
    - [PacketId]: [ClientState.h], [Op::allocPacketId], [Op::releasePacketId].
    - [TimerMgr]: [TimerMgr.h], [TimerMgr.cpp].
    - [State]: the members of [ClientImpl] and of the operations.
    - [Lifecycle]: constructors, destructors, the owning lists, [sendMessage].
    - [Completion]: [opComplete], [resumeSendOpsSince], the order of publishes.
    - [Session]: [terminateOps], [brokerDisconnected], [KeepAliveOp], timeouts,
      [tick], [doApiEnter], [doApiExit].
    - [SendOp], [RecvOp], [SubscribeOp] (with [UnsubscribeOp]), [ConnectOp] (with
      [DisconnectOp] and [brokerConnected]): the operations and the functions of
      [ClientImpl] that serve them.
    - [Client]: preparations, dispatch, [processData], the calls that change the
      state as [Request]s.
    - [Api]: every function of the C interface, with null handles and pointers
      ([client.cpp.templ]).
    - [Options], [AppSession], [AppClient]: [ProgramOptions], [Session] with
      [TcpSession] and [TlsSession], [AppClient] with [Pub] and [Sub].
      [AppProgram]: the programs as a whole, [main], the start, the callbacks as the
      reaction ([State.App]) of the client, the timer, and the event loop as a sequence
      of events ([Io]).  What a callback does outside of the client is noted in the
      trace ([State.AppAction]); the members of the application are a function of it.
    - [Generator]: the broker that the fuzzing driver plays ([Generator.cpp]).
      [AflFuzz]: the driver itself ([AflFuzz.cpp.templ], [main.cpp]): the loop that feeds
      the client with what is read or with what the generator answers, the steps that
      connect, subscribe, unsubscribe and disconnect, and the callbacks, which publish
      again what they receive.

    ** What is proved

    - Safety of all requests under any application: [Invariant] (the invariant
      [Inv] of the client: lists, store, timers, packet identifiers, completions),
      [Objects], [Ownership], [Preservation] (every function keeps it and follows
      [evolves]) and [Safety] (the consequences for reachable states: completion
      at most once, ownership of objects, timers and identifiers, limits, balanced
      guards).  These theorems tolerate every fault: they are about executions
      that return.
    - [Frame]: every function keeps a contract that its elementary steps keep (the
      classes [Stable], and [Framed] with [Exchanging] for contracts that look at the
      messages of publishes).  [Requests] uses it for the vectors, which stay sorted, and
      for termination: no request exceeds a bound of the model when the application
      does not call the client from its callbacks ([runs_terminate]), on top of
      [Termination], the argument for the recursive resumption of publishes.
    - Functional behaviour with the faults that can happen: [TimerMgr], [PacketId],
      [Topic] (in their files), [Filters] (SUBACK and UNSUBACK), [Publishing] (the
      order of publishes and acknowledgements), [Receiving] (streams of frames),
      [Disconnect] (the effect of a disconnection), [Delivery] (incoming messages of
      QoS 2 are reported once), [Exchange] (the handlers of acknowledgements refine
      an abstract exchange), [Conformance] (the messages and the outcome of a publish, over
      any sequence of requests and with any calls from callbacks, are those of an abstract
      sender of MQTT), [Ticking] (as long as a timer runs the application has a
      tick programmed that comes in time).
    - Absence of faults, for an application that does not call the client from its
      callbacks (the class [Quiet]): the judgement [moves] of [Memory] follows the
      functions of the library and carries the operations that the callers hold;
      [Memory] applies it to completion and disconnection, [Survival] says which
      operations a completion leaves alive, [Timeouts] handles the timeouts,
      [Reconnection] a connection that is accepted, [Reception] other incoming data,
      [MemoryApi] the requests.  Its theorem [admissible_runs_memory_safe] has a
      condition for each kind of execution that [Findings] shows to end in a fault:
      handles are alive ([handle_ok]), no timer has expired by the time the guard of a
      call asks for ([in_time]), the timers of a tick do not destroy each other's
      operations ([tick_ok]), a connection that is accepted meets no publish that it
      completes ([link_ok]), and acknowledgements, in whatever order, have the
      identifier of a publish that was sent or of none ([ack_known]).
    - [Liveness]: such a tick returns, and completes the operations whose time has
      come with their callbacks.  [Resending]: a publish without an answer is sent
      again and given up after as many ticks as it has attempts.
    - [Api]: every function of the interface is a sequence of requests, so that the
      theorems on requests hold for it.
    - The applications: [Options] (the getters fit the declarations), [AppSession]
      (the session delivers the stream whatever the reads are; TLS is configured
      before the first read), [AppClient] (the decoding of binary arguments),
      [Reactions] (the callbacks keep what the requests keep) and [Programs] (a program
      ends with success only after its publish, and waits for the timers of the client).
      [Generator] refines an abstract broker, and its topics match the filters they
      are made from.  [FuzzDriver]: the driver ends ([fuzz_ends]) and loses no byte
      ([fuzz_stream]), and its client stays in the invariant of the requests.
    - [Findings]: executions of the model that show where the code does not do what
      it means to, each on a concrete sequence of API calls; they are also the
      reason why the safety theorems tolerate faults.

    ** Bounds

    [processData] has a unit of fuel per byte (a frame takes one at least),
    [allocPacketId] one more than the identifiers allocated (one of that many
    candidates is free), [resendAllUntil] one more than the publishes (each
    iteration advances or removes one), [resumeSendOpsSince] [app_fuel] more than
    the square of the publishes and one (each iteration advances, or takes a
    publish out of the paused ones); [runs_terminate] says that they are enough.
    An application that keeps publishing from the completion callback of a publish
    makes the C++ code recurse without end; [app_fuel] bounds that recursion.

    ** What is not modelled

    The error log, the user data pointers of callbacks and the memory of the clients
    themselves ([ClientAllocator]); memory that is used again at the same address.
    A range-for over a vector that changes is a fault, also where a particular
    standard library would happen to go on.  Of the applications, the output to the
    terminal; the parser of the command line and the network are parameters
    ([Options.Parser], [AppSession.Asio]), and the order in which boost runs the
    handlers is any sequence of [AppProgram.Io].  Of the fuzzing driver, the log and the
    file that the generator writes; the standard input is the list of the results of its
    reads.  The tests and the build scripts are outside of the model.

    ** Plan

    Not proved, and worth it: that a program counts the time right when no wait expires
    before a read; that the handles of the driver's subscriptions are those of live
    operations, so that it does not leave through [exit]; absence of faults for
    applications that call the client from their callbacks. *)

From Stdlib Require Export ZArith Lia ZifyBool.
From stdpp Require Export base tactics option list gmap strings.

Declare Scope mqtt_scope.
Delimit Scope mqtt_scope with mqtt.
Open Scope mqtt_scope.

(** ** Outcomes and the state monad *)

(** What ends an execution: the events for which the C++ code has no defined
    behaviour, a failed assertion, and the bound of the model. *)
Inductive fault :=
  | FAssert    (** a [COMMS_ASSERT] failed in a build that keeps assertions *)
  | FNull      (** a null pointer or a null function pointer is used *)
  | FDangling  (** a member of an object that has been destroyed is used *)
  | FCapacity  (** [push_back] on a static vector that is full *)
  | FIterator  (** a vector is changed inside a range-for loop over it *)
  | FRange     (** an element past the end of a vector is read *)
  | FFuel      (** the bound on nested completions was exceeded *)
  | FThrow     (** an exception leaves the program (the applications) *)
  | FExit.     (** [exit] ends the process (the fuzzing driver) *)

#[export] Instance fault_eq_dec : EqDecision fault.
Proof. solve_decision. Defined.

Inductive result (S A : Type) :=
  | Ok (a : A) (s : S)
  | Fault (f : fault).
Arguments Ok {S A} a s.
Arguments Fault {S A} f.

Definition M (S A : Type) : Type := S → result S A.

#[export] Instance M_ret (S : Type) : MRet (M S) := λ A a s, Ok a s.
#[export] Instance M_bind (S : Type) : MBind (M S) := λ A B k m s,
  match m s with
  | Ok a s' => k a s'
  | Fault f => Fault f
  end.

Definition throw {S A} (f : fault) : M S A := λ _, Fault f.
Definition gets {S A} (f : S → A) : M S A := λ s, Ok (f s) s.
Definition modify {S} (f : S → S) : M S unit := λ s, Ok tt (f s).
Definition when {S} (b : bool) (m : M S unit) : M S unit :=
  if b then m else mret tt.

Fixpoint mapM_ {S A} (f : A → M S unit) (l : list A) : M S unit :=
  match l with
  | [] => mret tt
  | x :: l' => f x ;; mapM_ f l'
  end.

(** Run a computation on one component of a larger state. *)
Definition zoom {S T A} (g : S → T) (p : T → S → S) (m : M T A) : M S A := λ s,
  match m (g s) with
  | Ok a t => Ok a (p t s)
  | Fault f => Fault f
  end.

Notation "'assert!' b" := (if b then mret tt else throw FAssert)
  (at level 20, b at level 9) : mqtt_scope.

(** ** Machine integers *)

Definition u16 (z : Z) : Z := (z mod 2 ^ 16)%Z.
Definition u32 (z : Z) : Z := (z mod 2 ^ 32)%Z.
Definition u16_max : Z := 65535%Z.
Definition u32_max : Z := 4294967295%Z.
Definition u64_max : Z := 18446744073709551615%Z.

(** ** Weakest preconditions

    [wp F m Q s]: running [m] from [s] either ends in a state and a value that
    satisfy [Q], or faults with a fault that [F] allows. *)
Definition wp {S A} (F : fault → Prop) (m : M S A) (Q : A → S → Prop) (s : S) : Prop :=
  match m s with
  | Ok a s' => Q a s'
  | Fault f => F f
  end.

Definition any_fault : fault → Prop := λ _, True.
Definition no_fault : fault → Prop := λ _, False.
Definition not_fuel : fault → Prop := λ f, f ≠ FFuel.

Section wp_rules.
  Context {S : Type} (F : fault → Prop).

Lemma wp_ret {A} (a : A) (Q : A → S → Prop) s : Q a s → wp F (mret a) Q s.
Proof. done. Qed.

Lemma wp_bind {A B} (m : M S A) (k : A → M S B) Q s :
  wp F m (λ a s', wp F (k a) Q s') s → wp F (m ≫= k) Q s.
Proof. unfold wp, mbind, M_bind. by destruct (m s). Qed.

Lemma wp_mono {A} (m : M S A) (Q Q' : A → S → Prop) s :
  wp F m Q s → (∀ a s', Q a s' → Q' a s') → wp F m Q' s.
Proof. unfold wp. destruct (m s); auto. Qed.

Lemma wp_gets {A} (f : S → A) (Q : A → S → Prop) s : Q (f s) s → wp F (gets f) Q s.
Proof. done. Qed.

Lemma wp_modify (f : S → S) (Q : unit → S → Prop) s :
  Q tt (f s) → wp F (modify f) Q s.
Proof. done. Qed.

Lemma wp_throw {A} f (Q : A → S → Prop) s : F f → wp F (throw f) Q s.
Proof. done. Qed.

Lemma wp_when b (m : M S unit) Q s :
  (b = true → wp F m Q s) → (b = false → Q tt s) → wp F (when b m) Q s.
Proof. intros Ht Hf. destruct b; [by apply Ht | by apply Hf]. Qed.

Lemma wp_zoom {T A} (g : S → T) p (m : M T A) (Q : A → S → Prop) s :
  wp F m (λ a t, Q a (p t s)) (g s) → wp F (zoom g p m) Q s.
Proof. unfold wp, zoom. by destruct (m (g s)). Qed.

Lemma wp_ok {A} (m : M S A) (Q : A → S → Prop) s a s' :
  m s = Ok a s' → Q a s' → wp F m Q s.
Proof. unfold wp. by intros ->. Qed.

Lemma wp_faults (F' : fault → Prop) {A} (m : M S A) (Q : A → S → Prop) s :
  wp F m Q s → (∀ f, F f → F' f) → wp F' m Q s.
Proof. unfold wp. destruct (m s); auto. Qed.

Lemma wp_and (F' : fault → Prop) {A} (m : M S A) (Q Q' : A → S → Prop) s :
  wp F m Q s → wp F' m Q' s → wp F m (λ a s', Q a s' ∧ Q' a s') s.
Proof. unfold wp. destruct (m s); auto. Qed.
End wp_rules.

Lemma wp_no_fault_inv {S A} (m : M S A) (Q : A → S → Prop) s :
  wp no_fault m Q s → ∃ a s', m s = Ok a s' ∧ Q a s'.
Proof. unfold wp. destruct (m s) as [a s'|]; [eauto | done]. Qed.

(** The bind is a congruence on the executions that happen, and associative. *)
Lemma bind_ext {S A B} (m : M S A) (k k' : A → M S B) s :
  (∀ x s', m s = Ok x s' → k x s' = k' x s') → (m ≫= k) s = (m ≫= k') s.
Proof. unfold mbind, M_bind. destruct (m s); auto. Qed.

Lemma bind_assoc {S A B C} (m : M S A) (k : A → M S B) (k' : B → M S C) s :
  ((m ≫= k) ≫= k') s = (m ≫= λ a, k a ≫= k') s.
Proof. unfold mbind, M_bind. by destruct (m s). Qed.

(** ** Contracts

    A contract of a state type: an invariant, a preorder that every step
    follows, and the faults it tolerates.  [keeps m] says that [m] fulfils it. *)
Class Contract (S : Type) := {
  ct_inv : S → Prop;
  ct_rel : S → S → Prop;
  ct_faults : fault → Prop;
  ct_pre :: PreOrder ct_rel;
}.

Definition keeps {S : Type} `{!Contract S} {A} (m : M S A) : Prop :=
  ∀ s, ct_inv s → wp ct_faults m (λ _ s', ct_inv s' ∧ ct_rel s s') s.

Section keeps_rules.
  Context {S : Type} `{!Contract S}.

Lemma keeps_ret {A} (a : A) : keeps (mret a).
Proof. intros s Hs. split; [done | reflexivity]. Qed.

Lemma keeps_gets {A} (f : S → A) : keeps (gets f).
Proof. intros s Hs. split; [done | reflexivity]. Qed.

Lemma keeps_throw {A} f : ct_faults f → keeps (throw (A := A) f).
Proof. by intros Hf s Hs. Qed.

Lemma keeps_bind {A B} (m : M S A) (k : A → M S B) :
  keeps m → (∀ a, keeps (k a)) → keeps (m ≫= k).
Proof.
  intros Hm Hk s Hs. apply wp_bind. eapply wp_mono; [by apply Hm|].
  intros a s' [Hs' HR]. eapply wp_mono; [by apply Hk|].
  intros b s'' [Hs'' HR']. split; [done | by etrans].
Qed.

Lemma keeps_when b (m : M S unit) : keeps m → keeps (when b m).
Proof. destruct b; [done | intros _; apply keeps_ret]. Qed.

Lemma keeps_mapM_ {A} (f : A → M S unit) l :
  (∀ x, keeps (f x)) → keeps (mapM_ f l).
Proof.
  intros Hf. induction l as [|x l IH]; simpl; [apply keeps_ret|].
  by apply keeps_bind.
Qed.

Lemma keeps_modify (f : S → S) :
  (∀ s, ct_inv s → ct_inv (f s) ∧ ct_rel s (f s)) → keeps (modify f).
Proof. intros Hf s Hs. by apply Hf. Qed.

Lemma keeps_wp {A} (m : M S A) s :
  keeps m → ct_inv s → wp ct_faults m (λ _ s', ct_inv s' ∧ ct_rel s s') s.
Proof. auto. Qed.
End keeps_rules.

Lemma any_step_preorder {S} : PreOrder (λ _ _ : S, True).
Proof. by split. Qed.

(** The contract of a computation of which only the faults matter. *)
Definition plain_contract (S : Type) (F : fault → Prop) : Contract S := {|
  ct_inv := λ _, True;
  ct_rel := λ _ _, True;
  ct_faults := F;
  ct_pre := any_step_preorder;
|}.

Lemma plain_zoom {S T A} `{!Contract S} (g : S → T) p (m : M T A) :
  keeps (Contract0 := plain_contract T ct_faults) m →
  (∀ t s, ct_inv s → ct_inv (p t s) ∧ ct_rel s (p t s)) → keeps (zoom g p m).
Proof.
  intros Hm Hp s Hs. apply wp_zoom. eapply wp_mono; [by apply Hm|]. intros a t _. by apply Hp.
Qed.

Create HintDb keeps.
#[export] Hint Resolve keeps_ret keeps_gets keeps_when keeps_mapM_ : keeps.

(** Decompose a computation along its syntax; the leaves are closed by the
    rules of the [keeps] database. *)
Ltac keeps_step :=
  match goal with
  | |- keeps (mbind _ _) => apply keeps_bind; [|intro]
  | |- keeps (if ?b then _ else _) => destruct b eqn:?
  | |- keeps (match ?x with _ => _ end) => destruct x eqn:?
  | |- keeps (let '_ := ?x in _) => destruct x eqn:?
  | |- keeps (when _ _) => apply keeps_when
  | |- keeps (mapM_ _ _) => apply keeps_mapM_; intro
  | |- keeps (mret _) => apply keeps_ret
  | |- keeps (gets _) => apply keeps_gets
  end.
Ltac keeps_auto := repeat first [ solve [eauto 2 with keeps nocore] | keeps_step ].

(** ** Lists *)

Lemma list_find_app_r {A} (l : list A) (P : A → Prop) `{∀ x, Decision (P x)} x :
  Forall (λ y, ¬ P y) l → P x → list_find P (l ++ [x]) = Some (length l, x).
Proof.
  intros Hl Hx. induction Hl as [|y l Hy Hl IH]; simpl.
  - by rewrite decide_True.
  - rewrite decide_False, IH by done. done.
Qed.
