(* ===== verification/SortedVec.v ===== *)
(** * Sorted vectors

    The client keeps two sets as sorted vectors that it searches with
    [std::lower_bound] and changes with [insert] and [erase] at the position
    found: the allocated packet identifiers (client/lib/src/op/Op.cpp) and the
    confirmed topic filters (client/lib/src/op/SubscribeOp.cpp,
    client/lib/src/op/UnsubscribeOp.cpp).  The functions are generic in the order
    of the elements, [operator<]. *)

From stdpp Require Export sorting.
From Stdlib Require OrdersEx.
From S2P Require Import Prelude.

Class Ordered (A : Type) := {
  less : A → A → bool;
  less_irrefl : ∀ x, less x x = false;
  less_trans : ∀ x y z, less x y = true → less y z = true → less x z = true;
  less_total : ∀ x y, less x y = false → less y x = false → x = y;
}.

#[export, refine] Instance Z_ordered : Ordered Z := {| less := Z.ltb |}.
Proof. all: lia. Defined.

(** [operator<] of [std::string]. *)
#[export, refine] Instance string_ordered : Ordered string := {| less := String.ltb |}.
Proof.
  - intros x. unfold String.ltb. destruct (String.compare x x) eqn:Hx; [done| |done].
    pose proof (String.compare_antisym x x). rewrite Hx in *. done.
  - intros x y z Hxy Hyz. unfold String.ltb in *.
    destruct (String.compare x y) eqn:Hx; [done| |done].
    destruct (String.compare y z) eqn:Hy; [done| |done].
    assert (String.compare x z = Lt) as ->; [|done].
    change (OrdersEx.String_as_OT.lt x z). by transitivity y.
  - intros x y. unfold String.ltb. rewrite (String.compare_antisym y x).
    destruct (String.compare x y) eqn:Hx; [|done|done]. intros _ _.
    by apply String.compare_eq_iff.
Defined.

(** ** Operations *)

Section ops.
  Context {A : Type} `{!Ordered A}.

(** [std::lower_bound]: the index of the first element that is not less. *)
Fixpoint lower_bound (l : list A) (x : A) : nat :=
  match l with
  | [] => 0
  | y :: l' => if less y x then S (lower_bound l' x) else 0
  end.

(** [insert(begin() + i, x)] and [erase(begin() + i)]. *)
Definition insert_at (i : nat) (x : A) (l : list A) : list A := take i l ++ x :: drop i l.
Definition erase_at (i : nat) (l : list A) : list A := take i l ++ drop (S i) l.

(** Strictly ascending. *)
Definition sorted (l : list A) : Prop := StronglySorted (λ x y, less x y = true) l.

End ops.

(** ** Lemmas *)

Section lemmas.
  Context {A : Type} `{!EqDecision A, !Ordered A}.
  Implicit Types (l : list A) (x y : A).

Lemma less_asymm x y : less x y = true → less y x = false.
Proof.
  intros Hxy. destruct (less y x) eqn:Hyx; [|done].
  pose proof (less_trans _ _ _ Hxy Hyx). by rewrite less_irrefl in *.
Qed.

Lemma less_le_trans x y z : less x y = true → less z y = false → less x z = true.
Proof.
  intros Hxy Hzy. destruct (less x z) eqn:Hxz; [done|].
  destruct (less z x) eqn:Hzx.
  - pose proof (less_trans _ _ _ Hzx Hxy). congruence.
  - pose proof (less_total _ _ Hxz Hzx). congruence.
Qed.

Lemma sorted_nodup l : sorted l → NoDup l.
Proof.
  induction 1 as [|x l Hs IH Hx]; constructor; [|done].
  rewrite Forall_forall in Hx. intros Hin%Hx. by rewrite less_irrefl in *.
Qed.

Lemma sorted_app l1 l2 :
  sorted l1 → sorted l2 → (∀ x y, x ∈ l1 → y ∈ l2 → less x y = true) → sorted (l1 ++ l2).
Proof.
  intros H1 H2 Hlt. induction H1 as [|x l1 H1 IH Hx]; simpl; [done|]. constructor.
  - apply IH. intros. apply Hlt; [|done]. by apply elem_of_cons; right.
  - apply Forall_app. split; [done|]. apply Forall_forall. intros y Hy.
    apply Hlt; [|done]. by apply elem_of_cons; left.
Qed.

Lemma sorted_take_drop i l : sorted l → sorted (take i l) ∧ sorted (drop i l).
Proof.
  intros Hs. revert i. induction Hs as [|x l Hs IH Hx]; intros [|i]; simpl;
    try (split; by constructor).
  destruct (IH i) as [Ht Hd]. split; [|done]. constructor; [done|]. by apply Forall_take.
Qed.

Lemma sorted_ext l1 l2 : sorted l1 → sorted l2 → (∀ y, y ∈ l1 ↔ y ∈ l2) → l1 = l2.
Proof.
  intros H1 H2 Heq. eapply (StronglySorted_unique_strong (λ x y, less x y = true));
    [|done|done|].
  - intros x y _ _ Hxy Hyx. pose proof (less_asymm _ _ Hxy). congruence.
  - by apply NoDup_Permutation; [apply sorted_nodup..|].
Qed.

(** The elements before the position found are less, the others are not. *)
Lemma lower_bound_take l x : Forall (λ y, less y x = true) (take (lower_bound l x) l).
Proof.
  induction l as [|y l IH]; simpl; [constructor|]. destruct (less y x) eqn:?; by constructor.
Qed.

Lemma lower_bound_drop l x : sorted l → Forall (λ y, less y x = false) (drop (lower_bound l x) l).
Proof.
  induction 1 as [|y l Hs IH Hy]; simpl; [constructor|].
  destruct (less y x) eqn:Hyx; [done|]. constructor; [done|].
  eapply Forall_impl; [exact Hy|]. simpl. intros z Hyz.
  destruct (less z x) eqn:Hzx; [|done]. pose proof (less_trans _ _ _ Hyz Hzx). congruence.
Qed.

(** The search finds an element if it is there. *)
Lemma lower_bound_lookup l x : sorted l → l !! lower_bound l x = Some x ↔ x ∈ l.
Proof.
  intros Hs. split; [apply list_elem_of_lookup_2|].
  induction Hs as [|y l Hs IH Hy]; [by intros ?%elem_of_nil|].
  intros [->|Hin]%elem_of_cons; simpl; [by rewrite less_irrefl|].
  rewrite Forall_forall in Hy. rewrite (Hy _ Hin). by apply IH.
Qed.

Lemma elem_of_insert_at i x y l : y ∈ insert_at i x l ↔ y = x ∨ y ∈ l.
Proof.
  unfold insert_at. rewrite <- (take_drop i l) at 3. rewrite !elem_of_app, elem_of_cons. tauto.
Qed.

Lemma length_insert_at i x l : length (insert_at i x l) = S (length l).
Proof.
  unfold insert_at. rewrite length_app. simpl. rewrite <- (take_drop i l) at 3.
  rewrite length_app. lia.
Qed.

Lemma insert_at_sorted l x : sorted l → x ∉ l → sorted (insert_at (lower_bound l x) x l).
Proof.
  intros Hs Hx. destruct (sorted_take_drop (lower_bound l x) l Hs) as [Ht Hd].
  pose proof (lower_bound_take l x) as Hlt. pose proof (lower_bound_drop l x Hs) as Hge.
  rewrite Forall_forall in Hlt, Hge.
  assert (∀ y, y ∈ drop (lower_bound l x) l → less x y = true) as Hgt.
  { intros y Hy. destruct (less x y) eqn:Hxy; [done|]. destruct Hx.
    rewrite (less_total _ _ Hxy (Hge _ Hy)), <- (take_drop (lower_bound l x) l), elem_of_app.
    by right. }
  apply sorted_app; [done| |].
  - constructor; [done|]. by apply Forall_forall.
  - intros a b Ha [->|Hb]%elem_of_cons; [by apply Hlt|].
    eapply less_trans; [by apply Hlt | by apply Hgt].
Qed.

Lemma erase_at_sorted l x :
  sorted l → x ∈ l →
  sorted (erase_at (lower_bound l x) l) ∧
  (∀ y, y ∈ erase_at (lower_bound l x) l ↔ y ∈ l ∧ y ≠ x).
Proof.
  intros Hs Hin. pose proof (sorted_nodup _ Hs) as Hnd.
  pose proof (proj2 (lower_bound_lookup l x Hs) Hin) as Hl.
  pose proof (lower_bound_take l x) as Ht. rewrite Forall_forall in Ht.
  pose proof (lower_bound_drop l x Hs) as Hd. rewrite Forall_forall in Hd.
  unfold erase_at. set (i := lower_bound l x) in *.
  pose proof (take_drop_middle _ _ _ Hl) as Heq.
  destruct (sorted_take_drop i l Hs) as [Hs1 Hs2].
  destruct (sorted_take_drop (S i) l Hs) as [_ Hs3].
  rewrite <- Heq in Hnd. apply NoDup_app in Hnd as (_ & Hdisj & [Hnotin _]%NoDup_cons).
  assert (∀ y, y ∈ drop (S i) l → y ∈ drop i l) as Hsub.
  { intros y Hy. rewrite (drop_S _ _ _ Hl). by apply elem_of_cons; right. }
  split.
  - apply sorted_app; [done|done|]. intros y z Hy Hz.
    eapply less_le_trans; [by apply Ht | by apply Hd, Hsub].
  - intros y. rewrite <- Heq at 3. rewrite !elem_of_app, elem_of_cons. split.
    + intros [Hy|Hy]; split; [by left| |by right; right|]; intros ->; [|done].
      apply (Hdisj x Hy). apply elem_of_cons. by left.
    + intros [[Hy|[Hy|Hy]] Hne]; [by left | done | by right].
Qed.
End lemmas.
