(* ===== verification/Config.v ===== *)
(** * Compile-time configuration

    [client/lib/templ/Config.h.templ] (the values a build substitutes),
    [client/lib/src/ExtConfig.h] (the limits derived from them) and
    [client/lib/src/ObjListType.h] (which list type a limit selects).
    A build is an instance of [Config]; [Asserts] says whether [COMMS_ASSERT]
    is compiled in. *)

From S2P Require Import Prelude.

Class Config := {
  HasDynMemAlloc : bool;
  ClientAllocLimit : nat;
  StringFieldFixedLen : nat;
  MaxOutputPacketSize : nat;
  ReceiveMaxLimit : nat;
  SendMaxLimit : nat;
  SubscribeOpsLimit : nat;
  UnsubscribeOpsLimit : nat;
  HasErrorLog : bool;
  HasTopicFormatVerification : bool;
  HasSubTopicVerification : bool;
  SubFiltersLimit : nat;
  MaxQos : nat;
  Asserts : bool;
}.

Section ExtConfig.
  Context `{Config}.

Definition ConnectOpsLimit : nat := if HasDynMemAlloc then 0 else 1.
Definition KeepAliveOpsLimit : nat := if HasDynMemAlloc then 0 else 1.
Definition DisconnectOpsLimit : nat := if HasDynMemAlloc then 0 else 1.
Definition ConnectOpTimers : nat := 1.
Definition KeepAliveOpTimers : nat := 3.
Definition DisconnectOpTimers : nat := 0.
Definition SubscribeOpTimers : nat := 1.
Definition UnsubscribeOpTimers : nat := 1.
Definition RecvOpTimers : nat := 1.
Definition SendOpTimers : nat := 1.

Definition RecvOpsLimit : nat :=
  if MaxQos <? 2 then 1
  else if ReceiveMaxLimit =? 0 then 0 else ReceiveMaxLimit + 1.

Definition SendOpsLimit : nat :=
  if SendMaxLimit =? 0 then 0 else SendMaxLimit + 1.

Definition HasOpsLimit : bool :=
  (0 <? ConnectOpsLimit) && (0 <? KeepAliveOpsLimit) && (0 <? DisconnectOpsLimit) &&
  (0 <? SubscribeOpsLimit) && (0 <? UnsubscribeOpsLimit) &&
  (0 <? RecvOpsLimit) && (0 <? SendOpsLimit).

Definition MaxTimersLimit : nat :=
  ConnectOpsLimit * ConnectOpTimers + KeepAliveOpsLimit * KeepAliveOpTimers +
  DisconnectOpsLimit * DisconnectOpTimers + SubscribeOpsLimit * SubscribeOpTimers +
  UnsubscribeOpsLimit * UnsubscribeOpTimers + RecvOpsLimit * RecvOpTimers +
  SendOpsLimit * SendOpTimers.

Definition TimersLimit : nat := if HasOpsLimit then MaxTimersLimit else 0.

Definition MaxOpsLimit : nat :=
  ConnectOpsLimit + KeepAliveOpsLimit + DisconnectOpsLimit + SubscribeOpsLimit +
  UnsubscribeOpsLimit + RecvOpsLimit + SendOpsLimit.

Definition OpsLimit : nat := if HasOpsLimit then MaxOpsLimit else 0.

Definition PacketIdsLimit : nat :=
  if HasDynMemAlloc then 0 else SubscribeOpsLimit + UnsubscribeOpsLimit + SendOpsLimit.

(** The [static_assert]s of Config.h and ExtConfig.h. *)
Definition static_asserts : bool :=
  let dyn := HasDynMemAlloc in
  (dyn || (0 <? ClientAllocLimit)) && (dyn || (0 <? StringFieldFixedLen)) &&
  (dyn || (0 <? MaxOutputPacketSize)) &&
  (dyn || (0 <? ReceiveMaxLimit) || (MaxQos <? 2)) &&
  (dyn || (0 <? SendMaxLimit)) && (dyn || (0 <? SubscribeOpsLimit)) &&
  (dyn || (0 <? UnsubscribeOpsLimit)) &&
  (dyn || negb HasSubTopicVerification || (0 <? SubFiltersLimit)) &&
  (MaxQos <=? 2).

End ExtConfig.

(** [ObjListType<TObj, TLimit, THasFeature>]: [std::vector] (no capacity) when
    the limit is 0 and the feature is present, a static vector of [TLimit]
    elements otherwise. *)
Definition ObjListType_capacity (TLimit : nat) (THasFeature : bool) : option nat :=
  if (TLimit =? 0) && THasFeature then None else Some TLimit.

(** [max_size() <= size()] for a list of that type. *)
Definition at_max_size (cap : option nat) (size : nat) : bool :=
  match cap with
  | None => false
  | Some k => k <=? size
  end.

(** [COMMS_ASSERT(b)]: stops a build with assertions, nothing otherwise. *)
Definition comms_assert `{Config} {S} (b : bool) : M S unit :=
  when Asserts (assert! b).

Lemma comms_assert_true `{Config} {S} (s : S) : comms_assert true s = Ok tt s.
Proof. unfold comms_assert. by destruct Asserts. Qed.

Lemma wp_comms_assert `{Config} {S} F b (Q : unit → S → Prop) s :
  F FAssert → Q tt s → wp F (comms_assert b) Q s.
Proof. unfold comms_assert, wp. by destruct Asserts, b. Qed.

Lemma wp_comms_assert_true `{Config} {S} F b (Q : unit → S → Prop) s :
  b = true → Q tt s → wp F (comms_assert b) Q s.
Proof. intros -> HQ. unfold comms_assert, wp. by destruct Asserts. Qed.

Lemma keeps_comms_assert `{Config} {S : Type} `{!Contract S} b :
  ct_faults FAssert → keeps (S := S) (comms_assert b).
Proof. intros HF s Hs. apply wp_comms_assert; [done|]. split; [done | reflexivity]. Qed.

(** In a build without dynamic allocation every component has a positive limit,
    so the list of all operations and the timer storage are bounded by the sums
    of the limits of the operation types. *)
Lemma static_build_has_ops_limit `{Config} :
  HasDynMemAlloc = false → static_asserts = true → HasOpsLimit = true.
Proof.
  intros Hd Ha. unfold static_asserts in Ha.
  unfold HasOpsLimit, ConnectOpsLimit, KeepAliveOpsLimit, DisconnectOpsLimit,
    RecvOpsLimit, SendOpsLimit.
  rewrite Hd in *. simpl in Ha.
  destruct (MaxQos <? 2) eqn:?, (ReceiveMaxLimit =? 0) eqn:?, (SendMaxLimit =? 0) eqn:?; lia.
Qed.

(** ** Configurations of the repository *)

(** client/lib/script/DefineDefaultConfigVars.cmake, with assertions. *)
Definition DefaultConfig : Config := {|
  HasDynMemAlloc := true;
  ClientAllocLimit := 0;
  StringFieldFixedLen := 0;
  MaxOutputPacketSize := 0;
  ReceiveMaxLimit := 0;
  SendMaxLimit := 0;
  SubscribeOpsLimit := 0;
  UnsubscribeOpsLimit := 0;
  HasErrorLog := true;
  HasTopicFormatVerification := true;
  HasSubTopicVerification := true;
  SubFiltersLimit := 0;
  MaxQos := 2;
  Asserts := true;
|}.

(** client/lib/script/BareMetalTestConfig.cmake, with assertions. *)
Definition BareMetalConfig : Config := {|
  HasDynMemAlloc := false;
  ClientAllocLimit := 1;
  StringFieldFixedLen := 256;
  MaxOutputPacketSize := 1024;
  ReceiveMaxLimit := 4;
  SendMaxLimit := 6;
  SubscribeOpsLimit := 3;
  UnsubscribeOpsLimit := 1;
  HasErrorLog := false;
  HasTopicFormatVerification := false;
  HasSubTopicVerification := false;
  SubFiltersLimit := 0;
  MaxQos := 1;
  Asserts := true;
|}.
