(* ===== verification/Protocol.v ===== *)
(** * Public enumerations, configuration structures, messages, and the
      protocol library

    The enumerations and structures of
    [client/lib/include/cc_mqtt311_client/common.h], the fields of the MQTT
    messages the client reads and writes, and [CommsLib], the operations of the
    [comms] and [cc_mqtt311] libraries that the client calls (their sources are
    not part of the repository).

    A [const char*] is an [option string]: [None] is the null pointer and the
    string holds the characters before the terminator. *)

From Stdlib Require Export Strings.Byte.
From S2P Require Import Prelude.

Abbreviation bytes := (list byte).

(** ** common.h *)

Inductive CC_Mqtt311ErrorCode :=
  | ErrorCode_Success | ErrorCode_InternalError | ErrorCode_NotIntitialized
  | ErrorCode_Busy | ErrorCode_NotConnected | ErrorCode_AlreadyConnected
  | ErrorCode_BadParam | ErrorCode_InsufficientConfig | ErrorCode_OutOfMemory
  | ErrorCode_BufferOverflow | ErrorCode_NotSupported | ErrorCode_RetryLater
  | ErrorCode_Disconnecting | ErrorCode_NetworkDisconnected
  | ErrorCode_PreparationLocked.

Inductive CC_Mqtt311AsyncOpStatus :=
  | AsyncOpStatus_Complete | AsyncOpStatus_InternalError | AsyncOpStatus_Timeout
  | AsyncOpStatus_ProtocolError | AsyncOpStatus_Aborted
  | AsyncOpStatus_BrokerDisconnected | AsyncOpStatus_OutOfMemory
  | AsyncOpStatus_BadParam.

(** The parameter of the setter may be any value of the underlying integer
    type; [PublishOrdering_ValuesLimit] stands for every value that is not one
    of the two orderings. *)
Inductive CC_Mqtt311PublishOrdering :=
  | PublishOrdering_SameQos | PublishOrdering_Full | PublishOrdering_ValuesLimit.

Inductive CC_Mqtt311BrokerDisconnectReason :=
  | BrokerDisconnectReason_NoBrokerResponse
  | BrokerDisconnectReason_InternalError
  | BrokerDisconnectReason_ProtocolError
  | BrokerDisconnectReason_ValuesLimit.

#[export] Instance ErrorCode_eq_dec : EqDecision CC_Mqtt311ErrorCode.
Proof. solve_decision. Defined.
#[export] Instance AsyncOpStatus_eq_dec : EqDecision CC_Mqtt311AsyncOpStatus.
Proof. solve_decision. Defined.
#[export] Instance PublishOrdering_eq_dec : EqDecision CC_Mqtt311PublishOrdering.
Proof. solve_decision. Defined.
#[export] Instance DisconnectReason_eq_dec : EqDecision CC_Mqtt311BrokerDisconnectReason.
Proof. solve_decision. Defined.

(** Integer values of the enumerations that are compared with wire values. *)
Definition QoS_AtMostOnceDelivery : Z := 0.
Definition QoS_AtLeastOnceDelivery : Z := 1.
Definition QoS_ExactlyOnceDelivery : Z := 2.
Definition ConnectReturnCode_Accepted : Z := 0.
Definition ConnectReturnCode_ValuesLimit : Z := 6.
Definition SubscribeReturnCode_SuccessQos0 : Z := 0.
Definition SubscribeReturnCode_SuccessQos2 : Z := 2.
Definition SubscribeReturnCode_Failure : Z := 128.

Record CC_Mqtt311ConnectConfig := {
  cc_clientId : option string;
  cc_username : option string;
  cc_password : option bytes;
  cc_passwordLen : nat;
  cc_keepAlive : Z;
  cc_cleanSession : bool;
}.

Record CC_Mqtt311ConnectWillConfig := {
  cw_topic : option string;
  cw_data : option bytes;
  cw_dataLen : nat;
  cw_qos : Z;
  cw_retain : bool;
}.

Record CC_Mqtt311ConnectResponse := { cr_returnCode : Z; cr_sessionPresent : bool }.

Record CC_Mqtt311SubscribeTopicConfig := { st_topic : option string; st_maxQos : Z }.

Record CC_Mqtt311UnsubscribeTopicConfig := { ut_topic : option string }.

Record CC_Mqtt311MessageInfo := {
  mi_topic : string;
  mi_data : bytes;
  mi_dataLen : nat;
  mi_qos : Z;
  mi_retained : bool;
}.

Record CC_Mqtt311PublishConfig := {
  pc_topic : option string;
  pc_data : option bytes;
  pc_dataLen : nat;
  pc_qos : Z;
  pc_retain : bool;
}.

(** The bytes [[p, p + n)] of a buffer. *)
Definition buffer (p : option bytes) (n : nat) : bytes := take n (default [] p).

(** ** Messages *)

Record ConnectMsg := {
  con_clientId : string;
  con_userNameFlag : bool;
  con_userName : string;
  con_passwordFlag : bool;
  con_password : bytes;
  con_cleanSession : bool;
  con_keepAlive : Z;
  con_willFlag : bool;
  con_willQos : Z;
  con_willRetain : bool;
  con_willTopic : string;
  con_willMessage : bytes;
}.

Record ConnackMsg := { cak_sp : bool; cak_returnCode : Z }.

Record PublishMsg := {
  pub_dup : bool;
  pub_qos : Z;
  pub_retain : bool;
  pub_topic : string;
  pub_packetIdExists : bool;
  pub_packetId : Z;
  pub_payload : bytes;
}.

Inductive ProtMessage :=
  | MConnect (m : ConnectMsg)
  | MConnack (m : ConnackMsg)
  | MPublish (m : PublishMsg)
  | MPuback (packetId : Z)
  | MPubrec (packetId : Z)
  | MPubrel (packetId : Z) (flags : Z)
  | MPubcomp (packetId : Z)
  | MSubscribe (packetId : Z) (list : list (string * Z))
  | MSuback (packetId : Z) (list : list Z)
  | MUnsubscribe (packetId : Z) (list : list string)
  | MUnsuback (packetId : Z)
  | MPingreq
  | MPingresp
  | MDisconnect.

(** A default-constructed CONNECT and PUBLISH. *)
Definition ConnectMsg_new : ConnectMsg := {|
  con_clientId := ""; con_userNameFlag := false; con_userName := "";
  con_passwordFlag := false; con_password := []; con_cleanSession := false;
  con_keepAlive := 0; con_willFlag := false; con_willQos := 0;
  con_willRetain := false; con_willTopic := ""; con_willMessage := [] |}.

Definition PublishMsg_new : PublishMsg := {|
  pub_dup := false; pub_qos := 0; pub_retain := false; pub_topic := "";
  pub_packetIdExists := false; pub_packetId := 0; pub_payload := [] |}.

(** Assignments to the fields. *)
Definition con_set_clientId (v : string) (m : ConnectMsg) : ConnectMsg := {|
  con_clientId := v; con_userNameFlag := con_userNameFlag m;
  con_userName := con_userName m; con_passwordFlag := con_passwordFlag m;
  con_password := con_password m; con_cleanSession := con_cleanSession m;
  con_keepAlive := con_keepAlive m; con_willFlag := con_willFlag m;
  con_willQos := con_willQos m; con_willRetain := con_willRetain m;
  con_willTopic := con_willTopic m; con_willMessage := con_willMessage m |}.
Definition con_set_userNameFlag (v : bool) (m : ConnectMsg) : ConnectMsg := {|
  con_clientId := con_clientId m; con_userNameFlag := v;
  con_userName := con_userName m; con_passwordFlag := con_passwordFlag m;
  con_password := con_password m; con_cleanSession := con_cleanSession m;
  con_keepAlive := con_keepAlive m; con_willFlag := con_willFlag m;
  con_willQos := con_willQos m; con_willRetain := con_willRetain m;
  con_willTopic := con_willTopic m; con_willMessage := con_willMessage m |}.
Definition con_set_userName (v : string) (m : ConnectMsg) : ConnectMsg := {|
  con_clientId := con_clientId m; con_userNameFlag := con_userNameFlag m;
  con_userName := v; con_passwordFlag := con_passwordFlag m;
  con_password := con_password m; con_cleanSession := con_cleanSession m;
  con_keepAlive := con_keepAlive m; con_willFlag := con_willFlag m;
  con_willQos := con_willQos m; con_willRetain := con_willRetain m;
  con_willTopic := con_willTopic m; con_willMessage := con_willMessage m |}.
Definition con_set_passwordFlag (v : bool) (m : ConnectMsg) : ConnectMsg := {|
  con_clientId := con_clientId m; con_userNameFlag := con_userNameFlag m;
  con_userName := con_userName m; con_passwordFlag := v;
  con_password := con_password m; con_cleanSession := con_cleanSession m;
  con_keepAlive := con_keepAlive m; con_willFlag := con_willFlag m;
  con_willQos := con_willQos m; con_willRetain := con_willRetain m;
  con_willTopic := con_willTopic m; con_willMessage := con_willMessage m |}.
Definition con_set_password (v : bytes) (m : ConnectMsg) : ConnectMsg := {|
  con_clientId := con_clientId m; con_userNameFlag := con_userNameFlag m;
  con_userName := con_userName m; con_passwordFlag := con_passwordFlag m;
  con_password := v; con_cleanSession := con_cleanSession m;
  con_keepAlive := con_keepAlive m; con_willFlag := con_willFlag m;
  con_willQos := con_willQos m; con_willRetain := con_willRetain m;
  con_willTopic := con_willTopic m; con_willMessage := con_willMessage m |}.
Definition con_set_cleanSession (v : bool) (m : ConnectMsg) : ConnectMsg := {|
  con_clientId := con_clientId m; con_userNameFlag := con_userNameFlag m;
  con_userName := con_userName m; con_passwordFlag := con_passwordFlag m;
  con_password := con_password m; con_cleanSession := v;
  con_keepAlive := con_keepAlive m; con_willFlag := con_willFlag m;
  con_willQos := con_willQos m; con_willRetain := con_willRetain m;
  con_willTopic := con_willTopic m; con_willMessage := con_willMessage m |}.
Definition con_set_keepAlive (v : Z) (m : ConnectMsg) : ConnectMsg := {|
  con_clientId := con_clientId m; con_userNameFlag := con_userNameFlag m;
  con_userName := con_userName m; con_passwordFlag := con_passwordFlag m;
  con_password := con_password m; con_cleanSession := con_cleanSession m;
  con_keepAlive := v; con_willFlag := con_willFlag m; con_willQos := con_willQos m;
  con_willRetain := con_willRetain m; con_willTopic := con_willTopic m;
  con_willMessage := con_willMessage m |}.
Definition con_set_willFlag (v : bool) (m : ConnectMsg) : ConnectMsg := {|
  con_clientId := con_clientId m; con_userNameFlag := con_userNameFlag m;
  con_userName := con_userName m; con_passwordFlag := con_passwordFlag m;
  con_password := con_password m; con_cleanSession := con_cleanSession m;
  con_keepAlive := con_keepAlive m; con_willFlag := v; con_willQos := con_willQos m;
  con_willRetain := con_willRetain m; con_willTopic := con_willTopic m;
  con_willMessage := con_willMessage m |}.
Definition con_set_willQos (v : Z) (m : ConnectMsg) : ConnectMsg := {|
  con_clientId := con_clientId m; con_userNameFlag := con_userNameFlag m;
  con_userName := con_userName m; con_passwordFlag := con_passwordFlag m;
  con_password := con_password m; con_cleanSession := con_cleanSession m;
  con_keepAlive := con_keepAlive m; con_willFlag := con_willFlag m; con_willQos := v;
  con_willRetain := con_willRetain m; con_willTopic := con_willTopic m;
  con_willMessage := con_willMessage m |}.
Definition con_set_willRetain (v : bool) (m : ConnectMsg) : ConnectMsg := {|
  con_clientId := con_clientId m; con_userNameFlag := con_userNameFlag m;
  con_userName := con_userName m; con_passwordFlag := con_passwordFlag m;
  con_password := con_password m; con_cleanSession := con_cleanSession m;
  con_keepAlive := con_keepAlive m; con_willFlag := con_willFlag m;
  con_willQos := con_willQos m; con_willRetain := v; con_willTopic := con_willTopic m;
  con_willMessage := con_willMessage m |}.
Definition con_set_willTopic (v : string) (m : ConnectMsg) : ConnectMsg := {|
  con_clientId := con_clientId m; con_userNameFlag := con_userNameFlag m;
  con_userName := con_userName m; con_passwordFlag := con_passwordFlag m;
  con_password := con_password m; con_cleanSession := con_cleanSession m;
  con_keepAlive := con_keepAlive m; con_willFlag := con_willFlag m;
  con_willQos := con_willQos m; con_willRetain := con_willRetain m;
  con_willTopic := v; con_willMessage := con_willMessage m |}.
Definition con_set_willMessage (v : bytes) (m : ConnectMsg) : ConnectMsg := {|
  con_clientId := con_clientId m; con_userNameFlag := con_userNameFlag m;
  con_userName := con_userName m; con_passwordFlag := con_passwordFlag m;
  con_password := con_password m; con_cleanSession := con_cleanSession m;
  con_keepAlive := con_keepAlive m; con_willFlag := con_willFlag m;
  con_willQos := con_willQos m; con_willRetain := con_willRetain m;
  con_willTopic := con_willTopic m; con_willMessage := v |}.

Definition pub_set_dup (v : bool) (m : PublishMsg) : PublishMsg := {|
  pub_dup := v; pub_qos := pub_qos m; pub_retain := pub_retain m;
  pub_topic := pub_topic m; pub_packetIdExists := pub_packetIdExists m;
  pub_packetId := pub_packetId m; pub_payload := pub_payload m |}.
Definition pub_set_qos (v : Z) (m : PublishMsg) : PublishMsg := {|
  pub_dup := pub_dup m; pub_qos := v; pub_retain := pub_retain m;
  pub_topic := pub_topic m; pub_packetIdExists := pub_packetIdExists m;
  pub_packetId := pub_packetId m; pub_payload := pub_payload m |}.
Definition pub_set_retain (v : bool) (m : PublishMsg) : PublishMsg := {|
  pub_dup := pub_dup m; pub_qos := pub_qos m; pub_retain := v;
  pub_topic := pub_topic m; pub_packetIdExists := pub_packetIdExists m;
  pub_packetId := pub_packetId m; pub_payload := pub_payload m |}.
Definition pub_set_topic (v : string) (m : PublishMsg) : PublishMsg := {|
  pub_dup := pub_dup m; pub_qos := pub_qos m; pub_retain := pub_retain m;
  pub_topic := v; pub_packetIdExists := pub_packetIdExists m;
  pub_packetId := pub_packetId m; pub_payload := pub_payload m |}.
Definition pub_set_packetIdExists (v : bool) (m : PublishMsg) : PublishMsg := {|
  pub_dup := pub_dup m; pub_qos := pub_qos m; pub_retain := pub_retain m;
  pub_topic := pub_topic m; pub_packetIdExists := v; pub_packetId := pub_packetId m;
  pub_payload := pub_payload m |}.
Definition pub_set_packetId (v : Z) (m : PublishMsg) : PublishMsg := {|
  pub_dup := pub_dup m; pub_qos := pub_qos m; pub_retain := pub_retain m;
  pub_topic := pub_topic m; pub_packetIdExists := pub_packetIdExists m;
  pub_packetId := v; pub_payload := pub_payload m |}.
Definition pub_set_payload (v : bytes) (m : PublishMsg) : PublishMsg := {|
  pub_dup := pub_dup m; pub_qos := pub_qos m; pub_retain := pub_retain m;
  pub_topic := pub_topic m; pub_packetIdExists := pub_packetIdExists m;
  pub_packetId := pub_packetId m; pub_payload := v |}.

(** ** The protocol library *)

(** [comms::ErrorStatus], as far as the client distinguishes it. *)
Inductive ErrorStatus :=
  | ES_Success | ES_NotEnoughData | ES_Error.

(** Outcome of [ProtFrame::read]: a message and the number of bytes it took, or
    an error. *)
Inductive FrameRead :=
  | FR_Success (msg : ProtMessage) (consumed : nat)
  | FR_NotEnoughData
  | FR_Error.

Class CommsLib := {
  (** [IdAndFlagsField::minLength()] *)
  idAndFlags_minLength : nat;
  (** [SizeField::read] *)
  size_read : bytes → ErrorStatus;
  (** [ProtFrame::read] *)
  frame_read : bytes → FrameRead;
  (** [ProtFrame::length] and [ProtFrame::write]; [None] is an error status *)
  frame_length : ProtMessage → nat;
  frame_write : ProtMessage → option bytes;
  (** [ConnectMsg::doRefresh], [PublishMsg::doRefresh], [PubrelMsg::doValid] *)
  connect_doRefresh : ConnectMsg → ConnectMsg;
  publish_doRefresh : PublishMsg → PublishMsg;
  pubrel_doValid : Z → bool;
  (** The flags of a default-constructed PUBREL *)
  pubrel_flags : Z;
  (** Whether [ObjAllocator<_, limit>::alloc] yields an object while [n] are
      alive ([comms::util::alloc]). *)
  alloc_succeeds : nat → nat → bool;
  (** What a string or data field stores when it is assigned; the fields of a
      build without dynamic allocation have bounded storage. *)
  assign_string : string → string;
  assign_bytes : bytes → bytes;
  (** [max_size()] of the topic lists of SUBSCRIBE and UNSUBSCRIBE, and of the
      list of return codes of SUBACK. *)
  subscribe_list_max : option nat;
  unsubscribe_list_max : option nat;
  suback_list_max : option nat;
}.

(** What the client relies on: a frame that was read took at least one byte of
    the input and no more than there is; refreshing a PUBLISH only updates the
    presence of the packet identifier. *)
Class CommsLaws `{CommsLib} : Prop := {
  frame_read_consumes : ∀ buf msg n,
    frame_read buf = FR_Success msg n → 0 < n ≤ length buf;
  publish_refresh_keeps : ∀ m,
    pub_packetId (publish_doRefresh m) = pub_packetId m ∧
    pub_qos (publish_doRefresh m) = pub_qos m ∧
    pub_topic (publish_doRefresh m) = pub_topic m;
}.
