(* ===== verification/Topic.v ===== *)
(** * Topic names and topic filters

    [Op::verifySubFilterInternal] and [Op::verifyPubTopicInternal]
    (client/lib/src/op/Op.cpp) and [isTopicMatch]
    (client/lib/src/op/RecvOp.cpp), with the reference definitions on topic
    levels they are compared with. *)

From Stdlib Require Import Ascii.
From S2P Require Import Prelude.

(** ** Characters *)

Definition NulChar : ascii := "000"%char.
Definition TopicSep : ascii := "/"%char.
Definition MultLevelWildcard : ascii := "#"%char.
Definition SingleLevelWildcard : ascii := "+"%char.
Definition DollarChar : ascii := "$"%char.

(** [s[0]] of a zero-terminated string. *)
Definition char_at (s : string) : ascii :=
  match s with
  | EmptyString => NulChar
  | String c _ => c
  end.

(** [s.c_str()] read as a zero-terminated string: the characters before the
    first zero. *)
Fixpoint c_str (s : string) : string :=
  match s with
  | EmptyString => EmptyString
  | String c s' => if bool_decide (c = NulChar) then EmptyString else String c (c_str s')
  end.

(** ** Verification of filters and topics (Op.cpp) *)

(** The [while (filter[pos] != '\0')] loop. *)
Fixpoint subFilter_loop (rest : string) (pos lastSep : Z) : bool :=
  match rest with
  | EmptyString => true
  | String ch rest' =>
      if bool_decide (ch = TopicSep) then
        subFilter_loop rest' (pos + 1)%Z pos
      else if bool_decide (ch = MultLevelWildcard) then
        if negb (bool_decide (char_at rest' = NulChar)) then false
        else if (pos =? 0)%Z then true
        else if (lastSep <? 0)%Z || negb (pos - 1 =? lastSep)%Z then false
        else true
      else if negb (bool_decide (ch = SingleLevelWildcard)) then
        subFilter_loop rest' (pos + 1)%Z lastSep
      else
        let nextCh := char_at rest' in
        if negb (bool_decide (nextCh = NulChar)) && negb (bool_decide (nextCh = TopicSep))
        then false
        else if (pos =? 0)%Z then subFilter_loop rest' (pos + 1)%Z lastSep
        else if (lastSep <? 0)%Z || negb (pos - 1 =? lastSep)%Z then false
        else subFilter_loop rest' (pos + 1)%Z lastSep
  end.

Definition verifySubFilterInternal (verifyOutgoingTopic : bool) (filter : string) : bool :=
  if negb verifyOutgoingTopic then true
  else if bool_decide (char_at filter = NulChar) then false
  else subFilter_loop filter 0 (-1).

Fixpoint pubTopic_loop (rest : string) : bool :=
  match rest with
  | EmptyString => true
  | String ch rest' =>
      if bool_decide (ch = MultLevelWildcard) || bool_decide (ch = SingleLevelWildcard)
      then false
      else pubTopic_loop rest'
  end.

Definition verifyPubTopicInternal (verifyOutgoingTopic verifyIncomingTopic : bool)
    (topic : string) (outgoing : bool) : bool :=
  if outgoing && negb verifyOutgoingTopic then true
  else if negb outgoing && negb verifyIncomingTopic then true
  else if bool_decide (char_at topic = NulChar) then false
  else if outgoing && bool_decide (char_at topic = DollarChar) then false
  else pubTopic_loop topic.

(** ** Matching (RecvOp.cpp) *)

(** [find_first_of("/")] on a view: with a separator at [pos], the views
    [substr(0, pos)] and [substr(pos + 1)]. *)
Fixpoint sv_split (s : string) : option (string * string) :=
  match s with
  | EmptyString => None
  | String c s' =>
      if bool_decide (c = TopicSep) then Some ("", s')
      else match sv_split s' with
           | None => None
           | Some (a, b) => Some (String c a, b)
           end
  end.

(** [isTopicMatch], one unit of fuel per call.  The views are suffixes of
    zero-terminated strings, so [filter[0]] of an empty view reads the
    terminator. *)
Fixpoint isTopicMatch_fuel (n : nat) (filter topic : string) : bool :=
  match n with
  | O => false
  | S n' =>
      if (String.length filter =? 1) && bool_decide (char_at filter = MultLevelWildcard)
      then true
      else if bool_decide (topic = "") then bool_decide (filter = "")
      else
        match sv_split filter, sv_split topic with
        | None, Some _ => false
        | Some (f0, f1), Some (t0, t1) =>
            if (bool_decide (char_at filter = SingleLevelWildcard) &&
                (String.length f0 =? 1)) || bool_decide (f0 = t0)
            then isTopicMatch_fuel n' f1 t1
            else false
        | Some (f0, f1), None =>
            if bool_decide (f1 = "") then false
            else if (bool_decide (char_at filter = SingleLevelWildcard) &&
                     (String.length f0 =? 1)) || bool_decide (f0 = topic)
            then isTopicMatch_fuel n' f1 ""
            else false
        | None, None =>
            (bool_decide (char_at filter = SingleLevelWildcard) &&
             (String.length filter =? 1)) || bool_decide (filter = topic)
        end
  end.

Definition isTopicMatch (filter topic : string) : bool :=
  isTopicMatch_fuel (S (String.length filter)) filter topic.

(** ** Reference definitions on levels *)

(** The levels of a name: the parts between separators. *)
Fixpoint levels (s : string) : list string :=
  match s with
  | EmptyString => [""]
  | String c s' =>
      if bool_decide (c = TopicSep) then "" :: levels s'
      else match levels s' with
           | [] => [String c ""]
           | l :: ls => String c l :: ls
           end
  end.

Definition no_wildcard (l : string) : bool := pubTopic_loop l.

(** Well-formed levels: a wildcard stands alone in its level, and the
    multi-level wildcard only in the last one. *)
Fixpoint filter_levels_ok (ls : list string) : bool :=
  match ls with
  | [] => true
  | l :: ls' =>
      match ls' with
      | [] => no_wildcard l || bool_decide (l = "+") || bool_decide (l = "#")
      | _ => (no_wildcard l || bool_decide (l = "+")) && filter_levels_ok ls'
      end
  end.

(** MQTT matching of filter levels against topic levels. *)
Fixpoint levels_match (fs ts : list string) : bool :=
  match fs with
  | [] => match ts with [] => true | _ => false end
  | f :: fs' =>
      if bool_decide (f = "#") && bool_decide (fs' = []) then true
      else match ts with
           | [] => false
           | t :: ts' =>
               (bool_decide (f = "+") || bool_decide (f = t)) && levels_match fs' ts'
           end
  end.

Definition mqtt_match (filter topic : string) : bool :=
  levels_match (levels filter) (levels topic).

(** No zero character: what a zero-terminated string holds. *)
Fixpoint no_nul (s : string) : bool :=
  match s with
  | EmptyString => true
  | String c s' => negb (bool_decide (c = NulChar)) && no_nul s'
  end.

(** The topic ends in a separator. *)
Definition trailing_sep (topic : string) : bool := bool_decide (last (levels topic) = Some "").

(** ** Lemmas *)

Lemma levels_nonempty s : levels s ≠ [].
Proof. destruct s as [|c s]; simpl; [done|]. repeat case_match; done. Qed.

Lemma levels_cons s : ∃ l ls, levels s = l :: ls.
Proof.
  pose proof (levels_nonempty s). destruct (levels s) as [|l ls]; [done | eauto].
Qed.

Lemma sv_split_None s : sv_split s = None → levels s = [s].
Proof.
  induction s as [|c s IH]; simpl; [done|].
  case_bool_decide; [done|]. destruct (sv_split s) as [[a b]|] eqn:?; [done|].
  intros _. by rewrite IH.
Qed.

Lemma sv_split_Some s a b : sv_split s = Some (a, b) → levels s = a :: levels b.
Proof.
  revert a. induction s as [|c s IH]; intros a; simpl; [done|].
  case_bool_decide; [by intros [= <- <-]|].
  destruct (sv_split s) as [[a' b']|] eqn:E; [|done].
  intros [= <- <-]. by rewrite (IH _ eq_refl).
Qed.

Lemma sv_split_length s a b :
  sv_split s = Some (a, b) → String.length s = S (String.length a + String.length b).
Proof.
  revert a. induction s as [|c s IH]; intros a; simpl; [done|].
  case_bool_decide; [by intros [= <- <-]|].
  destruct (sv_split s) as [[a' b']|] eqn:E; [|done].
  intros [= <- <-]. rewrite (IH _ eq_refl). done.
Qed.

Lemma sv_split_eq s a b :
  sv_split s = Some (a, b) → s = (a +:+ String TopicSep b).
Proof.
  revert a. induction s as [|c s IH]; intros a; simpl; [done|].
  case_bool_decide; [by intros [= <- <-]; subst|].
  destruct (sv_split s) as [[a' b']|] eqn:E; [|done].
  intros [= <- <-]. by rewrite (IH _ eq_refl).
Qed.

Lemma sv_split_app q a :
  sv_split (q +:+ String TopicSep a) =
    match sv_split q with
    | None => Some (q, a)
    | Some (q0, q1) => Some (q0, q1 +:+ String TopicSep a)
    end.
Proof.
  induction q as [|c q IH]; simpl; [done|].
  case_bool_decide; [done|]. rewrite IH. by destruct (sv_split q) as [[? ?]|].
Qed.

Lemma sv_split_wild f a b :
  sv_split f = Some (a, b) →
  bool_decide (char_at f = SingleLevelWildcard) && (String.length a =? 1) =
  bool_decide (a = "+").
Proof.
  intros Hs. rewrite (sv_split_eq _ _ _ Hs).
  destruct a as [|c [|c' a]]; simpl; [done| |].
  - rewrite andb_true_r. apply bool_decide_ext. unfold SingleLevelWildcard. naive_solver.
  - rewrite andb_false_r. symmetry. by apply bool_decide_eq_false.
Qed.

Lemma char_single (c : ascii) s :
  c ≠ NulChar →
  bool_decide (char_at s = c) && (String.length s =? 1) = bool_decide (s = String c "").
Proof.
  intros Hc. destruct s as [|c0 [|c' s]]; simpl.
  - by rewrite andb_false_r.
  - rewrite andb_true_r. apply bool_decide_ext. naive_solver.
  - rewrite andb_false_r. symmetry. apply bool_decide_eq_false. congruence.
Qed.

Lemma is_plus s :
  bool_decide (char_at s = SingleLevelWildcard) && (String.length s =? 1) = bool_decide (s = "+").
Proof. by apply char_single. Qed.

Lemma is_hash s :
  (String.length s =? 1) && bool_decide (char_at s = MultLevelWildcard) = bool_decide (s = "#").
Proof. rewrite andb_comm. by apply char_single. Qed.

Lemma levels_eq_singleton s l : levels s = [l] → s = l.
Proof.
  destruct (sv_split s) as [[a b]|] eqn:E.
  - rewrite (sv_split_Some _ _ _ E). pose proof (levels_nonempty b). congruence.
  - rewrite (sv_split_None _ E). congruence.
Qed.

Lemma levels_inj s t : levels s = levels t → s = t.
Proof.
  remember (String.length s) as n eqn:Hn. revert s t Hn.
  induction (lt_wf n) as [n _ IH]; intros s t -> Heq.
  destruct (sv_split s) as [[a b]|] eqn:E.
  - destruct (sv_split t) as [[a' b']|] eqn:E'.
    + rewrite (sv_split_Some _ _ _ E), (sv_split_Some _ _ _ E') in Heq.
      injection Heq as <- Heq.
      rewrite (sv_split_eq _ _ _ E), (sv_split_eq _ _ _ E'). do 2 f_equal.
      eapply IH; [|reflexivity|done]. rewrite (sv_split_length _ _ _ E). lia.
    + rewrite (sv_split_None _ E') in Heq. by apply levels_eq_singleton.
  - rewrite (sv_split_None _ E) in Heq. symmetry in Heq. symmetry.
    by apply levels_eq_singleton.
Qed.

(** The fuel of [isTopicMatch] is enough: more fuel gives the same answer. *)
Lemma isTopicMatch_fuel_enough n m filter topic :
  String.length filter < n → n ≤ m →
  isTopicMatch_fuel m filter topic = isTopicMatch_fuel n filter topic.
Proof.
  revert m filter topic. induction n as [|n IH]; intros m filter topic Hn Hm; [lia|].
  destruct m as [|m]; [lia|]. simpl.
  destruct (sv_split filter) as [[f0 f1]|] eqn:Ef; [|done].
  pose proof (sv_split_length _ _ _ Ef).
  destruct (sv_split topic) as [[t0 t1]|]; rewrite !(IH m) by lia; done.
Qed.

Lemma isTopicMatch_eq filter topic :
  isTopicMatch filter topic =
    if bool_decide (filter = "#") then true
    else if bool_decide (topic = "") then bool_decide (filter = "")
    else
      match sv_split filter, sv_split topic with
      | None, Some _ => false
      | Some (f0, f1), Some (t0, t1) =>
          (bool_decide (f0 = "+") || bool_decide (f0 = t0)) && isTopicMatch f1 t1
      | Some (f0, f1), None =>
          negb (bool_decide (f1 = "")) &&
          (bool_decide (f0 = "+") || bool_decide (f0 = topic)) && isTopicMatch f1 ""
      | None, None => bool_decide (filter = "+") || bool_decide (filter = topic)
      end.
Proof.
  unfold isTopicMatch at 1. simpl.
  rewrite is_hash, is_plus.
  destruct (bool_decide (filter = "#")); [done|].
  destruct (bool_decide (topic = "")); [done|].
  destruct (sv_split filter) as [[f0 f1]|] eqn:Ef; [|done].
  pose proof (sv_split_length _ _ _ Ef).
  rewrite (sv_split_wild _ _ _ Ef). unfold isTopicMatch.
  destruct (sv_split topic) as [[t0 t1]|].
  - rewrite (isTopicMatch_fuel_enough (S (String.length f1))) by lia.
    by destruct (_ || _).
  - rewrite (isTopicMatch_fuel_enough (S (String.length f1))) by lia.
    destruct (bool_decide (f1 = "")); [done|]. by destruct (_ || _).
Qed.

(** The check that a wildcard follows a separator passes at the start of a
    level and fails inside one. *)
Lemma wildcard_at_start (pos lastSep : Z) (X : bool) :
  (pos = 0 ∨ lastSep = pos - 1)%Z → (0 ≤ pos)%Z →
  (if (pos =? 0)%Z then X
   else if (lastSep <? 0)%Z || negb (pos - 1 =? lastSep)%Z then false else X) = X.
Proof.
  intros Hs Hp. destruct (Z.eqb_spec pos 0); [done|].
  destruct ((lastSep <? 0)%Z || negb (pos - 1 =? lastSep)%Z) eqn:?; [lia | done].
Qed.

Lemma wildcard_inside (pos lastSep : Z) (X : bool) :
  (0 < pos)%Z → (lastSep < pos - 1)%Z →
  (if (pos =? 0)%Z then X
   else if (lastSep <? 0)%Z || negb (pos - 1 =? lastSep)%Z then false else X) = false.
Proof.
  intros Hs Hp. destruct (Z.eqb_spec pos 0); [lia|].
  destruct ((lastSep <? 0)%Z || negb (pos - 1 =? lastSep)%Z) eqn:?; [done | lia].
Qed.

(** What the loop accepts inside a level: no wildcard up to the next separator,
    then well-formed levels. *)
Definition rest_of_level_ok (ls : list string) : bool :=
  match ls with
  | [] => true
  | l :: ls' => no_wildcard l && filter_levels_ok ls'
  end.

Lemma filter_levels_cons l l2 ls :
  filter_levels_ok (l :: l2 :: ls) =
    (no_wildcard l || bool_decide (l = "+")) && filter_levels_ok (l2 :: ls).
Proof. done. Qed.

Lemma filter_levels_char c l ls :
  c ≠ MultLevelWildcard → c ≠ SingleLevelWildcard →
  filter_levels_ok (String c l :: ls) = rest_of_level_ok (l :: ls).
Proof.
  intros Hh Hp. unfold rest_of_level_ok, no_wildcard.
  assert (pubTopic_loop (String c l) = pubTopic_loop l) as Hc.
  { simpl. by rewrite !bool_decide_eq_false_2. }
  assert (bool_decide (String c l = "+") = false ∧ bool_decide (String c l = "#") = false)
    as [Hp' Hh'] by (split; apply bool_decide_eq_false; intros [= ??]; by subst).
  destruct ls as [|l2 ls].
  - cbn [filter_levels_ok]. unfold no_wildcard. rewrite Hc, Hp', Hh'.
    by rewrite !orb_false_r, andb_true_r.
  - rewrite filter_levels_cons. unfold no_wildcard. by rewrite Hc, Hp', orb_false_r.
Qed.

(** A multi-level wildcard at the start of a level must be all there is. *)
Lemma filter_levels_hash rest :
  no_nul rest = true →
  filter_levels_ok (levels (String MultLevelWildcard rest)) =
    bool_decide (char_at rest = NulChar).
Proof.
  destruct rest as [|c rest]; [done|]. intros Hn.
  apply andb_true_iff in Hn as [Hc _]. apply negb_true_iff in Hc. cbn [char_at].
  rewrite Hc. cbn [levels].
  rewrite (bool_decide_eq_false_2 (MultLevelWildcard = TopicSep)) by done.
  destruct (levels_cons rest) as (l & ls & ->). by destruct (bool_decide (c = TopicSep)), ls.
Qed.

(** A single-level wildcard at the start of a level ends it. *)
Lemma filter_levels_plus rest :
  no_nul rest = true →
  filter_levels_ok (levels (String SingleLevelWildcard rest)) =
    if negb (bool_decide (char_at rest = NulChar)) &&
       negb (bool_decide (char_at rest = TopicSep)) then false
    else rest_of_level_ok (levels rest).
Proof.
  destruct rest as [|c rest]; [done|]. intros Hn.
  apply andb_true_iff in Hn as [Hc _]. cbn [char_at]. rewrite Hc. cbn [levels].
  rewrite (bool_decide_eq_false_2 (SingleLevelWildcard = TopicSep)) by done.
  destruct (levels_cons rest) as (l & ls & ->).
  by destruct (bool_decide (c = TopicSep)), ls.
Qed.

Lemma levels_other c rest l ls :
  c ≠ TopicSep → levels rest = l :: ls → levels (String c rest) = String c l :: ls.
Proof. intros Hc Hl. cbn [levels]. by rewrite bool_decide_eq_false_2, Hl. Qed.

(** The loop computes well-formedness of the remaining levels, from the start
    of a level and from inside one. *)
Lemma filter_loop_levels rest :
  no_nul rest = true →
  (∀ pos lastSep, (0 ≤ pos)%Z → (pos = 0 ∨ lastSep = pos - 1)%Z → (lastSep < pos)%Z →
    subFilter_loop rest pos lastSep = filter_levels_ok (levels rest)) ∧
  (∀ pos lastSep, (0 < pos)%Z → (lastSep < pos - 1)%Z →
    subFilter_loop rest pos lastSep = rest_of_level_ok (levels rest)).
Proof.
  induction rest as [|c rest IH]; [done|].
  intros [_ Hn]%andb_true_iff. destruct (IH Hn) as [IHs IHm].
  destruct (levels_cons rest) as (l & ls & Hl).
  split; intros pos lastSep Hp Hsep; [intros Hlt|]; cbn [subFilter_loop].
  all: case_bool_decide as Hsl;
    [rewrite IHs by lia; subst c; cbn [levels];
     rewrite bool_decide_eq_true_2, Hl by done; by destruct ls|].
  all: case_bool_decide as Hh; [subst c|case_bool_decide as Hpl; [subst c|]]; cbn [negb].
  - rewrite wildcard_at_start by done. rewrite filter_levels_hash by done.
    by destruct (bool_decide _).
  - rewrite wildcard_at_start by done. rewrite filter_levels_plus by done.
    case_match; [done|]. by rewrite IHm by lia.
  - rewrite IHm by lia. rewrite (levels_other _ _ _ _ Hsl Hl), filter_levels_char by done.
    by rewrite Hl.
  - rewrite wildcard_inside by done. rewrite (levels_other _ _ _ _ Hsl Hl).
    by destruct (negb _).
  - rewrite wildcard_inside by done. rewrite (levels_other _ _ _ _ Hsl Hl).
    by destruct (_ && _).
  - rewrite IHm by lia. rewrite (levels_other _ _ _ _ Hsl Hl), Hl.
    unfold rest_of_level_ok, no_wildcard. simpl. by rewrite !bool_decide_eq_false_2.
Qed.

Lemma verifySubFilter_accepts (filter : string) :
  no_nul filter = true →
  verifySubFilterInternal true filter =
    negb (bool_decide (filter = "")) && filter_levels_ok (levels filter).
Proof.
  intros Hn. unfold verifySubFilterInternal. cbn [negb].
  destruct filter as [|c f]; [done|].
  pose proof Hn as [Hc _]%andb_true_iff. apply negb_true_iff in Hc. cbn [char_at].
  rewrite Hc. by apply filter_loop_levels; try lia.
Qed.

Lemma pubTopic_loop_levels s : pubTopic_loop s = forallb no_wildcard (levels s).
Proof.
  unfold no_wildcard. induction s as [|c s IH]; simpl; [done|].
  destruct (decide (c = TopicSep)) as [->|Hsl]; [exact IH|].
  rewrite (bool_decide_eq_false_2 (c = TopicSep)) by done.
  destruct (levels_cons s) as (l & ls & Hl). rewrite Hl in *. simpl in *.
  rewrite IH. by destruct (bool_decide _ || bool_decide _).
Qed.

Lemma last_cons_nonempty {A} (x : A) l : l ≠ [] → last (x :: l) = last l.
Proof. by destruct l. Qed.

Lemma trailing_sep_split t t0 t1 :
  sv_split t = Some (t0, t1) → trailing_sep t = trailing_sep t1.
Proof.
  intros Ht. unfold trailing_sep. rewrite (sv_split_Some _ _ _ Ht).
  by rewrite last_cons_nonempty by apply levels_nonempty.
Qed.

Lemma trailing_sep_empty : trailing_sep "" = true.
Proof. done. Qed.

Lemma levels_match_singleton f ts :
  levels_match [f] ts =
    bool_decide (f = "#") ||
    match ts with [t] => bool_decide (f = "+") || bool_decide (f = t) | _ => false end.
Proof.
  cbn [levels_match]. rewrite (bool_decide_eq_true_2 ([] = [])) by done.
  rewrite andb_true_r.
  destruct (bool_decide (f = "#")); [done|].
  destruct ts as [|t [|t' ts]]; simpl; by rewrite ?andb_true_r, ?andb_false_r.
Qed.

Lemma levels_match_cons f fs ts :
  fs ≠ [] →
  levels_match (f :: fs) ts =
    match ts with
    | [] => false
    | t :: ts' => (bool_decide (f = "+") || bool_decide (f = t)) && levels_match fs ts'
    end.
Proof.
  intros Hfs. cbn [levels_match]. rewrite (bool_decide_eq_false_2 (fs = [])) by done.
  by rewrite andb_false_r.
Qed.

Lemma levels_match_nil fs : levels_match fs [] = bool_decide (fs = []) || bool_decide (fs = ["#"]).
Proof.
  destruct fs as [|f [|f' fs]]; [done| |].
  - rewrite levels_match_singleton, orb_false_r. apply bool_decide_ext. naive_solver.
  - rewrite levels_match_cons by done. symmetry.
    apply orb_false_iff. split; by apply bool_decide_eq_false.
Qed.

(** An exhausted topic is matched by the multi-level wildcard only. *)
Lemma isTopicMatch_exhausted f :
  f ≠ "" → isTopicMatch f "" = levels_match (levels f) [].
Proof.
  intros Hf. rewrite isTopicMatch_eq, levels_match_nil.
  rewrite (bool_decide_eq_false_2 (levels f = [])) by apply levels_nonempty.
  rewrite (bool_decide_eq_true_2 ("" = "")), (bool_decide_eq_false_2 (f = "")) by done.
  destruct (decide (f = "#")) as [->|Hne]; [done|].
  rewrite (bool_decide_eq_false_2 (f = "#")), (bool_decide_eq_false_2 (levels f = ["#"])); try done.
  intros Hl. apply Hne. by apply levels_eq_singleton.
Qed.

Lemma isTopicMatch_levels filter topic :
  topic ≠ "" → trailing_sep topic = false →
  isTopicMatch filter topic = levels_match (levels filter) (levels topic).
Proof.
  remember (String.length filter) as n eqn:Hn. revert filter topic Hn.
  induction (lt_wf n) as [n _ IH]; intros f t -> Ht Htr.
  rewrite isTopicMatch_eq. rewrite (bool_decide_eq_false_2 (t = "")) by done.
  destruct (decide (f = "#")) as [->|Hne]; [done|].
  rewrite (bool_decide_eq_false_2 (f = "#")) by done.
  destruct (sv_split f) as [[f0 f1]|] eqn:Ef.
  - rewrite (sv_split_Some _ _ _ Ef), levels_match_cons by apply levels_nonempty.
    destruct (sv_split t) as [[t0 t1]|] eqn:Et.
    + rewrite (sv_split_Some _ _ _ Et). f_equal.
      rewrite (trailing_sep_split _ _ _ Et) in Htr.
      apply (IH (String.length f1)); [|done| |done].
      * pose proof (sv_split_length _ _ _ Ef). lia.
      * intros ->. by rewrite trailing_sep_empty in Htr.
    + rewrite (sv_split_None _ Et).
      destruct (decide (f1 = "")) as [->|Hf1].
      * cbn. by destruct (_ || _).
      * rewrite (bool_decide_eq_false_2 (f1 = "")) by done.
        by rewrite isTopicMatch_exhausted.
  - rewrite (sv_split_None _ Ef), levels_match_singleton.
    rewrite (bool_decide_eq_false_2 (f = "#")) by done.
    destruct (sv_split t) as [[t0 t1]|] eqn:Et.
    + rewrite (sv_split_Some _ _ _ Et). by destruct (levels_cons t1) as (? & ? & ->).
    + by rewrite (sv_split_None _ Et).
Qed.

Lemma no_wildcard_split f f0 f1 :
  sv_split f = Some (f0, f1) → pubTopic_loop f = true →
  pubTopic_loop f0 = true ∧ pubTopic_loop f1 = true.
Proof.
  intros Hs. rewrite !pubTopic_loop_levels. rewrite (sv_split_Some _ _ _ Hs). simpl.
  intros [H0 H1]%andb_true_iff. split; [|done].
  unfold no_wildcard in H0. by rewrite <- pubTopic_loop_levels.
Qed.

Lemma isTopicMatch_no_wildcard filter topic :
  pubTopic_loop filter = true → isTopicMatch filter topic = bool_decide (filter = topic).
Proof.
  remember (String.length filter) as n eqn:Hn. revert filter topic Hn.
  induction (lt_wf n) as [n _ IH]; intros f t -> Hw. rewrite isTopicMatch_eq.
  assert (f ≠ "#" ∧ f ≠ "+") as [Hh Hp] by (by split; intros ->).
  rewrite (bool_decide_eq_false_2 (f = "#")), (bool_decide_eq_false_2 (f = "+")) by done.
  destruct (decide (t = "")) as [->|Ht]; [done|].
  rewrite (bool_decide_eq_false_2 (t = "")) by done.
  destruct (sv_split f) as [[f0 f1]|] eqn:Ef.
  - pose proof (sv_split_length _ _ _ Ef). pose proof (sv_split_eq _ _ _ Ef) as ->.
    destruct (no_wildcard_split _ _ _ Ef Hw) as [Hw0 Hw1].
    rewrite (bool_decide_eq_false_2 (f0 = "+")) by (by intros ->). simpl.
    destruct (sv_split t) as [[t0 t1]|] eqn:Et.
    + rewrite (IH (String.length f1)) by (done || lia).
      pose proof (sv_split_eq _ _ _ Et) as ->. symmetry.
      destruct (decide (f0 = t0)) as [->|Hf0]; simpl.
      * rewrite (bool_decide_eq_true_2 (t0 = t0)) by done. simpl.
        apply bool_decide_ext. split; [intros Heq|by intros ->].
        rewrite Heq in Ef. rewrite Ef in Et. congruence.
      * rewrite (bool_decide_eq_false_2 (f0 = t0)) by done. apply bool_decide_eq_false.
        intros Heq. rewrite Heq in Ef. rewrite Ef in Et. congruence.
    + rewrite (IH (String.length f1)) by (done || lia). symmetry.
      rewrite (bool_decide_eq_false_2 (_ = t)) by (intros <-; congruence).
      destruct (bool_decide (f1 = "")); [done|]. by rewrite andb_false_r.
  - destruct (sv_split t) as [[t0 t1]|] eqn:Et; [|done]. symmetry.
    apply bool_decide_eq_false. intros ->. congruence.
Qed.

(** ** Properties *)

(** C37: the character loop of [verifySubFilterInternal] with its
    [lastSep] bookkeeping accepts a filter if and only if it is not empty and
    its levels are well formed: wildcards stand alone in their level and [#] is
    the last level. *)
Theorem verifySubFilter_levels (filter : string) :
  no_nul filter = true →
  verifySubFilterInternal true filter =
    negb (bool_decide (filter = "")) && filter_levels_ok (levels filter).
Proof. apply verifySubFilter_accepts. Qed.

Example verifySubFilter_levels_witness :
  no_nul "sport/+/player/#" = true ∧
  verifySubFilterInternal true "sport/+/player/#" =
    negb (bool_decide ("sport/+/player/#" = "")) &&
    filter_levels_ok (levels "sport/+/player/#").
Proof. split; [reflexivity | apply verifySubFilter_levels; reflexivity]. Defined.

(** A topic name passes [verifyPubTopicInternal] if and only if it is
    not empty, does not start with a dollar sign when it is outgoing, and none
    of its levels contains a wildcard. *)
Theorem verifyPubTopic_levels (topic : string) (outgoing : bool) :
  no_nul topic = true →
  verifyPubTopicInternal true true topic outgoing =
    negb (bool_decide (topic = "")) &&
    negb (outgoing && bool_decide (char_at topic = DollarChar)) &&
    forallb no_wildcard (levels topic).
Proof.
  intros Hn. unfold verifyPubTopicInternal. rewrite !andb_false_r. cbn [negb].
  destruct topic as [|c t]; [done|].
  pose proof Hn as [Hc _]%andb_true_iff. apply negb_true_iff in Hc.
  rewrite <- pubTopic_loop_levels. cbn [char_at]. rewrite Hc.
  by destruct (outgoing && bool_decide (c = DollarChar)).
Qed.

Example verifyPubTopic_levels_witness :
  no_nul "a/b" = true ∧
  verifyPubTopicInternal true true "a/b" true =
    negb (bool_decide ("a/b" = "")) &&
    negb (true && bool_decide (char_at "a/b" = DollarChar)) &&
    forallb no_wildcard (levels "a/b").
Proof. split; [reflexivity | apply verifyPubTopic_levels; reflexivity]. Defined.

(** C38: for a topic that does not end in a separator, [isTopicMatch]
    decides MQTT matching of filter levels against topic levels, the parent
    level matched by [/#] included. *)
Theorem isTopicMatch_mqtt (filter topic : string) :
  topic ≠ "" → trailing_sep topic = false →
  isTopicMatch filter topic = mqtt_match filter topic.
Proof. apply isTopicMatch_levels. Qed.

Example isTopicMatch_mqtt_witness :
  "sport/tennis" ≠ "" ∧ trailing_sep "sport/tennis" = false ∧
  isTopicMatch "sport/tennis/#" "sport/tennis" = mqtt_match "sport/tennis/#" "sport/tennis".
Proof.
  split; [discriminate|]. split; [reflexivity|].
  apply isTopicMatch_mqtt; [discriminate | reflexivity].
Defined.

(** A filter without wildcards matches exactly the topic that is
    equal to it. *)
Theorem isTopicMatch_exact (filter topic : string) :
  pubTopic_loop filter = true → isTopicMatch filter topic = bool_decide (filter = topic).
Proof. apply isTopicMatch_no_wildcard. Qed.

Example isTopicMatch_exact_witness :
  pubTopic_loop "a//b/" = true ∧
  isTopicMatch "a//b/" "a//b/" = bool_decide ("a//b/" = "a//b/").
Proof. split; [reflexivity | apply isTopicMatch_exact; reflexivity]. Defined.

(** A single-level wildcard does not match the empty last level of a
    topic that ends in a separator, although MQTT levels match: the remaining
    topic view is empty and the code takes it for an exhausted one. *)
Theorem isTopicMatch_plus_trailing (p : string) :
  pubTopic_loop p = true →
  isTopicMatch (p +:+ "/+") (p +:+ "/") = false ∧
  mqtt_match (p +:+ "/+") (p +:+ "/") = true.
Proof.
  change "/+" with (String TopicSep "+"). change "/" with (String TopicSep "").
  unfold mqtt_match.
  remember (String.length p) as n eqn:Hn. revert p Hn.
  induction (lt_wf n) as [n _ IH]; intros p -> Hw.
  rewrite isTopicMatch_eq.
  rewrite (bool_decide_eq_false_2 (p +:+ String TopicSep "+" = "#")) by (by destruct p as [|? []]).
  rewrite (bool_decide_eq_false_2 (p +:+ String TopicSep "" = "")) by (by destruct p).
  rewrite !sv_split_app. destruct (sv_split p) as [[p0 p1]|] eqn:E.
  - rewrite (sv_split_Some (p +:+ String TopicSep "+") p0 (p1 +:+ String TopicSep "+")) by (by rewrite sv_split_app, E).
    rewrite (sv_split_Some (p +:+ String TopicSep "") p0 (p1 +:+ String TopicSep "")) by (by rewrite sv_split_app, E).
    destruct (no_wildcard_split _ _ _ E Hw) as [_ Hw1].
    pose proof (sv_split_length _ _ _ E).
    destruct (IH (String.length p1) ltac:(lia) p1 eq_refl Hw1) as [-> Hm].
    split; [by rewrite andb_false_r|].
    rewrite levels_match_cons by apply levels_nonempty. cbv match. rewrite Hm.
    rewrite (bool_decide_eq_true_2 (p0 = p0)) by done. by rewrite orb_true_r.
  - rewrite (sv_split_Some (p +:+ String TopicSep "+") p "+") by (by rewrite sv_split_app, E).
    rewrite (sv_split_Some (p +:+ String TopicSep "") p "") by (by rewrite sv_split_app, E).
    split; [by rewrite andb_false_r|].
    rewrite levels_match_cons by apply levels_nonempty. cbv match.
    rewrite (bool_decide_eq_true_2 (p = p)) by done. by rewrite orb_true_r.
Qed.

Example isTopicMatch_plus_trailing_witness :
  pubTopic_loop "sport" = true ∧
  isTopicMatch ("sport" +:+ "/+") ("sport" +:+ "/") = false ∧
  mqtt_match ("sport" +:+ "/+") ("sport" +:+ "/") = true.
Proof. split; [reflexivity | apply isTopicMatch_plus_trailing; reflexivity]. Defined.
