(* ===== verification/Generator.v ===== *)
(** * The generator of the fuzzing driver

    [class Generator] (client/afl_fuzz/Generator.cpp, client/afl_fuzz/Generator.h):
    the broker that the fuzzing driver plays for the client.  It answers the
    messages of the client and publishes to the topics that the client subscribes
    to, with names that [pubTopicFromFilter] derives from the filters.

    The frame of the protocol library that the generator uses is the class
    [GeneratorLib]; the log and the opening of the output file are left out, what is
    written to the file is [gen_stream]. *)

From Stdlib Require Import Ascii.
From S2P Require Import Prelude Config Protocol Topic.

(** ** Topic names from filters *)

(** The test of [find_first_of("#+")]. *)
Definition is_wildcard (c : ascii) : bool :=
  bool_decide (c = MultLevelWildcard) || bool_decide (c = SingleLevelWildcard).

(** [filter.find_first_of("#+", pos)] on the suffix that starts at [pos]: what
    precedes the wildcard, the wildcard, and what follows it; [None] is [npos]. *)
Fixpoint find_wildcard (s : string) : option (string * ascii * string) :=
  match s with
  | EmptyString => None
  | String c s' =>
      if is_wildcard c then Some ("", c, s')
      else match find_wildcard s' with
           | None => None
           | Some (a, w, b) => Some (String c a, w, b)
           end
  end.

(** The loop, with the suffix of the filter that starts at [pos]; one unit of fuel
    per iteration. *)
Fixpoint pubTopic_fill (fuel : nat) (rest result : string) : string :=
  match fuel with
  | O => result
  | S fuel' =>
      if bool_decide (rest = "") then result
      else
        match find_wildcard rest with
        | None => result +:+ rest
        | Some (before, w, after) =>
            let result1 := result +:+ before in
            if bool_decide (w = MultLevelWildcard) then result1 +:+ "hash"
            else pubTopic_fill fuel' after (result1 +:+ "plus")
        end
  end.

Definition pubTopicFromFilter (filter : string) : string :=
  pubTopic_fill (S (String.length filter)) filter "".

(** ** State *)

(** The members that change, with the buffers given to the data callback. *)
Record Generator := MkGenerator {
  gen_minPubCount : Z;
  gen_stream : bytes;
  gen_hasDataReportCb : bool;
  gen_lastPacketId : Z;
  gen_nextPubQos : Z;
  gen_lastPubTopic : string;
  gen_pubCount : Z;
  gen_connected : bool;
  gen_reported : list bytes;
}.

Definition Generator_new (minPubCount : Z) : Generator :=
  MkGenerator minPubCount [] false 0 0 "" 0 false [].

(** Assignments to the members. *)
Definition gen_set_hasDataReportCb (v : bool) (g : Generator) : Generator :=
  MkGenerator (gen_minPubCount g) (gen_stream g) v (gen_lastPacketId g) (gen_nextPubQos g)
    (gen_lastPubTopic g) (gen_pubCount g) (gen_connected g) (gen_reported g).
Definition gen_set_lastPacketId (v : Z) (g : Generator) : Generator :=
  MkGenerator (gen_minPubCount g) (gen_stream g) (gen_hasDataReportCb g) v (gen_nextPubQos g)
    (gen_lastPubTopic g) (gen_pubCount g) (gen_connected g) (gen_reported g).
Definition gen_set_nextPubQos (v : Z) (g : Generator) : Generator :=
  MkGenerator (gen_minPubCount g) (gen_stream g) (gen_hasDataReportCb g) (gen_lastPacketId g) v
    (gen_lastPubTopic g) (gen_pubCount g) (gen_connected g) (gen_reported g).
Definition gen_set_lastPubTopic (v : string) (g : Generator) : Generator :=
  MkGenerator (gen_minPubCount g) (gen_stream g) (gen_hasDataReportCb g) (gen_lastPacketId g)
    (gen_nextPubQos g) v (gen_pubCount g) (gen_connected g) (gen_reported g).
Definition gen_set_pubCount (v : Z) (g : Generator) : Generator :=
  MkGenerator (gen_minPubCount g) (gen_stream g) (gen_hasDataReportCb g) (gen_lastPacketId g)
    (gen_nextPubQos g) (gen_lastPubTopic g) v (gen_connected g) (gen_reported g).
Definition gen_set_connected (v : bool) (g : Generator) : Generator :=
  MkGenerator (gen_minPubCount g) (gen_stream g) (gen_hasDataReportCb g) (gen_lastPacketId g)
    (gen_nextPubQos g) (gen_lastPubTopic g) (gen_pubCount g) v (gen_reported g).

(** The output of a buffer: to the file, and to the callback. *)
Definition gen_output (buf : bytes) (g : Generator) : Generator :=
  MkGenerator (gen_minPubCount g) (gen_stream g ++ buf) (gen_hasDataReportCb g)
    (gen_lastPacketId g) (gen_nextPubQos g) (gen_lastPubTopic g) (gen_pubCount g)
    (gen_connected g) (gen_reported g ++ [buf]).

(** The protocol library, as the generator uses it: a default-constructed CONNACK,
    the flags of a default-constructed PUBREL, [refresh], [Mqtt311Frame::write] with
    the buffer it fills, and [comms::processAllWithDispatch], the messages it
    dispatches and the number of bytes it consumes. *)
Class GeneratorLib := {
  gl_connack : ConnackMsg;
  gl_pubrel_flags : Z;
  gl_refresh : ProtMessage → ProtMessage;
  gl_write : ProtMessage → ErrorStatus * bytes;
  gl_processAll : bytes → list ProtMessage * nat;
}.

Section Generator.
  Context `{Config} `{GeneratorLib}.

(** ** Operations *)

Definition Generator_allocPacketId : M Generator Z :=
  modify (λ g, gen_set_lastPacketId (u32 (gen_lastPacketId g + 1)) g) ;;
  gets gen_lastPacketId.

Definition Generator_sendMessage (msg : ProtMessage) : M Generator unit :=
  let '(es, outBuf) := gl_write (gl_refresh msg) in
  comms_assert (match es with ES_Success => true | _ => false end) ;;
  cb ← gets gen_hasDataReportCb;
  comms_assert cb ;;
  if cb : bool then modify (gen_output outBuf) else throw FNull.

Definition Generator_sendPublish (topic : string) (qos : Z) : M Generator unit :=
  id ← (if (0 <? qos)%Z then Generator_allocPacketId else mret (pub_packetId PublishMsg_new));
  Generator_sendMessage (MPublish
    (pub_set_payload (String.list_byte_of_string topic)
      (pub_set_packetId (u16 id)
        (pub_set_topic topic
          (pub_set_qos qos PublishMsg_new))))) ;;
  modify (λ g, gen_set_pubCount (u32 (gen_pubCount g + 1)) g).

Definition Generator_doPublish : M Generator unit :=
  topic ← gets gen_lastPubTopic;
  comms_assert (negb (bool_decide (topic = ""))) ;;
  qos ← gets gen_nextPubQos;
  Generator_sendPublish topic qos ;;
  modify (λ g, gen_set_nextPubQos (u32 (gen_nextPubQos g + 1)) g) ;;
  next ← gets gen_nextPubQos;
  when (2 <? next)%Z (modify (gen_set_nextPubQos 0)).

Definition Generator_doNextPublishIfNeeded : M Generator unit :=
  g ← gets (λ g, g);
  when (gen_pubCount g <? gen_minPubCount g)%Z Generator_doPublish.

Definition Generator_handle_Connect : M Generator unit :=
  Generator_sendMessage (MConnack gl_connack) ;;
  modify (gen_set_connected true).

Definition Generator_handle_Publish (msg : PublishMsg) : M Generator unit :=
  let qos := pub_qos msg in
  if (qos =? QoS_AtMostOnceDelivery)%Z then Generator_doNextPublishIfNeeded
  else if (qos =? QoS_AtLeastOnceDelivery)%Z then
    Generator_sendMessage (MPuback (pub_packetId msg)) ;;
    Generator_doNextPublishIfNeeded
  else
    comms_assert (qos =? QoS_ExactlyOnceDelivery)%Z ;;
    Generator_sendMessage (MPubrec (pub_packetId msg)).

Definition Generator_handle_Pubrec (id : Z) : M Generator unit :=
  Generator_sendMessage (MPubrel id gl_pubrel_flags).

Definition Generator_handle_Pubrel (id : Z) : M Generator unit :=
  Generator_sendMessage (MPubcomp id) ;;
  Generator_doNextPublishIfNeeded.

Definition Generator_handle_Subscribe (id : Z) (subsVec : list (string * Z))
    : M Generator unit :=
  Generator_sendMessage
    (MSuback id (replicate (length subsVec) SubscribeReturnCode_SuccessQos2)) ;;
  mapM_ (λ subElem,
    modify (gen_set_lastPubTopic (pubTopicFromFilter subElem.1)) ;;
    Generator_doPublish) subsVec.

Definition Generator_handle_Unsubscribe (id : Z) : M Generator unit :=
  Generator_sendMessage (MUnsuback id).

(** The overload that the library selects for a message; the others are ignored. *)
Definition Generator_handle (msg : ProtMessage) : M Generator unit :=
  match msg with
  | MConnect _ => Generator_handle_Connect
  | MPublish m => Generator_handle_Publish m
  | MPubrec id => Generator_handle_Pubrec id
  | MPubrel id _ => Generator_handle_Pubrel id
  | MSubscribe id subsVec => Generator_handle_Subscribe id subsVec
  | MUnsubscribe id _ => Generator_handle_Unsubscribe id
  | _ => mret tt
  end.

Definition Generator_processData (buf : bytes) : M Generator unit :=
  let '(msgs, consumed) := gl_processAll buf in
  mapM_ Generator_handle msgs ;;
  comms_assert (consumed =? length buf).

End Generator.

(** ** Specification of the topic names *)

(** The name for a level of a filter. *)
Definition level_topic (l : string) : string :=
  if bool_decide (l = "+") then "plus"
  else if bool_decide (l = "#") then "hash" else l.

(** The characters of [pubTopicFromFilter], one by one. *)
Fixpoint fill (s : string) : string :=
  match s with
  | EmptyString => ""
  | String c s' =>
      if bool_decide (c = MultLevelWildcard) then "hash"
      else if bool_decide (c = SingleLevelWildcard) then "plus" +:+ fill s'
      else String c (fill s')
  end.

Lemma string_app_assoc (a b c : string) : (a +:+ b) +:+ c = a +:+ (b +:+ c).
Proof. induction a as [|x a IH]; [done|]. exact (f_equal (String x) IH). Qed.

Lemma string_app_nil (a : string) : a +:+ "" = a.
Proof. induction a as [|x a IH]; [done|]. exact (f_equal (String x) IH). Qed.

Lemma find_wildcard_fill s :
  fill s =
    match find_wildcard s with
    | None => s
    | Some (before, w, after) =>
        before +:+ (if bool_decide (w = MultLevelWildcard) then "hash" else "plus" +:+ fill after)
    end.
Proof.
  induction s as [|c s IH]; [done|]. cbn [fill find_wildcard]. unfold is_wildcard.
  case_bool_decide as Hh; [by subst c|].
  case_bool_decide as Hp; [by subst c|]. cbn [orb]. rewrite IH.
  by destruct (find_wildcard s) as [[[a w] b]|].
Qed.

Lemma find_wildcard_length s before w after :
  find_wildcard s = Some (before, w, after) → String.length after < String.length s.
Proof.
  revert before. induction s as [|c s IH]; intros before; simpl; [done|].
  destruct (is_wildcard c); [intros [= _ _ ->]; lia|].
  destruct (find_wildcard s) as [[[a w'] b]|]; [|done]. intros [= _ -> ->].
  specialize (IH _ eq_refl). lia.
Qed.

Lemma pubTopic_fill_eq fuel rest result :
  String.length rest < fuel → pubTopic_fill fuel rest result = result +:+ fill rest.
Proof.
  revert rest result. induction fuel as [|fuel IH]; intros rest result Hf; [lia|].
  cbn [pubTopic_fill]. case_bool_decide as He; [subst rest; by rewrite string_app_nil|].
  rewrite (find_wildcard_fill rest).
  destruct (find_wildcard rest) as [[[before w] after]|] eqn:E; [|done].
  case_bool_decide; [by rewrite string_app_assoc|].
  apply find_wildcard_length in E. rewrite IH by lia. by rewrite !string_app_assoc.
Qed.

Lemma pubTopicFromFilter_fill filter : pubTopicFromFilter filter = fill filter.
Proof. unfold pubTopicFromFilter. by rewrite pubTopic_fill_eq by lia. Qed.

(** Levels without wildcards are copied, the others stand alone. *)
Lemma fill_no_wildcard s : pubTopic_loop s = true → fill s = s.
Proof.
  induction s as [|c s IH]; [done|]. cbn [pubTopic_loop fill].
  case_bool_decide; [done|]. case_bool_decide; [done|]. cbn [orb]. intros Hs. by rewrite IH.
Qed.

Lemma fill_level l : no_wildcard l || bool_decide (l = "+") = true →
  ∀ rest, fill (l +:+ String TopicSep rest) = level_topic l +:+ String TopicSep (fill rest).
Proof.
  intros [Hw|Hp%bool_decide_eq_true]%orb_true_iff rest; [|by subst l].
  assert (level_topic l = l) as ->.
  { unfold level_topic. rewrite (bool_decide_eq_false_2 (l = "+")) by (by intros ->).
    by rewrite (bool_decide_eq_false_2 (l = "#")) by (by intros ->). }
  unfold no_wildcard in Hw. induction l as [|c l IH]; [done|]. cbn [pubTopic_loop] in Hw.
  change (String c l +:+ ?s) with (String c (l +:+ s)). cbn [fill]. revert Hw.
  case_bool_decide; [done|]. case_bool_decide; [done|]. intros Hw. exact (f_equal (String c) (IH Hw)).
Qed.

Lemma fill_last l :
  no_wildcard l || bool_decide (l = "+") || bool_decide (l = "#") = true →
  fill l = level_topic l.
Proof.
  intros [[Hw|Hp%bool_decide_eq_true]%orb_true_iff|Hh%bool_decide_eq_true]%orb_true_iff;
    [|by subst l..].
  rewrite fill_no_wildcard by done. unfold level_topic.
  rewrite (bool_decide_eq_false_2 (l = "+")) by (by intros ->).
  by rewrite (bool_decide_eq_false_2 (l = "#")) by (by intros ->).
Qed.

Lemma level_topic_other l : l ≠ "+" → l ≠ "#" → level_topic l = l.
Proof. intros Hp Hh. unfold level_topic. by rewrite !bool_decide_eq_false_2. Qed.

Lemma sv_split_first s a b : sv_split s = Some (a, b) → sv_split a = None.
Proof.
  revert a. induction s as [|c s IH]; intros a; simpl; [done|].
  case_bool_decide as Hc; [by intros [= <- _]|].
  destruct (sv_split s) as [[a' b']|]; [|done]. intros [= <- <-]. simpl.
  by rewrite bool_decide_eq_false_2, (IH _ eq_refl).
Qed.

Lemma level_topic_split l : sv_split l = None → sv_split (level_topic l) = None.
Proof. unfold level_topic. repeat case_bool_decide; done. Qed.

(** The name is built level by level. *)
Lemma fill_split f f0 f1 :
  sv_split f = Some (f0, f1) → no_wildcard f0 || bool_decide (f0 = "+") = true →
  sv_split (fill f) = Some (level_topic f0, fill f1).
Proof.
  intros Hs Hok. rewrite (sv_split_eq _ _ _ Hs), fill_level by done.
  by rewrite sv_split_app, level_topic_split by (by eapply sv_split_first).
Qed.

(** Induction on the levels of a well-formed filter. *)
Lemma filter_ind (P : string → Prop) :
  (∀ f, sv_split f = None →
    no_wildcard f || bool_decide (f = "+") || bool_decide (f = "#") = true → P f) →
  (∀ f f0 f1, sv_split f = Some (f0, f1) →
    no_wildcard f0 || bool_decide (f0 = "+") = true → P f1 → P f) →
  ∀ f, filter_levels_ok (levels f) = true → P f.
Proof.
  intros Hlast Hcons f. remember (String.length f) as n eqn:Hn. revert f Hn.
  induction (lt_wf n) as [n _ IH]; intros f -> Hok.
  destruct (sv_split f) as [[f0 f1]|] eqn:E.
  - rewrite (sv_split_Some _ _ _ E) in Hok. destruct (levels_cons f1) as (l & ls & Hl).
    rewrite Hl, filter_levels_cons, <- Hl in Hok. apply andb_true_iff in Hok as [H0 H1].
    apply (Hcons f f0 f1); [done..|]. pose proof (sv_split_length _ _ _ E).
    by apply (IH (String.length f1)); [lia|..].
  - rewrite (sv_split_None _ E) in Hok. by apply Hlast.
Qed.

Lemma levels_fill f :
  filter_levels_ok (levels f) = true → levels (fill f) = level_topic <$> levels f.
Proof.
  revert f. apply (filter_ind (λ f, levels (fill f) = level_topic <$> levels f)).
  - intros f Hs Hok. rewrite fill_last, (sv_split_None f) by done.
    by apply sv_split_None, level_topic_split.
  - intros f f0 f1 Hs Hok IH.
    rewrite (sv_split_Some _ _ _ Hs), (sv_split_Some _ _ _ (fill_split _ _ _ Hs Hok)).
    by rewrite IH.
Qed.

Lemma fill_nonempty f : f ≠ "" → fill f ≠ "".
Proof. destruct f as [|c f]; [done|]. intros _. simpl. by repeat case_bool_decide. Qed.

Lemma level_topic_match l :
  no_wildcard l || bool_decide (l = "+") = true →
  bool_decide (l = "+") || bool_decide (l = level_topic l) = true.
Proof.
  intros [Hw|Hp]%orb_true_iff; [|by rewrite Hp].
  rewrite level_topic_other by (intros ->; done). rewrite (bool_decide_eq_true_2 (l = l)) by done.
  apply orb_true_r.
Qed.

(** A name built from a filter matches it, a trailing separator included. *)
Lemma isTopicMatch_fill f :
  filter_levels_ok (levels f) = true → isTopicMatch f (fill f) = true.
Proof.
  revert f. apply (filter_ind (λ f, isTopicMatch f (fill f) = true)).
  - intros f Hs Hok. rewrite isTopicMatch_eq. destruct (decide (f = "#")) as [->|Hh]; [done|].
    rewrite (bool_decide_eq_false_2 (f = "#")) in * by done. rewrite orb_false_r in Hok.
    destruct (decide (f = "")) as [->|Hf]; [done|].
    rewrite (bool_decide_eq_false_2 (fill f = "")) by by apply fill_nonempty.
    rewrite fill_last by (by rewrite Hok). rewrite Hs, (level_topic_split _ Hs).
    by apply level_topic_match.
  - intros f f0 f1 Hs Hok IH. rewrite isTopicMatch_eq. destruct (bool_decide (f = "#")); [done|].
    assert (f ≠ "") as Hf by (intros ->; discriminate Hs).
    rewrite (bool_decide_eq_false_2 (fill f = "")) by by apply fill_nonempty.
    rewrite Hs, (fill_split _ _ _ Hs Hok), IH, andb_true_r. by apply level_topic_match.
Qed.

(** The name has no wildcard. *)
Lemma level_topic_no_wildcard l :
  no_wildcard l || bool_decide (l = "+") || bool_decide (l = "#") = true →
  no_wildcard (level_topic l) = true.
Proof.
  unfold level_topic. case_bool_decide; [done|]. case_bool_decide; [done|]. by rewrite !orb_false_r.
Qed.

Lemma fill_topic_ok f :
  filter_levels_ok (levels f) = true → pubTopic_loop (fill f) = true.
Proof.
  intros Hok. rewrite pubTopic_loop_levels, levels_fill by done. revert f Hok.
  apply (filter_ind (λ f, forallb no_wildcard (level_topic <$> levels f) = true)).
  - intros f Hs Hok. rewrite (sv_split_None f) by done. simpl.
    by rewrite level_topic_no_wildcard.
  - intros f f0 f1 Hs Hok IH. rewrite (sv_split_Some _ _ _ Hs). cbn.
    apply andb_true_iff. split; [|exact IH]. apply level_topic_no_wildcard. by rewrite Hok.
Qed.

(** ** Properties of the topic names *)

(** C39: for a filter that the client accepts, the topic name of the
    generator has the levels of the filter with the wildcards replaced by words; it
    passes the verification of incoming topics and matches the filter in
    [isTopicMatch], so that a client that verifies both does not drop the message. *)
Theorem pubTopicFromFilter_accepted (filter : string) (v1 v2 : bool) :
  no_nul filter = true → verifySubFilterInternal true filter = true →
  levels (pubTopicFromFilter filter) = level_topic <$> levels filter ∧
  verifyPubTopicInternal v1 v2 (pubTopicFromFilter filter) false = true ∧
  isTopicMatch filter (pubTopicFromFilter filter) = true.
Proof.
  intros Hn. rewrite verifySubFilter_accepts by done. intros [Hne Hok]%andb_true_iff.
  apply negb_true_iff, bool_decide_eq_false in Hne. rewrite pubTopicFromFilter_fill.
  split; [by apply levels_fill|]. split; [|by apply isTopicMatch_fill].
  unfold verifyPubTopicInternal. simpl. destruct v2; [|done]. simpl.
  rewrite fill_topic_ok by done. destruct filter as [|c f]; [done|].
  apply andb_true_iff in Hn as [Hc _]. apply negb_true_iff, bool_decide_eq_false in Hc.
  rewrite bool_decide_eq_false_2; [done|]. cbn [fill]. by repeat case_bool_decide.
Qed.

Example pubTopicFromFilter_accepted_witness :
  no_nul "a/+//#" = true ∧ verifySubFilterInternal true "a/+//#" = true ∧
  pubTopicFromFilter "a/+//#" = "a/plus//hash" ∧
  levels (pubTopicFromFilter "a/+//#") = level_topic <$> levels "a/+//#" ∧
  verifyPubTopicInternal true true (pubTopicFromFilter "a/+//#") false = true ∧
  isTopicMatch "a/+//#" (pubTopicFromFilter "a/+//#") = true.
Proof.
  do 3 (split; [reflexivity|]). apply pubTopicFromFilter_accepted; reflexivity.
Defined.

(** ** The broker that the generator implements *)

(** How many publishes it has made, and the topic of the last one. *)
Record Broker := MkBroker { br_count : nat; br_topic : string }.

(** Publish number [k], from 0: the QoS cycles through 0, 1 and 2, and the packet
    identifiers are those of the publishes before it that are not of QoS 0, counted
    from 1 and cut to the 16 bits of the field. *)
Definition identifiers (k : nat) : nat := k - (k + 2) / 3.

Definition publish_number (k : nat) (topic : string) : ProtMessage :=
  let qos := Z.of_nat (k mod 3) in
  MPublish {|
    pub_dup := false; pub_qos := qos; pub_retain := false; pub_topic := topic;
    pub_packetIdExists := false;
    pub_packetId := if (0 <? qos)%Z then u16 (Z.of_nat (identifiers (S k))) else 0%Z;
    pub_payload := String.list_byte_of_string topic |}.

Section broker.
  Context `{GeneratorLib} (minPubCount : Z).

Definition broker_publish (topic : string) (b : Broker) : Broker * list ProtMessage :=
  (MkBroker (S (br_count b)) topic, [publish_number (br_count b) topic]).

Definition broker_wants (b : Broker) : bool := (Z.of_nat (br_count b) <? minPubCount)%Z.

Definition broker_next (b : Broker) : Broker * list ProtMessage :=
  if broker_wants b then broker_publish (br_topic b) b else (b, []).

Fixpoint broker_publishes (filters : list string) (b : Broker) : Broker * list ProtMessage :=
  match filters with
  | [] => (b, [])
  | f :: fs =>
      let '(b1, out) := broker_publish (pubTopicFromFilter f) b in
      let '(b2, out') := broker_publishes fs b1 in (b2, out ++ out')
  end.

(** The answers to a message of the client. *)
Definition broker_answer (msg : ProtMessage) (b : Broker) : Broker * list ProtMessage :=
  let also first p := (p.1, first :: p.2) : Broker * list ProtMessage in
  match msg with
  | MConnect _ => (b, [MConnack gl_connack])
  | MPublish m =>
      if (pub_qos m =? 0)%Z then broker_next b
      else if (pub_qos m =? 1)%Z then also (MPuback (pub_packetId m)) (broker_next b)
      else (b, [MPubrec (pub_packetId m)])
  | MPubrec id => (b, [MPubrel id gl_pubrel_flags])
  | MPubrel id _ => also (MPubcomp id) (broker_next b)
  | MSubscribe id subs =>
      also (MSuback id (replicate (length subs) 2%Z)) (broker_publishes subs.*1 b)
  | MUnsubscribe id _ => (b, [MUnsuback id])
  | _ => (b, [])
  end.

Fixpoint broker_run (msgs : list ProtMessage) (b : Broker) : Broker * list ProtMessage :=
  match msgs with
  | [] => (b, [])
  | msg :: msgs' =>
      let '(b1, out) := broker_answer msg b in
      let '(b2, out') := broker_run msgs' b1 in (b2, out ++ out')
  end.

(** What a client must respect: the QoS of a publish is one of three, no filter is
    empty, and a publish ends before the first subscription only if no publish of
    the broker is due. *)
Definition legal (msg : ProtMessage) (b : Broker) : Prop :=
  let topic_known := br_topic b ≠ "" ∨ broker_wants b = false in
  match msg with
  | MPublish m => (0 ≤ pub_qos m < 2 ∧ topic_known ∨ pub_qos m = 2)%Z
  | MPubrel _ _ => topic_known
  | MSubscribe _ subs => Forall (λ x, x.1 ≠ "") subs
  | _ => True
  end.

Fixpoint legal_run (msgs : list ProtMessage) (b : Broker) : Prop :=
  match msgs with
  | [] => True
  | msg :: msgs' => legal msg b ∧ legal_run msgs' (broker_answer msg b).1
  end.

(** The bytes of a message. *)
Definition encode (msg : ProtMessage) : bytes := (gl_write (gl_refresh msg)).2.

(** The generator that stands for a broker. *)
Definition represents (g : Generator) (b : Broker) : Prop :=
  gen_minPubCount g = minPubCount ∧ gen_hasDataReportCb g = true ∧
  gen_lastPubTopic g = br_topic b ∧ gen_pubCount g = Z.of_nat (br_count b) ∧
  gen_nextPubQos g = Z.of_nat (br_count b mod 3) ∧
  gen_lastPacketId g = Z.of_nat (identifiers (br_count b)).
End broker.

(** Writing a message to a growing buffer succeeds. *)
Class GeneratorLaws `{GeneratorLib} : Prop :=
  gl_write_succeeds : ∀ msg, (gl_write msg).1 = ES_Success.

Lemma identifiers_le k : identifiers k ≤ k.
Proof. unfold identifiers. lia. Qed.

Lemma identifiers_S k :
  identifiers (S k) = if decide (k mod 3 = 0) then identifiers k else S (identifiers k).
Proof.
  unfold identifiers. pose proof (Nat.div_mod_eq k 3) as Hk.
  pose proof (Nat.mod_upper_bound k 3 ltac:(lia)).
  pose proof (Nat.div_mod_eq (k + 2) 3). pose proof (Nat.mod_upper_bound (k + 2) 3 ltac:(lia)).
  pose proof (Nat.div_mod_eq (S k + 2) 3). pose proof (Nat.mod_upper_bound (S k + 2) 3 ltac:(lia)).
  destruct (decide (k mod 3 = 0)); lia.
Qed.

Lemma mod3_S k : S k mod 3 = if decide (k mod 3 = 2) then 0 else S (k mod 3).
Proof.
  pose proof (Nat.div_mod_eq k 3). pose proof (Nat.mod_upper_bound k 3 ltac:(lia)).
  pose proof (Nat.div_mod_eq (S k) 3). pose proof (Nat.mod_upper_bound (S k) 3 ltac:(lia)).
  destruct (decide (k mod 3 = 2)); lia.
Qed.

Section refinement.
  Context `{Config} `{GeneratorLib} `{!GeneratorLaws} (minPubCount : Z).

(** The generator has become one that stands for [b] and has put out the messages. *)
Definition answers (g : Generator) (r : Broker * list ProtMessage) (g' : Generator) : Prop :=
  represents minPubCount g' r.1 ∧
  gen_reported g' = gen_reported g ++ (encode <$> r.2) ∧
  gen_stream g' = gen_stream g ++ concat (encode <$> r.2).

Lemma answers_none g b : represents minPubCount g b → answers g (b, []) g.
Proof. intros Hg. unfold answers. simpl. by rewrite !app_nil_r. Qed.

Lemma answers_app g r g1 r2 g2 :
  answers g r g1 → answers g1 r2 g2 → answers g (r2.1, r.2 ++ r2.2) g2.
Proof.
  intros (_ & Hr & Hs) (Hg2 & Hr2 & Hs2). split; [done|]. simpl in *.
  by rewrite Hr2, Hs2, Hr, Hs, fmap_app, concat_app, !app_assoc.
Qed.

Lemma wp_gen_sendMessage msg (Q : unit → Generator → Prop) g :
  gen_hasDataReportCb g = true → Q tt (gen_output (encode msg) g) →
  wp no_fault (Generator_sendMessage msg) Q g.
Proof.
  intros Hcb HQ. unfold Generator_sendMessage. unfold encode in HQ.
  pose proof (gl_write_succeeds (gl_refresh msg)) as Hw.
  destruct (gl_write (gl_refresh msg)) as [es buf]. simpl in *. subst es.
  apply wp_bind, wp_comms_assert_true; [done|]. apply wp_bind, wp_gets.
  rewrite Hcb. apply wp_bind, wp_comms_assert_true; [done|]. by apply wp_modify.
Qed.

(** A message that is not a publish. *)
Lemma wp_gen_answer msg b (Q : unit → Generator → Prop) g :
  represents minPubCount g b → (∀ g', answers g (b, [msg]) g' → Q tt g') →
  wp no_fault (Generator_sendMessage msg) Q g.
Proof.
  intros Hg HQ. pose proof Hg as (? & Hcb & ?). apply wp_gen_sendMessage; [done|].
  apply HQ. split; [done|]. simpl. by rewrite app_nil_r.
Qed.

Lemma wp_gen_sendPublish b g :
  represents minPubCount g b → (Z.of_nat (S (br_count b)) < 2 ^ 32)%Z →
  wp no_fault (Generator_sendPublish (gen_lastPubTopic g) (gen_nextPubQos g))
    (λ _ g', gen_reported g' = gen_reported g ++ [encode (publish_number (br_count b) (br_topic b))] ∧
      gen_stream g' = gen_stream g ++ encode (publish_number (br_count b) (br_topic b)) ∧
      gen_minPubCount g' = minPubCount ∧ gen_hasDataReportCb g' = true ∧
      gen_lastPubTopic g' = br_topic b ∧ gen_pubCount g' = Z.of_nat (S (br_count b)) ∧
      gen_nextPubQos g' = Z.of_nat (br_count b mod 3) ∧
      gen_lastPacketId g' = Z.of_nat (identifiers (S (br_count b)))) g.
Proof.
  intros (Hmin & Hcb & Htop & Hcnt & Hqos & Hid) Hb. unfold Generator_sendPublish, publish_number.
  rewrite Htop, Hqos. pose proof (identifiers_S (br_count b)) as HS.
  pose proof (identifiers_le (S (br_count b))).
  apply wp_bind. destruct (Z.ltb_spec 0 (Z.of_nat (br_count b mod 3))) as [Hq|Hq].
  - unfold Generator_allocPacketId. apply wp_bind, wp_modify, wp_gets.
    rewrite decide_False in HS by lia.
    assert (u32 (gen_lastPacketId g + 1) = Z.of_nat (identifiers (S (br_count b)))) as Hid'.
    { rewrite Hid, HS. unfold u32. rewrite Z.mod_small; lia. }
    apply wp_bind, wp_gen_sendMessage; [done|]. apply wp_modify. simpl.
    rewrite Hid', Hcnt. repeat split; try done.
    unfold u32. rewrite Z.mod_small; lia.
  - apply wp_ret, wp_bind, wp_gen_sendMessage; [done|]. apply wp_modify. simpl.
    rewrite decide_True in HS by lia. rewrite Hcnt, HS.
    repeat split; try done. unfold u32. rewrite Z.mod_small; lia.
Qed.

Lemma wp_gen_doPublish b g :
  represents minPubCount g b → br_topic b ≠ "" → (Z.of_nat (S (br_count b)) < 2 ^ 32)%Z →
  wp no_fault Generator_doPublish (λ _, answers g (broker_publish (br_topic b) b)) g.
Proof.
  intros Hg Htop Hb. pose proof Hg as (_ & _ & Ht & _). unfold Generator_doPublish.
  apply wp_bind, wp_gets. apply wp_bind, wp_comms_assert_true.
  { rewrite Ht. by rewrite bool_decide_eq_false_2. }
  apply wp_bind, wp_gets, wp_bind. eapply wp_mono; [by apply wp_gen_sendPublish|].
  intros [] g1 (Hr & Hs & Hmin & Hcb & Htop1 & Hcnt & Hqos & Hid).
  apply wp_bind, wp_modify, wp_bind, wp_gets. cbn -[Z.pow publish_number].
  pose proof (Nat.mod_upper_bound (br_count b) 3 ltac:(lia)).
  assert (u32 (gen_nextPubQos g1 + 1) = Z.of_nat (S (br_count b mod 3))) as ->.
  { rewrite Hqos. unfold u32. rewrite Z.mod_small; lia. }
  pose proof (mod3_S (br_count b)) as HS. unfold answers, represents.
  apply wp_when; intros Hlt; cbn -[publish_number Nat.modulo identifiers]; rewrite ?Hs, ?Hr, ?app_nil_r.
  - rewrite decide_True in HS by lia. rewrite HS. by repeat split.
  - rewrite decide_False in HS by lia. rewrite HS. by repeat split.
Qed.

Lemma wp_gen_doNext b g :
  represents minPubCount g b → br_topic b ≠ "" ∨ broker_wants minPubCount b = false →
  (Z.of_nat (br_count (broker_next minPubCount b).1) < 2 ^ 32)%Z →
  wp no_fault Generator_doNextPublishIfNeeded (λ _, answers g (broker_next minPubCount b)) g.
Proof.
  intros Hg Htop Hb. pose proof Hg as (Hmin & _ & _ & Hcnt & _).
  unfold Generator_doNextPublishIfNeeded. apply wp_bind, wp_gets.
  rewrite Hmin, Hcnt. unfold broker_next in *. fold (broker_wants minPubCount b).
  destruct (broker_wants minPubCount b); apply wp_when; intros E; try done.
  - destruct Htop as [Htop|]; [|done]. by apply wp_gen_doPublish.
  - by apply answers_none.
Qed.

Lemma broker_publishes_cons f fs b :
  broker_publishes (f :: fs) b =
    let r := broker_publish (pubTopicFromFilter f) b in
    let r' := broker_publishes fs r.1 in (r'.1, r.2 ++ r'.2).
Proof. cbn -[pubTopicFromFilter publish_number]. by destruct (broker_publishes _ _). Qed.

Lemma broker_publishes_count fs b : br_count (broker_publishes fs b).1 = length fs + br_count b.
Proof.
  revert b. induction fs as [|f fs IH]; intros b; [done|]. cbn [broker_publishes].
  specialize (IH (broker_publish (pubTopicFromFilter f) b).1).
  cbn in *. destruct (broker_publishes _ _). simpl in *. lia.
Qed.

Lemma wp_gen_publishes subs b g :
  represents minPubCount g b → Forall (λ x : string * Z, x.1 ≠ "") subs →
  (Z.of_nat (length subs + br_count b) < 2 ^ 32)%Z →
  wp no_fault (mapM_ (λ subElem : string * Z,
      modify (gen_set_lastPubTopic (pubTopicFromFilter subElem.1)) ;;
      Generator_doPublish) subs)
    (λ _, answers g (broker_publishes subs.*1 b)) g.
Proof.
  intros Hg Hne. revert b g Hg. induction Hne as [|[f q] subs Hf Hne IH]; intros b g Hg Hb.
  { by apply answers_none. }
  cbn [mapM_]. apply wp_bind, wp_bind, wp_modify. simpl in Hf.
  set (b1 := MkBroker (br_count b) (pubTopicFromFilter f)).
  eapply wp_mono; [apply (wp_gen_doPublish b1)|].
  - pose proof Hg as (? & ? & ? & ? & ? & ?). by repeat split.
  - simpl. rewrite pubTopicFromFilter_fill. by apply fill_nonempty.
  - simpl in *. lia.
  - intros [] g1 Ha. cbn [broker_publish] in Ha. pose proof Ha as [Hg1 _].
    eapply wp_mono; [apply IH; [done|]; simpl in *; lia|]. intros [] g2 Ha2.
    change ((f, q) :: subs).*1 with (f :: subs.*1). rewrite broker_publishes_cons.
    by eapply answers_app.
Qed.

Lemma answers_also g b first r g1 g2 :
  answers g (b, [first]) g1 → answers g1 r g2 → answers g (r.1, first :: r.2) g2.
Proof. exact (answers_app g (b, [first]) g1 r g2). Qed.

Lemma wp_gen_handle msg b g :
  represents minPubCount g b → legal minPubCount msg b →
  (Z.of_nat (br_count (broker_answer minPubCount msg b).1) < 2 ^ 32)%Z →
  wp no_fault (Generator_handle msg) (λ _, answers g (broker_answer minPubCount msg b)) g.
Proof.
  intros Hg Hl Hb. destruct msg; cbn [Generator_handle broker_answer] in *;
    try (by apply answers_none).
  - unfold Generator_handle_Connect. apply wp_bind. apply (wp_gen_answer _ b); [done|].
    intros g1 (Hg1 & Hr). apply wp_modify. by split.
  - unfold Generator_handle_Publish, QoS_AtMostOnceDelivery, QoS_AtLeastOnceDelivery.
    cbn [legal] in Hl. destruct (Z.eqb_spec (pub_qos m) 0).
    { apply wp_gen_doNext; [done| |done]. destruct Hl as [[_ ?]|]; [done|lia]. }
    destruct (Z.eqb_spec (pub_qos m) 1).
    { apply wp_bind, (wp_gen_answer _ b); [done|]. intros g1 Ha. eapply wp_mono.
      - apply (wp_gen_doNext b); [apply Ha| |done]. destruct Hl as [[_ ?]|]; [done|lia].
      - intros [] g2. by apply (answers_also _ b). }
    apply wp_bind, wp_comms_assert_true; [unfold QoS_ExactlyOnceDelivery; lia|].
    by apply (wp_gen_answer _ b).
  - by apply (wp_gen_answer _ b).
  - apply wp_bind, (wp_gen_answer _ b); [done|]. intros g1 Ha. eapply wp_mono.
    + by apply (wp_gen_doNext b); [apply Ha|..].
    + intros [] g2. by apply (answers_also _ b).
  - unfold Generator_handle_Subscribe. apply wp_bind, (wp_gen_answer _ b); [done|].
    intros g1 Ha. eapply wp_mono.
    + apply (wp_gen_publishes _ b); [apply Ha | done |].
      simpl in Hb. rewrite broker_publishes_count, length_fmap in Hb. done.
    + intros [] g2. by apply (answers_also _ b).
  - by apply (wp_gen_answer _ b).
Qed.

Lemma broker_next_grows b : br_count b ≤ br_count (broker_next minPubCount b).1.
Proof. unfold broker_next. destruct (broker_wants _ _); simpl; lia. Qed.

Lemma broker_answer_grows msg b : br_count b ≤ br_count (broker_answer minPubCount msg b).1.
Proof.
  pose proof (broker_next_grows b). destruct msg; simpl; try lia.
  - by repeat case_match.
  - rewrite broker_publishes_count. lia.
Qed.

Lemma broker_run_cons msg msgs b :
  broker_run minPubCount (msg :: msgs) b =
    let r := broker_answer minPubCount msg b in
    let r' := broker_run minPubCount msgs r.1 in (r'.1, r.2 ++ r'.2).
Proof.
  cbn -[broker_answer]. destruct (broker_answer _ msg b) as [b1 out].
  cbn. by destruct (broker_run _ msgs b1).
Qed.

Lemma broker_run_grows msgs b : br_count b ≤ br_count (broker_run minPubCount msgs b).1.
Proof.
  revert b. induction msgs as [|msg msgs IH]; intros b; [done|]. rewrite broker_run_cons. simpl.
  etrans; [apply broker_answer_grows | apply IH].
Qed.

Lemma wp_gen_run msgs b g :
  represents minPubCount g b → legal_run minPubCount msgs b →
  (Z.of_nat (br_count (broker_run minPubCount msgs b).1) < 2 ^ 32)%Z →
  wp no_fault (mapM_ Generator_handle msgs) (λ _, answers g (broker_run minPubCount msgs b)) g.
Proof.
  revert b g. induction msgs as [|msg msgs IH]; intros b g Hg; [intros; by apply answers_none|].
  intros [Hl Hls]. rewrite broker_run_cons. cbn -[broker_answer mapM_]. intros Hb.
  pose proof (broker_run_grows msgs (broker_answer minPubCount msg b).1).
  cbn [mapM_]. apply wp_bind. eapply wp_mono; [apply (wp_gen_handle _ b); [done..|lia]|].
  intros [] g1 Ha. eapply wp_mono; [by apply IH; [apply Ha|..]|]. intros [] g2.
  by apply answers_app.
Qed.

(** C21: the generator refines the abstract broker: for any messages of a
    client that respects it, read from one buffer, it fails no assertion, writes to
    the file and reports exactly the answers of the broker (an acknowledgement per
    message that has one, the publishes with the QoS that cycles through 0, 1, 2 and
    consecutive packet identifiers) and stands for the resulting broker. *)
Theorem Generator_processData_refines buf msgs b g :
  gl_processAll buf = (msgs, length buf) →
  represents minPubCount g b → legal_run minPubCount msgs b →
  (Z.of_nat (br_count (broker_run minPubCount msgs b).1) < 2 ^ 32)%Z →
  wp no_fault (Generator_processData buf) (λ _ g',
    let '(b', out) := broker_run minPubCount msgs b in
    represents minPubCount g' b' ∧
    gen_reported g' = gen_reported g ++ (encode <$> out) ∧
    gen_stream g' = gen_stream g ++ concat (encode <$> out)) g.
Proof.
  intros Hbuf Hg Hl Hb. unfold Generator_processData. rewrite Hbuf.
  apply wp_bind. eapply wp_mono; [by apply wp_gen_run|]. intros [] g' Ha.
  apply wp_comms_assert_true; [apply Nat.eqb_refl|].
  unfold answers in Ha. by destruct (broker_run _ _ _).
Qed.

End refinement.

(** ** Witness *)

(** One byte per message: the answers are told apart by their first field. *)
Definition ExampleGeneratorLib : GeneratorLib := {|
  gl_connack := {| cak_sp := false; cak_returnCode := 0 |};
  gl_pubrel_flags := 2;
  gl_refresh := λ m, m;
  gl_write := λ m, (ES_Success, match m with MConnack _ => [x20]%byte | MPublish _ => [x30]%byte
    | MSuback _ _ => [x90]%byte | _ => [x40]%byte end);
  gl_processAll := λ buf,
    ([MConnect ConnectMsg_new; MSubscribe 1 [("a/+", 2%Z); ("#", 0%Z)];
      MPublish (pub_set_qos 1 PublishMsg_new)], length buf);
|}.

Lemma ExampleGeneratorLib_laws : GeneratorLaws (H := ExampleGeneratorLib).
Proof. by intros m. Qed.

Definition example_generator : Generator := gen_set_hasDataReportCb true (Generator_new 3).

Example Generator_processData_refines_witness :
  (broker_run (H := ExampleGeneratorLib) 3 (gl_processAll (GeneratorLib := ExampleGeneratorLib) []).1
    (MkBroker 0 "")).2 =
    [MConnack {| cak_sp := false; cak_returnCode := 0 |}; MSuback 1 [2%Z; 2%Z];
     publish_number 0 "a/plus"; publish_number 1 "hash"; MPuback 0; publish_number 2 "hash"] ∧
  wp no_fault (Generator_processData (H := DefaultConfig) (H0 := ExampleGeneratorLib) [])
    (λ _ g',
      let '(b', out) := broker_run (H := ExampleGeneratorLib) 3
        (gl_processAll (GeneratorLib := ExampleGeneratorLib) []).1 (MkBroker 0 "") in
      represents 3 g' b' ∧
      gen_reported g' = gen_reported example_generator ++
        (encode (H := ExampleGeneratorLib) <$> out) ∧
      gen_stream g' = gen_stream example_generator ++
        concat (encode (H := ExampleGeneratorLib) <$> out)) example_generator.
Proof.
  split; [vm_compute; reflexivity|].
  apply (Generator_processData_refines (H := DefaultConfig) (H0 := ExampleGeneratorLib)
    (H1 := ExampleGeneratorLib_laws)).
  - reflexivity.
  - repeat split.
  - cbn. split; [done|]. split; [by repeat constructor|]. split; [|done]. left.
    split; [lia|]. by left.
  - vm_compute. reflexivity.
Defined.
