(* ===== verification/PacketId.v ===== *)
(** * Packet identifiers

    [ClientState] (client/lib/src/ClientState.h) and the allocation of packet
    identifiers in it: [Op::allocPacketId] and [Op::releasePacketId]
    (client/lib/src/op/Op.cpp). *)

From S2P Require Import Prelude SortedVec Config.

Record ClientState := MkClientState {
  m_allocatedPacketIds : list Z;
  m_lastPacketId : Z;
  m_initialized : bool;
  m_firstConnect : bool;
  m_networkDisconnected : bool;
}.

Definition ClientState_new : ClientState := MkClientState [] 0 false true false.

Definition set_packetIds (ids : list Z) (lastId : Z) (s : ClientState) : ClientState :=
  MkClientState ids lastId (m_initialized s) (m_firstConnect s) (m_networkDisconnected s).
Definition set_initialized (b : bool) (s : ClientState) : ClientState :=
  MkClientState (m_allocatedPacketIds s) (m_lastPacketId s) b (m_firstConnect s)
    (m_networkDisconnected s).
Definition set_firstConnect (b : bool) (s : ClientState) : ClientState :=
  MkClientState (m_allocatedPacketIds s) (m_lastPacketId s) (m_initialized s) b
    (m_networkDisconnected s).
Definition set_networkDisconnected (b : bool) (s : ClientState) : ClientState :=
  MkClientState (m_allocatedPacketIds s) (m_lastPacketId s) (m_initialized s)
    (m_firstConnect s) b.

(** ** Operations *)

Section ops.
  Context `{Config}.

(** The [while (true)] loop; one unit of fuel per iteration. *)
Fixpoint allocPacketId_loop (fuel : nat) (ids : list Z) (nextPacketId : Z)
    : option (list Z * Z) :=
  match fuel with
  | O => None
  | S fuel' =>
      if bool_decide (ids = []) || (default 0 (last ids) <? nextPacketId)%Z
      then Some (ids ++ [nextPacketId], nextPacketId)
      else
        let iter := lower_bound ids nextPacketId in
        match ids !! iter with
        | None => Some (insert_at iter nextPacketId ids, nextPacketId)
        | Some x =>
            if negb (x =? nextPacketId)%Z
            then Some (insert_at iter nextPacketId ids, nextPacketId)
            else allocPacketId_loop fuel' ids (u16 (nextPacketId + 1))
        end
  end.

Definition packetIds_full (ids : list Z) : bool :=
  at_max_size (ObjListType_capacity PacketIdsLimit true) (length ids) ||
  (u16_max <=? Z.of_nat (length ids))%Z.

Definition allocPacketId : M ClientState Z :=
  ids ← gets m_allocatedPacketIds;
  if packetIds_full ids then mret 0%Z
  else
    lastPacketId ← gets m_lastPacketId;
    let nextPacketId := u16 (lastPacketId + 1) in
    let nextPacketId := if (nextPacketId =? 0)%Z then 1%Z else nextPacketId in
    match allocPacketId_loop (S (length ids)) ids nextPacketId with
    | None => throw FFuel
    | Some (ids', id) => modify (set_packetIds ids' id) ;; mret id
    end.

Definition releasePacketId (id : Z) : M ClientState unit :=
  if (id =? 0)%Z then mret tt
  else
    s ← gets (λ s, s);
    let ids := m_allocatedPacketIds s in
    let iter := lower_bound ids id in
    match ids !! iter with
    | Some x =>
        if (x =? id)%Z
        then modify (set_packetIds (erase_at iter ids) (m_lastPacketId s))
        else comms_assert false
    | None => comms_assert false
    end.

End ops.

(** ** The invariant of the list of identifiers *)

Definition packetIds_ok (ids : list Z) : Prop :=
  sorted ids ∧ Forall (λ x, 0 ≤ x ≤ u16_max)%Z ids.

Lemma packetIds_ok_nil : packetIds_ok [].
Proof. split; constructor. Qed.

Lemma packetIds_ok_nodup ids : packetIds_ok ids → NoDup ids.
Proof. intros [Hs _]. by apply sorted_nodup. Qed.

Lemma sorted_last_le ids x :
  sorted ids → x ∈ ids → (x ≤ default 0 (last ids))%Z.
Proof.
  intros Hs Hin. destruct (last ids) as [z|] eqn:Hl; simpl.
  - apply last_Some in Hl as [l' ->].
    apply elem_of_app in Hin as [Hin | ->%list_elem_of_singleton]; [|lia].
    induction l' as [|y l' IH]; [by apply elem_of_nil in Hin|].
    apply StronglySorted_inv in Hs as [Hs Hy]. apply elem_of_cons in Hin as [->|Hin].
    + rewrite Forall_forall in Hy. apply Z.lt_le_incl, Z.ltb_lt, Hy. set_solver.
    + by apply IH.
  - apply last_None in Hl as ->. by apply elem_of_nil in Hin.
Qed.

(** One iteration that stops: the result extends the list by a new identifier. *)
Lemma packetIds_ok_push ids x :
  packetIds_ok ids → (0 ≤ x ≤ u16_max)%Z →
  (ids = [] ∨ default 0 (last ids) < x)%Z → packetIds_ok (ids ++ [x]).
Proof.
  intros [Hs Hb] Hx Hl. split.
  - apply sorted_app; [done|by repeat constructor|].
    intros a b Ha ->%list_elem_of_singleton. destruct Hl as [->|Hl]; [by apply elem_of_nil in Ha|].
    pose proof (sorted_last_le _ _ Hs Ha). simpl. lia.
  - by apply Forall_app, conj, Forall_singleton.
Qed.

Lemma packetIds_ok_insert ids x :
  packetIds_ok ids → (0 ≤ x ≤ u16_max)%Z → x ∉ ids →
  packetIds_ok (insert_at (lower_bound ids x) x ids).
Proof.
  intros [Hs Hb] Hx Hn. split; [by apply insert_at_sorted|].
  rewrite Forall_forall in *. intros y [->|Hy]%elem_of_insert_at; [done | by apply Hb].
Qed.

Lemma u16_range z : (0 ≤ u16 z ≤ u16_max)%Z.
Proof. unfold u16, u16_max. pose proof (Z.mod_pos_bound z (2 ^ 16) ltac:(lia)). lia. Qed.

Lemma u16_small z : (0 ≤ z ≤ u16_max)%Z → u16 z = z.
Proof. unfold u16, u16_max. intros. apply Z.mod_small. lia. Qed.

Lemma u16_u16_add a b : u16 (u16 a + b) = u16 (a + b).
Proof. unfold u16. apply Zplus_mod_idemp_l. Qed.

(** [id] is the first identifier from [next] on (modulo 2^16) that is not in
    the list, and [ids'] is the list with it. *)
Definition first_free (ids : list Z) (next : Z) (k : nat) (id : Z) : Prop :=
  id = u16 (next + Z.of_nat k) ∧ (id ∉ ids) ∧
  (∀ j : nat, j < k → u16 (next + Z.of_nat j) ∈ ids).

Section alloc.
  Context `{Config}.

Lemma allocPacketId_loop_step fuel ids next :
  packetIds_ok ids → (0 ≤ next ≤ u16_max)%Z →
  (next ∈ ids ∧
    allocPacketId_loop (S fuel) ids next = allocPacketId_loop fuel ids (u16 (next + 1))) ∨
  ((next ∉ ids) ∧ (∃ ids', allocPacketId_loop (S fuel) ids next = Some (ids', next) ∧
    packetIds_ok ids' ∧ (∀ y, y ∈ ids' ↔ y = next ∨ y ∈ ids))).
Proof.
  intros Hok Hn. pose proof Hok as [Hs _]. simpl.
  destruct (bool_decide (ids = []) || (default 0 (last ids) <? next)%Z) eqn:Hlast.
  - right. assert (ids = [] ∨ default 0 (last ids) < next)%Z as Hl.
    { apply orb_true_iff in Hlast as [?%bool_decide_eq_true | ?]; [by left | right; lia]. }
    split.
    { intros Hin. destruct Hl as [->|Hl]; [by apply elem_of_nil in Hin|].
      pose proof (sorted_last_le _ _ Hs Hin). lia. }
    eexists. split; [done|]. split; [by apply packetIds_ok_push|].
    intros y. rewrite elem_of_app, list_elem_of_singleton. tauto.
  - destruct (decide (next ∈ ids)) as [Hin|Hin].
    + left. split; [done|]. rewrite (proj2 (lower_bound_lookup ids next Hs)) by done.
      by rewrite Z.eqb_refl.
    + right. split; [done|]. exists (insert_at (lower_bound ids next) next ids).
      split; [|split; [by apply packetIds_ok_insert | intros; apply elem_of_insert_at]].
      destruct (ids !! lower_bound ids next) as [x|] eqn:Hx; [|done].
      destruct (Z.eqb_spec x next) as [->|]; [|done].
      destruct Hin. by eapply list_elem_of_lookup_2.
Qed.

Lemma allocPacketId_loop_Some fuel ids next ids' id :
  packetIds_ok ids → (0 ≤ next ≤ u16_max)%Z →
  allocPacketId_loop fuel ids next = Some (ids', id) →
  packetIds_ok ids' ∧ (∀ y, y ∈ ids' ↔ y = id ∨ y ∈ ids) ∧ ∃ k, first_free ids next k id.
Proof.
  intros Hok. revert next. induction fuel as [|fuel IH]; intros next Hn; [done|].
  destruct (allocPacketId_loop_step fuel ids next Hok Hn)
    as [[Hin ->] | (Hin & ids2 & -> & Hok2 & Hel)].
  - intros Hl. destruct (IH _ (u16_range _) Hl) as (? & ? & k & -> & Hk & Hj).
    split; [done|]. split; [done|]. exists (S k). unfold first_free.
    rewrite u16_u16_add in Hk |- *.
    replace (next + Z.of_nat (S k))%Z with (next + 1 + Z.of_nat k)%Z by lia.
    split; [done|]. split; [done|]. intros [|j] Hjk.
    + by rewrite Z.add_0_r, u16_small.
    + specialize (Hj j ltac:(lia)). rewrite u16_u16_add in Hj.
      by replace (next + Z.of_nat (S j))%Z with (next + 1 + Z.of_nat j)%Z by lia.
  - intros [= <- <-]. split; [done|]. split; [done|]. exists 0. unfold first_free.
    rewrite Z.add_0_r, u16_small by done. split; [done|]. split; [done | lia].
Qed.

(** Running out of fuel means that many consecutive identifiers are taken. *)
Lemma allocPacketId_loop_None fuel ids next :
  packetIds_ok ids → (0 ≤ next ≤ u16_max)%Z →
  allocPacketId_loop fuel ids next = None →
  ∀ j : nat, j < fuel → u16 (next + Z.of_nat j) ∈ ids.
Proof.
  intros Hok. revert next. induction fuel as [|fuel IH]; intros next Hn; [lia|].
  destruct (allocPacketId_loop_step fuel ids next Hok Hn)
    as [[Hin ->] | (_ & ? & -> & _)]; [|done].
  intros Hl [|j] Hj; [by rewrite Z.add_0_r, u16_small|].
  specialize (IH _ (u16_range _) Hl j ltac:(lia)). rewrite u16_u16_add in IH.
  by replace (next + Z.of_nat (S j))%Z with (next + 1 + Z.of_nat j)%Z by lia.
Qed.

Lemma u16_inj_window next (i j : nat) :
  (Z.of_nat i < 65536)%Z → (Z.of_nat j < 65536)%Z →
  u16 (next + Z.of_nat i) = u16 (next + Z.of_nat j) → i = j.
Proof.
  unfold u16. intros Hi Hj Heq.
  assert ((next + Z.of_nat i - (next + Z.of_nat j)) mod 2 ^ 16 = 0)%Z as Hm.
  { rewrite Zminus_mod, Heq, Z.sub_diag. apply Zmod_0_l. }
  apply Z.mod_divide in Hm as [q Hq]; [|lia].
  assert (q = 0)%Z by nia. lia.
Qed.

(** The loop ends: its [length ids + 1] iterations try different
    identifiers, and one of them is free. *)
Lemma allocPacketId_loop_total ids next :
  packetIds_ok ids → (0 ≤ next ≤ u16_max)%Z → (Z.of_nat (length ids) < u16_max)%Z →
  allocPacketId_loop (S (length ids)) ids next ≠ None.
Proof.
  intros Hok Hn Hlen Hl. unfold u16_max in Hlen.
  pose proof (allocPacketId_loop_None _ _ _ Hok Hn Hl) as Hall.
  set (tried := (λ j, u16 (next + Z.of_nat j)) <$> seq 0 (S (length ids))).
  assert (NoDup tried) as Hnd.
  { apply NoDup_fmap_2_strong; [|apply NoDup_seq].
    intros i j Hi%elem_of_seq Hj%elem_of_seq. apply u16_inj_window; lia. }
  assert (tried ⊆+ ids) as Hsub.
  { apply NoDup_submseteq; [done|]. intros x (j & -> & Hj)%list_elem_of_fmap.
    apply Hall. apply elem_of_seq in Hj. lia. }
  apply submseteq_length in Hsub. unfold tried in Hsub.
  rewrite length_fmap, length_seq in Hsub. lia.
Qed.
End alloc.

Lemma packetIds_ext ids1 ids2 :
  packetIds_ok ids1 → packetIds_ok ids2 → (∀ y, y ∈ ids1 ↔ y ∈ ids2) → ids1 = ids2.
Proof. intros [H1 _] [H2 _]. by apply sorted_ext. Qed.

Lemma erase_lower_bound_ok ids id :
  packetIds_ok ids → id ∈ ids →
  packetIds_ok (erase_at (lower_bound ids id) ids) ∧
  ∀ y, y ∈ erase_at (lower_bound ids id) ids ↔ y ∈ ids ∧ y ≠ id.
Proof.
  intros [Hs Hb] Hin. destruct (erase_at_sorted ids id Hs Hin) as [Hs' Hel].
  split; [|done]. split; [done|]. apply Forall_app. split; [by apply Forall_take | by apply Forall_drop].
Qed.

Definition first_candidate (lastPacketId : Z) : Z :=
  if (u16 (lastPacketId + 1) =? 0)%Z then 1%Z else u16 (lastPacketId + 1).

Lemma first_candidate_range lastId : (1 ≤ first_candidate lastId ≤ u16_max)%Z.
Proof.
  unfold first_candidate. pose proof (u16_range (lastId + 1)).
  destruct (Z.eqb_spec (u16 (lastId + 1)) 0); unfold u16_max in *; lia.
Qed.

Section specs.
  Context `{Config}.

(** The two outcomes of an allocation from a well-formed list. *)
Lemma allocPacketId_cases s :
  packetIds_ok (m_allocatedPacketIds s) →
  (packetIds_full (m_allocatedPacketIds s) = true ∧ allocPacketId s = Ok 0%Z s) ∨
  (packetIds_full (m_allocatedPacketIds s) = false ∧
   ∃ ids' id k, allocPacketId s = Ok id (set_packetIds ids' id s) ∧ packetIds_ok ids' ∧
     (∀ y, y ∈ ids' ↔ y = id ∨ y ∈ m_allocatedPacketIds s) ∧
     first_free (m_allocatedPacketIds s) (first_candidate (m_lastPacketId s)) k id).
Proof.
  intros Hok. unfold allocPacketId, mbind, M_bind, gets; cbn -[allocPacketId_loop].
  destruct (packetIds_full (m_allocatedPacketIds s)) eqn:Hf; [by left|]. right.
  split; [done|].
  change (if (u16 (m_lastPacketId s + 1) =? 0)%Z then 1%Z else u16 (m_lastPacketId s + 1))
    with (first_candidate (m_lastPacketId s)).
  pose proof (first_candidate_range (m_lastPacketId s)) as Hr.
  destruct (allocPacketId_loop _ _ _) as [[ids' id]|] eqn:Hl.
  - apply allocPacketId_loop_Some in Hl as (? & ? & k & ?); [|done|lia].
    by exists ids', id, k.
  - exfalso. revert Hl. apply allocPacketId_loop_total; [done|lia|].
    unfold packetIds_full in Hf. apply orb_false_iff in Hf as [_ Hf]. lia.
Qed.

Lemma releasePacketId_present s id :
  packetIds_ok (m_allocatedPacketIds s) → id ≠ 0%Z → id ∈ m_allocatedPacketIds s →
  ∃ ids', releasePacketId id s = Ok tt (set_packetIds ids' (m_lastPacketId s) s) ∧
    packetIds_ok ids' ∧ ∀ y, y ∈ ids' ↔ y ∈ m_allocatedPacketIds s ∧ y ≠ id.
Proof.
  intros Hok Hid Hin. pose proof Hok as [Hs _].
  unfold releasePacketId, mbind, M_bind, gets.
  destruct (Z.eqb_spec id 0); [done|]. simpl.
  rewrite (proj2 (lower_bound_lookup _ _ Hs)) by done. rewrite Z.eqb_refl.
  eexists. split; [done|]. by apply erase_lower_bound_ok.
Qed.

Lemma first_free_zero ids next k :
  (1 ≤ next ≤ u16_max)%Z → first_free ids next k 0 → u16_max ∈ ids.
Proof.
  intros Hn (Hz & _ & Hj).
  assert (k ≠ 0) as Hk.
  { intros ->. rewrite Z.add_0_r, u16_small in Hz by lia. lia. }
  specialize (Hj (k - 1) ltac:(lia)).
  replace (u16 (next + Z.of_nat (k - 1))) with u16_max in Hj; [done|].
  unfold u16, u16_max in *. symmetry in Hz.
  apply Z.mod_divide in Hz as [q Hq]; [|lia].
  replace (next + Z.of_nat (k - 1))%Z with (65535 + (q - 1) * 2 ^ 16)%Z by lia.
  rewrite Z.mod_add by lia. done.
Qed.

(** C35: from a sorted list of identifiers an allocation always
    terminates without a fault; when the list is at its limit it returns 0 and
    changes nothing, otherwise it returns an identifier that was not allocated
    and adds exactly this one, keeping the list sorted and without
    duplicates. *)
Theorem allocPacketId_fresh s :
  packetIds_ok (m_allocatedPacketIds s) →
  wp no_fault allocPacketId (λ id s',
    if packetIds_full (m_allocatedPacketIds s) then id = 0%Z ∧ s' = s
    else (id ∉ m_allocatedPacketIds s) ∧ packetIds_ok (m_allocatedPacketIds s') ∧
         m_lastPacketId s' = id ∧
         (∀ y, y ∈ m_allocatedPacketIds s' ↔ y = id ∨ y ∈ m_allocatedPacketIds s)) s.
Proof.
  intros Hok. unfold wp.
  destruct (allocPacketId_cases s Hok) as [[-> ->] | (-> & ids' & id & k & -> & ? & ? & Hf)];
    [done|]. destruct Hf as (_ & ? & _). done.
Qed.

(** While 65535 itself is not allocated, a successful allocation never
    returns the identifier 0, which MQTT forbids. *)
Theorem allocPacketId_nonzero s :
  packetIds_ok (m_allocatedPacketIds s) →
  packetIds_full (m_allocatedPacketIds s) = false →
  u16_max ∉ m_allocatedPacketIds s →
  wp no_fault allocPacketId (λ id _, 1 ≤ id ≤ u16_max)%Z s.
Proof.
  intros Hok Hfull Hmax. unfold wp.
  destruct (allocPacketId_cases s Hok) as [[? _] | (_ & ids' & id & k & -> & _ & _ & Hf)];
    [congruence|].
  destruct (decide (id = 0%Z)) as [->|].
  - destruct Hmax. eapply first_free_zero; [|done]. apply first_candidate_range.
  - destruct Hf as (-> & _). pose proof (u16_range (first_candidate (m_lastPacketId s) + Z.of_nat k)).
    lia.
Qed.

(** C40: the identifier wraps around inside the loop without the
    check that the first candidate gets: when the last identifier was 65534
    and 65535 is still in use, an allocation returns 0 although identifiers
    are free. *)
Theorem allocPacketId_wraps_to_zero s :
  packetIds_ok (m_allocatedPacketIds s) →
  packetIds_full (m_allocatedPacketIds s) = false →
  m_lastPacketId s = 65534%Z → u16_max ∈ m_allocatedPacketIds s →
  0%Z ∉ m_allocatedPacketIds s →
  wp no_fault allocPacketId (λ id s', id = 0%Z ∧ 0%Z ∈ m_allocatedPacketIds s') s.
Proof.
  intros Hok Hfull Hlast Hmax Hzero. unfold wp.
  destruct (allocPacketId_cases s Hok) as [[? _] | (_ & ids' & id & k & -> & _ & Hel & Hf)];
    [congruence|].
  rewrite Hlast in Hf. change (first_candidate 65534) with 65535%Z in Hf.
  destruct Hf as (Hid & Hn & Hj).
  assert (k = 1) as ->.
  { destruct k as [|[|k]]; [|done|].
    - by subst id.
    - destruct Hzero. exact (Hj 1 ltac:(lia)). }
  assert (id = 0%Z) as -> by done. split; [done|]. apply Hel. by left.
Qed.

(** releasing the identifier just allocated gives back the list of
    allocated identifiers, unless the identifier is 0. *)
Theorem releasePacketId_allocPacketId s :
  packetIds_ok (m_allocatedPacketIds s) →
  packetIds_full (m_allocatedPacketIds s) = false →
  wp no_fault (id ← allocPacketId; releasePacketId id ;; mret id) (λ id s',
    if (id =? 0)%Z then 0%Z ∈ m_allocatedPacketIds s'
    else m_allocatedPacketIds s' = m_allocatedPacketIds s) s.
Proof.
  intros Hok Hfull. unfold wp, mbind, M_bind, mret, M_ret.
  destruct (allocPacketId_cases s Hok) as [[? _] | (_ & ids' & id & k & -> & Hok' & Hel & Hf)];
    [congruence|].
  destruct (Z.eqb_spec id 0) as [->|Hid].
  - unfold releasePacketId. simpl. apply Hel. by left.
  - destruct (releasePacketId_present (set_packetIds ids' id s) id)
      as (ids2 & -> & Hok2 & Hel2); [done|done|apply Hel; by left|].
    destruct (Z.eqb_spec id 0); [done|]. apply packetIds_ext; [done|done|].
    intros y. cbn [m_allocatedPacketIds set_packetIds] in *. rewrite Hel2, Hel.
    destruct Hf as (_ & Hn & _). destruct (decide (y = id)) as [->|]; tauto.
Qed.
End specs.

(** ** Witnesses *)

Definition ids_example : ClientState := set_packetIds [3; 4; 65535]%Z 65534 ClientState_new.
Definition ids_example2 : ClientState := set_packetIds [3; 4]%Z 2 ClientState_new.

Ltac solve_packetIds_ok :=
  split; [repeat constructor | repeat constructor; (discriminate || reflexivity)].

Example allocPacketId_fresh_witness :
  packetIds_ok (m_allocatedPacketIds ids_example2) ∧
  wp no_fault (allocPacketId (H := DefaultConfig)) (λ id s',
    if packetIds_full (H := DefaultConfig) (m_allocatedPacketIds ids_example2)
    then id = 0%Z ∧ s' = ids_example2
    else (id ∉ m_allocatedPacketIds ids_example2) ∧ packetIds_ok (m_allocatedPacketIds s') ∧
         m_lastPacketId s' = id ∧
         (∀ y, y ∈ m_allocatedPacketIds s' ↔ y = id ∨ y ∈ m_allocatedPacketIds ids_example2))
    ids_example2.
Proof.
  assert (packetIds_ok (m_allocatedPacketIds ids_example2)) as Hok by solve_packetIds_ok.
  split; [exact Hok | exact (allocPacketId_fresh (H := DefaultConfig) ids_example2 Hok)].
Defined.

Example allocPacketId_nonzero_witness :
  packetIds_full (H := DefaultConfig) (m_allocatedPacketIds ids_example2) = false ∧
  wp no_fault (allocPacketId (H := DefaultConfig)) (λ id _, 1 ≤ id ≤ u16_max)%Z ids_example2.
Proof.
  split; [reflexivity|].
  refine (allocPacketId_nonzero (H := DefaultConfig) ids_example2 _ _ _);
    [solve_packetIds_ok | reflexivity |].
  apply (bool_decide_unpack _). vm_compute. exact I.
Defined.

Example allocPacketId_wraps_to_zero_witness :
  packetIds_full (H := DefaultConfig) (m_allocatedPacketIds ids_example) = false ∧
  wp no_fault (allocPacketId (H := DefaultConfig))
    (λ id s', id = 0%Z ∧ 0%Z ∈ m_allocatedPacketIds s') ids_example.
Proof.
  split; [reflexivity|].
  refine (allocPacketId_wraps_to_zero (H := DefaultConfig) ids_example _ _ _ _ _);
    [solve_packetIds_ok | reflexivity | reflexivity | |];
    apply (bool_decide_unpack _); vm_compute; exact I.
Defined.

Example releasePacketId_allocPacketId_witness :
  packetIds_full (H := DefaultConfig) (m_allocatedPacketIds ids_example2) = false ∧
  wp no_fault (id ← allocPacketId (H := DefaultConfig);
               releasePacketId (H := DefaultConfig) id ;; mret id) (λ id s',
    if (id =? 0)%Z then 0%Z ∈ m_allocatedPacketIds s'
    else m_allocatedPacketIds s' = m_allocatedPacketIds ids_example2) ids_example2.
Proof.
  split; [reflexivity|].
  refine (releasePacketId_allocPacketId (H := DefaultConfig) ids_example2 _ _);
    [solve_packetIds_ok | reflexivity].
Defined.
