(* ===== verification/TimerMgr.v ===== *)
(** * Timers

    [TimerMgr] and its handle [TimerMgr::Timer]
    (client/lib/src/TimerMgr.h, client/lib/src/TimerMgr.cpp).

    The manager is generic in the type [Cb] of timeout functions; the data
    pointer given to them is an address.  A handle is the index of a timer, or
    [None] for [InvalidIdx]. *)

From S2P Require Import Prelude Config.

Abbreviation addr := nat.

Record TimerInfo (Cb : Type) := MkTimerInfo {
  m_timeoutMs : Z;
  m_timeoutCb : option Cb;
  m_timeoutData : addr;
  m_allocated : bool;
  m_suspended : bool;
}.
Arguments MkTimerInfo {Cb} _ _ _ _ _.
Arguments m_timeoutMs {Cb} _.
Arguments m_timeoutCb {Cb} _.
Arguments m_timeoutData {Cb} _.
Arguments m_allocated {Cb} _.
Arguments m_suspended {Cb} _.

Record TimerMgr (Cb : Type) := MkTimerMgr {
  m_timers : list (TimerInfo Cb);
  m_allocatedTimers : Z;
}.
Arguments MkTimerMgr {Cb} _ _.
Arguments m_timers {Cb} _.
Arguments m_allocatedTimers {Cb} _.

(** [TimerMgr::Timer]: [m_idx]. *)
Definition Timer : Type := option nat.
Definition InvalidIdx : Timer := None.

Section TimerMgr.
  Context `{Config} {Cb : Type}.
  Implicit Types (s : TimerMgr Cb) (info : TimerInfo Cb) (t : Timer).

Definition TimerInfo_new : TimerInfo Cb := MkTimerInfo 0 None 0 false false.
Definition TimerMgr_new : TimerMgr Cb := MkTimerMgr [] 0.

(** [m_timers[idx]] assigned by [f]. *)
Definition upd_timer (idx : nat) (f : TimerInfo Cb → TimerInfo Cb) s : TimerMgr Cb :=
  MkTimerMgr (alter f idx (m_timers s)) (m_allocatedTimers s).

Definition set_allocated info : TimerInfo Cb :=
  MkTimerInfo (m_timeoutMs info) (m_timeoutCb info) (m_timeoutData info) true
    (m_suspended info).

(** The lambda [createTimer] of [allocTimer]. *)
Definition createTimer (idx : nat) : M (TimerMgr Cb) Timer :=
  modify (upd_timer idx set_allocated) ;;
  modify (λ s, MkTimerMgr (m_timers s) (u32 (m_allocatedTimers s + 1))) ;;
  mret (Some idx).

Definition allocTimer_grow : M (TimerMgr Cb) Timer :=
  size ← gets (λ s, length (m_timers s));
  if at_max_size (ObjListType_capacity TimersLimit true) size then mret InvalidIdx
  else
    modify (λ s, MkTimerMgr (m_timers s ++ [TimerInfo_new]) (m_allocatedTimers s)) ;;
    createTimer size.

Definition allocTimer : M (TimerMgr Cb) Timer :=
  s ← gets (λ s, s);
  if (m_allocatedTimers s <? Z.of_nat (length (m_timers s)))%Z then
    match list_find (λ info, m_allocated info = false) (m_timers s) with
    | Some (idx, _) => createTimer idx
    | None => comms_assert false ;; allocTimer_grow
    end
  else allocTimer_grow.

(** The timer a handle refers to: [None] when the index is out of range. *)
Definition timer_at s t : option (nat * TimerInfo Cb) :=
  idx ← t; info ← m_timers s !! idx; Some (idx, info).

Definition freeTimer t : M (TimerMgr Cb) unit :=
  s ← gets (λ s, s);
  comms_assert (bool_decide (is_Some (timer_at s t))) ;;
  match timer_at s t with
  | None => mret tt
  | Some (idx, info) =>
      comms_assert (0 <? m_allocatedTimers s)%Z ;;
      comms_assert (m_allocated info) ;;
      modify (upd_timer idx (λ _, TimerInfo_new)) ;;
      modify (λ s, MkTimerMgr (m_timers s) (u32 (m_allocatedTimers s - 1)))
  end.

Definition timerWait t (timeoutMs : Z) (cb : Cb) (data : addr) : M (TimerMgr Cb) unit :=
  s ← gets (λ s, s);
  comms_assert (bool_decide (is_Some (timer_at s t))) ;;
  match timer_at s t with
  | None => mret tt
  | Some (idx, info) =>
      comms_assert (m_allocated info) ;;
      modify (upd_timer idx (λ info,
        MkTimerInfo timeoutMs (Some cb) data (m_allocated info) (m_suspended info)))
  end.

Definition clear_timeout info : TimerInfo Cb :=
  MkTimerInfo 0 None 0 (m_allocated info) (m_suspended info).

Definition timerCancel t : M (TimerMgr Cb) unit :=
  s ← gets (λ s, s);
  comms_assert (bool_decide (is_Some (timer_at s t))) ;;
  match timer_at s t with
  | None => mret tt
  | Some (idx, info) =>
      comms_assert (m_allocated info) ;;
      modify (upd_timer idx clear_timeout)
  end.

Definition timerIsActive t : M (TimerMgr Cb) bool :=
  s ← gets (λ s, s);
  comms_assert (bool_decide (is_Some (timer_at s t))) ;;
  match timer_at s t with
  | None => mret false
  | Some (idx, info) =>
      comms_assert (m_allocated info) ;;
      comms_assert (bool_decide (is_Some (m_timeoutCb info)) || (m_timeoutMs info =? 0)%Z) ;;
      mret (bool_decide (is_Some (m_timeoutCb info)))
  end.

Definition set_suspended (b : bool) info : TimerInfo Cb :=
  MkTimerInfo (m_timeoutMs info) (m_timeoutCb info) (m_timeoutData info)
    (m_allocated info) b.

Definition timerSetSuspended t (suspended : bool) : M (TimerMgr Cb) unit :=
  s ← gets (λ s, s);
  comms_assert (bool_decide (is_Some (timer_at s t))) ;;
  match timer_at s t with
  | None => mret tt
  | Some (idx, info) =>
      comms_assert (m_allocated info) ;;
      modify (upd_timer idx (set_suspended suspended))
  end.

Definition timerIsSuspended t : M (TimerMgr Cb) bool :=
  s ← gets (λ s, s);
  comms_assert (bool_decide (is_Some (timer_at s t))) ;;
  match timer_at s t with
  | None => mret false
  | Some (idx, info) =>
      comms_assert (m_allocated info) ;;
      mret (m_suspended info)
  end.

(** The methods of the handle. *)
Definition Timer_isValid t : bool := bool_decide (is_Some t).

(** The destructor. *)
Definition Timer_destroy t : M (TimerMgr Cb) unit :=
  when (Timer_isValid t) (freeTimer t).

Definition Timer_setSuspended t (suspended : bool) : M (TimerMgr Cb) unit :=
  active ← timerIsActive t;
  if negb active then mret tt else timerSetSuspended t suspended.

Definition Timer_isSuspended t : M (TimerMgr Cb) bool :=
  active ← timerIsActive t;
  if negb active then mret false else timerIsSuspended t.

(** The guard of [tick] and [getMinWait]: the timer does not take part. *)
Definition timer_skipped info : bool :=
  negb (m_allocated info) || bool_decide (m_timeoutCb info = None) || m_suspended info.

(** The first loop of [tick], over the indices that are left: it cancels the
    expired timers, makes the others advance, and returns the timeout functions
    to call with their data. *)
Fixpoint tick_loop (idxs : list nat) (ms : Z) (cbList : list (Cb * addr))
    : M (TimerMgr Cb) (list (Cb * addr)) :=
  match idxs with
  | [] => mret cbList
  | idx :: idxs' =>
      s ← gets (λ s, s);
      match m_timers s !! idx with
      | None => throw FRange
      | Some info =>
          match m_timeoutCb info with
          | Some cb =>
              if timer_skipped info then tick_loop idxs' ms cbList
              else if (m_timeoutMs info <=? ms)%Z then
                timerCancel (Some idx) ;;
                tick_loop idxs' ms (cbList ++ [(cb, m_timeoutData info)])
              else
                modify (upd_timer idx (λ info,
                  MkTimerInfo (m_timeoutMs info - ms) (m_timeoutCb info)
                    (m_timeoutData info) (m_allocated info) (m_suspended info))) ;;
                tick_loop idxs' ms cbList
          | None => tick_loop idxs' ms cbList
          end
      end
  end.

Definition tick_collect (ms : Z) : M (TimerMgr Cb) (list (Cb * addr)) :=
  n ← gets (λ s, length (m_timers s));
  tick_loop (seq 0 n) ms [].

Definition getMinWait s : Z :=
  if (m_allocatedTimers s =? 0)%Z then 0%Z
  else
    let result :=
      foldl (λ result info,
        if timer_skipped info then result else Z.min result (m_timeoutMs info))
        u64_max (m_timers s) in
    if (result =? u64_max)%Z then 0%Z else Z.min result u32_max.

Definition allocCount s : nat :=
  length (filter (λ info, m_allocated info = true) (m_timers s)).

(** ** What a tick does to each timer *)

Definition expires (ms : Z) info : bool :=
  negb (timer_skipped info) && (m_timeoutMs info <=? ms)%Z.

Definition tick_info (ms : Z) info : TimerInfo Cb :=
  if timer_skipped info then info
  else if (m_timeoutMs info <=? ms)%Z then clear_timeout info
  else MkTimerInfo (m_timeoutMs info - ms) (m_timeoutCb info) (m_timeoutData info)
         (m_allocated info) (m_suspended info).

Definition fires (ms : Z) info : option (Cb * addr) :=
  if expires ms info then cb ← m_timeoutCb info; Some (cb, m_timeoutData info) else None.

(** ** The invariant *)

Record timers_ok s : Prop := {
  ok_count : m_allocatedTimers s = u32 (Z.of_nat (allocCount s));
  ok_free : ∀ idx info, m_timers s !! idx = Some info → m_allocated info = false →
    info = TimerInfo_new;
  ok_idle : ∀ idx info, m_timers s !! idx = Some info → m_timeoutCb info = None →
    m_timeoutMs info = 0%Z;
}.

(** The number of timers is below the range of [unsigned], the type of indices
    and of the count. *)
Definition timers_small s : Prop := (Z.of_nat (length (m_timers s)) < u32_max)%Z.

(** The timer of a handle is allocated. *)
Definition is_allocated s (idx : nat) : Prop :=
  ∃ info, m_timers s !! idx = Some info ∧ m_allocated info = true.

(** What an allocation that returns a timer does: the timer was not allocated
    and is idle, the others are as before. *)
Definition allocated_from s s' (idx : nat) : Prop :=
  timers_ok s' ∧ (¬ is_allocated s idx) ∧
  m_timers s' !! idx = Some (set_allocated TimerInfo_new) ∧
  (∀ j, j ≠ idx → m_timers s' !! j = m_timers s !! j).

(** The state after [freeTimer]. *)
Definition free_timer (idx : nat) s : TimerMgr Cb :=
  MkTimerMgr (m_timers (upd_timer idx (λ _, TimerInfo_new) s))
    (u32 (m_allocatedTimers s - 1)).

(** The timeouts are those of a 32-bit [unsigned]. *)
Definition timeouts_u32 s : Prop :=
  ∀ idx info, m_timers s !! idx = Some info → (0 ≤ m_timeoutMs info ≤ u32_max)%Z.

End TimerMgr.
Arguments timers_ok {Cb} _.
Arguments is_allocated {Cb} _ _.

(** ** Lemmas *)

Section lemmas.
  Context `{Config} {Cb : Type}.
  Implicit Types (s : TimerMgr Cb) (info : TimerInfo Cb).

Lemma lookup_upd idx f s j :
  m_timers (upd_timer idx f s) !! j =
    if decide (idx = j) then f <$> m_timers s !! j else m_timers s !! j.
Proof. simpl. rewrite list_lookup_alter. case_decide; by subst. Qed.

Lemma length_upd idx f s : length (m_timers (upd_timer idx f s)) = length (m_timers s).
Proof. apply length_alter. Qed.

Lemma allocCount_upd idx f s info :
  m_timers s !! idx = Some info →
  allocCount (upd_timer idx f s) + Nat.b2n (m_allocated info) =
  allocCount s + Nat.b2n (m_allocated (f info)).
Proof.
  unfold allocCount, upd_timer. simpl. intros Hi.
  rewrite <- (take_drop_middle _ _ _ Hi) at 1 2.
  rewrite alter_app_r_alt by (rewrite length_take; lia).
  rewrite length_take_le by (apply lookup_lt_Some in Hi; lia).
  rewrite Nat.sub_diag. simpl. rewrite !filter_app, !length_app, !filter_cons.
  repeat case_decide; simpl; destruct (m_allocated info), (m_allocated (f info)); simpl;
    (done || lia).
Qed.

Lemma upd_timer_out idx f s : m_timers s !! idx = None → upd_timer idx f s = s.
Proof.
  intros Hi. destruct s as [ts n]. unfold upd_timer. simpl in *. f_equal.
  apply list_eq. intros j. rewrite list_lookup_alter. case_decide; [|done].
  subst. by rewrite Hi.
Qed.

Lemma is_allocated_upd idx f s j :
  (∀ info, m_allocated (f info) = m_allocated info) →
  is_allocated (upd_timer idx f s) j ↔ is_allocated s j.
Proof.
  intros Hf. unfold is_allocated. rewrite lookup_upd. case_decide; [|done].
  split.
  - intros (info & (x & -> & ->)%fmap_Some & Ha). exists x. by rewrite <- (Hf x).
  - intros (info & -> & Ha). exists (f info). by rewrite Hf.
Qed.

(** An update of a timer that leaves the allocation alone. *)
Lemma upd_timer_ok idx f s :
  (∀ info, m_allocated (f info) = m_allocated info) →
  (∀ info, m_timeoutCb (f info) = None → m_timeoutMs info = 0%Z → m_timeoutMs (f info) = 0%Z ) →
  (∀ info, m_timeoutCb (f info) = None → m_timeoutCb info ≠ None → m_timeoutMs (f info) = 0%Z ) →
  (∀ info, m_timers s !! idx = Some info → m_allocated info = true) →
  timers_ok s → timers_ok (upd_timer idx f s).
Proof.
  intros Hf Hidle Hidle' Halloc [Hc Hfr Hi]. split.
  - simpl. rewrite Hc. destruct (m_timers s !! idx) as [info|] eqn:Hl.
    + pose proof (allocCount_upd idx f s info Hl) as Hn. rewrite Hf in Hn. do 2 f_equal. lia.
    + by rewrite upd_timer_out.
  - intros j info. rewrite lookup_upd. case_decide as Hj; [|by apply Hfr].
    subst. intros (x & Hx & ->)%fmap_Some. rewrite Hf, (Halloc _ Hx). done.
  - intros j info. rewrite lookup_upd. case_decide as Hj; [|by apply Hi].
    subst. intros (x & Hx & ->)%fmap_Some Hcb.
    destruct (m_timeoutCb x) eqn:Hx'; [apply Hidle'; [done | congruence]|].
    apply Hidle; [done | by eapply Hi].
Qed.

(** The three functions that update an allocated timer. *)
Lemma timer_at_Some s idx info :
  m_timers s !! idx = Some info → timer_at s (Some idx) = Some (idx, info).
Proof. unfold timer_at. simpl. by intros ->. Qed.

Ltac solve_touch :=
  intros (info & Hi & Ha); unfold mbind, M_bind, gets; cbn -[timer_at];
  rewrite (timer_at_Some _ _ _ Hi); cbn;
  rewrite ?Ha; unfold comms_assert, modify; by destruct Asserts.

Lemma timerWait_eq idx ms (cb : Cb) data s :
  is_allocated s idx →
  timerWait (Some idx) ms cb data s = Ok tt (upd_timer idx (λ info,
    MkTimerInfo ms (Some cb) data (m_allocated info) (m_suspended info)) s).
Proof. unfold timerWait. solve_touch. Qed.

Lemma timerCancel_eq idx s :
  is_allocated s idx → timerCancel (Some idx) s = Ok tt (upd_timer idx clear_timeout s).
Proof. unfold timerCancel. solve_touch. Qed.

Lemma timerSetSuspended_eq idx b s :
  is_allocated s idx →
  timerSetSuspended (Some idx) b s = Ok tt (upd_timer idx (set_suspended b) s).
Proof. unfold timerSetSuspended. solve_touch. Qed.

Lemma timerIsActive_eq idx s info :
  timers_ok s → m_timers s !! idx = Some info → m_allocated info = true →
  timerIsActive (Some idx) s = Ok (bool_decide (is_Some (m_timeoutCb info))) s.
Proof.
  intros Hok Hi Ha. unfold timerIsActive, mbind, M_bind, gets; cbn -[timer_at].
  rewrite (timer_at_Some _ _ _ Hi); cbn. rewrite Ha.
  replace (bool_decide (is_Some (m_timeoutCb info)) || (m_timeoutMs info =? 0)%Z) with true.
  { unfold comms_assert. by destruct Asserts. }
  destruct (m_timeoutCb info) eqn:Hcb; [done|].
  by rewrite (ok_idle _ Hok _ _ Hi Hcb).
Qed.

Lemma Timer_setSuspended_eq idx b s :
  timers_ok s → is_allocated s idx →
  ∃ f, Timer_setSuspended (Some idx) b s = Ok tt (upd_timer idx f s) ∧
    (f = set_suspended b ∨ f = id).
Proof.
  intros Hok (info & Hi & Ha). unfold Timer_setSuspended, mbind, M_bind.
  rewrite (timerIsActive_eq idx s info) by done. case_bool_decide; cbn.
  - exists (set_suspended b). rewrite timerSetSuspended_eq by (by exists info). eauto.
  - exists id. split; [|by right]. f_equal. destruct s as [l n]. unfold upd_timer. simpl.
    by rewrite list_alter_id.
Qed.

(** *** Allocation *)

Lemma u32_add_mod a b : u32 (u32 a + b) = u32 (a + b).
Proof. unfold u32. apply Zplus_mod_idemp_l. Qed.

Lemma u32_small z : (0 ≤ z ≤ u32_max)%Z → u32 z = z.
Proof. unfold u32, u32_max. intros. apply Z.mod_small. lia. Qed.

(** The state after the lambda [createTimer]. *)
Lemma createTimer_ok idx s :
  timers_ok s → m_timers s !! idx = Some TimerInfo_new →
  ∃ s', createTimer idx s = Ok (Some idx) s' ∧ timers_ok s' ∧
    m_timers s' !! idx = Some (set_allocated TimerInfo_new) ∧
    (∀ j, j ≠ idx → m_timers s' !! j = m_timers s !! j) ∧
    length (m_timers s') = length (m_timers s).
Proof.
  intros [Hc Hf Hi] Hl. eexists. split; [done|]. simpl.
  pose proof (lookup_upd idx set_allocated s) as Hlk. simpl in Hlk.
  split; [split; simpl|split; [|split]].
  - pose proof (allocCount_upd idx set_allocated s _ Hl) as Hn. simpl in Hn.
    rewrite Hc, u32_add_mod. unfold allocCount in *. simpl in *. f_equal. lia.
  - intros j info. rewrite Hlk. case_decide; [|apply Hf].
    intros (x & _ & ->)%fmap_Some. done.
  - intros j info. rewrite Hlk. case_decide; [|apply Hi]. subst. rewrite Hl. simpl.
    by intros [= <-].
  - rewrite Hlk, decide_True by done. by rewrite Hl.
  - intros j Hj. rewrite Hlk, decide_False by done. done.
  - apply length_alter.
Qed.

Lemma timers_ok_grow s :
  timers_ok s → timers_ok (MkTimerMgr (m_timers s ++ [TimerInfo_new]) (m_allocatedTimers s)).
Proof.
  intros [Hc Hf Hi]. split; simpl.
  - rewrite Hc. unfold allocCount. simpl. rewrite filter_app, filter_cons_False by done.
    rewrite filter_nil, app_nil_r. done.
  - intros j info [|[_ Hj]]%lookup_app_Some; [by eapply Hf|].
    apply list_lookup_singleton_Some in Hj as [_ <-]. done.
  - intros j info [|[_ Hj]]%lookup_app_Some; [by eapply Hi|].
    apply list_lookup_singleton_Some in Hj as [_ <-]. done.
Qed.

Lemma allocTimer_grow_spec s :
  timers_ok s →
  wp no_fault allocTimer_grow (λ t s',
    match t with
    | Some idx => allocated_from s s' idx
    | None => s' = s ∧
        at_max_size (ObjListType_capacity TimersLimit true) (length (m_timers s)) = true
    end) s.
Proof.
  intros Hok. unfold allocTimer_grow. apply wp_bind, wp_gets.
  destruct (at_max_size _ _) eqn:Hmax; [by apply wp_ret|].
  apply wp_bind, wp_modify. unfold wp.
  destruct (createTimer_ok (length (m_timers s))
    (MkTimerMgr (m_timers s ++ [TimerInfo_new]) (m_allocatedTimers s)))
    as (s' & -> & Hok' & Hidx & Hother & _); [by apply timers_ok_grow| |].
  { simpl. by rewrite lookup_app_r, Nat.sub_diag by lia. }
  split; [done|]. split.
  { intros (info & Hi%lookup_lt_Some & _). lia. }
  split; [done|]. intros j Hj. rewrite (Hother j Hj). simpl.
  destruct (decide (j < length (m_timers s))); [by apply lookup_app_l|].
  rewrite (lookup_ge_None_2 (m_timers s)), lookup_ge_None by lia.
  rewrite length_app. simpl. lia.
Qed.

(** A manager with fewer allocated timers than timers has a free one. *)
Lemma free_timer_exists s :
  timers_ok s → (Z.of_nat (length (m_timers s)) ≤ u32_max)%Z →
  (m_allocatedTimers s < Z.of_nat (length (m_timers s)))%Z →
  list_find (λ info, m_allocated info = false) (m_timers s) ≠ None.
Proof.
  intros Hok Hsmall Hlt Hnone%list_find_None.
  rewrite (ok_count _ Hok) in Hlt.
  assert (allocCount s = length (m_timers s)) as Hall.
  { unfold allocCount. clear -Hnone. induction Hnone as [|x l Hx _ IH]; [done|].
    rewrite filter_cons_True by (by destruct (m_allocated x)). simpl. by rewrite IH. }
  rewrite Hall, u32_small in Hlt by (unfold u32_max in *; lia). lia.
Qed.

(** The specification of [allocTimer]; the assertion holds as long as the count
    of timers did not wrap around. *)
Lemma allocTimer_spec F s :
  timers_ok s → (F FAssert ∨ (Z.of_nat (length (m_timers s)) ≤ u32_max)%Z) →
  wp F allocTimer (λ t s',
    match t with
    | Some idx => allocated_from s s' idx
    | None => s' = s ∧
        at_max_size (ObjListType_capacity TimersLimit true) (length (m_timers s)) = true
    end) s.
Proof.
  intros Hok HF. unfold allocTimer. apply wp_bind, wp_gets.
  pose proof (wp_faults no_fault F _ _ _ (allocTimer_grow_spec s Hok) ltac:(done)) as Hgrow.
  destruct (Z.ltb_spec (m_allocatedTimers s) (Z.of_nat (length (m_timers s)))) as [Hlt|];
    [|done].
  destruct (list_find _ _) as [[idx info]|] eqn:Hfind.
  - apply list_find_Some in Hfind as (Hidx & Hfree & _).
    pose proof (ok_free _ Hok _ _ Hidx Hfree) as ->. unfold wp.
    destruct (createTimer_ok idx s Hok Hidx) as (s' & -> & Hok' & Hl & Hother & _).
    split; [done|]. split; [|done]. intros (x & Hx & Ha). congruence.
  - destruct HF as [HF|Hs]; [|by destruct (free_timer_exists s Hok Hs Hlt)].
    apply wp_bind, wp_comms_assert; done.
Qed.

Lemma allocCount_le s : allocCount s ≤ length (m_timers s).
Proof. unfold allocCount. apply length_filter. Qed.

Lemma allocCount_full s :
  allocCount s = length (m_timers s) → ∀ j, j < length (m_timers s) → is_allocated s j.
Proof.
  unfold allocCount. intros Hc j [info Hi]%lookup_lt_is_Some. exists info. split; [done|].
  destruct (m_allocated info) eqn:Ha; [done|]. exfalso.
  rewrite <- (take_drop_middle _ _ _ Hi), filter_app, filter_cons_False, !length_app in Hc
    by (by rewrite Ha).
  pose proof (length_filter (λ info, m_allocated info = true) (take j (m_timers s))).
  pose proof (length_filter (λ info, m_allocated info = true) (drop (S j) (m_timers s))).
  simpl in Hc. lia.
Qed.

(** C34: a timer manager never gives out a timer that is in use: a
    valid handle is that of a timer that was free and is now allocated and idle,
    and no other timer changes; the handle is invalid only in a build with static
    storage, when every element of the storage is allocated. *)
Theorem allocTimer_fresh s :
  timers_ok s → timers_small s →
  wp no_fault allocTimer (λ t s',
    match t with
    | Some idx => allocated_from s s' idx
    | None => s' = s ∧ 0 < TimersLimit ∧ TimersLimit ≤ length (m_timers s) ∧
        ∀ j, j < length (m_timers s) → is_allocated s j
    end) s.
Proof.
  intros Hok Hs. unfold timers_small in Hs.
  destruct (Z.ltb_spec (m_allocatedTimers s) (Z.of_nat (length (m_timers s)))) as [Hlt|Hge].
  - unfold allocTimer. apply wp_bind, wp_gets.
    rewrite (proj2 (Z.ltb_lt _ _) Hlt).
    destruct (list_find _ _) as [[idx info]|] eqn:Hfind;
      [|by destruct (free_timer_exists s Hok ltac:(lia) Hlt)].
    apply list_find_Some in Hfind as (Hidx & Hfree & _).
    pose proof (ok_free _ Hok _ _ Hidx Hfree) as ->. unfold wp.
    destruct (createTimer_ok idx s Hok Hidx) as (s' & -> & Hok' & Hl & Hother & _).
    split; [done|]. split; [|done]. intros (x & Hx & Ha). congruence.
  - eapply wp_mono; [by apply allocTimer_spec; [|right; lia]|].
    intros [idx|] s'; [done|]. intros [-> Hmax]. split; [done|].
    unfold at_max_size, ObjListType_capacity in Hmax.
    destruct (Nat.eqb_spec TimersLimit 0) as [|Hne]; [done|]. simpl in Hmax.
    apply Nat.leb_le in Hmax. split; [lia|]. split; [done|].
    apply allocCount_full. pose proof (allocCount_le s).
    rewrite (ok_count _ Hok), u32_small in Hge by (unfold u32_max in *; lia). lia.
Qed.

(** *** Destruction *)

Lemma allocCount_pos s idx : is_allocated s idx → 0 < allocCount s.
Proof.
  intros (info & Hi & Ha). unfold allocCount.
  assert (info ∈ filter (λ info, m_allocated info = true) (m_timers s)) as Hin.
  { apply list_elem_of_filter. split; [done|]. by eapply list_elem_of_lookup_2. }
  destruct (filter _ _); [by apply elem_of_nil in Hin | simpl; lia].
Qed.

Lemma Timer_destroy_spec F t s :
  timers_ok s → (∀ idx, t = Some idx → is_allocated s idx) →
  (F FAssert ∨ (Z.of_nat (length (m_timers s)) ≤ u32_max)%Z) →
  wp F (Timer_destroy t) (λ _ s',
    s' = match t with Some idx => free_timer idx s | None => s end) s.
Proof.
  intros Hok Hal HF. destruct t as [idx|]; [|done]. simpl.
  specialize (Hal idx eq_refl). destruct Hal as (info & Hi & Ha).
  unfold freeTimer. apply wp_bind, wp_gets.
  apply wp_bind, wp_comms_assert_true.
  { by rewrite (timer_at_Some _ _ _ Hi). }
  rewrite (timer_at_Some _ _ _ Hi).
  assert (∀ Q : unit → TimerMgr Cb → Prop, Q tt s →
    wp F (comms_assert (0 <? m_allocatedTimers s)%Z) Q s) as Hassert.
  { intros Q HQ. destruct HF as [HF|Hs]; [by apply wp_comms_assert|].
    apply wp_comms_assert_true; [|done]. rewrite (ok_count _ Hok).
    pose proof (allocCount_le s).
    rewrite u32_small by (unfold u32_max in *; lia).
    pose proof (allocCount_pos s idx ltac:(by exists info)). lia. }
  apply wp_bind, Hassert. apply wp_bind, wp_comms_assert_true; [by rewrite Ha|].
  done.
Qed.

Lemma free_timer_ok idx s : timers_ok s → is_allocated s idx → timers_ok (free_timer idx s).
Proof.
  intros [Hc Hf Hi] (info & Hl & Ha).
  pose proof (lookup_upd idx (λ _, TimerInfo_new) s) as Hlk. simpl in Hlk. split; simpl.
  - pose proof (allocCount_upd idx (λ _, TimerInfo_new) s _ Hl) as Hn.
    unfold allocCount in *. simpl in *. rewrite Ha in Hn. simpl in Hn.
    rewrite Hc. rewrite <- Z.add_opp_r, u32_add_mod. f_equal. lia.
  - intros j x. rewrite Hlk. case_decide; [|apply Hf]. by intros (y & _ & ->)%fmap_Some.
  - intros j x. rewrite Hlk. case_decide; [|apply Hi]. by intros (y & _ & ->)%fmap_Some.
Qed.

Lemma is_allocated_free idx s j :
  is_allocated (free_timer idx s) j ↔ j ≠ idx ∧ is_allocated s j.
Proof.
  unfold is_allocated, free_timer. cbn [m_timers]. rewrite lookup_upd. case_decide as Hj.
  - subst. split; [|tauto]. intros (x & (y & _ & ->)%fmap_Some & Hx). done.
  - split; [|tauto]. intros Hx. split; [congruence | done].
Qed.

(** *** Ticks *)

Lemma tick_info_allocated ms info : m_allocated (tick_info ms info) = m_allocated info.
Proof. unfold tick_info. destruct (timer_skipped info), (m_timeoutMs info <=? ms)%Z; done. Qed.

Lemma timer_skipped_false info :
  timer_skipped info = false →
  m_allocated info = true ∧ (∃ cb, m_timeoutCb info = Some cb) ∧ m_suspended info = false.
Proof.
  unfold timer_skipped. destruct (m_allocated info), (m_timeoutCb info) eqn:?, (m_suspended info);
    simpl; try done. eauto.
Qed.

Lemma upd_timer_middle l1 info l2 n f :
  upd_timer (length l1) f (MkTimerMgr (l1 ++ info :: l2) n) =
  MkTimerMgr (l1 ++ f info :: l2) n.
Proof.
  unfold upd_timer. simpl. f_equal. rewrite alter_app_r_alt by lia.
  by rewrite Nat.sub_diag.
Qed.

(** One iteration of the loop of [tick]. *)
Lemma tick_loop_eq ms l1 l2 n (cbs : list (Cb * addr)) :
  tick_loop (seq (length l1) (length l2)) ms cbs (MkTimerMgr (l1 ++ l2) n) =
  Ok (cbs ++ omap (fires ms) l2) (MkTimerMgr (l1 ++ (tick_info ms <$> l2)) n).
Proof.
  revert l1 cbs. induction l2 as [|info l2 IH]; intros l1 cbs; simpl.
  { by rewrite !app_nil_r. }
  assert (∀ info' cbs', tick_loop (seq (S (length l1)) (length l2)) ms cbs'
    (MkTimerMgr (l1 ++ info' :: l2) n) = Ok (cbs' ++ omap (fires ms) l2)
      (MkTimerMgr (l1 ++ info' :: (tick_info ms <$> l2)) n)) as IH'.
  { intros info' cbs'. specialize (IH (l1 ++ [info']) cbs').
    rewrite length_app, Nat.add_1_r, <- !app_assoc in IH. done. }
  unfold mbind at 1, M_bind at 1, gets at 1. cbn [m_timers].
  rewrite list_lookup_middle by done.
  unfold fires, expires, tick_info. destruct (timer_skipped info) eqn:Hs; simpl.
  { rewrite <- IH'. by destruct (m_timeoutCb info). }
  apply timer_skipped_false in Hs as (Ha & (cb & Hcb) & Hsus). rewrite Hcb.
  destruct (m_timeoutMs info <=? ms)%Z; simpl; unfold mbind, M_bind.
  - rewrite timerCancel_eq, upd_timer_middle, IH', <- app_assoc; [done|].
    exists info. split; [by apply list_lookup_middle | done].
  - unfold modify. by rewrite upd_timer_middle, IH', Hcb.
Qed.

Lemma tick_collect_eq ms s :
  tick_collect ms s =
  Ok (omap (fires ms) (m_timers s))
     (MkTimerMgr (tick_info ms <$> m_timers s) (m_allocatedTimers s)).
Proof. destruct s as [l n]. exact (tick_loop_eq ms [] l n []). Qed.

(** C32: one pass of [tick] calls exactly the timeout functions of the allocated,
    waiting and not suspended timers whose time has come, in the order of the
    timers, cancels these timers, takes the elapsed time off the other running
    ones, and leaves the rest alone; it never fails. *)
Theorem tick_collect_spec ms s :
  tick_collect ms s =
  Ok (omap (fires ms) (m_timers s))
     (MkTimerMgr (tick_info ms <$> m_timers s) (m_allocatedTimers s)).
Proof. apply tick_collect_eq. Qed.

Lemma tick_info_add a b info :
  (0 ≤ a)%Z → (0 ≤ b)%Z → tick_info b (tick_info a info) = tick_info (a + b) info.
Proof.
  intros Ha Hb. unfold tick_info. destruct (timer_skipped info) eqn:Hs.
  { by rewrite Hs. }
  destruct (Z.leb_spec (m_timeoutMs info) a), (Z.leb_spec (m_timeoutMs info) (a + b)); try lia.
  - assert (timer_skipped (clear_timeout info) = true) as ->; [|done].
    unfold timer_skipped, clear_timeout. simpl. destruct (m_allocated info); done.
  - unfold timer_skipped in *. simpl in *. rewrite Hs.
    destruct (Z.leb_spec (m_timeoutMs info - a) b); [done | lia].
  - unfold timer_skipped in *. simpl in *. rewrite Hs.
    destruct (Z.leb_spec (m_timeoutMs info - a) b); [lia|]. f_equal. lia.
Qed.

Lemma fires_add a b info :
  (0 ≤ a)%Z → (0 ≤ b)%Z →
  fires (a + b) info =
    match fires a info with Some x => Some x | None => fires b (tick_info a info) end ∧
  (fires a info ≠ None → fires b (tick_info a info) = None).
Proof.
  intros Ha Hb. unfold fires, expires, tick_info.
  destruct (timer_skipped info) eqn:Hs; simpl; [by rewrite Hs|].
  pose proof (timer_skipped_false _ Hs) as (_ & (cb & Hcb) & _).
  destruct (Z.leb_spec (m_timeoutMs info) a).
  - destruct (Z.leb_spec (m_timeoutMs info) (a + b)); [|lia]. rewrite Hcb. simpl.
    split; [done|]. intros _. unfold timer_skipped. simpl. by destruct (m_allocated info).
  - unfold timer_skipped in *. simpl in *. rewrite Hs, Hcb. simpl.
    split; [|done]. by destruct (Z.leb_spec (m_timeoutMs info - a) b),
      (Z.leb_spec (m_timeoutMs info) (a + b)); try lia.
Qed.

(** time may be reported in pieces: two passes of [tick] have the
    effect of a single one with the sum, and call the same timeout functions
    with the same data (those of the first pass first). *)
Theorem tick_collect_add a b s :
  (0 ≤ a)%Z → (0 ≤ b)%Z →
  wp no_fault (x ← tick_collect a; y ← tick_collect b; mret (x ++ y)) (λ cbs s',
    wp no_fault (tick_collect (a + b)) (λ cbs' s'', s'' = s' ∧ cbs ≡ₚ cbs') s) s.
Proof.
  intros Ha Hb. unfold wp, mbind, M_bind, mret, M_ret. rewrite !tick_collect_eq.
  cbn. split.
  - f_equal. rewrite <- list_fmap_compose. apply list_fmap_ext. intros _ info _.
    symmetry. by apply tick_info_add.
  - induction (m_timers s) as [|info l IH]; [done|]. cbn.
    destruct (fires_add a b info Ha Hb) as [-> Hnone].
    destruct (fires a info) as [x|]; cbn.
    + rewrite Hnone by done. by rewrite IH.
    + destruct (fires b (tick_info a info)) as [y|]; [|done].
      rewrite <- IH. by rewrite Permutation_middle.
Qed.

(** *** The next wake-up *)

Lemma tick_collect_ok ms s : timers_ok s →
  timers_ok (MkTimerMgr (tick_info ms <$> m_timers s) (m_allocatedTimers s)).
Proof.
  intros [Hc Hf Hi]. split; simpl.
  - rewrite Hc. unfold allocCount. simpl. do 2 f_equal.
    clear. induction (m_timers s) as [|x l IH]; [done|]. simpl. rewrite !filter_cons.
    rewrite tick_info_allocated. case_decide; simpl; by rewrite IH.
  - intros j info. rewrite list_lookup_fmap. intros (x & Hx & ->)%fmap_Some.
    rewrite tick_info_allocated. intros Ha. rewrite (Hf _ _ Hx Ha). done.
  - intros j info. rewrite list_lookup_fmap. intros (x & Hx & ->)%fmap_Some.
    unfold tick_info. destruct (timer_skipped x) eqn:Hs; [by eapply Hi|].
    apply timer_skipped_false in Hs as (_ & (cb & Hcb) & _).
    destruct (m_timeoutMs x <=? ms)%Z; simpl; [done | congruence].
Qed.

Lemma min_fold_spec r (l : list (TimerInfo Cb)) :
  let m := foldl (λ result info,
    if timer_skipped info then result else Z.min result (m_timeoutMs info)) r l in
  (m ≤ r)%Z ∧
  Forall (λ info, timer_skipped info = false → m ≤ m_timeoutMs info)%Z l ∧
  (m = r ∨ Exists (λ info, timer_skipped info = false ∧ m = m_timeoutMs info) l).
Proof.
  revert r. induction l as [|info l IH]; intros r; simpl; [split; [lia | auto]|].
  destruct (timer_skipped info) eqn:Hs.
  - destruct (IH r) as (Hle & Hall & Hex). split; [done|].
    split; [constructor; [intros; congruence | done]|]. destruct Hex; auto.
  - destruct (IH (Z.min r (m_timeoutMs info))) as (Hle & Hall & Hex).
    split; [lia|]. split; [constructor; [lia | done]|].
    destruct Hex as [Heq|Hex]; [|by right; right].
    destruct (Z.min_spec r (m_timeoutMs info)) as [[_ Hm]|[_ Hm]]; rewrite Hm in Heq at 2.
    + by left.
    + right. left. done.
Qed.

Lemma fires_nil ms (l : list (TimerInfo Cb)) :
  omap (fires ms) l = [] ↔ Forall (λ info, expires ms info = false) l.
Proof.
  induction l as [|info l IH]; [done|]. simpl. rewrite Forall_cons, <- IH.
  unfold fires. destruct (expires ms info) eqn:He; [|naive_solver].
  unfold expires in He. apply andb_true_iff in He as [He _].
  apply negb_true_iff, timer_skipped_false in He as (_ & (cb & ->) & _). simpl. naive_solver.
Qed.

Lemma expires_iff ms info :
  expires ms info = false ↔ timer_skipped info = true ∨ (ms < m_timeoutMs info)%Z.
Proof. unfold expires. destruct (timer_skipped info); simpl; [naive_solver|].
  destruct (Z.leb_spec (m_timeoutMs info) ms); naive_solver lia. Qed.

(** [getMinWait] is 0 and no timer runs, or it is the least of the times of the
    running timers. *)
Lemma getMinWait_cases s :
  timers_ok s → timers_small s → timeouts_u32 s →
  (getMinWait s = 0%Z ∧ Forall (λ info, timer_skipped info = true) (m_timers s)) ∨
  (Forall (λ info, timer_skipped info = false → (getMinWait s ≤ m_timeoutMs info)%Z)
     (m_timers s) ∧
   Exists (λ info, timer_skipped info = false ∧ getMinWait s = m_timeoutMs info)
     (m_timers s)).
Proof.
  intros Hok Hsmall Hu. unfold timers_small in Hsmall. unfold getMinWait.
  destruct (min_fold_spec u64_max (m_timers s)) as (Hle & Hall & Hex).
  set (m := foldl _ _ _) in *.
  destruct (Z.eqb_spec (m_allocatedTimers s) 0) as [Hz|Hz].
  { left. split; [done|]. apply Forall_lookup. intros idx info Hi.
    unfold timer_skipped. destruct (m_allocated info) eqn:Ha; [|done]. exfalso.
    pose proof (allocCount_pos s idx ltac:(by exists info)). pose proof (allocCount_le s).
    rewrite (ok_count _ Hok), u32_small in Hz by (unfold u32_max in *; lia). lia. }
  destruct (Z.eqb_spec m u64_max) as [Hm|Hm].
  - left. split; [done|]. apply Forall_lookup. intros idx info Hi.
    rewrite Forall_lookup in Hall. specialize (Hall _ _ Hi). specialize (Hu _ _ Hi).
    destruct (timer_skipped info); [done|]. specialize (Hall eq_refl).
    unfold u64_max, u32_max in *. lia.
  - right. destruct Hex as [|Hex]; [done|].
    assert (Z.min m u32_max = m) as ->; [|done].
    apply Exists_exists in Hex as (info & [idx Hi]%list_elem_of_lookup & _ & ->).
    specialize (Hu _ _ Hi). lia.
Qed.

(** C33: the time after which the next tick is requested: no timeout
    function is due before it, and if it is not zero one is due when it has
    elapsed; it is zero exactly when no timer runs or one is already due (so
    that a timer started with a zero timeout never gets a tick of its own). *)
Theorem getMinWait_spec s :
  timers_ok s → timers_small s → timeouts_u32 s →
  (∀ ms, (ms < getMinWait s)%Z → omap (fires ms) (m_timers s) = []) ∧
  (getMinWait s ≠ 0%Z → omap (fires (getMinWait s)) (m_timers s) ≠ []) ∧
  (getMinWait s = 0%Z ↔
    Forall (λ info, timer_skipped info = true) (m_timers s) ∨
    omap (fires 0) (m_timers s) ≠ []).
Proof.
  intros Hok Hsmall Hu.
  destruct (getMinWait_cases s Hok Hsmall Hu) as [[-> Hskip]|[Hall Hex]].
  { assert (∀ ms, omap (fires ms) (m_timers s) = []) as Hnil.
    { intros ms. apply fires_nil. eapply Forall_impl; [done|]. intros info Hs.
      apply expires_iff. by left. }
    split; [done|]. split; [done | naive_solver]. }
  pose proof Hex as (info & Hin & Hs & Hw)%Exists_exists. split; [|split].
  - intros ms Hms. apply fires_nil. eapply Forall_impl; [exact Hall|]. intros x Hx.
    apply expires_iff. destruct (timer_skipped x) eqn:Hsx; [by left | right].
    specialize (Hx Hsx). lia.
  - intros _ Hnil%fires_nil. rewrite Forall_forall in Hnil.
    specialize (Hnil _ Hin). apply expires_iff in Hnil as [|]; [congruence | lia].
  - split.
    + intros Hz. right. intros Hnil%fires_nil. rewrite Forall_forall in Hnil.
      specialize (Hnil _ Hin). apply expires_iff in Hnil as [|]; [congruence | lia].
    + intros [Hskip|Hnil].
      * rewrite Forall_forall in Hskip. specialize (Hskip _ Hin). simpl in Hskip. congruence.
      * apply dec_stable. intros Hnz. apply Hnil, fires_nil.
        eapply Forall_impl; [exact Hall|]. intros x Hx. apply expires_iff.
        destruct (timer_skipped x) eqn:Hsx; [by left | right]. specialize (Hx Hsx).
        apply list_elem_of_lookup in Hin as [idx Hi]. specialize (Hu _ _ Hi). lia.
Qed.
End lemmas.

(** ** Witnesses *)

(** Three timers: one that runs, one that is suspended, one that is free. *)
Definition timers_example : TimerMgr nat :=
  MkTimerMgr [MkTimerInfo 50 (Some 7) 1 true false; MkTimerInfo 20 (Some 8) 2 true true;
              TimerInfo_new] 2.

Lemma timers_example_ok : timers_ok timers_example.
Proof.
  split; [done | |]; intros idx info Hi;
    destruct idx as [|[|[|idx]]]; simplify_eq/=; done.
Defined.

Example allocTimer_fresh_witness :
  timers_ok timers_example ∧
  wp no_fault (allocTimer (H := DefaultConfig)) (λ t s',
    match t with
    | Some idx => allocated_from timers_example s' idx
    | None => s' = timers_example ∧ 0 < TimersLimit (H := DefaultConfig) ∧
        TimersLimit (H := DefaultConfig) ≤ length (m_timers timers_example) ∧
        ∀ j, j < length (m_timers timers_example) → is_allocated timers_example j
    end) timers_example.
Proof.
  split; [exact timers_example_ok|].
  apply (allocTimer_fresh (H := DefaultConfig) timers_example timers_example_ok).
  reflexivity.
Defined.

Example tick_collect_add_witness :
  (0 ≤ 30)%Z ∧
  wp no_fault (x ← tick_collect (H := DefaultConfig) 30; y ← tick_collect (H := DefaultConfig) 40;
               mret (x ++ y)) (λ cbs s',
    wp no_fault (tick_collect (H := DefaultConfig) (30 + 40)) (λ cbs' s'', s'' = s' ∧ cbs ≡ₚ cbs')
      timers_example) timers_example.
Proof.
  split; [lia|]. apply (tick_collect_add (H := DefaultConfig) 30 40 timers_example); lia.
Defined.

Example getMinWait_spec_witness :
  timers_ok timers_example ∧ timers_small timers_example ∧ timeouts_u32 timers_example ∧
  getMinWait timers_example = 50%Z ∧
  omap (fires (getMinWait timers_example)) (m_timers timers_example) ≠ [].
Proof.
  assert (timers_small timers_example) as Hs by done.
  assert (timeouts_u32 timers_example) as Hu.
  { intros idx info Hi. destruct idx as [|[|[|idx]]]; simplify_eq/=; done. }
  split; [exact timers_example_ok|]. split; [exact Hs|]. split; [exact Hu|].
  split; [done|].
  apply (getMinWait_spec timers_example timers_example_ok Hs Hu). done.
Defined.
