(* ===== verification/State.v ===== *)
(** * The state of a client

    The operation objects ([class Op] and its subclasses, client/lib/src/op),
    the state structures ([ConfigState.h], [SessionState.h], [ReuseState.h]) and
    [class ClientImpl] (client/lib/src/ClientImpl.h).

    Operation objects live in a store indexed by addresses that are never
    reused: the lists of [ClientImpl] hold addresses, and a member access
    through an address that is not in the store is a use after destruction.
    The callbacks of the application are events, appended to a trace, followed
    by the reaction of the application, an arbitrary computation on the state
    of the client ([App]). *)

From S2P Require Import Prelude Config Protocol PacketId TimerMgr.

(** ** Operation objects *)

(** [Op::Type] *)
Inductive OpType :=
  | Type_Connect | Type_KeepAlive | Type_Disconnect | Type_Subscribe
  | Type_Unsubscribe | Type_Recv | Type_Send.

#[export] Instance OpType_eq_dec : EqDecision OpType.
Proof. solve_decision. Defined.

(** A callback of the application with its data pointer; [None] is [nullptr]. *)
Definition UserCb : Type := option nat.

Record ConnectOp := MkConnectOp {
  co_connectMsg : ConnectMsg;
  co_timer : Timer;
  co_cb : UserCb;
}.

Record KeepAliveOp := MkKeepAliveOp {
  ka_pingTimer : Timer;
  ka_recvTimer : Timer;
  ka_respTimer : Timer;
}.

Record DisconnectOp := MkDisconnectOp { }.

Record SubscribeOp := MkSubscribeOp {
  su_packetId : Z;
  su_list : list (string * Z);
  su_timer : Timer;
  su_cb : UserCb;
}.

Record UnsubscribeOp := MkUnsubscribeOp {
  un_packetId : Z;
  un_list : list string;
  un_timer : Timer;
  un_cb : UserCb;
}.

Record RecvOp := MkRecvOp {
  ro_responseTimer : Timer;
  ro_packetId : Z;
}.

Record SendOp := MkSendOp {
  so_responseTimer : Timer;
  so_pubMsg : PublishMsg;
  so_cb : UserCb;
  so_totalSendAttempts : Z;
  so_sendAttempts : Z;
  so_published : bool;
  so_acked : bool;
  so_paused : bool;
}.

(** The subclasses of [Op], and an object: the members of the base class and
    those of the subclass. *)
Inductive Derived :=
  | DConnect (o : ConnectOp)
  | DKeepAlive (o : KeepAliveOp)
  | DDisconnect (o : DisconnectOp)
  | DSubscribe (o : SubscribeOp)
  | DUnsubscribe (o : UnsubscribeOp)
  | DRecv (o : RecvOp)
  | DSend (o : SendOp).

Record Op := MkOp {
  op_responseTimeoutMs : Z;
  op_derived : Derived;
}.

(** [typeImpl()] of the subclasses. *)
Definition typeImpl (d : Derived) : OpType :=
  match d with
  | DConnect _ => Type_Connect
  | DKeepAlive _ => Type_KeepAlive
  | DDisconnect _ => Type_Disconnect
  | DSubscribe _ => Type_Subscribe
  | DUnsubscribe _ => Type_Unsubscribe
  | DRecv _ => Type_Recv
  | DSend _ => Type_Send
  end.

Definition Op_type (o : Op) : OpType := typeImpl (op_derived o).

(** The packet identifier that the destructor releases (0 is none). *)
Definition held_packetId (d : Derived) : Z :=
  match d with
  | DSubscribe o => su_packetId o
  | DUnsubscribe o => un_packetId o
  | DSend o => pub_packetId (so_pubMsg o)
  | _ => 0%Z
  end.

(** The timers that the destructor frees, in the order of their destruction. *)
Definition held_timers (d : Derived) : list Timer :=
  match d with
  | DConnect o => [co_timer o]
  | DKeepAlive o => [ka_respTimer o; ka_recvTimer o; ka_pingTimer o]
  | DDisconnect _ => []
  | DSubscribe o => [su_timer o]
  | DUnsubscribe o => [un_timer o]
  | DRecv o => [ro_responseTimer o]
  | DSend o => [so_responseTimer o]
  end.

(** The static members given to [TimerMgr::Timer::wait]. *)
Inductive TimeoutCb :=
  | ConnectOp_opTimeoutCb
  | KeepAliveOp_sendPingCb
  | KeepAliveOp_recvTimeoutCb
  | KeepAliveOp_pingTimeoutCb
  | SubscribeOp_opTimeoutCb
  | UnsubscribeOp_opTimeoutCb
  | RecvOp_recvTimeoutCb
  | SendOp_recvTimeoutCb.

#[export] Instance TimeoutCb_eq_dec : EqDecision TimeoutCb.
Proof. solve_decision. Defined.

(** The type of the object its data pointer is cast to. *)
Definition TimeoutCb_type (cb : TimeoutCb) : OpType :=
  match cb with
  | ConnectOp_opTimeoutCb => Type_Connect
  | KeepAliveOp_sendPingCb | KeepAliveOp_recvTimeoutCb
  | KeepAliveOp_pingTimeoutCb => Type_KeepAlive
  | SubscribeOp_opTimeoutCb => Type_Subscribe
  | UnsubscribeOp_opTimeoutCb => Type_Unsubscribe
  | RecvOp_recvTimeoutCb => Type_Recv
  | SendOp_recvTimeoutCb => Type_Send
  end.

(** A subclass: what a [static_cast] from and to [Op] does. *)
Class Subclass (T : Type) := {
  upcast : T → Derived;
  downcast : Derived → option T;
  downcast_upcast : ∀ o, downcast (upcast o) = Some o;
  upcast_downcast : ∀ d o, downcast d = Some o → d = upcast o;
}.

Local Ltac solve_subclass :=
  intros; simpl in *;
  repeat match goal with d : Derived |- _ => destruct d end; congruence.

#[export, refine] Instance ConnectOp_subclass : Subclass ConnectOp := {|
  upcast := DConnect;
  downcast := λ d, match d with DConnect o => Some o | _ => None end |}.
Proof. all: solve_subclass. Defined.
#[export, refine] Instance KeepAliveOp_subclass : Subclass KeepAliveOp := {|
  upcast := DKeepAlive;
  downcast := λ d, match d with DKeepAlive o => Some o | _ => None end |}.
Proof. all: solve_subclass. Defined.
#[export, refine] Instance DisconnectOp_subclass : Subclass DisconnectOp := {|
  upcast := DDisconnect;
  downcast := λ d, match d with DDisconnect o => Some o | _ => None end |}.
Proof. all: solve_subclass. Defined.
#[export, refine] Instance SubscribeOp_subclass : Subclass SubscribeOp := {|
  upcast := DSubscribe;
  downcast := λ d, match d with DSubscribe o => Some o | _ => None end |}.
Proof. all: solve_subclass. Defined.
#[export, refine] Instance UnsubscribeOp_subclass : Subclass UnsubscribeOp := {|
  upcast := DUnsubscribe;
  downcast := λ d, match d with DUnsubscribe o => Some o | _ => None end |}.
Proof. all: solve_subclass. Defined.
#[export, refine] Instance RecvOp_subclass : Subclass RecvOp := {|
  upcast := DRecv;
  downcast := λ d, match d with DRecv o => Some o | _ => None end |}.
Proof. all: solve_subclass. Defined.
#[export, refine] Instance SendOp_subclass : Subclass SendOp := {|
  upcast := DSend;
  downcast := λ d, match d with DSend o => Some o | _ => None end |}.
Proof. all: solve_subclass. Defined.

(** ** State structures *)

Record ConfigState := MkConfigState {
  cfg_responseTimeoutMs : Z;
  cfg_publishOrdering : CC_Mqtt311PublishOrdering;
  cfg_verifyOutgoingTopic : bool;
  cfg_verifyIncomingTopic : bool;
  cfg_verifySubFilter : bool;
}.

Definition ConfigState_new `{Config} : ConfigState :=
  MkConfigState 2000 PublishOrdering_SameQos HasTopicFormatVerification
    HasTopicFormatVerification HasSubTopicVerification.

Record SessionState := MkSessionState {
  ses_keepAliveMs : Z;
  ses_connected : bool;
  ses_disconnecting : bool;
}.

Definition SessionState_new : SessionState := MkSessionState 0 false false.

Record ReuseState := MkReuseState { reu_subFilters : list string }.

Definition ReuseState_new : ReuseState := MkReuseState [].

(** ** Callbacks *)

(** What the command line applications do outside of the client, which their model notes
    in the trace: [doTerminate], its posting to the event loop, and the report of the
    network session that the connection is lost. *)
Inductive AppAction :=
  | Act_Stop (result : Z)
  | Act_Post (result : Z)
  | Act_NetworkDown.

Inductive Event :=
  | EvNextTickProgram (duration : Z)
  | EvCancelNextTickWait
  | EvSendOutputData (msg : ProtMessage) (buf : bytes)
  | EvBrokerDisconnectReport (reason : CC_Mqtt311BrokerDisconnectReason)
  | EvMessageReceived (info : CC_Mqtt311MessageInfo)
  | EvConnectComplete (op : addr) (cb : nat) (status : CC_Mqtt311AsyncOpStatus)
      (response : option CC_Mqtt311ConnectResponse)
  | EvSubscribeComplete (op : addr) (cb : nat) (status : CC_Mqtt311AsyncOpStatus)
      (returnCodes : option (list Z))
  | EvUnsubscribeComplete (op : addr) (cb : nat) (status : CC_Mqtt311AsyncOpStatus)
  | EvPublishComplete (op : addr) (cb : nat) (status : CC_Mqtt311AsyncOpStatus)
  | EvApp (act : AppAction).

(** Which of the callbacks of the client are set. *)
Record Callbacks := MkCallbacks {
  has_nextTickProgramCb : bool;
  has_cancelNextTickWaitCb : bool;
  has_sendOutputDataCb : bool;
  has_brokerDisconnectReportCb : bool;
  has_messageReceivedReportCb : bool;
}.

Definition Callbacks_none : Callbacks := MkCallbacks false false false false false.
Definition Callbacks_all : Callbacks := MkCallbacks true true true true true.

(** ** ClientImpl *)

(** The seven lists of owned operations. *)
Record OpLists := MkOpLists {
  m_connectOps : list addr;
  m_keepAliveOps : list addr;
  m_disconnectOps : list addr;
  m_subscribeOps : list addr;
  m_unsubscribeOps : list addr;
  m_recvOps : list addr;
  m_sendOps : list addr;
}.

Definition OpLists_new : OpLists := MkOpLists [] [] [] [] [] [] [].

Definition list_of (T : OpType) (l : OpLists) : list addr :=
  match T with
  | Type_Connect => m_connectOps l
  | Type_KeepAlive => m_keepAliveOps l
  | Type_Disconnect => m_disconnectOps l
  | Type_Subscribe => m_subscribeOps l
  | Type_Unsubscribe => m_unsubscribeOps l
  | Type_Recv => m_recvOps l
  | Type_Send => m_sendOps l
  end.

Definition set_list (T : OpType) (v : list addr) (l : OpLists) : OpLists :=
  let pick T' := if decide (T = T') then v else list_of T' l in
  MkOpLists (pick Type_Connect) (pick Type_KeepAlive) (pick Type_Disconnect)
    (pick Type_Subscribe) (pick Type_Unsubscribe) (pick Type_Recv) (pick Type_Send).

Lemma list_of_set_list T T' v ls :
  list_of T' (set_list T v ls) = if decide (T = T') then v else list_of T' ls.
Proof. by destruct T, T'. Qed.

(** The members of [ClientImpl]; then the store of objects with the next fresh
    address, how often the vectors that are iterated while they can change were
    modified ([m_ops], and [m_sendOps] by an insertion or a removal), and the trace
    of callbacks. *)
Record ClientImpl := MkClientImpl {
  m_callbacks : Callbacks;
  m_configState : ConfigState;
  m_clientState : ClientState;
  m_sessionState : SessionState;
  m_reuseState : ReuseState;
  m_timerMgr : TimerMgr TimeoutCb;
  m_apiEnterCount : Z;
  m_lists : OpLists;
  m_ops : list (option addr);
  m_opsDeleted : bool;
  m_preparationLocked : bool;
  g_store : gmap addr Op;
  g_next : addr;
  g_opsChanges : nat;
  g_sendOpsPushes : nat;
  g_sendOpsErases : nat;
  g_trace : list Event;
}.

Definition ClientImpl_new `{Config} : ClientImpl :=
  MkClientImpl Callbacks_none ConfigState_new ClientState_new SessionState_new
    ReuseState_new TimerMgr_new 0 OpLists_new [] false false ∅ 1 0 0 0 [].

(** Assignments to the members. *)
Definition set_callbacks (v : Callbacks) (s : ClientImpl) : ClientImpl :=
  MkClientImpl v (m_configState s) (m_clientState s) (m_sessionState s)
    (m_reuseState s) (m_timerMgr s) (m_apiEnterCount s) (m_lists s) (m_ops s)
    (m_opsDeleted s) (m_preparationLocked s) (g_store s) (g_next s) (g_opsChanges s)
    (g_sendOpsPushes s) (g_sendOpsErases s) (g_trace s).
Definition set_configState (v : ConfigState) (s : ClientImpl) : ClientImpl :=
  MkClientImpl (m_callbacks s) v (m_clientState s) (m_sessionState s) (m_reuseState s)
    (m_timerMgr s) (m_apiEnterCount s) (m_lists s) (m_ops s) (m_opsDeleted s)
    (m_preparationLocked s) (g_store s) (g_next s) (g_opsChanges s)
    (g_sendOpsPushes s) (g_sendOpsErases s) (g_trace s).
Definition set_clientState (v : ClientState) (s : ClientImpl) : ClientImpl :=
  MkClientImpl (m_callbacks s) (m_configState s) v (m_sessionState s) (m_reuseState s)
    (m_timerMgr s) (m_apiEnterCount s) (m_lists s) (m_ops s) (m_opsDeleted s)
    (m_preparationLocked s) (g_store s) (g_next s) (g_opsChanges s)
    (g_sendOpsPushes s) (g_sendOpsErases s) (g_trace s).
Definition set_sessionState (v : SessionState) (s : ClientImpl) : ClientImpl :=
  MkClientImpl (m_callbacks s) (m_configState s) (m_clientState s) v (m_reuseState s)
    (m_timerMgr s) (m_apiEnterCount s) (m_lists s) (m_ops s) (m_opsDeleted s)
    (m_preparationLocked s) (g_store s) (g_next s) (g_opsChanges s)
    (g_sendOpsPushes s) (g_sendOpsErases s) (g_trace s).
Definition set_reuseState (v : ReuseState) (s : ClientImpl) : ClientImpl :=
  MkClientImpl (m_callbacks s) (m_configState s) (m_clientState s) (m_sessionState s)
    v (m_timerMgr s) (m_apiEnterCount s) (m_lists s) (m_ops s) (m_opsDeleted s)
    (m_preparationLocked s) (g_store s) (g_next s) (g_opsChanges s)
    (g_sendOpsPushes s) (g_sendOpsErases s) (g_trace s).
Definition set_timerMgr (v : TimerMgr TimeoutCb) (s : ClientImpl) : ClientImpl :=
  MkClientImpl (m_callbacks s) (m_configState s) (m_clientState s) (m_sessionState s)
    (m_reuseState s) v (m_apiEnterCount s) (m_lists s) (m_ops s) (m_opsDeleted s)
    (m_preparationLocked s) (g_store s) (g_next s) (g_opsChanges s)
    (g_sendOpsPushes s) (g_sendOpsErases s) (g_trace s).
Definition set_apiEnterCount (v : Z) (s : ClientImpl) : ClientImpl :=
  MkClientImpl (m_callbacks s) (m_configState s) (m_clientState s) (m_sessionState s)
    (m_reuseState s) (m_timerMgr s) v (m_lists s) (m_ops s) (m_opsDeleted s)
    (m_preparationLocked s) (g_store s) (g_next s) (g_opsChanges s)
    (g_sendOpsPushes s) (g_sendOpsErases s) (g_trace s).
Definition set_lists (v : OpLists) (s : ClientImpl) : ClientImpl :=
  MkClientImpl (m_callbacks s) (m_configState s) (m_clientState s) (m_sessionState s)
    (m_reuseState s) (m_timerMgr s) (m_apiEnterCount s) v (m_ops s) (m_opsDeleted s)
    (m_preparationLocked s) (g_store s) (g_next s) (g_opsChanges s)
    (g_sendOpsPushes s) (g_sendOpsErases s) (g_trace s).
Definition set_ops (v : list (option addr)) (s : ClientImpl) : ClientImpl :=
  MkClientImpl (m_callbacks s) (m_configState s) (m_clientState s) (m_sessionState s)
    (m_reuseState s) (m_timerMgr s) (m_apiEnterCount s) (m_lists s) v (m_opsDeleted s)
    (m_preparationLocked s) (g_store s) (g_next s) (g_opsChanges s)
    (g_sendOpsPushes s) (g_sendOpsErases s) (g_trace s).
Definition set_opsDeleted (v : bool) (s : ClientImpl) : ClientImpl :=
  MkClientImpl (m_callbacks s) (m_configState s) (m_clientState s) (m_sessionState s)
    (m_reuseState s) (m_timerMgr s) (m_apiEnterCount s) (m_lists s) (m_ops s) v
    (m_preparationLocked s) (g_store s) (g_next s) (g_opsChanges s)
    (g_sendOpsPushes s) (g_sendOpsErases s) (g_trace s).
Definition set_preparationLocked (v : bool) (s : ClientImpl) : ClientImpl :=
  MkClientImpl (m_callbacks s) (m_configState s) (m_clientState s) (m_sessionState s)
    (m_reuseState s) (m_timerMgr s) (m_apiEnterCount s) (m_lists s) (m_ops s)
    (m_opsDeleted s) v (g_store s) (g_next s) (g_opsChanges s) (g_sendOpsPushes s)
    (g_sendOpsErases s) (g_trace s).
Definition set_store (v : gmap addr Op) (s : ClientImpl) : ClientImpl :=
  MkClientImpl (m_callbacks s) (m_configState s) (m_clientState s) (m_sessionState s)
    (m_reuseState s) (m_timerMgr s) (m_apiEnterCount s) (m_lists s) (m_ops s)
    (m_opsDeleted s) (m_preparationLocked s) v (g_next s) (g_opsChanges s)
    (g_sendOpsPushes s) (g_sendOpsErases s) (g_trace s).
Definition set_next (v : addr) (s : ClientImpl) : ClientImpl :=
  MkClientImpl (m_callbacks s) (m_configState s) (m_clientState s) (m_sessionState s)
    (m_reuseState s) (m_timerMgr s) (m_apiEnterCount s) (m_lists s) (m_ops s)
    (m_opsDeleted s) (m_preparationLocked s) (g_store s) v (g_opsChanges s)
    (g_sendOpsPushes s) (g_sendOpsErases s) (g_trace s).
Definition set_opsChanges (v : nat) (s : ClientImpl) : ClientImpl :=
  MkClientImpl (m_callbacks s) (m_configState s) (m_clientState s) (m_sessionState s)
    (m_reuseState s) (m_timerMgr s) (m_apiEnterCount s) (m_lists s) (m_ops s)
    (m_opsDeleted s) (m_preparationLocked s) (g_store s) (g_next s) v
    (g_sendOpsPushes s) (g_sendOpsErases s) (g_trace s).
Definition set_sendOpsPushes (v : nat) (s : ClientImpl) : ClientImpl :=
  MkClientImpl (m_callbacks s) (m_configState s) (m_clientState s) (m_sessionState s)
    (m_reuseState s) (m_timerMgr s) (m_apiEnterCount s) (m_lists s) (m_ops s)
    (m_opsDeleted s) (m_preparationLocked s) (g_store s) (g_next s) (g_opsChanges s) v
    (g_sendOpsErases s) (g_trace s).
Definition set_sendOpsErases (v : nat) (s : ClientImpl) : ClientImpl :=
  MkClientImpl (m_callbacks s) (m_configState s) (m_clientState s) (m_sessionState s)
    (m_reuseState s) (m_timerMgr s) (m_apiEnterCount s) (m_lists s) (m_ops s)
    (m_opsDeleted s) (m_preparationLocked s) (g_store s) (g_next s) (g_opsChanges s)
    (g_sendOpsPushes s) v (g_trace s).
Definition set_trace (v : list Event) (s : ClientImpl) : ClientImpl :=
  MkClientImpl (m_callbacks s) (m_configState s) (m_clientState s) (m_sessionState s)
    (m_reuseState s) (m_timerMgr s) (m_apiEnterCount s) (m_lists s) (m_ops s)
    (m_opsDeleted s) (m_preparationLocked s) (g_store s) (g_next s) (g_opsChanges s)
    (g_sendOpsPushes s) (g_sendOpsErases s) v.

Definition co_set_connectMsg (v : ConnectMsg) (o : ConnectOp) : ConnectOp :=
  MkConnectOp v (co_timer o) (co_cb o).
Definition co_set_cb (v : UserCb) (o : ConnectOp) : ConnectOp :=
  MkConnectOp (co_connectMsg o) (co_timer o) v.

Definition su_set_packetId (v : Z) (o : SubscribeOp) : SubscribeOp :=
  MkSubscribeOp v (su_list o) (su_timer o) (su_cb o).
Definition su_set_list (v : list (string * Z)) (o : SubscribeOp) : SubscribeOp :=
  MkSubscribeOp (su_packetId o) v (su_timer o) (su_cb o).
Definition su_set_cb (v : UserCb) (o : SubscribeOp) : SubscribeOp :=
  MkSubscribeOp (su_packetId o) (su_list o) (su_timer o) v.

Definition un_set_packetId (v : Z) (o : UnsubscribeOp) : UnsubscribeOp :=
  MkUnsubscribeOp v (un_list o) (un_timer o) (un_cb o).
Definition un_set_list (v : list string) (o : UnsubscribeOp) : UnsubscribeOp :=
  MkUnsubscribeOp (un_packetId o) v (un_timer o) (un_cb o).
Definition un_set_cb (v : UserCb) (o : UnsubscribeOp) : UnsubscribeOp :=
  MkUnsubscribeOp (un_packetId o) (un_list o) (un_timer o) v.

Definition ro_set_packetId (v : Z) (o : RecvOp) : RecvOp :=
  MkRecvOp (ro_responseTimer o) v.

Definition so_set_pubMsg (v : PublishMsg) (o : SendOp) : SendOp :=
  MkSendOp (so_responseTimer o) v (so_cb o) (so_totalSendAttempts o)
    (so_sendAttempts o) (so_published o) (so_acked o) (so_paused o).
Definition so_set_cb (v : UserCb) (o : SendOp) : SendOp :=
  MkSendOp (so_responseTimer o) (so_pubMsg o) v (so_totalSendAttempts o)
    (so_sendAttempts o) (so_published o) (so_acked o) (so_paused o).
Definition so_set_totalSendAttempts (v : Z) (o : SendOp) : SendOp :=
  MkSendOp (so_responseTimer o) (so_pubMsg o) (so_cb o) v (so_sendAttempts o)
    (so_published o) (so_acked o) (so_paused o).
Definition so_set_sendAttempts (v : Z) (o : SendOp) : SendOp :=
  MkSendOp (so_responseTimer o) (so_pubMsg o) (so_cb o) (so_totalSendAttempts o) v
    (so_published o) (so_acked o) (so_paused o).
Definition so_set_published (v : bool) (o : SendOp) : SendOp :=
  MkSendOp (so_responseTimer o) (so_pubMsg o) (so_cb o) (so_totalSendAttempts o)
    (so_sendAttempts o) v (so_acked o) (so_paused o).
Definition so_set_acked (v : bool) (o : SendOp) : SendOp :=
  MkSendOp (so_responseTimer o) (so_pubMsg o) (so_cb o) (so_totalSendAttempts o)
    (so_sendAttempts o) (so_published o) v (so_paused o).
Definition so_set_paused (v : bool) (o : SendOp) : SendOp :=
  MkSendOp (so_responseTimer o) (so_pubMsg o) (so_cb o) (so_totalSendAttempts o)
    (so_sendAttempts o) (so_published o) (so_acked o) v.

Definition cfg_set_responseTimeoutMs (v : Z) (o : ConfigState) : ConfigState :=
  MkConfigState v (cfg_publishOrdering o) (cfg_verifyOutgoingTopic o)
    (cfg_verifyIncomingTopic o) (cfg_verifySubFilter o).
Definition cfg_set_publishOrdering (v : CC_Mqtt311PublishOrdering) (o : ConfigState) : ConfigState :=
  MkConfigState (cfg_responseTimeoutMs o) v (cfg_verifyOutgoingTopic o)
    (cfg_verifyIncomingTopic o) (cfg_verifySubFilter o).
Definition cfg_set_verifyOutgoingTopic (v : bool) (o : ConfigState) : ConfigState :=
  MkConfigState (cfg_responseTimeoutMs o) (cfg_publishOrdering o) v
    (cfg_verifyIncomingTopic o) (cfg_verifySubFilter o).
Definition cfg_set_verifyIncomingTopic (v : bool) (o : ConfigState) : ConfigState :=
  MkConfigState (cfg_responseTimeoutMs o) (cfg_publishOrdering o)
    (cfg_verifyOutgoingTopic o) v (cfg_verifySubFilter o).
Definition cfg_set_verifySubFilter (v : bool) (o : ConfigState) : ConfigState :=
  MkConfigState (cfg_responseTimeoutMs o) (cfg_publishOrdering o)
    (cfg_verifyOutgoingTopic o) (cfg_verifyIncomingTopic o) v.

Definition ses_set_keepAliveMs (v : Z) (o : SessionState) : SessionState :=
  MkSessionState v (ses_connected o) (ses_disconnecting o).
Definition ses_set_connected (v : bool) (o : SessionState) : SessionState :=
  MkSessionState (ses_keepAliveMs o) v (ses_disconnecting o).
Definition ses_set_disconnecting (v : bool) (o : SessionState) : SessionState :=
  MkSessionState (ses_keepAliveMs o) (ses_connected o) v.

(** ** The application *)

(** How the application reacts to a callback (it may call the client again),
    the time it reports when the wait for the next tick is cancelled, and how
    many completions beyond those of the operations that exist may be nested in
    one resumption of paused publishes (a bound of the model). *)
Class App := {
  app_react : Event → M ClientImpl unit;
  app_elapsed : list Event → Z;
  app_fuel : nat;
}.

Section access.

Definition log (e : Event) (s : ClientImpl) : ClientImpl := set_trace (g_trace s ++ [e]) s.

Definition callback `{App} (e : Event) : M ClientImpl unit :=
  modify (log e) ;;
  app_react e.

(** Read and assign the members of the object at an address. *)
Definition get_base (a : addr) : M ClientImpl Op :=
  store ← gets g_store;
  match store !! a with
  | Some o => mret o
  | None => throw FDangling
  end.

Definition get_op {T} `{Subclass T} (a : addr) : M ClientImpl T :=
  o ← get_base a;
  match downcast (op_derived o) with
  | Some d => mret d
  | None => throw FDangling
  end.

Definition put_derived (a : addr) (d : Derived) (s : ClientImpl) : ClientImpl :=
  set_store (alter (λ o, MkOp (op_responseTimeoutMs o) d) a (g_store s)) s.

Definition modify_op {T} `{Subclass T} (a : addr) (f : T → T) : M ClientImpl unit :=
  o ← get_op a;
  modify (put_derived a (upcast (f o))).

(** Run a method of the timer manager or of [ClientState]. *)
Definition on_timerMgr {A} (m : M (TimerMgr TimeoutCb) A) : M ClientImpl A :=
  zoom m_timerMgr set_timerMgr m.

Definition on_clientState {A} (m : M ClientState A) : M ClientImpl A :=
  zoom m_clientState set_clientState m.

Definition set_session (f : SessionState → SessionState) : M ClientImpl unit :=
  modify (λ s, set_sessionState (f (m_sessionState s)) s).

(** [push_back] on one of the lists: undefined on a full static vector. *)
Definition push_back_check (cap : option nat) (size : nat) : M ClientImpl unit :=
  when (at_max_size cap size) (throw FCapacity).

(** A range-for over a vector: [changes] counts its modifications, none of which
    may happen during the loop. *)
Definition range_for {A} (vec : ClientImpl → list A) (changes : ClientImpl → nat)
    (body : A → M ClientImpl unit) : M ClientImpl unit :=
  c ← gets changes;
  n ← gets (length ∘ vec);
  mapM_ (λ i,
    l ← gets vec;
    match l !! i with
    | None => throw FRange
    | Some x =>
        body x ;;
        c' ← gets changes;
        when (negb (c' =? c)) (throw FIterator)
    end) (seq 0 n).

End access.
