(* ===== verification/Lifecycle.v ===== *)
(** * Construction and destruction of operations, and output

    The constructors and destructors of the operations, [ObjAllocator]
    (client/lib/src/ObjAllocator.h), the lists that own the operations
    ([eraseFromList], the [push_back]s), [ClientImpl::sendMessage] and the ping
    timer of [KeepAliveOp], which every sent message restarts. *)

From S2P Require Import Prelude SortedVec Config Protocol PacketId TimerMgr State.

Section Lifecycle.
  Context `{Config} `{CommsLib} `{App}.

(** ** Lists and limits *)

(** The limit of the allocator and of the list of each type. *)
Definition list_limit (T : OpType) : nat :=
  match T with
  | Type_Connect => ConnectOpsLimit
  | Type_KeepAlive => KeepAliveOpsLimit
  | Type_Disconnect => DisconnectOpsLimit
  | Type_Subscribe => SubscribeOpsLimit
  | Type_Unsubscribe => UnsubscribeOpsLimit
  | Type_Recv => RecvOpsLimit
  | Type_Send => SendOpsLimit
  end.

Definition ops_of (T : OpType) (s : ClientImpl) : list addr := list_of T (m_lists s).

Definition set_ops_of (T : OpType) (l : list addr) : M ClientImpl unit :=
  modify (λ s, set_lists (set_list T l (m_lists s)) s).

(** [m_ops.max_size() <= m_ops.size()] *)
Definition ops_full : M ClientImpl bool :=
  gets (λ s, at_max_size (ObjListType_capacity OpsLimit true) (length (m_ops s))).

(** [m_ops.push_back(ptr.get()); m_...Ops.push_back(std::move(ptr));] *)
Definition push_op (T : OpType) (a : addr) : M ClientImpl unit :=
  ops ← gets m_ops;
  push_back_check (ObjListType_capacity OpsLimit true) (length ops) ;;
  modify (set_ops (ops ++ [Some a])) ;;
  modify (λ s, set_opsChanges (S (g_opsChanges s)) s) ;;
  l ← gets (ops_of T);
  push_back_check (ObjListType_capacity (list_limit T) true) (length l) ;;
  set_ops_of T (l ++ [a]) ;;
  when (bool_decide (T = Type_Send))
    (modify (λ s, set_sendOpsPushes (S (g_sendOpsPushes s)) s)).

(** ** Constructors *)

(** A new object in the store: [Op::Op] and the members of the subclass. *)
Definition new_object (d : Derived) : M ClientImpl addr :=
  timeout ← gets (cfg_responseTimeoutMs ∘ m_configState);
  a ← gets g_next;
  modify (λ s, set_store (<[a := MkOp timeout d]> (g_store s)) s) ;;
  modify (set_next (S a)) ;;
  mret a.

Definition KeepAliveOp_restartPingTimer (this : addr) : M ClientImpl unit :=
  ms ← gets (ses_keepAliveMs ∘ m_sessionState);
  if (ms =? 0)%Z then mret tt
  else
    o ← get_op (T := KeepAliveOp) this;
    on_timerMgr (timerWait (ka_pingTimer o) ms KeepAliveOp_sendPingCb this).

Definition ConnectOp_new : M ClientImpl addr :=
  timer ← on_timerMgr allocTimer;
  new_object (DConnect (MkConnectOp ConnectMsg_new timer None)).

Definition KeepAliveOp_new : M ClientImpl addr :=
  pingTimer ← on_timerMgr allocTimer;
  recvTimer ← on_timerMgr allocTimer;
  respTimer ← on_timerMgr allocTimer;
  this ← new_object (DKeepAlive (MkKeepAliveOp pingTimer recvTimer respTimer));
  comms_assert (Timer_isValid pingTimer) ;;
  comms_assert (Timer_isValid recvTimer) ;;
  comms_assert (Timer_isValid respTimer) ;;
  KeepAliveOp_restartPingTimer this ;;
  mret this.

Definition DisconnectOp_new : M ClientImpl addr :=
  new_object (DDisconnect MkDisconnectOp).

Definition SubscribeOp_new : M ClientImpl addr :=
  timer ← on_timerMgr allocTimer;
  new_object (DSubscribe (MkSubscribeOp 0 [] timer None)).

Definition UnsubscribeOp_new : M ClientImpl addr :=
  timer ← on_timerMgr allocTimer;
  new_object (DUnsubscribe (MkUnsubscribeOp 0 [] timer None)).

Definition RecvOp_new : M ClientImpl addr :=
  timer ← on_timerMgr allocTimer;
  this ← new_object (DRecv (MkRecvOp timer 0));
  comms_assert (Timer_isValid timer) ;;
  mret this.

Definition SendOp_DefaultSendAttempts : Z := 2.

Definition SendOp_new : M ClientImpl addr :=
  timer ← on_timerMgr allocTimer;
  this ← new_object (DSend
    (MkSendOp timer PublishMsg_new None SendOp_DefaultSendAttempts 0 false false false));
  comms_assert (Timer_isValid timer) ;;
  mret this.

Definition Op_new (T : OpType) : M ClientImpl addr :=
  match T with
  | Type_Connect => ConnectOp_new
  | Type_KeepAlive => KeepAliveOp_new
  | Type_Disconnect => DisconnectOp_new
  | Type_Subscribe => SubscribeOp_new
  | Type_Unsubscribe => UnsubscribeOp_new
  | Type_Recv => RecvOp_new
  | Type_Send => SendOp_new
  end.

(** [ObjAllocator::alloc]: the objects alive are those of the list. *)
Definition ObjAllocator_alloc (T : OpType) : M ClientImpl (option addr) :=
  live ← gets (λ s, length (ops_of T s));
  if alloc_succeeds (list_limit T) live then a ← Op_new T; mret (Some a)
  else mret None.

(** ** Destructors *)

(** [~SubscribeOp], [~UnsubscribeOp] and [~SendOp] release the packet
    identifier; then the timers, in reverse order, and the object go. *)
Definition Op_destroy (this : addr) : M ClientImpl unit :=
  o ← get_base this;
  on_clientState (releasePacketId (held_packetId (op_derived o))) ;;
  on_timerMgr (mapM_ Timer_destroy (held_timers (op_derived o))) ;;
  modify (λ s, set_store (delete this (g_store s)) s).

(** The distance to the first element equal to [op] (the size if there is none),
    which is erased, and the object with it. *)
Definition eraseFromList (op : addr) (T : OpType) : M ClientImpl nat :=
  l ← gets (ops_of T);
  match list_find (λ a, a = op) l with
  | None => comms_assert false ;; mret (length l)
  | Some (idx, _) =>
      set_ops_of T (erase_at idx l) ;;
      when (bool_decide (T = Type_Send))
        (modify (λ s, set_sendOpsErases (S (g_sendOpsErases s)) s)) ;;
      Op_destroy op ;;
      mret idx
  end.

(** ** Output *)

Definition KeepAliveOp_messageSent (this : addr) : M ClientImpl unit :=
  KeepAliveOp_restartPingTimer this.

(** A callback that must have been set. *)
Definition must_callback (is_set : bool) (e : Event) : M ClientImpl unit :=
  comms_assert is_set ;;
  if is_set then callback e else throw FNull.

Definition sendMessage (msg : ProtMessage) : M ClientImpl CC_Mqtt311ErrorCode :=
  let len := frame_length msg in
  let too_long :=
    match ObjListType_capacity MaxOutputPacketSize true with
    | Some max_size => max_size <? len
    | None => false
    end in
  if too_long then mret ErrorCode_BufferOverflow
  else
    match frame_write msg with
    | None => comms_assert false ;; mret ErrorCode_InternalError
    | Some buf =>
        cbs ← gets m_callbacks;
        must_callback (has_sendOutputDataCb cbs) (EvSendOutputData msg buf) ;;
        keepAliveOps ← gets (ops_of Type_KeepAlive);
        mapM_ KeepAliveOp_messageSent keepAliveOps ;;
        mret ErrorCode_Success
    end.

End Lifecycle.
