(* ===== verification/Completion.v ===== *)
(** * Completion of operations and resumption of paused publishes

    [ClientImpl::opComplete], [ClientImpl::resumeSendOpsSince],
    [hasPausedSendsBefore], [hasHigherQosSendsBefore]
    (client/lib/src/ClientImpl.cpp), and the part of [SendOp]
    (client/lib/src/op/SendOp.cpp) that a completion calls back:
    [doSendInternal], [canSend], [resume] and [completeWithCb].

    These functions are mutually recursive: the completion of a publish resumes
    the paused ones after it, and a resumed QoS 0 publish completes at once.
    [resumeSendOpsSince] is defined by recursion on a bound; the other functions
    take the resumption that they call as an argument. *)

From S2P Require Import Prelude Config Protocol PacketId TimerMgr State Lifecycle.

Section Completion.
  Context `{Config} `{CommsLib} `{App}.

(** ** Order of the publishes *)

Definition hasPausedSendsBefore (sendOp : addr) : M ClientImpl bool :=
  l ← gets (ops_of Type_Send);
  match list_find (λ a, a = sendOp) (reverse l) with
  | None => comms_assert false ;; mret false
  | Some (r, _) =>
      let idx := length l - 1 - r in
      comms_assert (idx <? length l) ;;
      if idx =? 0 then mret false
      else
        match l !! (idx - 1) with
        | None => throw FRange
        | Some prev => o ← get_op (T := SendOp) prev; mret (so_paused o)
        end
  end.

Fixpoint hasHigherQos_loop (l : list addr) (sendOp : addr) (qos : Z) : M ClientImpl bool :=
  match l with
  | [] => comms_assert false ;; mret false
  | a :: l' =>
      if a =? sendOp then mret false
      else
        o ← get_op (T := SendOp) a;
        if (qos <? pub_qos (so_pubMsg o))%Z then mret true
        else hasHigherQos_loop l' sendOp qos
  end.

Definition hasHigherQosSendsBefore (sendOp : addr) (qos : Z) : M ClientImpl bool :=
  l ← gets (ops_of Type_Send);
  hasHigherQos_loop l sendOp qos.

Definition SendOp_canSend (this : addr) : M ClientImpl bool :=
  o ← get_op (T := SendOp) this;
  let qos := pub_qos (so_pubMsg o) in
  ordering ← gets (cfg_publishOrdering ∘ m_configState);
  if bool_decide (ordering = PublishOrdering_SameQos) then mret true
  else
    comms_assert (bool_decide (ordering = PublishOrdering_Full)) ;;
    paused ← hasPausedSendsBefore this;
    if paused : bool then mret false
    else
      higher ← hasHigherQosSendsBefore this qos;
      mret (negb higher).

Definition SendOp_restartResponseTimer (this : addr) : M ClientImpl unit :=
  ms ← gets (cfg_responseTimeoutMs ∘ m_configState);
  o ← get_op (T := SendOp) this;
  on_timerMgr (timerWait (so_responseTimer o) ms SendOp_recvTimeoutCb this).

(** ** Completion, given the resumption of publishes *)

Section with_resume.
  Context (resumeSendOpsSince : nat → M ClientImpl unit).

Definition opComplete_Send_with (op : addr) : M ClientImpl unit :=
  idx ← eraseFromList op Type_Send;
  disconnecting ← gets (ses_disconnecting ∘ m_sessionState);
  if disconnecting : bool then mret tt else resumeSendOpsSince idx.

Definition opComplete_with (op : addr) : M ClientImpl unit :=
  ops ← gets m_ops;
  match list_find (λ p, p = Some op) ops with
  | None => comms_assert false
  | Some (i, _) =>
      modify (set_ops (<[i := None]> ops)) ;;
      modify (set_opsDeleted true) ;;
      o ← get_base op;
      match Op_type o with
      | Type_Send => opComplete_Send_with op
      | T => _ ← eraseFromList op T; mret tt
      end
  end.

Definition SendOp_completeWithCb_with (this : addr) (status : CC_Mqtt311AsyncOpStatus)
    : M ClientImpl unit :=
  o ← get_op (T := SendOp) this;
  opComplete_with this ;;
  match so_cb o with
  | None => mret tt
  | Some cb => callback (EvPublishComplete this cb status)
  end.

Definition SendOp_doSendInternal_with (this : addr) : M ClientImpl CC_Mqtt311ErrorCode :=
  modify_op this (so_set_sendAttempts 0) ;;
  o ← get_op this;
  result ← sendMessage (MPublish (so_pubMsg o));
  if negb (bool_decide (result = ErrorCode_Success)) then mret result
  else
    modify_op this (λ o, if negb (so_published o) then so_set_published true o else o) ;;
    modify_op this (λ o, so_set_sendAttempts (u32 (so_sendAttempts o + 1)) o) ;;
    o ← get_op this;
    if (pub_qos (so_pubMsg o) =? QoS_AtMostOnceDelivery)%Z then
      SendOp_completeWithCb_with this AsyncOpStatus_Complete ;;
      mret ErrorCode_Success
    else
      SendOp_restartResponseTimer this ;;
      mret ErrorCode_Success.

Definition SendOp_resume_with (this : addr) : M ClientImpl bool :=
  o ← get_op (T := SendOp) this;
  if negb (so_paused o) then mret false
  else
    can ← SendOp_canSend this;
    if negb can then mret false
    else
      modify_op this (so_set_paused false) ;;
      ec ← SendOp_doSendInternal_with this;
      if bool_decide (ec = ErrorCode_Success) then mret true
      else
        let cbStatus :=
          if bool_decide (ec = ErrorCode_BadParam) then AsyncOpStatus_BadParam
          else if bool_decide (ec = ErrorCode_BufferOverflow) then AsyncOpStatus_OutOfMemory
          else AsyncOpStatus_InternalError in
        SendOp_completeWithCb_with this cbStatus ;;
        mret true.
End with_resume.

(** The [while] loop: one unit of fuel per iteration, nested ones included. *)
Fixpoint resumeSendOps_loop (fuel : nat) (idx : nat) : M ClientImpl unit :=
  match fuel with
  | O => throw FFuel
  | S fuel' =>
      l ← gets (ops_of Type_Send);
      match l !! idx with
      | None => mret tt
      | Some opToResume =>
          o ← get_op (T := SendOp) opToResume;
          if negb (so_paused o) then resumeSendOps_loop fuel' (S idx)
          else
            resumed ← SendOp_resume_with (resumeSendOps_loop fuel') opToResume;
            if negb resumed then mret tt
            else resumeSendOps_loop fuel' idx
      end
  end.

(** Without publishes that a callback adds, every iteration decreases
    [P * (N + 1) + (N - idx)], where [N] publishes exist, [P] of them paused. *)
Definition resume_fuel (s : ClientImpl) : nat :=
  let n := length (ops_of Type_Send s) in
  app_fuel + S (S n * S n).

Definition resumeSendOpsSince (idx : nat) : M ClientImpl unit :=
  fuel ← gets resume_fuel;
  resumeSendOps_loop fuel idx.

Definition opComplete : addr → M ClientImpl unit := opComplete_with resumeSendOpsSince.
Definition SendOp_completeWithCb : addr → CC_Mqtt311AsyncOpStatus → M ClientImpl unit :=
  SendOp_completeWithCb_with resumeSendOpsSince.
Definition SendOp_doSendInternal : addr → M ClientImpl CC_Mqtt311ErrorCode :=
  SendOp_doSendInternal_with resumeSendOpsSince.
Definition SendOp_resume : addr → M ClientImpl bool :=
  SendOp_resume_with resumeSendOpsSince.

(** [completeOpInternal] of the operations with a single completion callback. *)
Definition ConnectOp_completeOpInternal (this : addr) (status : CC_Mqtt311AsyncOpStatus)
    (response : option CC_Mqtt311ConnectResponse) : M ClientImpl unit :=
  o ← get_op (T := ConnectOp) this;
  opComplete this ;;
  match co_cb o with
  | None => mret tt
  | Some cb => callback (EvConnectComplete this cb status response)
  end.

Definition SubscribeOp_completeOpInternal (this : addr) (status : CC_Mqtt311AsyncOpStatus)
    (response : option (list Z)) : M ClientImpl unit :=
  o ← get_op (T := SubscribeOp) this;
  opComplete this ;;
  match su_cb o with
  | None => mret tt
  | Some cb => callback (EvSubscribeComplete this cb status response)
  end.

Definition UnsubscribeOp_completeOpInternal (this : addr)
    (status : CC_Mqtt311AsyncOpStatus) : M ClientImpl unit :=
  o ← get_op (T := UnsubscribeOp) this;
  opComplete this ;;
  match un_cb o with
  | None => mret tt
  | Some cb => callback (EvUnsubscribeComplete this cb status)
  end.

(** ** Operations of a single state *)

Definition allowNextPrepare : M ClientImpl unit :=
  locked ← gets m_preparationLocked;
  comms_assert locked ;;
  modify (set_preparationLocked false).

End Completion.
