(* ===== verification/Session.v ===== *)
(** * Termination, disconnection, timeouts and the API guard

    [ClientImpl::terminateOps], [brokerDisconnected], [tick], [doApiEnter],
    [doApiExit], [cleanOps] (client/lib/src/ClientImpl.cpp), the virtual
    functions [terminateOpImpl] and [connectivityChangedImpl], the timeout
    functions of the operations, and [KeepAliveOp]
    (client/lib/src/op/KeepAliveOp.cpp). *)

From S2P Require Import Prelude Config Protocol PacketId TimerMgr State Lifecycle.
From S2P Require Import Completion.

Section Session.
  Context `{Config} `{CommsLib} `{App}.

(** ** Termination and connectivity *)

(** [terminateOpImpl] *)
Definition Op_terminateOp (op : addr) (status : CC_Mqtt311AsyncOpStatus) : M ClientImpl unit :=
  o ← get_base op;
  match Op_type o with
  | Type_Connect => ConnectOp_completeOpInternal op status None
  | Type_Subscribe => SubscribeOp_completeOpInternal op status None
  | Type_Unsubscribe => UnsubscribeOp_completeOpInternal op status
  | Type_Send => SendOp_completeWithCb op status
  | Type_KeepAlive | Type_Disconnect | Type_Recv => opComplete op
  end.

(** [(!m_connected) || m_networkDisconnected] *)
Definition link_down (s : ClientImpl) : bool :=
  negb (ses_connected (m_sessionState s)) || m_networkDisconnected (m_clientState s).

Definition ConnectOp_connectivityChangedImpl (this : addr) : M ClientImpl unit :=
  networkDisconnected ← gets (m_networkDisconnected ∘ m_clientState);
  when networkDisconnected
    (ConnectOp_completeOpInternal this AsyncOpStatus_BrokerDisconnected None).

Definition RecvOp_connectivityChangedImpl (this : addr) : M ClientImpl unit :=
  when (2 <=? MaxQos)
    (down ← gets link_down;
     o ← get_op (T := RecvOp) this;
     on_timerMgr (Timer_setSuspended (ro_responseTimer o) down)).

Definition SendOp_connectivityChangedImpl (this : addr) : M ClientImpl unit :=
  down ← gets link_down;
  o ← get_op (T := SendOp) this;
  on_timerMgr (Timer_setSuspended (so_responseTimer o) down).

Definition Op_connectivityChanged (op : addr) : M ClientImpl unit :=
  o ← get_base op;
  match Op_type o with
  | Type_Connect => ConnectOp_connectivityChangedImpl op
  | Type_Recv => RecvOp_connectivityChangedImpl op
  | Type_Send => SendOp_connectivityChangedImpl op
  | _ => mret tt
  end.

(** [TerminateMode_KeepSendRecvOps], [TerminateMode_AbortSendRecvOps] *)
Inductive TerminateMode := KeepSendRecvOps | AbortSendRecvOps.

Definition is_send_or_recv (T : OpType) : bool :=
  bool_decide (T = Type_Recv) || bool_decide (T = Type_Send).

Definition terminateOps (status : CC_Mqtt311AsyncOpStatus) (mode : TerminateMode)
    : M ClientImpl unit :=
  range_for m_ops g_opsChanges (λ op,
    match op, mode with
    | None, _ => mret tt
    | Some a, KeepSendRecvOps =>
        o ← get_base a;
        if is_send_or_recv (Op_type o) then mret tt else Op_terminateOp a status
    | Some a, AbortSendRecvOps => Op_terminateOp a status
    end).

Definition brokerDisconnected (reason : CC_Mqtt311BrokerDisconnectReason)
    (status : CC_Mqtt311AsyncOpStatus) : M ClientImpl unit :=
  on_clientState (modify (set_initialized false)) ;;
  set_session (ses_set_connected false) ;;
  set_session (ses_set_disconnecting true) ;;
  terminateOps status KeepSendRecvOps ;;
  range_for m_ops g_opsChanges (λ op,
    match op with
    | None => mret tt
    | Some a => Op_connectivityChanged a
    end) ;;
  if bool_decide (reason = BrokerDisconnectReason_ValuesLimit) then mret tt
  else
    cbs ← gets m_callbacks;
    must_callback (has_brokerDisconnectReportCb cbs) (EvBrokerDisconnectReport reason).

(** The default arguments. *)
Definition brokerDisconnected_default : M ClientImpl unit :=
  brokerDisconnected BrokerDisconnectReason_ValuesLimit AsyncOpStatus_BrokerDisconnected.

Definition brokerDisconnected_protocolError : M ClientImpl unit :=
  brokerDisconnected BrokerDisconnectReason_ProtocolError AsyncOpStatus_BrokerDisconnected.

(** ** KeepAliveOp *)

Definition KeepAliveOp_restartRecvTimer (this : addr) : M ClientImpl unit :=
  ms ← gets (ses_keepAliveMs ∘ m_sessionState);
  if (ms =? 0)%Z then mret tt
  else
    o ← get_op (T := KeepAliveOp) this;
    on_timerMgr (timerWait (ka_recvTimer o) ms KeepAliveOp_recvTimeoutCb this).

Definition KeepAliveOp_handle_Pingresp (this : addr) : M ClientImpl unit :=
  o ← get_op (T := KeepAliveOp) this;
  on_timerMgr (timerCancel (ka_respTimer o)) ;;
  active ← on_timerMgr (timerIsActive (ka_respTimer o));
  comms_assert (negb active) ;;
  KeepAliveOp_restartRecvTimer this.

Definition KeepAliveOp_handle_ProtMessage (this : addr) : M ClientImpl unit :=
  KeepAliveOp_restartRecvTimer this.

Definition KeepAliveOp_sendPing (this : addr) : M ClientImpl unit :=
  o ← get_op (T := KeepAliveOp) this;
  active ← on_timerMgr (timerIsActive (ka_respTimer o));
  if active : bool then mret tt
  else
    _ ← sendMessage MPingreq;
    ms ← gets (cfg_responseTimeoutMs ∘ m_configState);
    o ← get_op (T := KeepAliveOp) this;
    on_timerMgr (timerWait (ka_respTimer o) ms KeepAliveOp_pingTimeoutCb this).

Definition KeepAliveOp_pingTimeoutInternal (this : addr) : M ClientImpl unit :=
  o ← get_op (T := KeepAliveOp) this;
  active ← on_timerMgr (timerIsActive (ka_respTimer o));
  comms_assert (negb active) ;;
  brokerDisconnected BrokerDisconnectReason_NoBrokerResponse AsyncOpStatus_BrokerDisconnected.

(** ** Timeouts of the other operations *)

(** [SendOp::resendDupMsg] *)
Definition SendOp_resendDupMsg (this : addr) : M ClientImpl unit :=
  o ← get_op (T := SendOp) this;
  if (so_totalSendAttempts o <=? so_sendAttempts o)%Z then
    SendOp_completeWithCb this AsyncOpStatus_Timeout
  else
    comms_assert (so_published o) ;;
    msg ←
      (if negb (so_acked o) then
         modify_op this (λ o, so_set_pubMsg (pub_set_dup true (so_pubMsg o)) o) ;;
         o ← get_op this;
         mret (MPublish (so_pubMsg o))
       else
         comms_assert (pub_qos (so_pubMsg o) =? QoS_ExactlyOnceDelivery)%Z ;;
         mret (MPubrel (pub_packetId (so_pubMsg o)) pubrel_flags));
    result ← sendMessage msg;
    if negb (bool_decide (result = ErrorCode_Success)) then
      SendOp_completeWithCb this AsyncOpStatus_InternalError
    else
      modify_op this (λ o, so_set_sendAttempts (u32 (so_sendAttempts o + 1)) o) ;;
      SendOp_restartResponseTimer this.

Definition SendOp_responseTimeoutInternal (this : addr) : M ClientImpl unit :=
  o ← get_op (T := SendOp) this;
  active ← on_timerMgr (timerIsActive (so_responseTimer o));
  comms_assert (negb active) ;;
  SendOp_resendDupMsg this.

Definition RecvOp_responseTimeoutInternal (this : addr) : M ClientImpl unit :=
  when (2 <=? MaxQos)
    (o ← get_op (T := RecvOp) this;
     active ← on_timerMgr (timerIsActive (ro_responseTimer o));
     comms_assert (negb active) ;;
     opComplete this).

(** The static functions given to the timers. *)
Definition run_TimeoutCb (cb : TimeoutCb * addr) : M ClientImpl unit :=
  let '(cb, data) := cb in
  match cb with
  | ConnectOp_opTimeoutCb => ConnectOp_completeOpInternal data AsyncOpStatus_Timeout None
  | KeepAliveOp_sendPingCb => KeepAliveOp_sendPing data
  | KeepAliveOp_recvTimeoutCb => KeepAliveOp_sendPing data
  | KeepAliveOp_pingTimeoutCb => KeepAliveOp_pingTimeoutInternal data
  | SubscribeOp_opTimeoutCb => SubscribeOp_completeOpInternal data AsyncOpStatus_Timeout None
  | UnsubscribeOp_opTimeoutCb => UnsubscribeOp_completeOpInternal data AsyncOpStatus_Timeout
  | RecvOp_recvTimeoutCb => RecvOp_responseTimeoutInternal data
  | SendOp_recvTimeoutCb => SendOp_responseTimeoutInternal data
  end.

(** ** Ticks and the API guard *)

Definition TimerMgr_tick (ms : Z) : M ClientImpl unit :=
  cbList ← on_timerMgr (tick_collect ms);
  mapM_ run_TimeoutCb cbList.

Definition cleanOps : M ClientImpl unit :=
  deleted ← gets m_opsDeleted;
  if negb deleted then mret tt
  else
    modify (λ s, set_ops (filter (λ p, is_Some p) (m_ops s)) s) ;;
    modify (λ s, set_opsChanges (S (g_opsChanges s)) s) ;;
    modify (set_opsDeleted false).

Definition doApiEnter : M ClientImpl unit :=
  modify (λ s, set_apiEnterCount (u32 (m_apiEnterCount s + 1)) s) ;;
  count ← gets m_apiEnterCount;
  has_cb ← gets (has_cancelNextTickWaitCb ∘ m_callbacks);
  if (1 <? count)%Z || negb has_cb then mret tt
  else
    prevWait ← gets (getMinWait ∘ m_timerMgr);
    if (prevWait =? 0)%Z then mret tt
    else
      callback EvCancelNextTickWait ;;
      elapsed ← gets (app_elapsed ∘ g_trace);
      TimerMgr_tick (u32 elapsed).

Definition doApiExit : M ClientImpl unit :=
  count ← gets m_apiEnterCount;
  comms_assert (0 <? count)%Z ;;
  modify (λ s, set_apiEnterCount (u32 (m_apiEnterCount s - 1)) s) ;;
  count ← gets m_apiEnterCount;
  if (0 <? count)%Z then mret tt
  else
    cleanOps ;;
    has_cb ← gets (has_nextTickProgramCb ∘ m_callbacks);
    if negb has_cb then mret tt
    else
      nextWait ← gets (getMinWait ∘ m_timerMgr);
      if (nextWait =? 0)%Z then mret tt
      else callback (EvNextTickProgram nextWait).

(** The scope of an [ApiEnterGuard]. *)
Definition with_guard {A} (m : M ClientImpl A) : M ClientImpl A :=
  doApiEnter ;;
  x ← m;
  doApiExit ;;
  mret x.

Definition ClientImpl_tick (ms : Z) : M ClientImpl unit :=
  count ← gets m_apiEnterCount;
  comms_assert (count =? 0)%Z ;;
  modify (λ s, set_apiEnterCount (u32 (m_apiEnterCount s + 1)) s) ;;
  TimerMgr_tick ms ;;
  doApiExit.

End Session.
