(* ===== verification/SendOp.v ===== *)
(** * Outgoing publishes

    [SendOp] (client/lib/src/op/SendOp.cpp) and the functions of [ClientImpl]
    that search the list of publishes and distribute the acknowledgements
    (client/lib/src/ClientImpl.cpp). *)

From S2P Require Import Prelude Config Protocol Topic PacketId TimerMgr State Lifecycle.
From S2P Require Import Completion Session.

Section SendOp.
  Context `{Config} `{CommsLib} `{App}.

(** [Op::maxStringLen()] *)
Definition maxStringLen : nat := Z.to_nat u16_max.

(** [Op::verifyPubTopic], [Op::verifySubFilter] *)
Definition Op_verifyPubTopic (topic : string) (outgoing : bool) (s : ClientImpl) : bool :=
  if HasTopicFormatVerification then
    verifyPubTopicInternal (cfg_verifyOutgoingTopic (m_configState s))
      (cfg_verifyIncomingTopic (m_configState s)) topic outgoing
  else true.

Definition Op_verifySubFilter (filter : string) (s : ClientImpl) : bool :=
  if HasTopicFormatVerification then
    verifySubFilterInternal (cfg_verifyOutgoingTopic (m_configState s)) filter
  else true.

(** ** Acknowledgements *)

Definition SendOp_cancelTimer (this : addr) : M ClientImpl unit :=
  o ← get_op (T := SendOp) this;
  on_timerMgr (timerCancel (so_responseTimer o)).

(** The two scope guards of the handlers on an error: the operation completes,
    then the broker is reported as disconnected. *)
Definition SendOp_protocolError (this : addr) : M ClientImpl unit :=
  SendOp_completeWithCb this AsyncOpStatus_ProtocolError ;;
  brokerDisconnected_protocolError.

Definition SendOp_handle_Puback (this : addr) (packetId : Z) : M ClientImpl unit :=
  o ← get_op (T := SendOp) this;
  comms_assert (pub_packetId (so_pubMsg o) =? packetId)%Z ;;
  comms_assert (so_published o) ;;
  SendOp_cancelTimer this ;;
  if negb (pub_qos (so_pubMsg o) =? QoS_AtLeastOnceDelivery)%Z then
    SendOp_protocolError this
  else SendOp_completeWithCb this AsyncOpStatus_Complete.

Definition SendOp_handle_Pubrec (this : addr) (packetId : Z) : M ClientImpl unit :=
  o ← get_op (T := SendOp) this;
  if negb (pub_packetId (so_pubMsg o) =? packetId)%Z then mret tt
  else
    comms_assert (so_published o) ;;
    SendOp_cancelTimer this ;;
    if negb (pub_qos (so_pubMsg o) =? QoS_ExactlyOnceDelivery)%Z then
      SendOp_protocolError this
    else if so_acked o then SendOp_protocolError this
    else
      modify_op this (so_set_acked true) ;;
      modify_op this (so_set_sendAttempts 0) ;;
      result ← sendMessage (MPubrel (pub_packetId (so_pubMsg o)) pubrel_flags);
      if negb (bool_decide (result = ErrorCode_Success)) then
        SendOp_completeWithCb this AsyncOpStatus_InternalError
      else
        modify_op this (λ o, so_set_sendAttempts (u32 (so_sendAttempts o + 1)) o) ;;
        SendOp_restartResponseTimer this.

Definition SendOp_handle_Pubcomp (this : addr) (packetId : Z) : M ClientImpl unit :=
  o ← get_op (T := SendOp) this;
  if negb (pub_packetId (so_pubMsg o) =? packetId)%Z then mret tt
  else
    SendOp_cancelTimer this ;;
    if negb (pub_qos (so_pubMsg o) =? QoS_ExactlyOnceDelivery)%Z then
      SendOp_protocolError this
    else if negb (so_acked o) then SendOp_protocolError this
    else SendOp_completeWithCb this AsyncOpStatus_Complete.

(** ** Requests of the application *)

Definition SendOp_config (this : addr) (config : CC_Mqtt311PublishConfig)
    : M ClientImpl CC_Mqtt311ErrorCode :=
  match pc_topic config with
  | None => mret ErrorCode_BadParam
  | Some topic =>
      if bool_decide (char_at topic = NulChar) then mret ErrorCode_BadParam
      else
        valid ← gets (Op_verifyPubTopic topic true);
        if negb valid then mret ErrorCode_BadParam
        else if (Z.of_nat MaxQos <? pc_qos config)%Z then mret ErrorCode_BadParam
        else
          let set f := modify_op this (λ o, so_set_pubMsg (f (so_pubMsg o)) o) in
          set (pub_set_retain (pc_retain config)) ;;
          set (pub_set_qos (pc_qos config)) ;;
          set (pub_set_topic (assign_string topic)) ;;
          when (0 <? pc_dataLen config)
            (comms_assert (bool_decide (is_Some (pc_data config))) ;;
             set (pub_set_payload (assign_bytes (buffer (pc_data config) (pc_dataLen config))))) ;;
          o ← get_op (T := SendOp) this;
          if maxStringLen <? length (pub_payload (so_pubMsg o)) then mret ErrorCode_BadParam
          else mret ErrorCode_Success
  end.

Definition SendOp_setResendAttempts (this : addr) (attempts : Z)
    : M ClientImpl CC_Mqtt311ErrorCode :=
  if (attempts =? 0)%Z then mret ErrorCode_BadParam
  else
    modify_op this (so_set_totalSendAttempts attempts) ;;
    mret ErrorCode_Success.

Definition SendOp_getResendAttempts (this : addr) : M ClientImpl Z :=
  o ← get_op (T := SendOp) this;
  mret (so_totalSendAttempts o).

(** [field_packetId().setValue(allocPacketId())] *)
Definition SendOp_allocPacketId (this : addr) : M ClientImpl unit :=
  id ← on_clientState allocPacketId;
  modify_op this (λ o, so_set_pubMsg (pub_set_packetId id (so_pubMsg o)) o).

Definition SendOp_send (this : addr) (cb : UserCb) : M ClientImpl CC_Mqtt311ErrorCode :=
  allowNextPrepare ;;
  o ← get_op (T := SendOp) this;
  if negb (Timer_isValid (so_responseTimer o)) then
    opComplete this ;; mret ErrorCode_InternalError
  else if bool_decide (pub_topic (so_pubMsg o) = "") then
    opComplete this ;; mret ErrorCode_InsufficientConfig
  else
    modify_op this (so_set_cb cb) ;;
    when (QoS_AtMostOnceDelivery <? pub_qos (so_pubMsg o))%Z (SendOp_allocPacketId this) ;;
    modify_op this (λ o, so_set_pubMsg (publish_doRefresh (so_pubMsg o)) o) ;;
    can ← SendOp_canSend this;
    if negb can then
      o ← get_op this;
      comms_assert (negb (so_paused o)) ;;
      modify_op this (so_set_paused true) ;;
      mret ErrorCode_Success
    else
      sendResult ← with_guard (SendOp_doSendInternal this);
      when (negb (bool_decide (sendResult = ErrorCode_Success))) (opComplete this) ;;
      mret sendResult.

Definition SendOp_cancel (this : addr) : M ClientImpl CC_Mqtt311ErrorCode :=
  o ← get_op (T := SendOp) this;
  when (bool_decide (so_cb o = None)) allowNextPrepare ;;
  opComplete this ;;
  mret ErrorCode_Success.

(** ** Resending *)

Definition SendOp_postReconnectionResend (this : addr) : M ClientImpl unit :=
  o ← get_op (T := SendOp) this;
  if so_paused o then mret tt
  else
    comms_assert (0 <? so_sendAttempts o)%Z ;;
    modify_op this (λ o, so_set_sendAttempts (u32 (so_sendAttempts o - 1)) o) ;;
    SendOp_cancelTimer this ;;
    SendOp_resendDupMsg this.

Definition SendOp_forceDupResend (this : addr) : M ClientImpl unit :=
  o ← get_op (T := SendOp) this;
  if so_paused o then mret tt else SendOp_resendDupMsg this.

(** ** Publishes and acknowledgements in ClientImpl *)

Fixpoint findSendOp_loop (l : list addr) (packetId : Z) : M ClientImpl (option addr) :=
  match l with
  | [] => mret None
  | a :: l' =>
      o ← get_op (T := SendOp) a;
      if (pub_packetId (so_pubMsg o) =? packetId)%Z then mret (Some a)
      else findSendOp_loop l' packetId
  end.

Definition findSendOp (packetId : Z) : M ClientImpl (option addr) :=
  l ← gets (ops_of Type_Send);
  findSendOp_loop l packetId.

Fixpoint isLegitSendAck_loop (front : option addr) (l : list addr) (sendOp : addr)
    (pubcompAck : bool) : M ClientImpl bool :=
  match l with
  | [] => comms_assert false ;; mret false
  | a :: l' =>
      if a =? sendOp then mret true
      else
        o ← get_op (T := SendOp) a;
        if negb (so_acked o) then mret false
        else if pubcompAck && negb (bool_decide (Some sendOp = front)) then mret false
        else isLegitSendAck_loop front l' sendOp pubcompAck
  end.

Definition isLegitSendAck (sendOp : addr) (pubcompAck : bool) : M ClientImpl bool :=
  o ← get_op (T := SendOp) sendOp;
  if negb (so_published o) then mret false
  else
    l ← gets (ops_of Type_Send);
    isLegitSendAck_loop (head l) l sendOp pubcompAck.

(** The loop of [resendAllUntil].  [sendOpPtr] is a reference into the vector:
    an insertion while the publish is resent may move the elements. *)
Fixpoint resendAllUntil_loop (fuel : nat) (idx : nat) (sendOp : addr) : M ClientImpl unit :=
  match fuel with
  | O => throw FFuel
  | S fuel' =>
      l ← gets (ops_of Type_Send);
      match l !! idx with
      | None => mret tt
      | Some opBeforeResend =>
          pushes ← gets g_sendOpsPushes;
          SendOp_forceDupResend opBeforeResend ;;
          if opBeforeResend =? sendOp then mret tt
          else
            pushes' ← gets g_sendOpsPushes;
            when (negb (pushes' =? pushes)) (throw FIterator) ;;
            l' ← gets (ops_of Type_Send);
            match l' !! idx with
            | None => throw FRange
            | Some opAfterResend =>
                if negb (opBeforeResend =? opAfterResend)
                then resendAllUntil_loop fuel' idx sendOp
                else resendAllUntil_loop fuel' (S idx) sendOp
            end
      end
  end.

Definition resendAllUntil (sendOp : addr) : M ClientImpl unit :=
  n ← gets (length ∘ ops_of Type_Send);
  resendAllUntil_loop (S n) 0 sendOp.

(** Messages of a publish exchange, dispatched to a [SendOp]. *)
Definition SendOp_handle (this : addr) (msg : ProtMessage) : M ClientImpl unit :=
  match msg with
  | MPuback id => when (1 <=? MaxQos) (SendOp_handle_Puback this id)
  | MPubrec id => when (2 <=? MaxQos) (SendOp_handle_Pubrec this id)
  | MPubcomp id => when (2 <=? MaxQos) (SendOp_handle_Pubcomp this id)
  | _ => mret tt
  end.

Definition processPublishAckMsg (msg : ProtMessage) (packetId : Z) (pubcompAck : bool)
    : M ClientImpl bool :=
  keepAliveOps ← gets (ops_of Type_KeepAlive);
  mapM_ KeepAliveOp_handle_ProtMessage keepAliveOps ;;
  sendOp ← findSendOp packetId;
  match sendOp with
  | None => mret false
  | Some sendOp =>
      legit ← isLegitSendAck sendOp pubcompAck;
      if legit : bool then SendOp_handle sendOp msg ;; mret true
      else resendAllUntil sendOp ;; mret true
  end.

End SendOp.
