(* ===== verification/RecvOp.v ===== *)
(** * Incoming publishes

    [RecvOp] (client/lib/src/op/RecvOp.cpp) and the handlers of PUBLISH and
    PUBREL of [ClientImpl] (client/lib/src/ClientImpl.cpp). *)

From S2P Require Import Prelude Config Protocol Topic PacketId TimerMgr State Lifecycle.
From S2P Require Import Completion Session SendOp.

Section RecvOp.
  Context `{Config} `{CommsLib} `{App}.

(** ** RecvOp *)

Definition RecvOp_restartResponseTimer (this : addr) : M ClientImpl unit :=
  when (2 <=? MaxQos)
    (ms ← gets (cfg_responseTimeoutMs ∘ m_configState);
     o ← get_op (T := RecvOp) this;
     on_timerMgr (timerWait (ro_responseTimer o) ms RecvOp_recvTimeoutCb this)).

Definition RecvOp_resetTimer (this : addr) : M ClientImpl unit :=
  when (2 <=? MaxQos)
    (o ← get_op (T := RecvOp) this;
     on_timerMgr (timerCancel (ro_responseTimer o))).

Definition RecvOp_postReconnectionResume (this : addr) : M ClientImpl unit :=
  when (2 <=? MaxQos)
    (RecvOp_connectivityChangedImpl this ;;
     RecvOp_restartResponseTimer this).

(** [Op::verifyQosValid] *)
Definition verifyQosValid (qos : Z) : bool := (qos <=? Z.of_nat MaxQos)%Z.

(** The check of the topic against the filters of the subscriptions. *)
Definition topic_subscribed (topic : string) (s : ClientImpl) : bool :=
  if HasSubTopicVerification && cfg_verifySubFilter (m_configState s) then
    existsb (λ filter, isTopicMatch filter topic) (reu_subFilters (m_reuseState s))
  else true.

Definition RecvOp_msgInfo (msg : PublishMsg) : CC_Mqtt311MessageInfo := {|
  mi_topic := c_str (pub_topic msg);
  mi_data := pub_payload msg;
  mi_dataLen := length (pub_payload msg);
  mi_qos := pub_qos msg;
  mi_retained := pub_retain msg |}.

Definition reportMsgInfo (info : CC_Mqtt311MessageInfo) : M ClientImpl unit :=
  cbs ← gets m_callbacks;
  must_callback (has_messageReceivedReportCb cbs) (EvMessageReceived info).

(** The end of [handle(PublishMsg&)], for a message that passed the checks. *)
Definition RecvOp_accept (this : addr) (msg : PublishMsg) : M ClientImpl unit :=
  let qos := pub_qos msg in
  let info := RecvOp_msgInfo msg in
  if (qos =? QoS_AtMostOnceDelivery)%Z then
    reportMsgInfo info ;; opComplete this
  else if (1 <=? MaxQos) && negb (pub_packetIdExists msg) then
    comms_assert false ;; brokerDisconnected_protocolError
  else
    when (1 <=? MaxQos) (reportMsgInfo info) ;;
    if (1 <=? MaxQos) && (qos =? QoS_AtLeastOnceDelivery)%Z then
      _ ← sendMessage (MPuback (pub_packetId msg));
      opComplete this
    else
      when (2 <=? MaxQos)
        (modify_op this (λ o, MkRecvOp (ro_responseTimer o) (pub_packetId msg)) ;;
         _ ← sendMessage (MPubrec (pub_packetId msg));
         RecvOp_restartResponseTimer this).

Definition RecvOp_handle_Publish (this : addr) (msg : PublishMsg) : M ClientImpl unit :=
  let qos := pub_qos msg in
  if (QoS_ExactlyOnceDelivery <? qos)%Z then brokerDisconnected_protocolError
  else if negb (verifyQosValid qos) then brokerDisconnected_protocolError
  else
    o ← get_op (T := RecvOp) this;
    if (2 <=? MaxQos) && (qos =? QoS_ExactlyOnceDelivery)%Z &&
       negb (ro_packetId o =? 0)%Z && pub_packetIdExists msg
    then
      if negb (pub_packetId msg =? ro_packetId o)%Z then mret tt
      else
        comms_assert (pub_dup msg) ;;
        _ ← sendMessage (MPubrec (ro_packetId o));
        RecvOp_restartResponseTimer this
    else
      connected ← gets (ses_connected ∘ m_sessionState);
      topic_ok ← gets (Op_verifyPubTopic (c_str (pub_topic msg)) false);
      subscribed ← gets (topic_subscribed (pub_topic msg));
      if negb connected then brokerDisconnected_protocolError
      else if bool_decide (pub_topic msg = "") || negb topic_ok then
        brokerDisconnected_protocolError
      else if negb subscribed then brokerDisconnected_protocolError
      else RecvOp_accept this msg.

Definition RecvOp_handle_Pubrel (this : addr) (packetId flags : Z) : M ClientImpl unit :=
  o ← get_op (T := RecvOp) this;
  if negb (packetId =? ro_packetId o)%Z then mret tt
  else
    RecvOp_resetTimer this ;;
    if negb (pubrel_doValid flags) then brokerDisconnected_protocolError
    else
      _ ← sendMessage (MPubcomp (ro_packetId o));
      opComplete this.

(** ** PUBLISH and PUBREL in ClientImpl *)

Fixpoint findRecvOp_loop (l : list addr) (packetId : Z) : M ClientImpl (option addr) :=
  match l with
  | [] => mret None
  | a :: l' =>
      o ← get_op (T := RecvOp) a;
      if (ro_packetId o =? packetId)%Z then mret (Some a)
      else findRecvOp_loop l' packetId
  end.

Definition findRecvOp (packetId : Z) : M ClientImpl (option addr) :=
  l ← gets (ops_of Type_Recv);
  findRecvOp_loop l packetId.

(** The lambda [createRecvOp]. *)
Definition createRecvOp (msg : PublishMsg) : M ClientImpl unit :=
  ptr ← ObjAllocator_alloc Type_Recv;
  match ptr with
  | None => mret tt
  | Some a => push_op Type_Recv a ;; RecvOp_handle_Publish a msg
  end.

Definition ClientImpl_handle_Publish (msg : PublishMsg) : M ClientImpl unit :=
  disconnecting ← gets (ses_disconnecting ∘ m_sessionState);
  if disconnecting : bool then mret tt
  else
    keepAliveOps ← gets (ops_of Type_KeepAlive);
    mapM_ KeepAliveOp_handle_ProtMessage keepAliveOps ;;
    let qos := pub_qos msg in
    if (qos =? QoS_AtMostOnceDelivery)%Z || (qos =? QoS_AtLeastOnceDelivery)%Z then
      createRecvOp msg
    else if 2 <=? MaxQos then
      iter ← findRecvOp (pub_packetId msg);
      match iter with
      | None => createRecvOp msg
      | Some recvOp =>
          if negb (pub_dup msg) then brokerDisconnected_protocolError
          else
            RecvOp_resetTimer recvOp ;;
            _ ← sendMessage (MPubrec (pub_packetId msg));
            mret tt
      end
    else createRecvOp msg.

Definition ClientImpl_handle_Pubrel (packetId flags : Z) : M ClientImpl unit :=
  keepAliveOps ← gets (ops_of Type_KeepAlive);
  mapM_ KeepAliveOp_handle_ProtMessage keepAliveOps ;;
  iter ← findRecvOp packetId;
  match iter with
  | None => mret tt
  | Some recvOp => RecvOp_handle_Pubrel recvOp packetId flags
  end.

End RecvOp.
