(* ===== verification/SubscribeOp.v ===== *)
(** * Subscriptions

    [SubscribeOp] and [UnsubscribeOp] (client/lib/src/op/SubscribeOp.cpp,
    client/lib/src/op/UnsubscribeOp.cpp) and the sorted list of confirmed
    filters [ReuseState::m_subFilters]. *)

From S2P Require Import Prelude SortedVec Config Protocol Topic PacketId TimerMgr State Lifecycle.
From S2P Require Import Completion Session SendOp.

Section SubscribeOp.
  Context `{Config} `{CommsLib} `{App}.

(** ** The list of confirmed filters *)

Definition filters_found (l : list string) (x : string) : bool :=
  bool_decide (l !! lower_bound l x = Some x).

Definition filters_capacity : option nat :=
  ObjListType_capacity SubFiltersLimit HasSubTopicVerification.

Definition subFilters (s : ClientImpl) : list string := reu_subFilters (m_reuseState s).

Definition set_subFilters (l : list string) (s : ClientImpl) : ClientImpl :=
  set_reuseState (MkReuseState l) s.

(** ** SubscribeOp *)

Definition size_max (max : option nat) (n : nat) : bool := at_max_size max n.

Definition SubscribeOp_configTopic (this : addr) (config : CC_Mqtt311SubscribeTopicConfig)
    : M ClientImpl CC_Mqtt311ErrorCode :=
  match st_topic config with
  | None => mret ErrorCode_BadParam
  | Some topic =>
      if bool_decide (char_at topic = NulChar) then mret ErrorCode_BadParam
      else
        valid ← gets (Op_verifySubFilter topic);
        if negb valid then mret ErrorCode_BadParam
        else if (Z.of_nat MaxQos <? st_maxQos config)%Z then mret ErrorCode_BadParam
        else
          o ← get_op (T := SubscribeOp) this;
          if size_max subscribe_list_max (length (su_list o)) then mret ErrorCode_OutOfMemory
          else
            let element := (assign_string topic, st_maxQos config) in
            modify_op this (λ o, su_set_list (su_list o ++ [element]) o) ;;
            if maxStringLen <? String.length (fst element) then
              modify_op this (λ o, su_set_list (removelast (su_list o)) o) ;;
              mret ErrorCode_BadParam
            else mret ErrorCode_Success
  end.

Definition SubscribeOp_restartTimer (this : addr) : M ClientImpl unit :=
  b ← get_base this;
  o ← get_op (T := SubscribeOp) this;
  on_timerMgr (timerWait (su_timer o) (op_responseTimeoutMs b) SubscribeOp_opTimeoutCb this).

Definition SubscribeOp_allocPacketId (this : addr) : M ClientImpl unit :=
  id ← on_clientState allocPacketId;
  modify_op this (su_set_packetId id).

Definition SubscribeOp_send (this : addr) (cb : UserCb) : M ClientImpl CC_Mqtt311ErrorCode :=
  allowNextPrepare ;;
  o ← get_op (T := SubscribeOp) this;
  if bool_decide (cb = None) then opComplete this ;; mret ErrorCode_BadParam
  else if bool_decide (su_list o = []) then
    opComplete this ;; mret ErrorCode_InsufficientConfig
  else if negb (Timer_isValid (su_timer o)) then
    opComplete this ;; mret ErrorCode_InternalError
  else
    modify_op this (su_set_cb cb) ;;
    SubscribeOp_allocPacketId this ;;
    o ← get_op this;
    result ← sendMessage (MSubscribe (su_packetId o) (su_list o));
    if negb (bool_decide (result = ErrorCode_Success)) then
      opComplete this ;; mret result
    else
      with_guard (SubscribeOp_restartTimer this) ;;
      mret ErrorCode_Success.

Definition SubscribeOp_cancel (this : addr) : M ClientImpl CC_Mqtt311ErrorCode :=
  o ← get_op (T := SubscribeOp) this;
  when (bool_decide (su_cb o = None)) allowNextPrepare ;;
  opComplete this ;;
  mret ErrorCode_Success.

(** What the loop over the return codes ends with: the codes that were
    accumulated, or the status of an early return. *)
Inductive SubackResult :=
  | SR_Codes (returnCodes : list Z)
  | SR_Status (status : CC_Mqtt311AsyncOpStatus).

(** The tests of one return code that are errors of the protocol. *)
Definition returnCode_ok (reqQos rc : Z) : bool :=
  if (SubscribeReturnCode_SuccessQos2 <? rc)%Z && negb (rc =? SubscribeReturnCode_Failure)%Z
  then false
  else if (SubscribeReturnCode_SuccessQos0 <=? rc)%Z && (rc <=? SubscribeReturnCode_SuccessQos2)%Z
  then negb (reqQos <? rc - SubscribeReturnCode_SuccessQos0)%Z
  else (rc =? SubscribeReturnCode_Failure)%Z.

(** The confirmed filter is inserted into the sorted list; [false] when the list
    is full. *)
Definition store_filter (topic : string) : M ClientImpl bool :=
  filters ← gets subFilters;
  if filters_found filters topic then mret true
  else if at_max_size filters_capacity (length filters) then mret false
  else
    modify (set_subFilters (insert_at (lower_bound filters topic) topic filters)) ;;
    mret true.

Fixpoint suback_loop (topics : list (string * Z)) (codes : list Z) (returnCodes : list Z)
    : M ClientImpl SubackResult :=
  match codes, topics with
  | rc :: codes', (topic, reqQos) :: topics' =>
      if at_max_size suback_list_max (length returnCodes) then
        mret (SR_Status AsyncOpStatus_InternalError)
      else if negb (returnCode_ok reqQos rc) then
        mret (SR_Status AsyncOpStatus_ProtocolError)
      else
        verify ← gets (cfg_verifySubFilter ∘ m_configState);
        if HasSubTopicVerification && verify && negb (SubscribeReturnCode_SuccessQos2 <? rc)%Z
        then
          stored ← store_filter topic;
          if stored : bool then suback_loop topics' codes' (returnCodes ++ [rc])
          else mret (SR_Status AsyncOpStatus_InternalError)
        else suback_loop topics' codes' (returnCodes ++ [rc])
  | _, _ => mret (SR_Codes returnCodes)
  end.

Definition SubscribeOp_handle_Suback (this : addr) (packetId : Z) (list : list Z)
    : M ClientImpl unit :=
  o ← get_op (T := SubscribeOp) this;
  if negb (packetId =? su_packetId o)%Z then mret tt
  else
    on_timerMgr (timerCancel (su_timer o)) ;;
    res ←
      (if negb (length (su_list o) =? length list)
       then mret (SR_Status AsyncOpStatus_ProtocolError)
       else suback_loop (su_list o) list []);
    match res with
    | SR_Codes returnCodes =>
        SubscribeOp_completeOpInternal this AsyncOpStatus_Complete (Some returnCodes)
    | SR_Status status =>
        SubscribeOp_completeOpInternal this status None ;;
        brokerDisconnected
          (if bool_decide (status = AsyncOpStatus_InternalError)
           then BrokerDisconnectReason_InternalError
           else BrokerDisconnectReason_ProtocolError)
          AsyncOpStatus_BrokerDisconnected
    end.

(** ** UnsubscribeOp *)

Definition UnsubscribeOp_configTopic (this : addr)
    (config : CC_Mqtt311UnsubscribeTopicConfig) : M ClientImpl CC_Mqtt311ErrorCode :=
  match ut_topic config with
  | None => mret ErrorCode_BadParam
  | Some topic =>
      if bool_decide (char_at topic = NulChar) then mret ErrorCode_BadParam
      else
        valid ← gets (Op_verifySubFilter topic);
        verify ← gets (cfg_verifySubFilter ∘ m_configState);
        filters ← gets subFilters;
        if negb valid then mret ErrorCode_BadParam
        else if HasSubTopicVerification && verify && negb (filters_found filters topic)
        then mret ErrorCode_BadParam
        else
          o ← get_op (T := UnsubscribeOp) this;
          if size_max unsubscribe_list_max (length (un_list o)) then
            mret ErrorCode_OutOfMemory
          else
            let element := assign_string topic in
            modify_op this (λ o, un_set_list (un_list o ++ [element]) o) ;;
            if maxStringLen <? String.length element then
              modify_op this (λ o, un_set_list (removelast (un_list o)) o) ;;
              mret ErrorCode_BadParam
            else mret ErrorCode_Success
  end.

Definition UnsubscribeOp_restartTimer (this : addr) : M ClientImpl unit :=
  b ← get_base this;
  o ← get_op (T := UnsubscribeOp) this;
  on_timerMgr (timerWait (un_timer o) (op_responseTimeoutMs b) UnsubscribeOp_opTimeoutCb this).

Definition UnsubscribeOp_allocPacketId (this : addr) : M ClientImpl unit :=
  id ← on_clientState allocPacketId;
  modify_op this (un_set_packetId id).

Definition UnsubscribeOp_send (this : addr) (cb : UserCb) : M ClientImpl CC_Mqtt311ErrorCode :=
  allowNextPrepare ;;
  o ← get_op (T := UnsubscribeOp) this;
  if bool_decide (cb = None) then opComplete this ;; mret ErrorCode_BadParam
  else if bool_decide (un_list o = []) then
    opComplete this ;; mret ErrorCode_InsufficientConfig
  else if negb (Timer_isValid (un_timer o)) then
    opComplete this ;; mret ErrorCode_InternalError
  else
    modify_op this (un_set_cb cb) ;;
    UnsubscribeOp_allocPacketId this ;;
    o ← get_op this;
    result ← sendMessage (MUnsubscribe (un_packetId o) (un_list o));
    if negb (bool_decide (result = ErrorCode_Success)) then
      opComplete this ;; mret result
    else
      with_guard (UnsubscribeOp_restartTimer this) ;;
      mret ErrorCode_Success.

Definition UnsubscribeOp_cancel (this : addr) : M ClientImpl CC_Mqtt311ErrorCode :=
  o ← get_op (T := UnsubscribeOp) this;
  when (bool_decide (un_cb o = None)) allowNextPrepare ;;
  opComplete this ;;
  mret ErrorCode_Success.

Definition remove_filter (filters : list string) (topic : string) : list string :=
  if filters_found filters topic
  then erase_at (lower_bound filters topic) filters
  else filters.

Definition UnsubscribeOp_handle_Unsuback (this : addr) (packetId : Z) : M ClientImpl unit :=
  o ← get_op (T := UnsubscribeOp) this;
  if negb (packetId =? un_packetId o)%Z then mret tt
  else
    on_timerMgr (timerCancel (un_timer o)) ;;
    when HasSubTopicVerification
      (modify (λ s, set_subFilters (foldl remove_filter (subFilters s) (un_list o)) s)) ;;
    UnsubscribeOp_completeOpInternal this AsyncOpStatus_Complete.

End SubscribeOp.
