(* ===== verification/ConnectOp.v ===== *)
(** * Connection and disconnection

    [ConnectOp], [DisconnectOp] (client/lib/src/op/ConnectOp.cpp,
    client/lib/src/op/DisconnectOp.cpp), [ClientImpl::brokerConnected] and
    [createKeepAliveOpIfNeeded] (client/lib/src/ClientImpl.cpp). *)

From S2P Require Import Prelude Config Protocol Topic PacketId TimerMgr State Lifecycle.
From S2P Require Import Completion Session SendOp RecvOp.

Section ConnectOp.
  Context `{Config} `{CommsLib} `{App}.

(** ** Configuration *)

Definition ConnectOp_modifyMsg (this : addr) (f : ConnectMsg → ConnectMsg)
    : M ClientImpl unit :=
  modify_op this (λ o, co_set_connectMsg (f (co_connectMsg o)) o).

Definition ConnectOp_config (this : addr) (config : CC_Mqtt311ConnectConfig)
    : M ClientImpl CC_Mqtt311ErrorCode :=
  let set := ConnectOp_modifyMsg this in
  let hasPassword := 0 <? cc_passwordLen config in
  firstConnect ← gets (m_firstConnect ∘ m_clientState);
  verifySubFilter ← gets (cfg_verifySubFilter ∘ m_configState);
  if hasPassword && bool_decide (cc_password config = None) then mret ErrorCode_BadParam
  else if hasPassword && bool_decide (cc_username config = None) then mret ErrorCode_BadParam
  else if negb (cc_cleanSession config) && firstConnect && verifySubFilter then
    mret ErrorCode_BadParam
  else if (cc_keepAlive config =? 0)%Z then mret ErrorCode_BadParam
  else
    set (con_set_clientId
      (match cc_clientId config with Some id => assign_string id | None => "" end)) ;;
    o ← get_op (T := ConnectOp) this;
    if maxStringLen <? String.length (con_clientId (co_connectMsg o)) then
      set (con_set_clientId "") ;; mret ErrorCode_BadParam
    else if bool_decide (con_clientId (co_connectMsg o) = "") && negb (cc_cleanSession config)
    then mret ErrorCode_BadParam
    else
      set (con_set_userNameFlag (bool_decide (is_Some (cc_username config)))) ;;
      (match cc_username config with
       | Some name => set (con_set_userName (assign_string name))
       | None => mret tt
       end) ;;
      o ← get_op (T := ConnectOp) this;
      if maxStringLen <? String.length (con_userName (co_connectMsg o)) then
        set (con_set_userName "") ;; mret ErrorCode_BadParam
      else
        set (con_set_passwordFlag hasPassword) ;;
        when hasPassword (set (con_set_password
          (assign_bytes (buffer (cc_password config) (cc_passwordLen config))))) ;;
        o ← get_op (T := ConnectOp) this;
        if maxStringLen <? length (con_password (co_connectMsg o)) then
          set (con_set_password []) ;; mret ErrorCode_BadParam
        else
          set (con_set_cleanSession (cc_cleanSession config)) ;;
          if (u16_max <? cc_keepAlive config)%Z then mret ErrorCode_BadParam
          else
            set (con_set_keepAlive (cc_keepAlive config)) ;;
            mret ErrorCode_Success.

Definition ConnectOp_configWill (this : addr) (config : CC_Mqtt311ConnectWillConfig)
    : M ClientImpl CC_Mqtt311ErrorCode :=
  let set := ConnectOp_modifyMsg this in
  if (0 <? cw_dataLen config) && bool_decide (cw_data config = None) then
    mret ErrorCode_BadParam
  else
    match cw_topic config with
    | None => mret ErrorCode_BadParam
    | Some topic =>
        if bool_decide (char_at topic = NulChar) then mret ErrorCode_BadParam
        else if (cw_qos config <? QoS_AtMostOnceDelivery)%Z ||
                (Z.of_nat MaxQos <? cw_qos config)%Z
        then mret ErrorCode_BadParam
        else
          set (con_set_willTopic (assign_string topic)) ;;
          o ← get_op (T := ConnectOp) this;
          if maxStringLen <? String.length (con_willTopic (co_connectMsg o)) then
            set (con_set_willTopic "") ;; mret ErrorCode_BadParam
          else
            when (0 <? cw_dataLen config) (set (con_set_willMessage
              (assign_bytes (buffer (cw_data config) (cw_dataLen config))))) ;;
            o ← get_op (T := ConnectOp) this;
            if maxStringLen <? length (con_willMessage (co_connectMsg o)) then
              set (con_set_willMessage []) ;; mret ErrorCode_BadParam
            else
              set (con_set_willQos (cw_qos config)) ;;
              set (con_set_willRetain (cw_retain config)) ;;
              set (con_set_willFlag true) ;;
              mret ErrorCode_Success
    end.

(** ** Sending and cancelling *)

Definition ConnectOp_restartTimer (this : addr) : M ClientImpl unit :=
  b ← get_base this;
  o ← get_op (T := ConnectOp) this;
  on_timerMgr (timerWait (co_timer o) (op_responseTimeoutMs b) ConnectOp_opTimeoutCb this).

Definition ConnectOp_send (this : addr) (cb : UserCb) : M ClientImpl CC_Mqtt311ErrorCode :=
  allowNextPrepare ;;
  o ← get_op (T := ConnectOp) this;
  firstConnect ← gets (m_firstConnect ∘ m_clientState);
  verifySubFilter ← gets (cfg_verifySubFilter ∘ m_configState);
  if bool_decide (cb = None) then opComplete this ;; mret ErrorCode_BadParam
  else if negb (Timer_isValid (co_timer o)) then
    opComplete this ;; mret ErrorCode_InternalError
  else if negb (con_cleanSession (co_connectMsg o)) && firstConnect && verifySubFilter then
    opComplete this ;; mret ErrorCode_InsufficientConfig
  else
    modify_op this (co_set_cb cb) ;;
    ConnectOp_modifyMsg this connect_doRefresh ;;
    o ← get_op this;
    result ← sendMessage (MConnect (co_connectMsg o));
    if negb (bool_decide (result = ErrorCode_Success)) then
      opComplete this ;; mret result
    else
      with_guard (ConnectOp_restartTimer this) ;;
      mret ErrorCode_Success.

Definition ConnectOp_cancel (this : addr) : M ClientImpl CC_Mqtt311ErrorCode :=
  o ← get_op (T := ConnectOp) this;
  when (bool_decide (co_cb o = None)) allowNextPrepare ;;
  opComplete this ;;
  mret ErrorCode_Success.

(** ** The broker accepts the connection *)

Definition createKeepAliveOpIfNeeded : M ClientImpl unit :=
  l ← gets (ops_of Type_KeepAlive);
  if negb (bool_decide (l = [])) then mret tt
  else
    ptr ← ObjAllocator_alloc Type_KeepAlive;
    match ptr with
    | None => comms_assert false
    | Some a => push_op Type_KeepAlive a
    end.

(** The index of the first of the paused publishes at the end of the list; one
    iteration per publish, from the last on. *)
Fixpoint resumeFrom_loop (count : nat) (resumeFromIdx : nat) : M ClientImpl nat :=
  match count with
  | O => mret resumeFromIdx
  | S idx =>
      l ← gets (ops_of Type_Send);
      match l !! idx with
      | None => throw FRange
      | Some a =>
          o ← get_op (T := SendOp) a;
          if negb (so_paused o) then mret resumeFromIdx
          else resumeFrom_loop idx idx
      end
  end.

(** [op->type()] on a pointer that may be null. *)
Definition type_of_ptr (op : option addr) : M ClientImpl (addr * OpType) :=
  match op with
  | None => throw FNull
  | Some a => o ← get_base a; mret (a, Op_type o)
  end.

Definition brokerConnected (sessionPresent : bool) : M ClientImpl unit :=
  on_clientState (modify (set_firstConnect false)) ;;
  set_session (ses_set_connected true) ;;
  (if sessionPresent then
     range_for (ops_of Type_Send) (λ s, g_sendOpsPushes s + g_sendOpsErases s)
       SendOp_postReconnectionResend ;;
     recvOps ← gets (ops_of Type_Recv);
     mapM_ RecvOp_postReconnectionResume recvOps ;;
     resumeUntilIdx ← gets (length ∘ ops_of Type_Send);
     resumeFromIdx ← resumeFrom_loop resumeUntilIdx resumeUntilIdx;
     when (resumeFromIdx <? resumeUntilIdx) (resumeSendOpsSince resumeFromIdx)
   else
     range_for m_ops g_opsChanges (λ op,
       p ← type_of_ptr op;
       let '(a, opType) := (p : addr * OpType) in
       if is_send_or_recv opType then Op_terminateOp a AsyncOpStatus_Aborted
       else mret tt)) ;;
  createKeepAliveOpIfNeeded.

Definition ConnectOp_handle_Connack (this : addr) (msg : ConnackMsg) : M ClientImpl unit :=
  o ← get_op (T := ConnectOp) this;
  on_timerMgr (timerCancel (co_timer o)) ;;
  if (ConnectReturnCode_ValuesLimit <=? cak_returnCode msg)%Z then
    ConnectOp_completeOpInternal this AsyncOpStatus_ProtocolError None
  else if cak_sp msg && con_cleanSession (co_connectMsg o) then
    ConnectOp_completeOpInternal this AsyncOpStatus_ProtocolError None
  else
    let response :=
      {| cr_returnCode := cak_returnCode msg; cr_sessionPresent := cak_sp msg |} in
    (if negb (cak_returnCode msg =? ConnectReturnCode_Accepted)%Z then
       set_session (λ _, SessionState_new)
     else
       when (negb (cak_sp msg)) (modify (set_reuseState ReuseState_new)) ;;
       set_session (ses_set_keepAliveMs (u32 (con_keepAlive (co_connectMsg o) * 1000))) ;;
       brokerConnected (cak_sp msg)) ;;
    ConnectOp_completeOpInternal this AsyncOpStatus_Complete (Some response).

(** ** DisconnectOp *)

Definition DisconnectOp_send (this : addr) : M ClientImpl CC_Mqtt311ErrorCode :=
  allowNextPrepare ;;
  with_guard
    (_ ← sendMessage MDisconnect;
     opComplete this ;;
     brokerDisconnected_default) ;;
  mret ErrorCode_Success.

Definition DisconnectOp_cancel (this : addr) : M ClientImpl CC_Mqtt311ErrorCode :=
  allowNextPrepare ;;
  opComplete this ;;
  mret ErrorCode_Success.

End ConnectOp.
