(* ===== verification/Client.v ===== *)
(** * The client

    The remaining functions of [ClientImpl] (client/lib/src/ClientImpl.cpp,
    client/lib/src/ClientImpl.h): the preparation of operations, the dispatch of
    incoming messages, [processData], [notifyNetworkDisconnected], the setters
    and the destructor; then the API of the library
    (client/lib/templ/client.cpp.templ) as a type of requests. *)

From S2P Require Import Prelude Config Protocol Topic PacketId TimerMgr State Lifecycle.
From S2P Require Import Completion Session SendOp RecvOp SubscribeOp ConnectOp.

Section Client.
  Context `{Config} `{CommsLib} `{App}.

(** ** Preparation *)

(** [initInternal] *)
Definition initInternal : M ClientImpl CC_Mqtt311ErrorCode :=
  with_guard
    (cbs ← gets m_callbacks;
     if negb (has_sendOutputDataCb cbs) || negb (has_brokerDisconnectReportCb cbs) ||
        negb (has_messageReceivedReportCb cbs)
     then mret ErrorCode_NotIntitialized
     else if (has_nextTickProgramCb cbs || has_cancelNextTickWaitCb cbs) &&
             negb (has_nextTickProgramCb cbs && has_cancelNextTickWaitCb cbs)
     then mret ErrorCode_NotIntitialized
     else
       terminateOps AsyncOpStatus_Aborted KeepSendRecvOps ;;
       set_session (λ _, SessionState_new) ;;
       on_clientState (modify (set_initialized true)) ;;
       mret ErrorCode_Success).

(** The result of a preparation: the operation or null, and the error code. *)
Definition Prepared : Type := option addr * CC_Mqtt311ErrorCode.

Definition refuse (ec : CC_Mqtt311ErrorCode) : M ClientImpl Prepared := mret (None, ec).

(** The allocation that ends the preparations. *)
Definition finish_prepare (T : OpType) : M ClientImpl Prepared :=
  ptr ← ObjAllocator_alloc T;
  match ptr with
  | None => refuse ErrorCode_OutOfMemory
  | Some a =>
      modify (set_preparationLocked true) ;;
      push_op T a ;;
      mret (Some a, ErrorCode_Success)
  end.

(** The initialisation of [connectPrepare]: the error that stops it. *)
Definition connectPrepare_init : M ClientImpl CC_Mqtt311ErrorCode :=
  initialized ← gets (m_initialized ∘ m_clientState);
  if initialized : bool then mret ErrorCode_Success
  else
    count ← gets m_apiEnterCount;
    if (0 <? count)%Z then mret ErrorCode_RetryLater else initInternal.

Definition connectPrepare : M ClientImpl Prepared :=
  on_clientState (modify (set_networkDisconnected false)) ;;
  initEc ← connectPrepare_init;
  if negb (bool_decide (initEc = ErrorCode_Success)) then refuse initEc
  else
    s ← gets (λ s, s);
    full ← ops_full;
    if negb (bool_decide (ops_of Type_Connect s = [])) then refuse ErrorCode_Busy
    else if ses_disconnecting (m_sessionState s) then refuse ErrorCode_Disconnecting
    else if ses_connected (m_sessionState s) then refuse ErrorCode_AlreadyConnected
    else if full : bool then refuse ErrorCode_RetryLater
    else if m_preparationLocked s then refuse ErrorCode_PreparationLocked
    else finish_prepare Type_Connect.

Definition disconnectPrepare : M ClientImpl Prepared :=
  s ← gets (λ s, s);
  full ← ops_full;
  if negb (ses_connected (m_sessionState s)) then refuse ErrorCode_NotConnected
  else if negb (bool_decide (ops_of Type_Disconnect s = [])) then refuse ErrorCode_Busy
  else if ses_disconnecting (m_sessionState s) then refuse ErrorCode_Disconnecting
  else if m_networkDisconnected (m_clientState s) then refuse ErrorCode_NetworkDisconnected
  else if full : bool then refuse ErrorCode_RetryLater
  else if m_preparationLocked s then refuse ErrorCode_PreparationLocked
  else finish_prepare Type_Disconnect.

(** [subscribePrepare] and [unsubscribePrepare] *)
Definition subscribePrepare_of (T : OpType) : M ClientImpl Prepared :=
  s ← gets (λ s, s);
  full ← ops_full;
  if negb (ses_connected (m_sessionState s)) then refuse ErrorCode_NotConnected
  else if ses_disconnecting (m_sessionState s) then refuse ErrorCode_Disconnecting
  else if m_networkDisconnected (m_clientState s) then refuse ErrorCode_NetworkDisconnected
  else if full : bool then refuse ErrorCode_RetryLater
  else if m_preparationLocked s then refuse ErrorCode_PreparationLocked
  else finish_prepare T.

Definition subscribePrepare : M ClientImpl Prepared := subscribePrepare_of Type_Subscribe.
Definition unsubscribePrepare : M ClientImpl Prepared := subscribePrepare_of Type_Unsubscribe.

(** The allocation comes before the test of the lock: the object is destroyed
    when the preparation is locked. *)
Definition publishPrepare : M ClientImpl Prepared :=
  s ← gets (λ s, s);
  full ← ops_full;
  if negb (ses_connected (m_sessionState s)) then refuse ErrorCode_NotConnected
  else if ses_disconnecting (m_sessionState s) then refuse ErrorCode_Disconnecting
  else if m_networkDisconnected (m_clientState s) then refuse ErrorCode_NetworkDisconnected
  else if full : bool then refuse ErrorCode_RetryLater
  else
    ptr ← ObjAllocator_alloc Type_Send;
    match ptr with
    | None => refuse ErrorCode_OutOfMemory
    | Some a =>
        if m_preparationLocked s then Op_destroy a ;; refuse ErrorCode_PreparationLocked
        else
          modify (set_preparationLocked true) ;;
          push_op Type_Send a ;;
          mret (Some a, ErrorCode_Success)
    end.

Definition setPublishOrdering (ordering : CC_Mqtt311PublishOrdering)
    : M ClientImpl CC_Mqtt311ErrorCode :=
  if bool_decide (ordering = PublishOrdering_ValuesLimit) then mret ErrorCode_BadParam
  else
    modify (λ s, set_configState (cfg_set_publishOrdering ordering (m_configState s)) s) ;;
    mret ErrorCode_Success.

(** ** Dispatch of incoming messages *)

(** [msg.dispatch( *op )]: the handler of the type of the operation, or nothing. *)
Definition dispatch_op (msg : ProtMessage) (op : addr) : M ClientImpl unit :=
  o ← get_base op;
  match Op_type o, msg with
  | Type_Connect, MConnack m => ConnectOp_handle_Connack op m
  | Type_KeepAlive, MPingresp => KeepAliveOp_handle_Pingresp op
  | Type_KeepAlive, _ => KeepAliveOp_handle_ProtMessage op
  | Type_Subscribe, MSuback id list => SubscribeOp_handle_Suback op id list
  | Type_Unsubscribe, MUnsuback id => UnsubscribeOp_handle_Unsuback op id
  | Type_Recv, MPublish m => RecvOp_handle_Publish op m
  | Type_Recv, MPubrel id flags => when (2 <=? MaxQos) (RecvOp_handle_Pubrel op id flags)
  | Type_Send, _ => SendOp_handle op msg
  | _, _ => mret tt
  end.

(** The loop over the indices of the operations that existed at its start. *)
Fixpoint handle_loop (idxs : list nat) (msg : ProtMessage) : M ClientImpl unit :=
  match idxs with
  | [] => mret tt
  | idx :: idxs' =>
      ops ← gets m_ops;
      match ops !! idx with
      | None => throw FRange
      | Some None => handle_loop idxs' msg
      | Some (Some op) =>
          dispatch_op msg op ;;
          disconnecting ← gets (ses_disconnecting ∘ m_sessionState);
          if disconnecting : bool then mret tt else handle_loop idxs' msg
      end
  end.

(** [handle(ProtMessage&)] *)
Definition ClientImpl_handle_ProtMessage (msg : ProtMessage) : M ClientImpl unit :=
  disconnecting ← gets (ses_disconnecting ∘ m_sessionState);
  if disconnecting : bool then mret tt
  else
    count ← gets (length ∘ m_ops);
    handle_loop (seq 0 count) msg.

(** [msg->dispatch( *this )] *)
Definition ClientImpl_dispatch (msg : ProtMessage) : M ClientImpl unit :=
  match msg with
  | MPublish m => ClientImpl_handle_Publish m
  | MPuback id =>
      if 1 <=? MaxQos then _ ← processPublishAckMsg msg id false; mret tt
      else ClientImpl_handle_ProtMessage msg
  | MPubrec id =>
      if 2 <=? MaxQos then _ ← processPublishAckMsg msg id false; mret tt
      else ClientImpl_handle_ProtMessage msg
  | MPubrel id flags =>
      if 2 <=? MaxQos then ClientImpl_handle_Pubrel id flags
      else ClientImpl_handle_ProtMessage msg
  | MPubcomp id =>
      if 2 <=? MaxQos then _ ← processPublishAckMsg msg id true; mret tt
      else ClientImpl_handle_ProtMessage msg
  | _ => ClientImpl_handle_ProtMessage msg
  end.

(** ** Incoming data *)

(** How the loop of [processData] ends: with the number of bytes consumed, or
    with the early [return len]. *)
Inductive ProcessEnd := PE_Consumed (consumed : nat) | PE_Error.

(** The part of the loop body that reads: the frame at the front of the buffer,
    which needs more than the first byte and a complete remaining length. *)
Definition next_frame (rest : bytes) : FrameRead :=
  if length rest <=? idAndFlags_minLength then FR_NotEnoughData
  else
    match size_read (drop idAndFlags_minLength rest) with
    | ES_NotEnoughData => FR_NotEnoughData
    | ES_Error => FR_Error
    | ES_Success => frame_read rest
    end.

(** One unit of fuel per iteration. *)
Fixpoint processData_loop (fuel : nat) (rest : bytes) (consumed : nat)
    : M ClientImpl ProcessEnd :=
  match rest with
  | [] => mret (PE_Consumed consumed)
  | _ =>
      match next_frame rest, fuel with
      | FR_NotEnoughData, _ => mret (PE_Consumed consumed)
      | FR_Error, _ => mret PE_Error
      | FR_Success _ _, O => throw FFuel
      | FR_Success msg n, S fuel' =>
          ClientImpl_dispatch msg ;;
          processData_loop fuel' (drop n rest) (consumed + n)
      end
  end.

Definition processData (buf : bytes) : M ClientImpl nat :=
  with_guard
    (networkDisconnected ← gets (m_networkDisconnected ∘ m_clientState);
     comms_assert (negb networkDisconnected) ;;
     if networkDisconnected : bool then mret 0
     else
       r ← processData_loop (length buf) buf 0;
       match r with
       | PE_Consumed consumed => mret consumed
       | PE_Error =>
           brokerDisconnected BrokerDisconnectReason_ProtocolError
             AsyncOpStatus_ProtocolError ;;
           mret (length buf)
       end).

Definition notifyNetworkDisconnected : M ClientImpl unit :=
  with_guard
    (on_clientState (modify (set_networkDisconnected true)) ;;
     disconnecting ← gets (ses_disconnecting ∘ m_sessionState);
     if disconnecting : bool then mret tt else brokerDisconnected_default).

(** The destructor. *)
Definition ClientImpl_destroy : M ClientImpl unit :=
  count ← gets m_apiEnterCount;
  comms_assert (count =? 0)%Z ;;
  terminateOps AsyncOpStatus_Aborted AbortSendRecvOps.

(** ** The API *)

(** The setters of the callbacks keep the previous callback when they are given
    null; [Callbacks] records those that are given. *)
Definition set_client_callbacks (cbs : Callbacks) : M ClientImpl unit :=
  modify (λ s,
    let old := m_callbacks s in
    set_callbacks (MkCallbacks
      (has_nextTickProgramCb old || has_nextTickProgramCb cbs)
      (has_cancelNextTickWaitCb old || has_cancelNextTickWaitCb cbs)
      (has_sendOutputDataCb old || has_sendOutputDataCb cbs)
      (has_brokerDisconnectReportCb old || has_brokerDisconnectReportCb cbs)
      (has_messageReceivedReportCb old || has_messageReceivedReportCb cbs)) s).

Definition client_set_default_response_timeout (ms : Z) : M ClientImpl CC_Mqtt311ErrorCode :=
  if (ms =? 0)%Z then mret ErrorCode_BadParam
  else
    modify (λ s, set_configState (cfg_set_responseTimeoutMs ms (m_configState s)) s) ;;
    mret ErrorCode_Success.

Definition client_set_verify_outgoing_topic_enabled (enabled : bool)
    : M ClientImpl CC_Mqtt311ErrorCode :=
  if HasTopicFormatVerification then
    modify (λ s, set_configState (cfg_set_verifyOutgoingTopic enabled (m_configState s)) s) ;;
    mret ErrorCode_Success
  else mret ErrorCode_NotSupported.

Definition client_set_verify_incoming_topic_enabled (enabled : bool)
    : M ClientImpl CC_Mqtt311ErrorCode :=
  if HasTopicFormatVerification then
    modify (λ s, set_configState (cfg_set_verifyIncomingTopic enabled (m_configState s)) s) ;;
    mret ErrorCode_Success
  else mret ErrorCode_NotSupported.

Definition client_set_verify_incoming_msg_subscribed (enabled : bool)
    : M ClientImpl CC_Mqtt311ErrorCode :=
  if HasSubTopicVerification then
    modify (λ s, set_configState (cfg_set_verifySubFilter enabled (m_configState s)) s) ;;
    mret ErrorCode_Success
  else mret ErrorCode_NotSupported.

(** [Op::setResponseTimeout], of the four handles that have it. *)
Definition Op_setResponseTimeout (this : addr) (ms : Z) : M ClientImpl unit :=
  o ← get_base this;
  modify (λ s, set_store (<[this := MkOp ms (op_derived o)]> (g_store s)) s).

(** The requests of an application: one constructor per function of the API
    that can change the state (the composite functions are sequences of them). *)
Inductive Request :=
  | RqSetCallbacks (cbs : Callbacks)
  | RqTick (ms : Z)
  | RqProcessData (buf : bytes)
  | RqNotifyNetworkDisconnected
  | RqSetDefaultResponseTimeout (ms : Z)
  | RqSetVerifyOutgoingTopic (enabled : bool)
  | RqSetVerifyIncomingTopic (enabled : bool)
  | RqSetVerifyIncomingMsgSubscribed (enabled : bool)
  | RqSetPublishOrdering (ordering : CC_Mqtt311PublishOrdering)
  | RqSetResponseTimeout (op : addr) (ms : Z)
  | RqConnectPrepare
  | RqConnectConfig (op : addr) (config : CC_Mqtt311ConnectConfig)
  | RqConnectConfigWill (op : addr) (config : CC_Mqtt311ConnectWillConfig)
  | RqConnectSend (op : addr) (cb : UserCb)
  | RqConnectCancel (op : addr)
  | RqDisconnectPrepare
  | RqDisconnectSend (op : addr)
  | RqDisconnectCancel (op : addr)
  | RqSubscribePrepare
  | RqSubscribeConfigTopic (op : addr) (config : CC_Mqtt311SubscribeTopicConfig)
  | RqSubscribeSend (op : addr) (cb : UserCb)
  | RqSubscribeCancel (op : addr)
  | RqUnsubscribePrepare
  | RqUnsubscribeConfigTopic (op : addr) (config : CC_Mqtt311UnsubscribeTopicConfig)
  | RqUnsubscribeSend (op : addr) (cb : UserCb)
  | RqUnsubscribeCancel (op : addr)
  | RqPublishPrepare
  | RqPublishConfig (op : addr) (config : CC_Mqtt311PublishConfig)
  | RqPublishSetResendAttempts (op : addr) (attempts : Z)
  | RqPublishSend (op : addr) (cb : UserCb)
  | RqPublishCancel (op : addr)
  | RqFree.

Definition ignore {A} (m : M ClientImpl A) : M ClientImpl unit := _ ← m; mret tt.

Definition run_request (r : Request) : M ClientImpl unit :=
  match r with
  | RqSetCallbacks cbs => set_client_callbacks cbs
  | RqTick ms => ClientImpl_tick ms
  | RqProcessData buf => ignore (processData buf)
  | RqNotifyNetworkDisconnected => notifyNetworkDisconnected
  | RqSetDefaultResponseTimeout ms => ignore (client_set_default_response_timeout ms)
  | RqSetVerifyOutgoingTopic b => ignore (client_set_verify_outgoing_topic_enabled b)
  | RqSetVerifyIncomingTopic b => ignore (client_set_verify_incoming_topic_enabled b)
  | RqSetVerifyIncomingMsgSubscribed b => ignore (client_set_verify_incoming_msg_subscribed b)
  | RqSetPublishOrdering ordering => ignore (setPublishOrdering ordering)
  | RqSetResponseTimeout op ms => Op_setResponseTimeout op ms
  | RqConnectPrepare => ignore connectPrepare
  | RqConnectConfig op config => ignore (ConnectOp_config op config)
  | RqConnectConfigWill op config => ignore (ConnectOp_configWill op config)
  | RqConnectSend op cb => ignore (ConnectOp_send op cb)
  | RqConnectCancel op => ignore (ConnectOp_cancel op)
  | RqDisconnectPrepare => ignore disconnectPrepare
  | RqDisconnectSend op => ignore (DisconnectOp_send op)
  | RqDisconnectCancel op => ignore (DisconnectOp_cancel op)
  | RqSubscribePrepare => ignore subscribePrepare
  | RqSubscribeConfigTopic op config => ignore (SubscribeOp_configTopic op config)
  | RqSubscribeSend op cb => ignore (SubscribeOp_send op cb)
  | RqSubscribeCancel op => ignore (SubscribeOp_cancel op)
  | RqUnsubscribePrepare => ignore unsubscribePrepare
  | RqUnsubscribeConfigTopic op config => ignore (UnsubscribeOp_configTopic op config)
  | RqUnsubscribeSend op cb => ignore (UnsubscribeOp_send op cb)
  | RqUnsubscribeCancel op => ignore (UnsubscribeOp_cancel op)
  | RqPublishPrepare => ignore publishPrepare
  | RqPublishConfig op config => ignore (SendOp_config op config)
  | RqPublishSetResendAttempts op n => ignore (SendOp_setResendAttempts op n)
  | RqPublishSend op cb => ignore (SendOp_send op cb)
  | RqPublishCancel op => ignore (SendOp_cancel op)
  | RqFree => ClientImpl_destroy
  end.

Definition run_requests (rs : list Request) : M ClientImpl unit := mapM_ run_request rs.

(** ** Composite functions *)

(** [cc_mqtt311_client_connect] with both configurations optional, and the
    composite functions of the other operations: prepare, configure, send, with a
    cancellation when the configuration is refused. *)
Definition composite (prepare : M ClientImpl Prepared)
    (configure : addr → M ClientImpl CC_Mqtt311ErrorCode)
    (send cancel : addr → M ClientImpl CC_Mqtt311ErrorCode)
    : M ClientImpl CC_Mqtt311ErrorCode :=
  p ← prepare;
  match p : Prepared with
  | (None, ec) => mret ec
  | (Some op, _) =>
      ec ← configure op;
      if bool_decide (ec = ErrorCode_Success) then send op
      else _ ← cancel op; mret ec
  end.

(** Configurations are applied until one is refused. *)
Fixpoint configure_all {A} (f : A → M ClientImpl CC_Mqtt311ErrorCode) (l : list A)
    : M ClientImpl CC_Mqtt311ErrorCode :=
  match l with
  | [] => mret ErrorCode_Success
  | x :: l' =>
      ec ← f x;
      if bool_decide (ec = ErrorCode_Success) then configure_all f l' else mret ec
  end.

Definition option_to_list {A} (o : option A) : list A :=
  match o with Some x => [x] | None => [] end.

Definition client_connect (config : option CC_Mqtt311ConnectConfig)
    (willConfig : option CC_Mqtt311ConnectWillConfig) (cb : UserCb)
    : M ClientImpl CC_Mqtt311ErrorCode :=
  composite connectPrepare
    (λ op,
      ec ← configure_all (ConnectOp_config op) (option_to_list config);
      if bool_decide (ec = ErrorCode_Success)
      then configure_all (ConnectOp_configWill op) (option_to_list willConfig)
      else mret ec)
    (λ op, ConnectOp_send op cb) ConnectOp_cancel.

Definition client_disconnect : M ClientImpl CC_Mqtt311ErrorCode :=
  composite disconnectPrepare (λ _, mret ErrorCode_Success) DisconnectOp_send
    DisconnectOp_cancel.

Definition client_subscribe (topicConfigs : list CC_Mqtt311SubscribeTopicConfig) (cb : UserCb)
    : M ClientImpl CC_Mqtt311ErrorCode :=
  composite subscribePrepare (λ op, configure_all (SubscribeOp_configTopic op) topicConfigs)
    (λ op, SubscribeOp_send op cb) SubscribeOp_cancel.

Definition client_unsubscribe (topicConfigs : list CC_Mqtt311UnsubscribeTopicConfig)
    (cb : UserCb) : M ClientImpl CC_Mqtt311ErrorCode :=
  composite unsubscribePrepare
    (λ op, configure_all (UnsubscribeOp_configTopic op) topicConfigs)
    (λ op, UnsubscribeOp_send op cb) UnsubscribeOp_cancel.

Definition client_publish (config : option CC_Mqtt311PublishConfig) (cb : UserCb)
    : M ClientImpl CC_Mqtt311ErrorCode :=
  composite publishPrepare
    (λ op, configure_all (SendOp_config op) (option_to_list config))
    (λ op, SendOp_send op cb) SendOp_cancel.

End Client.

(** ** Applications that call the client from their callbacks

    An application is given by the requests it makes in reaction to a callback,
    as a function of the callbacks so far.  The reactions nest: a request made
    from a callback may cause callbacks, whose requests may cause others, to a
    given depth. *)

Class Script := {
  script_react : list Event → list Request;
  script_elapsed : list Event → Z;
  script_fuel : nat;
}.

Fixpoint scripted `{Config} `{CommsLib} `{Script} (depth : nat) : App := {|
  app_react := λ _,
    match depth with
    | O => mret tt
    | S depth' =>
        rs ← gets (script_react ∘ g_trace);
        run_requests (H1 := scripted depth') rs
    end;
  app_elapsed := script_elapsed;
  app_fuel := script_fuel;
|}.

(** The states that a client reaches from its construction: the application makes
    any requests, and reacts to callbacks as a script, to any depth. *)
Inductive reachable `{Config} `{CommsLib} `{Script} (depth : nat) : ClientImpl → Prop :=
  | reachable_new : reachable depth ClientImpl_new
  | reachable_step s r s' :
      reachable depth s → run_request (H1 := scripted depth) r s = Ok tt s' →
      reachable depth s'.
