(* ===== verification/Invariant.v ===== *)
(** * The invariant of a client

    What every state of a client between two steps of the library satisfies:
    each live operation is in exactly one entry of [m_ops] and in the list of its
    type; packet identifiers that operations hold are allocated and distinct;
    each timer in use belongs to exactly one live operation, and its timeout
    function is one of this operation; no operation reports its completion twice.

    The invariant depends on the objects only through their [Shape]. *)

From S2P Require Import Prelude SortedVec Config Protocol PacketId TimerMgr State Lifecycle.

(** ** Definitions *)

(** The parts of an operation that the invariant depends on. *)
Record Shape := MkShape {
  sh_type : OpType;
  sh_pid : Z;
  sh_timers : list Timer;
}.

Definition shape_of (d : Derived) : Shape :=
  MkShape (typeImpl d) (held_packetId d) (held_timers d).

Definition shapes (s : ClientImpl) : gmap addr Shape :=
  (λ o, shape_of (op_derived o)) <$> g_store s.

(** The types of which there is at most one operation. *)
Definition is_single (T : OpType) : bool :=
  match T with
  | Type_Connect | Type_KeepAlive | Type_Disconnect => true
  | _ => false
  end.

(** The seven lists against the objects and the limits of the configuration. *)
Record ListsInv `{Config} (sh : gmap addr Shape) (ls : OpLists) : Prop := {
  li_lists : ∀ T a, a ∈ list_of T ls ↔ ∃ x, sh !! a = Some x ∧ sh_type x = T;
  li_nodup : ∀ T, NoDup (list_of T ls);
  li_limit : ∀ T, list_limit T ≠ 0 → length (list_of T ls) ≤ list_limit T;
  li_single : ∀ T, is_single T = true → length (list_of T ls) ≤ 1;
}.

(** [m_ops] against the objects; null entries only until the next cleaning. *)
Record OpsInv (sh : gmap addr Shape) (ops : list (option addr)) (deleted : bool) : Prop := {
  li_ops : ∀ a, Some a ∈ ops ↔ is_Some (sh !! a);
  li_ops_nodup : NoDup (omap id ops);
  li_deleted : deleted = false → None ∉ ops;
}.

(** Packet identifiers. *)
Record PidInv (sh : gmap addr Shape) (ids : list Z) : Prop := {
  pi_ids : packetIds_ok ids;
  pi_held : ∀ a x, sh !! a = Some x → sh_pid x ≠ 0%Z → sh_pid x ∈ ids;
  pi_inj : ∀ a b x y, sh !! a = Some x → sh !! b = Some y → sh_pid x = sh_pid y →
    sh_pid x ≠ 0%Z → a = b;
}.

(** Timers. *)
Record TimerInv (sh : gmap addr Shape) (mgr : TimerMgr TimeoutCb) : Prop := {
  ti_ok : timers_ok mgr;
  ti_held : ∀ a x i, sh !! a = Some x → Some i ∈ sh_timers x → is_allocated mgr i;
  ti_inj : ∀ a b x y i, sh !! a = Some x → sh !! b = Some y → Some i ∈ sh_timers x →
    Some i ∈ sh_timers y → a = b;
  ti_nodup : ∀ a x, sh !! a = Some x → NoDup (omap id (sh_timers x));
  ti_owned : ∀ i, is_allocated mgr i →
    ∃ a x, sh !! a = Some x ∧ Some i ∈ sh_timers x;
  ti_active : ∀ i info cb, m_timers mgr !! i = Some info → m_timeoutCb info = Some cb →
    ∃ x, sh !! m_timeoutData info = Some x ∧ sh_type x = TimeoutCb_type cb ∧
      Some i ∈ sh_timers x;
}.

(** The operation whose completion an event reports, and the number of such
    events of an operation. *)
Definition completion_of (e : Event) : option addr :=
  match e with
  | EvConnectComplete op _ _ _ | EvSubscribeComplete op _ _ _
  | EvUnsubscribeComplete op _ _ | EvPublishComplete op _ _ => Some op
  | _ => None
  end.

Definition completions (a : addr) (tr : list Event) : nat :=
  length (filter (λ e, completion_of e = Some a) tr).

(** Completions. *)
Record DoneInv (sh : gmap addr Shape) (next : addr) (tr : list Event) : Prop := {
  di_next : ∀ a, is_Some (sh !! a) → a < next;
  di_once : ∀ a, completions a tr ≤ 1;
  di_live : ∀ a, is_Some (sh !! a) → completions a tr = 0;
  di_fresh : ∀ a, next ≤ a → completions a tr = 0;
}.

(** The parts of the invariant that do not involve the lists. *)
Record ObjInv (s : ClientImpl) : Prop := {
  oi_pids : PidInv (shapes s) (m_allocatedPacketIds (m_clientState s));
  oi_timers : TimerInv (shapes s) (m_timerMgr s);
  oi_done : DoneInv (shapes s) (g_next s) (g_trace s);
}.

Record Inv `{Config} (s : ClientImpl) : Prop := {
  inv_lists : ListsInv (shapes s) (m_lists s);
  inv_ops : OpsInv (shapes s) (m_ops s) (m_opsDeleted s);
  inv_obj : ObjInv s;
  inv_api : (0 ≤ m_apiEnterCount s ≤ u32_max)%Z;
}.

(** A state in which the object at [a] is not linked: it is being constructed or
    about to be destroyed. *)
Record Pending `{Config} (a : addr) (s : ClientImpl) : Prop := {
  pd_live : is_Some (shapes s !! a);
  pd_lists : ListsInv (delete a (shapes s)) (m_lists s);
  pd_ops : OpsInv (delete a (shapes s)) (m_ops s) (m_opsDeleted s);
  pd_obj : ObjInv s;
  pd_api : (0 ≤ m_apiEnterCount s ≤ u32_max)%Z;
}.

(** The operation of type [T] that is being constructed at the next address owns
    the timers allocated so far. *)
Record Constructing `{Config} (T : OpType) (tms : list Timer) (s : ClientImpl) : Prop := {
  cn_lists : ListsInv (shapes s) (m_lists s);
  cn_ops : OpsInv (shapes s) (m_ops s) (m_opsDeleted s);
  cn_pids : PidInv (shapes s) (m_allocatedPacketIds (m_clientState s));
  cn_timers : TimerInv (<[g_next s := MkShape T 0 tms]> (shapes s)) (m_timerMgr s);
  cn_done : DoneInv (shapes s) (g_next s) (g_trace s);
  cn_api : (0 ≤ m_apiEnterCount s ≤ u32_max)%Z;
}.

(** What time does: addresses are handed out once, the trace grows, a destroyed
    operation stays destroyed and reports nothing any more, a live one keeps its
    type and its timers, and the guards of the API are balanced. *)
Record evolves (s s' : ClientImpl) : Prop := {
  ev_next : g_next s ≤ g_next s';
  ev_trace : g_trace s `prefix_of` g_trace s';
  ev_dead : ∀ a, a < g_next s → shapes s !! a = None →
    shapes s' !! a = None ∧ completions a (g_trace s') = completions a (g_trace s);
  ev_same : ∀ a x y, a < g_next s → shapes s !! a = Some x → shapes s' !! a = Some y →
    sh_type x = sh_type y ∧ sh_timers x = sh_timers y;
  ev_api : m_apiEnterCount s' = m_apiEnterCount s;
}.

#[export] Instance evolves_preorder : PreOrder evolves.
Proof.
  split.
  - intros s. split; [done | done | done | naive_solver | done].
  - intros s1 s2 s3 [Hn Ht Hd Hs Hapi] [Hn' Ht' Hd' Hs' Hapi']. split; [| | | |congruence].
    + lia.
    + by etrans.
    + intros a Ha Hx. destruct (Hd a Ha Hx) as [Hx' Hc].
      destruct (Hd' a ltac:(lia) Hx') as [Hx'' Hc']. split; [done | congruence].
    + intros a x z Ha Hx Hz. destruct (shapes s2 !! a) as [y|] eqn:Hy.
      * destruct (Hs a x y Ha Hx Hy), (Hs' a y z ltac:(lia) Hy Hz). split; congruence.
      * destruct (Hd' a ltac:(lia) Hy). congruence.
Qed.

(** The contract: any fault is tolerated (the theorems on faults are separate). *)
#[export] Instance client_contract `{Config} : Contract ClientImpl := {|
  ct_inv := Inv;
  ct_rel := evolves;
  ct_faults := any_fault;
|}.

(** An application whose reactions fulfil the contract. *)
Class AppContract `{Config} `{App} : Prop := app_keeps : ∀ e, keeps (app_react e).

(** ** States that agree on what the invariant depends on *)

Definition core (s : ClientImpl) :=
  (shapes s, m_lists s, m_ops s, m_opsDeleted s, m_allocatedPacketIds (m_clientState s),
   m_timerMgr s, g_next s, g_trace s, m_apiEnterCount s).

Lemma core_inv `{Config} s s' : core s' = core s → Inv s → Inv s' ∧ evolves s s'.
Proof.
  unfold core. intros [= Hsh Hls Hops Hdel Hids Hmgr Hnext Htr Hapi] [Hl Ho [Hp Ht Hd] Ha0].
  split; [split; [| |split|]; congruence|].
  split; [lia | by rewrite Htr | | | done].
  - intros a _ Ha. split; [by rewrite Hsh | by rewrite Htr].
  - intros a x y _ Hx Hy. rewrite Hsh in Hy. split; congruence.
Qed.

Lemma keeps_core `{Config} f : (∀ s, core (f s) = core s) → keeps (modify f).
Proof. intros Hf. apply keeps_modify. intros s Hs. by apply core_inv. Qed.

(** The new client. *)
Lemma Inv_new `{Config} : Inv ClientImpl_new.
Proof.
  assert (shapes ClientImpl_new = ∅) as Hsh by done.
  split; [| |split|done]; rewrite ?Hsh.
  - split.
    + intros [] a; simpl; rewrite lookup_empty; set_solver.
    + intros []; constructor.
    + intros []; simpl; lia.
    + intros []; simpl; lia.
  - split.
    + intros a. simpl. rewrite lookup_empty, elem_of_nil. split; [done | by intros []].
    + constructor.
    + intros _. apply not_elem_of_nil.
  - split; [apply packetIds_ok_nil | |]; intros *; by rewrite lookup_empty.
  - split; try (intros *; by rewrite lookup_empty).
    + split; [done | |]; intros idx info; done.
    + intros i (info & Hi & _). done.
  - split; try done; intros a; [rewrite lookup_empty; by intros [] | simpl; unfold completions; simpl; lia].
Qed.
