(* ===== verification/Objects.v ===== *)
(** * Objects and the invariant

    Reading and assigning members, timers, packet identifiers, callbacks, and
    the construction and destruction of operations preserve the invariant. *)

From S2P Require Import Prelude SortedVec Config Protocol PacketId TimerMgr State Lifecycle Invariant.

(** ** Members *)

Lemma wp_get_base F a (Q : Op → ClientImpl → Prop) s :
  F FDangling → (∀ o, g_store s !! a = Some o → Q o s) → wp F (get_base a) Q s.
Proof.
  intros HF HQ. unfold get_base. apply wp_bind, wp_gets.
  destruct (g_store s !! a) eqn:Ha; [apply wp_ret; auto | by apply wp_throw].
Qed.

Lemma wp_get_op `{Subclass T} F a (Q : T → ClientImpl → Prop) s :
  F FDangling → (∀ t o, g_store s !! a = Some (MkOp t (upcast o)) → Q o s) →
  wp F (get_op a) Q s.
Proof.
  intros HF HQ. unfold get_op. apply wp_bind, wp_get_base; [done|]. intros [t d] Ha. simpl.
  destruct (downcast d) eqn:Hd; [|by apply wp_throw]. apply wp_ret.
  apply upcast_downcast in Hd as ->. by apply HQ with t.
Qed.

(** Reading a live object. *)
Lemma wp_get_base_live F a o (Q : Op → ClientImpl → Prop) s :
  g_store s !! a = Some o → Q o s → wp F (get_base a) Q s.
Proof. intros Ha HQ. unfold get_base, wp, mbind, M_bind, gets. by rewrite Ha. Qed.

Lemma wp_get_op_live `{Subclass T} F a t o (Q : T → ClientImpl → Prop) s :
  g_store s !! a = Some (MkOp t (upcast o)) → Q o s → wp F (get_op a) Q s.
Proof.
  intros Ha HQ. unfold get_op. apply wp_bind. eapply wp_get_base_live; [exact Ha|].
  simpl. rewrite downcast_upcast. by apply wp_ret.
Qed.

Lemma shapes_live s a x :
  shapes s !! a = Some x → ∃ o, g_store s !! a = Some o ∧ x = shape_of (op_derived o).
Proof.
  unfold shapes. rewrite lookup_fmap. intros (o & Ho & ->)%fmap_Some. eauto.
Qed.

Lemma keeps_get_base `{Config} a : keeps (get_base a).
Proof. intros s Hs. apply wp_get_base; [done|]. by split. Qed.

Lemma keeps_get_op `{Config} `{Subclass T} a : keeps (get_op (T := T) a).
Proof. intros s Hs. apply wp_get_op; [done|]. by split. Qed.

Lemma shapes_put a d s t d0 :
  g_store s !! a = Some (MkOp t d0) → shapes (put_derived a d s) = <[a := shape_of d]> (shapes s).
Proof.
  intros Ha. apply map_eq. intros b. unfold shapes, put_derived. simpl.
  rewrite lookup_fmap. destruct (decide (a = b)) as [<-|].
  - by rewrite lookup_alter_eq, Ha, lookup_insert_eq.
  - by rewrite lookup_alter_ne, lookup_insert_ne, lookup_fmap.
Qed.

Lemma shapes_lookup s a o : g_store s !! a = Some o → shapes s !! a = Some (shape_of (op_derived o)).
Proof. intros Ha. unfold shapes. by rewrite lookup_fmap, Ha. Qed.

Lemma keeps_modify_op `{Config} `{Subclass T} a (f : T → T) :
  (∀ o, shape_of (upcast (f o)) = shape_of (upcast o)) → keeps (modify_op a f).
Proof.
  intros Hf s Hs. unfold modify_op. apply wp_bind, wp_get_op; [done|].
  intros t o Ha. apply wp_modify, core_inv; [|done].
  unfold core. rewrite (shapes_put _ _ _ _ _ Ha), Hf, insert_id; [done|].
  by rewrite (shapes_lookup _ _ _ Ha).
Qed.

#[export] Hint Resolve keeps_get_base keeps_get_op : keeps.
#[export] Hint Extern 2 (keeps (modify_op _ _)) =>
  apply keeps_modify_op; (reflexivity || (intros []; reflexivity)) : keeps.
#[export] Hint Extern 2 (keeps (modify _)) => apply keeps_core; reflexivity : keeps.
#[export] Hint Extern 1 (keeps (throw _)) => by apply keeps_throw : keeps.
#[export] Hint Extern 1 (keeps (comms_assert _)) => by apply keeps_comms_assert : keeps.

(** ** Callbacks *)

Lemma completions_app a tr tr' : completions a (tr ++ tr') = completions a tr + completions a tr'.
Proof. unfold completions. by rewrite filter_app, length_app. Qed.

Lemma completions_other a e : completion_of e ≠ Some a → completions a [e] = 0.
Proof. intros He. unfold completions. by rewrite filter_cons_False. Qed.

Lemma completions_self a e : completion_of e = Some a → completions a [e] = 1.
Proof. intros He. unfold completions. by rewrite filter_cons_True. Qed.

Lemma prefix_log s e : g_trace s `prefix_of` g_trace (log e s).
Proof. simpl. by apply prefix_app_r. Qed.

(** A callback that is not a completion. *)
Lemma log_inv `{Config} e s : completion_of e = None → Inv s → Inv (log e s) ∧ evolves s (log e s).
Proof.
  intros He [Hl Hops [Hp Ht [Hn Ho Hlive Hf]] Hapi].
  assert (∀ a, completions a (g_trace s ++ [e]) = completions a (g_trace s)) as Hc.
  { intros a. rewrite completions_app, completions_other; [lia | congruence]. }
  split; [split; [done..|split; [done..|]|done]|].
  - split; simpl; [done | intros a; rewrite Hc; auto..].
  - split; [done | apply prefix_log | by intros; simpl; rewrite Hc | |done].
    intros a x y _ Hx Hy. change (shapes (log e s)) with (shapes s) in Hy. by simplify_eq.
Qed.

Section callbacks.
  Context `{Config} `{App} `{!AppContract}.

Lemma keeps_callback e : completion_of e = None → keeps (callback e).
Proof.
  intros He. apply keeps_bind; [|intros _; apply app_keeps].
  apply keeps_modify. intros s Hs. by apply log_inv.
Qed.

Lemma keeps_must_callback b e : completion_of e = None → keeps (must_callback b e).
Proof.
  intros He. unfold must_callback. apply keeps_bind; [by apply keeps_comms_assert|]. intros _.
  destruct b; [by apply keeps_callback | by apply keeps_throw].
Qed.

(** The report of the completion of an operation that has just been destroyed. *)
Lemma log_completion_inv e a s :
  completion_of e = Some a → Inv s → shapes s !! a = None → a < g_next s →
  completions a (g_trace s) = 0 → Inv (log e s).
Proof.
  intros He [Hl Hops [Hp Ht [Hn Ho Hlive Hf]] Hapi] Ha Hlt Hz.
  assert (∀ b, b ≠ a → completions b (g_trace s ++ [e]) = completions b (g_trace s)) as Hc.
  { intros b Hb. rewrite completions_app, completions_other; [lia | congruence]. }
  split; [done..|split; [done..|]|done]. split; simpl; [done| | |].
  - intros b. destruct (decide (b = a)) as [->|]; [|by rewrite Hc].
    rewrite completions_app, (completions_self a e He). lia.
  - intros b Hb. destruct (decide (b = a)) as [->|]; [|rewrite Hc; auto].
    change (shapes (log e s)) with (shapes s) in Hb. rewrite Ha in Hb. by destruct Hb.
  - intros b Hb. rewrite Hc; [auto | lia].
Qed.

Lemma evolves_log_completion e a s s' :
  completion_of e = Some a → is_Some (shapes s !! a) → evolves s s' → evolves s (log e s').
Proof.
  intros He [x Ha] [Hn Ht Hd Hs Hapi]. split; [done | | | done | done].
  - etrans; [done | apply prefix_log].
  - intros b Hb Hnone. destruct (Hd b Hb Hnone) as [? Hc]. split; [done|]. simpl.
    rewrite completions_app, completions_other; [lia|]. congruence.
Qed.
End callbacks.

#[export] Hint Extern 1 (keeps (callback _)) => apply keeps_callback; reflexivity : keeps.
#[export] Hint Extern 1 (keeps (must_callback _ _)) =>
  apply keeps_must_callback; reflexivity : keeps.

(** ** Timers *)

(** The states of the timer manager that keep the invariant for the same
    objects: no change of allocation, and active timers that were active with the
    same function and data, or belong to their owner. *)
Lemma timers_inv sh mgr mgr' :
  TimerInv sh mgr → timers_ok mgr' →
  (∀ i, is_allocated mgr' i ↔ is_allocated mgr i) →
  (∀ i info cb, m_timers mgr' !! i = Some info → m_timeoutCb info = Some cb →
    (∃ x, sh !! m_timeoutData info = Some x ∧ sh_type x = TimeoutCb_type cb ∧
      Some i ∈ sh_timers x) ∨
    (∃ info0, m_timers mgr !! i = Some info0 ∧ m_timeoutCb info0 = Some cb ∧
      m_timeoutData info0 = m_timeoutData info)) →
  TimerInv sh mgr'.
Proof.
  intros [Hok Hh Hi Hn Ho Ha] Hok' Hal Hact. split; [done| | done | done | |].
  - intros a x i Hx Hin. apply Hal. by eapply Hh.
  - intros i Hin%Hal. auto.
  - intros i info cb Hl Hcb. destruct (Hact i info cb Hl Hcb) as [|(info0 & Hl0 & Hcb0 & Hd)];
      [done|]. rewrite <- Hd. by eapply Ha.
Qed.

Lemma evolves_set_timerMgr mgr s : evolves s (set_timerMgr mgr s).
Proof.
  split; [done..| |done]. change (shapes (set_timerMgr mgr s)) with (shapes s).
  intros. by simplify_eq.
Qed.

Lemma inv_set_timerMgr `{Config} mgr s :
  Inv s → TimerInv (shapes s) mgr → Inv (set_timerMgr mgr s) ∧ evolves s (set_timerMgr mgr s).
Proof. intros [Hl Ho [Hp Ht Hd] Ha] Hm. split; [done | apply evolves_set_timerMgr]. Qed.

(** The effect of an update of one timer. *)
Lemma upd_timer_inv sh mgr i f :
  TimerInv sh mgr →
  (∀ info, m_allocated (f info) = m_allocated info) →
  (∀ info, m_timeoutCb (f info) = None → m_timeoutCb info = None →
    m_timeoutMs info = 0%Z → m_timeoutMs (f info) = 0%Z) →
  (∀ info, m_timeoutCb (f info) = None → m_timeoutCb info ≠ None → m_timeoutMs (f info) = 0%Z) →
  is_allocated mgr i →
  (∀ info, m_timers mgr !! i = Some info →
    (m_timeoutCb (f info) = None) ∨
    (m_timeoutCb (f info) = m_timeoutCb info ∧ m_timeoutData (f info) = m_timeoutData info) ∨
    (∃ x cb, m_timeoutCb (f info) = Some cb ∧ sh !! m_timeoutData (f info) = Some x ∧
      sh_type x = TimeoutCb_type cb ∧ Some i ∈ sh_timers x)) →
  TimerInv sh (upd_timer i f mgr).
Proof.
  intros Hinv Hal Hid Hid' (info0 & Hl0 & Ha0) Hcb.
  apply (timers_inv sh mgr); [done | | by intros; apply is_allocated_upd |].
  - destruct Hinv as [[Hc Hfr Hidle] _ _ _ _ _]. split.
    + simpl. rewrite Hc. pose proof (allocCount_upd i f mgr info0 Hl0) as Hn.
      rewrite Hal in Hn. do 2 f_equal. lia.
    + intros j info. rewrite lookup_upd. case_decide; [|apply Hfr]. subst.
      intros (y & Hy & ->)%fmap_Some. rewrite Hal. congruence.
    + intros j info. rewrite lookup_upd. case_decide; [|apply Hidle]. subst.
      intros (y & Hy & ->)%fmap_Some Hnone.
      destruct (m_timeoutCb y) eqn:Hcy; [apply Hid'; congruence|].
      apply Hid; [done | done | by eapply Hidle].
  - intros j info cb. rewrite lookup_upd. case_decide; [|eauto 10]. subst.
    intros (y & Hy & ->)%fmap_Some Hsome.
    destruct (Hcb y Hy) as [|[[Hc Hd]|(x & cb' & Hc & ?)]]; [congruence| |].
    + right. exists y. split; [done|]. split; congruence.
    + left. exists x. by replace cb with cb' by congruence.
Qed.

Section timers.
  Context `{Config}.

(** A timeout function given to a timer of the operation. *)
Lemma wp_timerWait (F : fault → Prop) d (tm : Timer) a t ms cb s :
  F FAssert → TimerInv (shapes s) (m_timerMgr s) → g_store s !! a = Some (MkOp t d) →
  tm ∈ held_timers d → typeImpl d = TimeoutCb_type cb →
  wp F (on_timerMgr (timerWait tm ms cb a))
    (λ _ s', ∃ mgr, s' = set_timerMgr mgr s ∧ TimerInv (shapes s) mgr) s.
Proof.
  intros HF Ht Ha Htm Hty. apply wp_zoom. pose proof (shapes_lookup _ _ _ Ha) as Hsh.
  destruct tm as [i|].
  - pose proof (ti_held _ _ Ht _ _ _ Hsh Htm) as Hal. unfold wp.
    rewrite timerWait_eq by done. eexists. split; [done|].
    apply upd_timer_inv; [done..|]. intros info Hi. right. right.
    by exists (shape_of d), cb.
  - apply wp_bind, wp_gets. apply wp_bind, wp_comms_assert; [done|]. simpl.
    apply wp_ret. eauto.
Qed.

Lemma keeps_wait `{Subclass T} (tm : T → Timer) this ms cb :
  (∀ o, tm o ∈ held_timers (upcast o)) → (∀ o, typeImpl (upcast o) = TimeoutCb_type cb) →
  keeps (o ← get_op (T := T) this; on_timerMgr (timerWait (tm o) ms cb this)).
Proof.
  intros Htm Hty s Hs. apply wp_bind, wp_get_op; [done|]. intros t o Ha.
  eapply wp_mono; [eapply wp_timerWait; [done | apply Hs | done | apply Htm | apply Hty]|].
  intros _ s' (mgr & -> & Hm). by apply inv_set_timerMgr.
Qed.

Lemma keeps_on_timerMgr_ro {A} (m : M (TimerMgr TimeoutCb) A) :
  (∀ mgr, wp any_fault m (λ _ mgr', mgr' = mgr) mgr) → keeps (on_timerMgr m).
Proof.
  intros Hm s Hs. apply wp_zoom. eapply wp_mono; [apply Hm|]. intros x mgr ->.
  apply core_inv; [by destruct s | done].
Qed.

Lemma wp_timerIsActive (F : fault → Prop) t (mgr : TimerMgr TimeoutCb) :
  F FAssert → wp F (timerIsActive t) (λ b mgr', mgr' = mgr ∧
    (b = true → ∃ i info, t = Some i ∧ m_timers mgr !! i = Some info ∧
      m_timeoutCb info ≠ None)) mgr.
Proof.
  intros HF. unfold timerIsActive. apply wp_bind, wp_gets. apply wp_bind, wp_comms_assert; [done|].
  destruct (timer_at mgr t) as [[i info]|] eqn:Hat; [|by apply wp_ret].
  apply wp_bind, wp_comms_assert; [done|]. apply wp_bind, wp_comms_assert; [done|].
  apply wp_ret. split; [done|]. intros Hb%bool_decide_eq_true.
  unfold timer_at in Hat. destruct t as [j|]; [|done]. simpl in Hat.
  destruct (m_timers mgr !! j) as [info'|] eqn:Hj; simplify_eq/=.
  exists i, info. split; [done|]. split; [done|]. by destruct Hb as [? ->].
Qed.

Lemma keeps_timerIsActive t : keeps (on_timerMgr (timerIsActive t)).
Proof.
  apply keeps_on_timerMgr_ro. intros mgr. eapply wp_mono; [by apply wp_timerIsActive|].
  by intros b mgr' [-> _].
Qed.

(** Cancelling is harmless for any handle: a timer that is not allocated has
    nothing to cancel. *)
Lemma keeps_timerCancel t : keeps (on_timerMgr (timerCancel t)).
Proof.
  intros s Hs. pose proof (oi_timers _ (inv_obj _ Hs)) as Ht.
  apply wp_zoom. unfold timerCancel. apply wp_bind, wp_gets.
  apply wp_bind, wp_comms_assert; [done|].
  assert (Inv (set_timerMgr (m_timerMgr s) s) ∧ evolves s (set_timerMgr (m_timerMgr s) s)) as Hsame.
  { apply core_inv; [by destruct s | done]. }
  destruct (timer_at _ t) as [[i info]|] eqn:Hat; [|by apply wp_ret].
  apply wp_bind, wp_comms_assert; [done|]. apply wp_modify.
  unfold timer_at in Hat. destruct t as [j|]; [|done]. simpl in Hat.
  destruct (m_timers _ !! j) as [info'|] eqn:Hj; simplify_eq/=.
  destruct (m_allocated info) eqn:Hal.
  - apply inv_set_timerMgr; [done|].
    apply upd_timer_inv; [done..| by exists info | by left].
  - pose proof (ok_free _ (ti_ok _ _ Ht) _ _ Hj Hal) as ->.
    replace (upd_timer i clear_timeout (m_timerMgr s)) with (m_timerMgr s); [done|].
    destruct (m_timerMgr s) as [l n]. unfold upd_timer. simpl in *. f_equal.
    apply list_eq. intros k. rewrite list_lookup_alter. case_decide; [|done]. subst.
    by rewrite Hj.
Qed.

Lemma keeps_Timer_setSuspended t b : keeps (on_timerMgr (Timer_setSuspended t b)).
Proof.
  intros s Hs. pose proof (oi_timers _ (inv_obj _ Hs)) as Ht.
  apply wp_zoom. unfold Timer_setSuspended.
  apply wp_bind. eapply wp_mono; [by apply wp_timerIsActive|].
  intros active mgr [-> Hact]. destruct active; simpl.
  - destruct (Hact eq_refl) as (i & info & -> & Hi & Hcb).
    assert (is_allocated (m_timerMgr s) i) as Hal.
    { exists info. split; [done|]. destruct (m_allocated info) eqn:Hal; [done|].
      by rewrite (ok_free _ (ti_ok _ _ Ht) _ _ Hi Hal) in Hcb. }
    unfold wp. rewrite timerSetSuspended_eq by done. apply inv_set_timerMgr; [done|].
    apply upd_timer_inv; [done..| | done |]; [|by right; left].
    intros info' Hn Hn'. simpl in Hn. congruence.
  - apply wp_ret, core_inv; [by destruct s | done].
Qed.

Lemma keeps_tick_collect ms : keeps (on_timerMgr (tick_collect ms)).
Proof.
  intros s Hs. pose proof (oi_timers _ (inv_obj _ Hs)) as Ht. apply wp_zoom. unfold wp.
  rewrite tick_collect_eq. apply inv_set_timerMgr; [done|].
  apply (timers_inv _ (m_timerMgr s)); [done | by apply tick_collect_ok, Ht | |].
  - intros i. unfold is_allocated. simpl. rewrite list_lookup_fmap. split.
    + intros (? & (x & -> & ->)%fmap_Some & Hx). exists x. by rewrite tick_info_allocated in Hx.
    + intros (x & -> & Hx). exists (tick_info ms x). by rewrite tick_info_allocated.
  - intros i info cb. simpl. rewrite list_lookup_fmap. intros (x & Hx & ->)%fmap_Some Hcb.
    right. exists x. split; [done|]. unfold tick_info in *.
    destruct (timer_skipped x); [done|]. by destruct (m_timeoutMs x <=? ms)%Z.
Qed.
End timers.

#[export] Hint Resolve keeps_timerIsActive keeps_timerCancel keeps_Timer_setSuspended
  keeps_tick_collect : keeps.

#[export] Hint Extern 0 (keeps (mbind _ (get_op _))) =>
  apply keeps_wait; intros []; simpl; (reflexivity || set_solver) : keeps.

(** ** Packet identifiers *)

(** A change of the packet identifier of one operation. *)
Lemma repid_inv `{Config} s s' a x id :
  Inv s → shapes s !! a = Some x →
  shapes s' = <[a := MkShape (sh_type x) id (sh_timers x)]> (shapes s) →
  m_lists s' = m_lists s → m_ops s' = m_ops s → m_opsDeleted s' = m_opsDeleted s →
  m_timerMgr s' = m_timerMgr s → g_next s' = g_next s → g_trace s' = g_trace s →
  m_apiEnterCount s' = m_apiEnterCount s →
  PidInv (shapes s') (m_allocatedPacketIds (m_clientState s')) →
  Inv s' ∧ evolves s s'.
Proof.
  intros [[Hl Hnd Hlim Hsing] [Ho Hond Hdel] [_ [Hok Hh Hi Hn Hown Hact] [Hnext Honce Hlive Hfr]] Hapi]
    Ha Hsh Els Eops Edel Emgr Enext Etr Eapi Hpid.
  set (y := MkShape (sh_type x) id (sh_timers x)) in *.
  assert (∀ b z, shapes s' !! b = Some z → ∃ z0, shapes s !! b = Some z0 ∧
    sh_type z0 = sh_type z ∧ sh_timers z0 = sh_timers z) as Hback.
  { intros b z. rewrite Hsh, lookup_insert. case_decide; [|eauto]. subst. intros [= <-]. eauto. }
  assert (∀ b z0, shapes s !! b = Some z0 → ∃ z, shapes s' !! b = Some z ∧
    sh_type z0 = sh_type z ∧ sh_timers z0 = sh_timers z) as Hforth.
  { intros b z0 Hb. rewrite Hsh, lookup_insert. case_decide; [subst; simplify_eq; by exists y|].
    eauto. }
  assert (∀ b, is_Some (shapes s' !! b) ↔ is_Some (shapes s !! b)) as Hdom.
  { intros b. split; intros [z Hz]; [destruct (Hback _ _ Hz) as (? & ? & _) |
      destruct (Hforth _ _ Hz) as (? & ? & _)]; eauto. }
  split; [split; [| |split|]|]; rewrite ?Els, ?Eops, ?Edel, ?Emgr, ?Enext, ?Etr, ?Eapi.
  - split; [|done..]. intros T b. rewrite Hl. split.
    + intros (z0 & Hz & HT). destruct (Hforth _ _ Hz) as (z & ? & ? & _). exists z. split; congruence.
    + intros (z & Hz & HT). destruct (Hback _ _ Hz) as (z0 & ? & ? & _). exists z0. split; congruence.
  - split; [|done|done]. intros b. by rewrite Ho, Hdom.
  - done.
  - split; [done| | | | |].
    + intros b z i Hz Hin. destruct (Hback _ _ Hz) as (z0 & Hz0 & _ & Et). rewrite <- Et in Hin.
      by eapply Hh.
    + intros b c z1 z2 i Hz1 Hz2 Hi1 Hi2.
      destruct (Hback _ _ Hz1) as (w1 & Hw1 & _ & E1). destruct (Hback _ _ Hz2) as (w2 & Hw2 & _ & E2).
      rewrite <- E1 in Hi1. rewrite <- E2 in Hi2. by eapply Hi.
    + intros b z Hz. destruct (Hback _ _ Hz) as (z0 & Hz0 & _ & <-). by eapply Hn.
    + intros i Hal. destruct (Hown i Hal) as (b & z0 & Hz0 & Hin).
      destruct (Hforth _ _ Hz0) as (z & Hz & _ & Et). exists b, z. by rewrite <- Et.
    + intros i info cb Hinfo Hcb. destruct (Hact i info cb Hinfo Hcb) as (z0 & Hz0 & HT & Hin).
      destruct (Hforth _ _ Hz0) as (z & Hz & ET & Et). exists z. rewrite <- Et, <- ET. done.
  - split; [|done| |done]; intros b Hb%Hdom; auto.
  - done.
  - split; rewrite ?Enext, ?Etr; [done..| | |done].
    + intros b _ Hb. split; [|done]. apply eq_None_not_Some. rewrite Hdom, Hb. by intros [].
    + intros b z0 z _ Hz0 Hz. destruct (Hback _ _ Hz) as (w & Hw & ? & ?). by simplify_eq.
Qed.

Lemma PidInv_insert sh ids ids' a x id :
  PidInv sh ids → packetIds_ok ids' → sh !! a = Some x →
  (∀ y, y ∈ ids → y ∈ ids') → (id ≠ 0%Z → id ∈ ids' ∧ (id ∉ ids)) →
  PidInv (<[a := MkShape (sh_type x) id (sh_timers x)]> sh) ids'.
Proof.
  intros [_ Hh Hi] Hok Ha Hsub Hid. split; [done| |].
  - intros b z. rewrite lookup_insert. case_decide; [|eauto].
    intros [= <-]. simpl. intros Hnz. by apply Hid.
  - intros b c z1 z2. rewrite !lookup_insert. repeat case_decide; subst; try done.
    + intros [= <-] Hc. simpl. intros -> Hnz. destruct (Hid Hnz) as [_ []]. eauto.
    + intros Hb [= <-]. simpl. intros E Hnz. destruct (Hid ltac:(congruence)) as [_ []].
      rewrite <- E. eauto.
    + eauto.
Qed.

(** An allocated packet identifier is stored in the message of an operation. *)
Lemma keeps_allocPacketId `{Config} `{Subclass T} a (f : Z → T → T) :
  (∀ id o, shape_of (upcast (f id o)) =
    MkShape (typeImpl (upcast o)) id (held_timers (upcast o))) →
  keeps (id ← on_clientState allocPacketId; modify_op a (f id)).
Proof.
  intros Hf s Hs. pose proof (oi_pids _ (inv_obj _ Hs)) as Hp.
  apply wp_bind, wp_zoom. pose proof (pi_ids _ _ Hp) as Hok. unfold wp at 1.
  assert (∀ id ids', packetIds_ok ids' →
    (∀ y, y ∈ m_allocatedPacketIds (m_clientState s) → y ∈ ids') →
    (id ≠ 0%Z → id ∈ ids' ∧ (id ∉ m_allocatedPacketIds (m_clientState s))) →
    ∀ cs, m_allocatedPacketIds cs = ids' →
    wp any_fault (modify_op a (f id)) (λ _ s', Inv s' ∧ evolves s s') (set_clientState cs s))
    as Hmod.
  { intros id ids' Hok' Hsub Hid cs Ecs. unfold modify_op. apply wp_bind, wp_get_op; [done|].
    intros t o Ha. apply wp_modify. simpl in Ha. pose proof (shapes_lookup _ _ _ Ha) as Hx.
    assert (shapes (put_derived a (upcast (f id o)) (set_clientState cs s)) =
      <[a := MkShape (typeImpl (upcast o)) id (held_timers (upcast o))]> (shapes s)) as Esh.
    { by rewrite (shapes_put _ _ (set_clientState cs s) _ _ Ha), Hf. }
    eapply (repid_inv s _ a _ id Hs Hx Esh); try done. rewrite Esh. simpl. rewrite Ecs.
    by apply (PidInv_insert _ _ _ a (shape_of (upcast o)) id Hp). }
  destruct (allocPacketId_cases _ Hok) as [[_ ->] | (_ & ids' & id & k & -> & Hok' & Hel & Hfree)].
  - by apply (Hmod 0%Z (m_allocatedPacketIds (m_clientState s))).
  - apply (Hmod id ids'); [done | by intros y Hy; apply Hel; right | | done].
    intros _. split; [apply Hel; by left | apply Hfree].
Qed.
