(* ===== verification/Termination.v ===== *)
(** * The resumption of paused publishes comes to an end

    The completion of a publish resumes the paused publishes after it; a resumed
    publish of QoS 0 completes at once, and its completion resumes again.  For an
    application that does not call the client from its callbacks, the recursion of
    [resumeSendOpsSince] (client/lib/src/ClientImpl.cpp) and the loop of
    [resendAllUntil] end within the bounds of the model: the publishes that remain
    are among those there were, and no publish becomes paused. *)

From S2P Require Import Prelude SortedVec Config Protocol Topic PacketId TimerMgr State.
From S2P Require Import Lifecycle Completion Session SendOp Invariant Objects.

(** ** Timers never run out of fuel *)

Create HintDb plain.

Create HintDb shrink.

Section plain.
  Context `{Config} {Cb : Type} (F : fault → Prop) (HF : ∀ f, f ≠ FFuel → F f).
Let plain := plain_contract (TimerMgr Cb) F.

Lemma plain_comms_assert b : keeps (Contract0 := plain) (comms_assert b).
Proof. apply keeps_comms_assert. by apply HF. Qed.

Lemma plain_modify f : keeps (Contract0 := plain) (modify f).
Proof. by apply keeps_modify. Qed.
Hint Resolve plain_comms_assert plain_modify : keeps.

Lemma plain_allocTimer : keeps (Contract0 := plain) allocTimer.
Proof. unfold allocTimer, allocTimer_grow, createTimer. keeps_auto. Qed.

Lemma plain_timerWait t ms cb d : keeps (Contract0 := plain) (timerWait t ms cb d).
Proof. unfold timerWait. keeps_auto. Qed.

Lemma plain_timerCancel t : keeps (Contract0 := plain) (timerCancel t).
Proof. unfold timerCancel. keeps_auto. Qed.

Lemma plain_timerIsActive t : keeps (Contract0 := plain) (timerIsActive t).
Proof. unfold timerIsActive. keeps_auto. Qed.

Lemma plain_setSuspended t b : keeps (Contract0 := plain) (Timer_setSuspended t b).
Proof.
  unfold Timer_setSuspended, timerSetSuspended. pose proof (plain_timerIsActive t). keeps_auto.
Qed.

Lemma plain_destroy l : keeps (Contract0 := plain) (mapM_ Timer_destroy l).
Proof. unfold Timer_destroy, freeTimer. keeps_auto. Qed.

Lemma plain_tick_collect ms : keeps (Contract0 := plain) (tick_collect ms).
Proof.
  unfold tick_collect. apply keeps_bind; [keeps_auto|]. intros n.
  generalize (@nil (Cb * addr)) as l. induction (seq 0 n) as [|i idxs IH]; intros l; simpl;
    [keeps_auto|]. pose proof (plain_timerCancel (Some i)). keeps_auto; first [apply IH | idtac].
  by apply keeps_throw, HF.
Qed.
End plain.
#[export] Hint Resolve plain_allocTimer plain_timerWait plain_timerCancel plain_timerIsActive
  plain_setSuspended plain_destroy plain_tick_collect : plain.

(** ** The publishes shrink *)

Definition paused_in (s : ClientImpl) (a : addr) : bool :=
  match g_store s !! a with
  | Some (MkOp _ (DSend o)) => so_paused o
  | _ => false
  end.

(** The publishes of [s'] are among those of [s], and those paused in [s'] are
    paused in [s]. *)
Definition shrinks (s s' : ClientImpl) : Prop :=
  ops_of Type_Send s' `sublist_of` ops_of Type_Send s ∧
  ∀ a, paused_in s' a = true → paused_in s a = true.

Lemma shrinks_preorder : PreOrder shrinks.
Proof.
  split; [done|]. intros s1 s2 s3 [H1 H1'] [H2 H2']. split; [by etrans | auto].
Qed.

Definition paused_count (s : ClientImpl) : nat :=
  length (filter (λ a, paused_in s a = true) (ops_of Type_Send s)).

(** The bound on the iterations of [resumeSendOpsSince idx], nested ones included. *)
Definition resume_measure (s : ClientImpl) (idx : nat) : nat :=
  paused_count s * S (length (ops_of Type_Send s)) + (length (ops_of Type_Send s) - idx).

Lemma filter_sublist_length {A} (P P' : A → Prop) `{∀ x, Decision (P x)} `{∀ x, Decision (P' x)}
    (l' l : list A) :
  l' `sublist_of` l → (∀ x, P' x → P x) → length (filter P' l') ≤ length (filter P l).
Proof.
  intros Hl HP. induction Hl as [|x l' l _ IH|x l' l _ IH]; [done|rewrite !filter_cons..].
  - destruct (decide (P' x)); [rewrite decide_True by auto; simpl; lia|].
    case_decide; simpl; lia.
  - case_decide; simpl; lia.
Qed.

Lemma filter_length_lt {A} (P P' : A → Prop) `{∀ x, Decision (P x)} `{∀ x, Decision (P' x)}
    (l : list A) x :
  x ∈ l → P x → ¬ P' x → (∀ y, P' y → P y) → length (filter P' l) < length (filter P l).
Proof.
  intros Hx Hp Hp' HP. induction l as [|y l IH]; [by apply elem_of_nil in Hx|].
  rewrite !filter_cons. apply elem_of_cons in Hx as [<-|Hx].
  - rewrite decide_False, decide_True by done. simpl.
    pose proof (filter_sublist_length P P' l l (reflexivity l) HP). lia.
  - specialize (IH Hx). destruct (decide (P' y)); [rewrite decide_True by auto; simpl; lia|].
    case_decide; simpl; lia.
Qed.

Lemma shrinks_paused_count s s' : shrinks s s' → paused_count s' ≤ paused_count s.
Proof. intros [Hl HP]. by apply filter_sublist_length. Qed.

Lemma shrinks_measure s s' : shrinks s s' → resume_measure s' 0 ≤ resume_measure s 0.
Proof.
  intros Hs. pose proof (shrinks_paused_count _ _ Hs). destruct Hs as [Hl _].
  apply sublist_length in Hl. unfold resume_measure. nia.
Qed.

Lemma resume_measure_start s idx : resume_measure s idx ≤ resume_measure s 0.
Proof. unfold resume_measure. lia. Qed.

(** A publish less that is paused: the measure decreases below any index. *)
Lemma resume_measure_lt s s' idx :
  shrinks s s' → paused_count s' < paused_count s →
  resume_measure s' 0 < resume_measure s idx.
Proof. intros [Hl%sublist_length _] Hp. unfold resume_measure. nia. Qed.

(** The contract: the publishes shrink, from a state of a measure below [m]. *)
Definition shrink_contract (m : nat) : Contract ClientImpl := {|
  ct_inv := λ s, resume_measure s 0 < m;
  ct_rel := shrinks;
  ct_faults := not_fuel;
  ct_pre := shrinks_preorder;
|}.

Section Termination.
  Context `{Config} `{CommsLib} `{App}.
  Context (Hquiet : ∀ e s, app_react e s = Ok tt s).

Lemma resume_measure_fuel s idx : resume_measure s idx < resume_fuel s.
Proof.
  unfold resume_measure, resume_fuel.
  assert (paused_count s ≤ length (ops_of Type_Send s)) by (apply length_filter). nia.
Qed.

Section bounded.
  Context (m : nat).
Abbreviation skeeps := (keeps (Contract0 := shrink_contract m)).

Lemma skeeps_rel {A} (c : M ClientImpl A) :
  (∀ s, wp not_fuel c (λ _ s', shrinks s s') s) → skeeps c.
Proof.
  intros Hc s Hs. eapply wp_mono; [apply Hc|]. intros a s' Hr. split; [|done].
  simpl in *. pose proof (shrinks_measure _ _ Hr). lia.
Qed.

Lemma skeeps_modify f :
  (∀ s, ops_of Type_Send (f s) = ops_of Type_Send s) → (∀ s, g_store (f s) = g_store s) →
  skeeps (modify f).
Proof.
  intros Hl Hs. apply skeeps_rel. intros s. split; [by rewrite Hl|].
  intros a. unfold paused_in. by rewrite Hs.
Qed.

Lemma skeeps_throw {A} f : f ≠ FFuel → skeeps (throw (A := A) f).
Proof. intros Hf. by apply keeps_throw. Qed.

Lemma skeeps_comms_assert b : skeeps (comms_assert b).
Proof. by apply keeps_comms_assert. Qed.

Hint Extern 1 (keeps (modify _)) => apply skeeps_modify; intros; reflexivity : shrink.
Hint Extern 1 (keeps (throw _)) => apply skeeps_throw; discriminate : shrink.
Hint Resolve skeeps_comms_assert : shrink.

Ltac sauto := repeat first [ solve [eauto 2 with shrink nocore] | keeps_step ].

Lemma skeeps_on_timerMgr {A} (c : M (TimerMgr TimeoutCb) A) :
  keeps (Contract0 := plain_contract _ not_fuel) c → skeeps (on_timerMgr c).
Proof.
  intros Hc. apply skeeps_rel. intros s. apply wp_zoom. eapply wp_mono; [by apply Hc|]. done.
Qed.
Hint Extern 1 (keeps (on_timerMgr _)) =>
  apply skeeps_on_timerMgr; eauto 2 with plain nocore : shrink.

Lemma skeeps_release id : skeeps (on_clientState (releasePacketId id)).
Proof.
  apply skeeps_rel. intros s. apply wp_zoom. unfold releasePacketId.
  destruct (_ =? 0)%Z; [done|]. apply wp_bind, wp_gets.
  destruct (_ !! _) as [x|]; [destruct (x =? id)%Z; [done|]|]; by apply wp_comms_assert.
Qed.
Hint Resolve skeeps_release : shrink.

Lemma skeeps_callback e : skeeps (callback e).
Proof.
  apply skeeps_rel. intros s. unfold wp, callback, mbind, M_bind, modify. by rewrite Hquiet.
Qed.
Hint Resolve skeeps_callback : shrink.

Lemma skeeps_get_base a : skeeps (get_base a).
Proof. unfold get_base. sauto. Qed.
Hint Resolve skeeps_get_base : shrink.

Lemma skeeps_get_op {T} `{Subclass T} a : skeeps (get_op (T := T) a).
Proof. unfold get_op. sauto. Qed.
Hint Resolve skeeps_get_op : shrink.

Lemma skeeps_modify_op a (f : SendOp → SendOp) :
  (∀ o, so_paused (f o) = true → so_paused o = true) → skeeps (modify_op a f).
Proof.
  intros Hf. apply skeeps_rel. intros s. unfold modify_op. apply wp_bind.
  apply wp_get_op; [done|]. intros t o Ha. apply wp_modify. split; [done|].
  intros b. unfold paused_in, put_derived. simpl. rewrite lookup_alter.
  case_decide; [|done]. subst. rewrite Ha. simpl. apply Hf.
Qed.
Hint Extern 1 (keeps (modify_op _ _)) =>
  apply skeeps_modify_op; intros ?; simpl; repeat case_match; done : shrink.

(** ** Completion *)

Lemma skeeps_Op_destroy a : skeeps (Op_destroy a).
Proof.
  unfold Op_destroy. sauto. apply skeeps_rel. intros s. split; [done|].
  intros b. unfold paused_in. simpl. rewrite lookup_delete. by case_decide.
Qed.
Hint Resolve skeeps_Op_destroy : shrink.

(** An element is removed from the list that was read. *)
Lemma skeeps_set_ops_of {A} T (l : list addr) i (k : M ClientImpl A) :
  skeeps k → ∀ s, resume_measure s 0 < m → ops_of T s = l →
  wp not_fuel (set_ops_of T (erase_at i l) ;; k)
    (λ _ s', resume_measure s' 0 < m ∧ shrinks s s') s.
Proof.
  intros Hk s Hs Hl. unfold set_ops_of. apply wp_bind, wp_modify.
  match goal with |- wp _ _ _ ?t => assert (shrinks s t) as Ht end.
  { split; [|done].
    change (list_of Type_Send (set_list T (erase_at i l) (m_lists s))
      `sublist_of` ops_of Type_Send s).
    rewrite list_of_set_list. case_decide as HT; [|done]. subst. unfold erase_at.
    rewrite <- (take_drop i (ops_of Type_Send s)) at 3. apply sublist_app; [done|].
    replace (S i) with (i + 1) by lia. rewrite <- drop_drop. apply sublist_drop. }
  pose proof (shrinks_measure _ _ Ht). eapply wp_mono; [apply Hk; simpl in *; lia|].
  intros a s' [Hm Hr]. split; [exact Hm|]. destruct shrinks_preorder. by etrans.
Qed.

Lemma skeeps_erase a T : skeeps (eraseFromList a T).
Proof.
  unfold eraseFromList. intros s Hs. apply wp_bind, wp_gets.
  destruct (list_find _ _) as [[i x]|].
  - by apply skeeps_set_ops_of; [sauto|..].
  - apply keeps_wp; [sauto | done].
Qed.
Hint Resolve skeeps_erase : shrink.

Lemma skeeps_sendMessage msg : skeeps (sendMessage msg).
Proof.
  unfold sendMessage, must_callback, KeepAliveOp_messageSent, KeepAliveOp_restartPingTimer. sauto.
Qed.
Hint Resolve skeeps_sendMessage : shrink.

Lemma skeeps_restartResponseTimer a : skeeps (SendOp_restartResponseTimer a).
Proof. unfold SendOp_restartResponseTimer. sauto. Qed.
Hint Resolve skeeps_restartResponseTimer : shrink.

Lemma skeeps_canSend a : skeeps (SendOp_canSend a).
Proof.
  unfold SendOp_canSend, hasPausedSendsBefore, hasHigherQosSendsBefore. sauto.
  match goal with |- keeps (hasHigherQos_loop ?l _ _) => induction l end; simpl; sauto.
Qed.

Section with_resume.
  Context (resume : nat → M ClientImpl unit) (Hresume : ∀ idx, skeeps (resume idx)).
Hint Resolve Hresume : shrink.

Lemma skeeps_opComplete_with a : skeeps (opComplete_with resume a).
Proof. unfold opComplete_with, opComplete_Send_with. sauto. Qed.
Hint Resolve skeeps_opComplete_with : shrink.

Lemma skeeps_completeWithCb_with a st : skeeps (SendOp_completeWithCb_with resume a st).
Proof. unfold SendOp_completeWithCb_with. sauto. Qed.
Hint Resolve skeeps_completeWithCb_with : shrink.

Lemma skeeps_doSendInternal_with a : skeeps (SendOp_doSendInternal_with resume a).
Proof. unfold SendOp_doSendInternal_with. sauto. Qed.
Hint Resolve skeeps_doSendInternal_with : shrink.

(** What follows the decision to resume a publish. *)
Lemma skeeps_resumed a :
  skeeps (ec ← SendOp_doSendInternal_with resume a;
          if bool_decide (ec = ErrorCode_Success) then mret true
          else
            let cbStatus :=
              if bool_decide (ec = ErrorCode_BadParam) then AsyncOpStatus_BadParam
              else if bool_decide (ec = ErrorCode_BufferOverflow) then AsyncOpStatus_OutOfMemory
              else AsyncOpStatus_InternalError in
            SendOp_completeWithCb_with resume a cbStatus ;; mret true).
Proof. sauto; cbv zeta; sauto. Qed.
End with_resume.
End bounded.

(** ** The loop *)

Lemma wp_canSend a s : wp not_fuel (SendOp_canSend a) (λ _ s', s' = s) s.
Proof.
  assert (∀ l q, wp not_fuel (hasHigherQos_loop l a q) (λ _ s', s' = s) s) as Hhigher.
  { intros l q. induction l as [|b l IH]; simpl; [by apply wp_bind, wp_comms_assert|].
    case_match; [done|]. apply wp_bind, wp_get_op; [done|]. intros t o _. by case_match. }
  unfold SendOp_canSend, hasPausedSendsBefore, hasHigherQosSendsBefore.
  apply wp_bind, wp_get_op; [done|]. intros t o _. apply wp_bind, wp_gets.
  case_match; [done|]. apply wp_bind, wp_comms_assert; [done|]. apply wp_bind.
  eapply (wp_mono _ _ (λ _ s', s' = s)).
  - apply wp_bind, wp_gets. destruct (list_find _ _) as [[r ?]|];
      apply wp_bind, wp_comms_assert; try done. case_match; [done|].
    destruct (_ !! _); [|done]. apply wp_bind, wp_get_op; done.
  - intros paused ? ->. case_match; [done|]. apply wp_bind, wp_bind, wp_gets.
    eapply wp_mono; [apply Hhigher|]. by intros h ? ->.
Qed.

(** A publish that is resumed makes the measure smaller. *)
Lemma wp_resume_with resume n idx a s :
  (∀ i, keeps (Contract0 := shrink_contract n) (resume i)) →
  resume_measure s idx ≤ n → a ∈ ops_of Type_Send s → paused_in s a = true →
  wp not_fuel (SendOp_resume_with resume a)
    (λ b s', shrinks s s' ∧ (b = true → resume_measure s' 0 < resume_measure s idx)) s.
Proof.
  intros Hresume Hn Ha Hp. unfold SendOp_resume_with.
  apply wp_bind, wp_get_op; [done|]. intros t o Ho. case_match; [by split|].
  apply wp_bind. eapply wp_mono; [apply wp_canSend|]. intros can ? ->.
  destruct can; [|by split]. simpl. apply wp_bind. unfold modify_op at 1.
  apply wp_bind, wp_get_op; [done|]. intros t' o' Ho'. apply wp_modify.
  set (s1 := put_derived _ _ _).
  assert (∀ b, paused_in s1 b = if decide (a = b) then false else paused_in s b) as Hp1.
  { intros b. unfold paused_in. simpl. rewrite lookup_alter. case_decide; [|done].
    subst. by rewrite Ho'. }
  assert (shrinks s s1) as Hs1.
  { split; [done|]. intros b. rewrite Hp1. by case_decide. }
  assert (resume_measure s1 0 < resume_measure s idx) as Hlt.
  { apply resume_measure_lt; [done|]. apply (filter_length_lt _ _ _ a); [done | done | |apply Hs1].
    rewrite Hp1. by case_decide. }
  eapply wp_mono; [apply (skeeps_resumed n resume Hresume a s1); simpl; lia|].
  intros b s' [_ Hs']. split; [destruct shrinks_preorder; by etrans|].
  pose proof (shrinks_measure _ _ Hs'). lia.
Qed.

Lemma wp_resumeSendOps_loop fuel idx s :
  resume_measure s idx < fuel →
  wp not_fuel (resumeSendOps_loop fuel idx) (λ _ s', shrinks s s') s.
Proof.
  revert idx s. induction fuel as [|fuel IH]; intros idx s Hm; simpl; [lia|].
  apply wp_bind, wp_gets. destruct (_ !! idx) as [a|] eqn:Hi; [|by apply wp_ret].
  apply wp_bind, wp_get_op; [done|]. intros t o Ho. destruct (so_paused o) eqn:Hp; simpl.
  - apply wp_bind. eapply wp_mono; [apply (wp_resume_with _ fuel idx)|].
    + intros i s1 Hs1. eapply wp_mono; [apply IH|].
      { pose proof (resume_measure_start s1 i). simpl in *. lia. }
      intros [] s2 Hs2. split; [|done]. simpl in *. pose proof (shrinks_measure _ _ Hs2). lia.
    + lia.
    + by eapply list_elem_of_lookup_2.
    + unfold paused_in. by rewrite Ho.
    + intros b s1 [Hs1 Hlt]. destruct b; simpl; [|by apply wp_ret].
      specialize (Hlt eq_refl). eapply wp_mono; [apply IH|].
      { pose proof (resume_measure_start s1 idx). lia. }
      intros [] s2 Hs2. destruct shrinks_preorder. by etrans.
  - apply IH. apply lookup_lt_Some in Hi. unfold resume_measure in *. simpl in *. lia.
Qed.

Lemma wp_resumeSendOpsSince idx s :
  wp not_fuel (resumeSendOpsSince idx) (λ _ s', shrinks s s') s.
Proof.
  unfold resumeSendOpsSince. apply wp_bind, wp_gets.
  apply wp_resumeSendOps_loop, resume_measure_fuel.
Qed.

Lemma wp_completeWithCb a st s :
  wp not_fuel (SendOp_completeWithCb a st) (λ _ s', shrinks s s') s.
Proof.
  eapply wp_mono.
  - apply (skeeps_completeWithCb_with (S (resume_measure s 0)) resumeSendOpsSince); [|simpl; lia].
    intros i. apply skeeps_rel, wp_resumeSendOpsSince.
  - by intros [] s' [_ ?].
Qed.

(** ** Resending *)

Lemma wp_forceDupResend a s :
  wp not_fuel (SendOp_forceDupResend a) (λ _ s', shrinks s s') s.
Proof.
  set (n := S (resume_measure s 0)).
  assert (∀ st, keeps (Contract0 := shrink_contract n) (SendOp_completeWithCb a st)) as Hcomplete.
  { intros st. apply skeeps_rel, wp_completeWithCb. }
  assert (keeps (Contract0 := shrink_contract n) (SendOp_forceDupResend a)) as Hk.
  { unfold SendOp_forceDupResend, SendOp_resendDupMsg.
    repeat first [ apply Hcomplete | apply skeeps_get_op | apply skeeps_sendMessage
      | apply skeeps_comms_assert | apply skeeps_restartResponseTimer
      | by apply skeeps_modify_op; intros [] | keeps_step ]. }
  eapply wp_mono; [apply (Hk s); simpl; lia|]. by intros [] s' [_ ?].
Qed.

Lemma sublist_same {A} (l' l : list A) : l' `sublist_of` l → length l ≤ length l' → l' = l.
Proof.
  intros Hl. induction Hl as [|x l' l _ IH|x l' l Hl IH]; simpl; intros Hn; [done| |].
  - f_equal. apply IH. lia.
  - apply sublist_length in Hl. lia.
Qed.

Lemma wp_resendAllUntil_loop fuel idx a s :
  length (ops_of Type_Send s) - idx < fuel →
  wp not_fuel (resendAllUntil_loop fuel idx a) (λ _ s', shrinks s s') s.
Proof.
  revert idx s. induction fuel as [|fuel IH]; intros idx s Hn; simpl; [lia|].
  apply wp_bind, wp_gets. destruct (_ !! idx) as [b|] eqn:Hi; [|by apply wp_ret].
  pose proof (lookup_lt_Some _ _ _ Hi) as Hlt. change (m_sendOps (m_lists s))
    with (ops_of Type_Send s) in *.
  apply wp_bind, wp_gets. apply wp_bind. eapply wp_mono; [apply wp_forceDupResend|].
  intros [] s1 Hs1. case_match; [by apply wp_ret|]. apply wp_bind, wp_gets.
  apply wp_bind, wp_when; intros _; [by apply wp_throw|]. apply wp_bind, wp_gets.
  pose proof (proj1 Hs1) as Hsub. pose proof (sublist_length _ _ Hsub).
  assert (∀ i, length (ops_of Type_Send s1) - i < fuel →
    wp not_fuel (resendAllUntil_loop fuel i a) (λ _ s', shrinks s s') s1) as Hnext.
  { intros i Hlen. eapply wp_mono; [by apply IH|]. intros [] s2 Hs2.
    destruct shrinks_preorder. by etrans. }
  destruct (ops_of Type_Send s1 !! idx) as [c|] eqn:Hc;
    [|by apply wp_throw].
  destruct (Nat.eqb_spec b c) as [->|Hbc]; simpl; apply Hnext; [lia|].
  destruct (decide (length (ops_of Type_Send s) ≤ length (ops_of Type_Send s1))); [|lia].
  pose proof (sublist_same _ _ Hsub l) as Heq. congruence.
Qed.

Lemma wp_resendAllUntil a s :
  wp not_fuel (resendAllUntil a) (λ _ s', shrinks s s') s.
Proof.
  unfold resendAllUntil. apply wp_bind, wp_gets. apply wp_resendAllUntil_loop. simpl. lia.
Qed.
End Termination.
