(* ===== verification/Frame.v ===== *)
(** * What functions of the library keep by their structure

    A contract is stable when it is kept by the elementary steps of the library: an
    assignment to a member that it does not look at, an access to the timers, the
    packet identifiers or the filters, a callback.  Every function keeps a stable
    contract; the proofs follow the syntax of the functions.  Three steps that some
    contracts keep for a deeper reason are parameters: the resumption of publishes,
    the resending of publishes, and the report of a message.

    The proofs need less than [Stable]: a contract may look at the publishes, at the
    identifiers of operations and at the messages of an exchange ([Framed]), if it is
    kept by the four functions that send them ([Exchanging]). *)

From S2P Require Import Prelude SortedVec Config Protocol Topic PacketId TimerMgr State.
From S2P Require Import Lifecycle Completion Session SendOp RecvOp SubscribeOp ConnectOp.
From S2P Require Import Client Termination.

(** The events that contracts may treat apart: the report of a message, and the notes of
    the applications, which the library does not make. *)
Definition set_aside (e : Event) : bool :=
  match e with EvMessageReceived _ | EvApp _ => true | _ => false end.

Class Stable `{Config} `{App} (C : Contract ClientImpl) : Prop := {
  st_faults f : f ≠ FFuel → ct_faults (Contract := C) f;
  st_modify f :
    (∀ s, m_reuseState (f s) = m_reuseState s) → (∀ s, m_clientState (f s) = m_clientState s) →
    (∀ s, g_trace (f s) = g_trace s) →
    (∀ s, has_nextTickProgramCb (m_callbacks s) → has_nextTickProgramCb (m_callbacks (f s))) →
    keeps (Contract0 := C) (modify f);
  st_callback e : set_aside e = false → keeps (Contract0 := C) (callback e);
  st_timer A (m : M (TimerMgr TimeoutCb) A) :
    keeps (Contract0 := plain_contract _ not_fuel) m → keeps (Contract0 := C) (on_timerMgr m);
  st_flags f :
    (∀ s, m_allocatedPacketIds (f s) = m_allocatedPacketIds s) →
    (∀ s, m_networkDisconnected (f s) = m_networkDisconnected s) →
    keeps (Contract0 := C) (on_clientState (modify f));
  st_alloc : keeps (Contract0 := C) (on_clientState allocPacketId);
  st_release id : keeps (Contract0 := C) (on_clientState (releasePacketId id));
  st_store topic : keeps (Contract0 := C) (store_filter topic);
  st_remove topics : keeps (Contract0 := C)
    (modify (λ s, set_subFilters (foldl remove_filter (subFilters s) topics) s));
  st_reset : keeps (Contract0 := C) (modify (set_reuseState ReuseState_new));
}.

(** The messages that the sender of a publish sends, and the events of an exchange. *)
Definition exchange_msg (msg : ProtMessage) : bool :=
  match msg with MPublish _ | MPubrel _ _ => true | _ => false end.
Definition exchange_event (e : Event) : bool :=
  match e with
  | EvSendOutputData msg _ => exchange_msg msg
  | EvPublishComplete _ _ _ => true
  | _ => false
  end.

(** An assignment to members of an operation that is neither the configuration nor the
    progress of a publish. *)
Definition op_kept (d d' : Derived) : Prop :=
  match d, d' with
  | DSend o, DSend o' =>
      so_pubMsg o' = so_pubMsg o ∧ so_acked o' = so_acked o ∧ (so_paused o' → so_paused o)
  | DSend _, _ | _, DSend _ => False
  | _, _ => held_packetId d' = held_packetId d
  end.

(** [free a]: the contract is kept when the publish [a] is configured and sent. *)
Class Framed `{Config} `{App} (free : addr → Prop) (C : Contract ClientImpl) : Prop := {
  fr_faults f : f ≠ FFuel → ct_faults (Contract := C) f;
  fr_modify f :
    (∀ s, m_reuseState (f s) = m_reuseState s) → (∀ s, m_clientState (f s) = m_clientState s) →
    (∀ s, g_trace (f s) = g_trace s) →
    (∀ s, has_nextTickProgramCb (m_callbacks s) → has_nextTickProgramCb (m_callbacks (f s))) →
    (∀ s, g_store (f s) = g_store s) → (∀ s, g_next (f s) = g_next s) →
    keeps (Contract0 := C) (modify f);
  fr_callback e : set_aside e = false → exchange_event e = false →
    keeps (Contract0 := C) (callback e);
  fr_timer A (m : M (TimerMgr TimeoutCb) A) :
    keeps (Contract0 := plain_contract _ not_fuel) m → keeps (Contract0 := C) (on_timerMgr m);
  fr_flags f :
    (∀ s, m_allocatedPacketIds (f s) = m_allocatedPacketIds s) →
    (∀ s, m_networkDisconnected (f s) = m_networkDisconnected s) →
    keeps (Contract0 := C) (on_clientState (modify f));
  fr_store topic : keeps (Contract0 := C) (store_filter topic);
  fr_remove topics : keeps (Contract0 := C)
    (modify (λ s, set_subFilters (foldl remove_filter (subFilters s) topics) s));
  fr_reset : keeps (Contract0 := C) (modify (set_reuseState ReuseState_new));
  fr_op T `(Subclass T) a (f : T → T) : (∀ o, op_kept (upcast o) (upcast (f o))) →
    keeps (Contract0 := C) (modify_op a f);
  fr_write a f : free a → (∀ o, pub_packetId (so_pubMsg (f o)) = pub_packetId (so_pubMsg o)) →
    keeps (Contract0 := C) (modify_op (T := SendOp) a f);
  fr_alloc_send a : free a → keeps (Contract0 := C) (SendOp_allocPacketId a);
  fr_alloc_subscribe a : keeps (Contract0 := C) (SubscribeOp_allocPacketId a);
  fr_alloc_unsubscribe a : keeps (Contract0 := C) (UnsubscribeOp_allocPacketId a);
  fr_new d : held_packetId d = 0%Z → keeps (Contract0 := C) (new_object d);
  fr_destroy a : keeps (Contract0 := C) (Op_destroy a);
  fr_timeout a ms : keeps (Contract0 := C) (Op_setResponseTimeout a ms);
}.

(** The functions that complete and send the messages of an exchange. *)
Class Exchanging `{Config} `{CommsLib} `{App} (free : addr → Prop) (C : Contract ClientImpl)
    : Prop := {
  ex_refresh a : free a → keeps (Contract0 := C)
    (modify_op (T := SendOp) a (λ o, so_set_pubMsg (publish_doRefresh (so_pubMsg o)) o));
  ex_send resume a : (∀ idx, keeps (Contract0 := C) (resume idx)) → free a →
    keeps (Contract0 := C) (SendOp_doSendInternal_with resume a);
  ex_resume resume a : (∀ idx, keeps (Contract0 := C) (resume idx)) →
    keeps (Contract0 := C) (SendOp_resume_with resume a);
  ex_complete resume a st : (∀ idx, keeps (Contract0 := C) (resume idx)) →
    st ≠ AsyncOpStatus_Complete → keeps (Contract0 := C) (SendOp_completeWithCb_with resume a st);
  ex_resend a : (∀ idx, keeps (Contract0 := C) (resumeSendOpsSince idx)) →
    keeps (Contract0 := C) (SendOp_resendDupMsg a);
  ex_handle a msg : (∀ idx, keeps (Contract0 := C) (resumeSendOpsSince idx)) →
    (∀ b, keeps (Contract0 := C) (SendOp_protocolError b)) →
    keeps (Contract0 := C) (SendOp_handle a msg);
}.

Create HintDb frame.

(** The configuration and the sending of a publish are requests. *)
Definition request_free (free : addr → Prop) (r : Request) : Prop :=
  match r with
  | RqPublishConfig op _ | RqPublishSend op _ => free op
  | _ => True
  end.

Lemma op_kept_refl d : op_kept d d.
Proof. by destruct d. Qed.

Ltac op_kept_auto :=
  intros; simpl; repeat case_match; simpl; repeat split; by auto.

Section Frame.
  Context `{Config} `{CommsLib} `{App} (C : Contract ClientImpl).
  Context {free : addr → Prop} {HC : Framed free C}.
Abbreviation fkeeps := (keeps (Contract0 := C)).

Lemma fkeeps_comms_assert b : fkeeps (comms_assert b).
Proof. apply keeps_comms_assert. by eapply fr_faults. Qed.

Lemma fkeeps_throw {A} f : f ≠ FFuel → fkeeps (throw (A := A) f).
Proof. intros Hf. apply keeps_throw. by eapply fr_faults. Qed.

Hint Extern 1 (keeps (modify _)) => eapply fr_modify; intros; first [reflexivity | assumption] : frame.
Hint Extern 1 (keeps (throw _)) => eapply fkeeps_throw; discriminate : frame.
Hint Extern 1 (keeps (on_timerMgr _)) => eapply fr_timer; eauto 2 with plain nocore : frame.
Hint Extern 1 (keeps (callback _)) => eapply fr_callback; reflexivity : frame.
Hint Resolve fkeeps_comms_assert fr_destroy : frame.
Hint Extern 1 (keeps (on_clientState (modify _))) =>
  eapply fr_flags; intros; reflexivity : frame.
Hint Extern 1 (keeps (modify_op _ _)) => eapply fr_op; op_kept_auto : frame.
Hint Resolve fr_store fr_remove fr_reset fr_alloc_subscribe fr_alloc_unsubscribe fr_timeout : frame.

(** Decompose along the syntax, unfolding what is not a lemma. *)
Ltac fauto := repeat first [ solve [eauto 2 with frame nocore] | keeps_step ].

Lemma fkeeps_get_base a : fkeeps (get_base a).
Proof. unfold get_base. fauto. Qed.
Hint Resolve fkeeps_get_base : frame.

Lemma fkeeps_get_op {T} `{Subclass T} a : fkeeps (get_op (T := T) a).
Proof. unfold get_op. fauto. Qed.
Hint Resolve fkeeps_get_op : frame.

Lemma fkeeps_set_session f : fkeeps (set_session f).
Proof. unfold set_session. fauto. Qed.
Hint Resolve fkeeps_set_session : frame.

Lemma fkeeps_range_for {A} vec ch (body : A → M ClientImpl unit) :
  (∀ x, fkeeps (body x)) → fkeeps (range_for vec ch body).
Proof. intros Hb. unfold range_for. fauto; apply Hb. Qed.
Hint Extern 1 (keeps (range_for _ _ _)) => apply fkeeps_range_for; intro; fauto : frame.

(** ** Construction, destruction, output *)

Lemma fkeeps_alloc T : fkeeps (ObjAllocator_alloc T).
Proof.
  unfold ObjAllocator_alloc, Op_new, ConnectOp_new, KeepAliveOp_new, DisconnectOp_new,
    SubscribeOp_new, UnsubscribeOp_new, RecvOp_new, SendOp_new,
    KeepAliveOp_restartPingTimer. fauto; by eapply fr_new.
Qed.
Hint Resolve fkeeps_alloc : frame.

Lemma fkeeps_push_op T a : fkeeps (push_op T a).
Proof. unfold push_op, push_back_check, set_ops_of. fauto. Qed.
Hint Resolve fkeeps_push_op : frame.

Lemma fkeeps_erase a T : fkeeps (eraseFromList a T).
Proof. unfold eraseFromList, set_ops_of. fauto. Qed.
Hint Resolve fkeeps_erase : frame.

Lemma fkeeps_must_callback b e : set_aside e = false → exchange_event e = false →
  fkeeps (must_callback b e).
Proof. intros He Hx. unfold must_callback. fauto. by eapply fr_callback. Qed.
Hint Extern 1 (keeps (must_callback _ _)) => apply fkeeps_must_callback; reflexivity : frame.

Lemma fkeeps_messageSent a : fkeeps (KeepAliveOp_messageSent a).
Proof. unfold KeepAliveOp_messageSent, KeepAliveOp_restartPingTimer. fauto. Qed.
Hint Resolve fkeeps_messageSent : frame.

(** The output of a message, when its callback keeps the contract. *)
Lemma fkeeps_output msg : (∀ buf, fkeeps (callback (EvSendOutputData msg buf))) →
  fkeeps (sendMessage msg).
Proof.
  intros Hm. unfold sendMessage, must_callback. fauto.
Qed.

Lemma fkeeps_sendMessage msg : exchange_msg msg = false → fkeeps (sendMessage msg).
Proof. intros Hx. apply fkeeps_output. intros buf. by eapply fr_callback. Qed.
Hint Extern 1 (keeps (sendMessage _)) => apply fkeeps_sendMessage; reflexivity : frame.

(** ** Completion *)

Lemma fkeeps_canSend a : fkeeps (SendOp_canSend a).
Proof.
  unfold SendOp_canSend, hasPausedSendsBefore, hasHigherQosSendsBefore. fauto.
  match goal with |- keeps (hasHigherQos_loop ?l _ _) => induction l end; simpl; fauto.
Qed.
Hint Resolve fkeeps_canSend : frame.

Section with_resume.
  Context (resume : nat → M ClientImpl unit) (Hresume : ∀ idx, fkeeps (resume idx)).

Lemma fkeeps_opComplete_with a : fkeeps (opComplete_with resume a).
Proof. unfold opComplete_with, opComplete_Send_with. fauto. Qed.
Hint Resolve fkeeps_opComplete_with : frame.

End with_resume.

Lemma fkeeps_restartResponseTimer a : fkeeps (SendOp_restartResponseTimer a).
Proof. unfold SendOp_restartResponseTimer. fauto. Qed.

Lemma fkeeps_cancelTimer a : fkeeps (SendOp_cancelTimer a).
Proof. unfold SendOp_cancelTimer. fauto. Qed.
Hint Resolve fkeeps_restartResponseTimer fkeeps_cancelTimer : frame.

Context {HX : Exchanging free C}.

(** With a bound that may be exceeded. *)
Lemma fkeeps_resumeSendOps_loop fuel idx : ct_faults FFuel → fkeeps (resumeSendOps_loop fuel idx).
Proof.
  intros Hfuel. revert idx. induction fuel as [|fuel IH]; intros idx; simpl;
    [by apply keeps_throw|].
  pose proof (λ a, ex_resume _ a IH) as Hres. fauto.
Qed.

Lemma fkeeps_resumeSendOpsSince_bound idx : ct_faults FFuel → fkeeps (resumeSendOpsSince idx).
Proof. intros. unfold resumeSendOpsSince. fauto. by apply fkeeps_resumeSendOps_loop. Qed.

Context (Hresume : ∀ idx, fkeeps (resumeSendOpsSince idx)).
Lemma fkeeps_opComplete a : fkeeps (opComplete a).
Proof. by apply fkeeps_opComplete_with. Qed.
Lemma fkeeps_completeWithCb a st : st ≠ AsyncOpStatus_Complete → fkeeps (SendOp_completeWithCb a st).
Proof. by apply ex_complete. Qed.
Hint Resolve Hresume fkeeps_opComplete : frame.
Hint Extern 1 (keeps (SendOp_completeWithCb _ _)) =>
  apply fkeeps_completeWithCb; first [discriminate | assumption] : frame.

Lemma fkeeps_completeOps a st r rs :
  fkeeps (ConnectOp_completeOpInternal a st r) ∧ fkeeps (SubscribeOp_completeOpInternal a st rs) ∧
  fkeeps (UnsubscribeOp_completeOpInternal a st).
Proof.
  unfold ConnectOp_completeOpInternal, SubscribeOp_completeOpInternal,
    UnsubscribeOp_completeOpInternal. split_and!; fauto.
Qed.
Hint Extern 1 (keeps (ConnectOp_completeOpInternal _ _ _)) =>
  eapply (proj1 (fkeeps_completeOps _ _ _ None)) : frame.
Hint Extern 1 (keeps (SubscribeOp_completeOpInternal _ _ _)) =>
  eapply (proj1 (proj2 (fkeeps_completeOps _ _ None _))) : frame.
Hint Extern 1 (keeps (UnsubscribeOp_completeOpInternal _ _)) =>
  eapply (proj2 (proj2 (fkeeps_completeOps _ _ None None))) : frame.

Lemma fkeeps_allowNextPrepare : fkeeps allowNextPrepare.
Proof. unfold allowNextPrepare. fauto. Qed.
Hint Resolve fkeeps_allowNextPrepare : frame.

(** ** Sessions *)

Lemma fkeeps_terminateOps st mode : st ≠ AsyncOpStatus_Complete → fkeeps (terminateOps st mode).
Proof. intros Hst. unfold terminateOps, Op_terminateOp. fauto. Qed.
Hint Extern 1 (keeps (terminateOps _ _)) =>
  apply fkeeps_terminateOps; first [discriminate | assumption] : frame.

Lemma fkeeps_brokerDisconnected r st : st ≠ AsyncOpStatus_Complete →
  fkeeps (brokerDisconnected r st).
Proof.
  intros Hst.
  unfold brokerDisconnected, Op_connectivityChanged, ConnectOp_connectivityChangedImpl,
    RecvOp_connectivityChangedImpl, SendOp_connectivityChangedImpl. fauto.
Qed.
Hint Extern 1 (keeps (brokerDisconnected _ _)) =>
  apply fkeeps_brokerDisconnected; first [discriminate | assumption] : frame.
Hint Extern 1 (keeps brokerDisconnected_default) =>
  apply fkeeps_brokerDisconnected; discriminate : frame.
Hint Extern 1 (keeps brokerDisconnected_protocolError) =>
  apply fkeeps_brokerDisconnected; discriminate : frame.

Lemma fkeeps_protocolError a : fkeeps (SendOp_protocolError a).
Proof. unfold SendOp_protocolError. fauto. Qed.
Hint Resolve fkeeps_protocolError : frame.

(** ** Timeouts *)

Lemma fkeeps_restartRecvTimer a : fkeeps (KeepAliveOp_restartRecvTimer a).
Proof. unfold KeepAliveOp_restartRecvTimer. fauto. Qed.
Hint Resolve fkeeps_restartRecvTimer : frame.
Hint Extern 1 (keeps (KeepAliveOp_handle_ProtMessage _)) => apply fkeeps_restartRecvTimer : frame.

Lemma fkeeps_resendDupMsg a : fkeeps (SendOp_resendDupMsg a).
Proof. by apply ex_resend. Qed.
Hint Resolve fkeeps_resendDupMsg : frame.

Lemma fkeeps_run_TimeoutCb cb : fkeeps (run_TimeoutCb cb).
Proof.
  unfold run_TimeoutCb, KeepAliveOp_sendPing, KeepAliveOp_pingTimeoutInternal,
    RecvOp_responseTimeoutInternal, SendOp_responseTimeoutInternal. fauto.
Qed.

Lemma fkeeps_tick ms : fkeeps (TimerMgr_tick ms).
Proof. unfold TimerMgr_tick. fauto. apply fkeeps_run_TimeoutCb. Qed.
Hint Resolve fkeeps_tick : frame.

Lemma fkeeps_doApiExit : fkeeps doApiExit.
Proof. unfold doApiExit, cleanOps. fauto. Qed.
Hint Resolve fkeeps_doApiExit : frame.

Lemma fkeeps_doApiEnter : fkeeps doApiEnter.
Proof. unfold doApiEnter. fauto. Qed.
Hint Resolve fkeeps_doApiEnter : frame.

Lemma fkeeps_with_guard {A} (m : M ClientImpl A) : fkeeps m → fkeeps (with_guard m).
Proof. intros Hm. unfold with_guard. fauto; apply Hm. Qed.
Hint Extern 1 (keeps (with_guard _)) => apply fkeeps_with_guard; fauto : frame.

(** ** Publishes *)

Lemma fkeeps_SendOp_handle a msg : fkeeps (SendOp_handle a msg).
Proof. apply ex_handle; [done | apply fkeeps_protocolError]. Qed.
Hint Resolve fkeeps_SendOp_handle : frame.

Lemma fkeeps_doSendInternal a : free a → fkeeps (SendOp_doSendInternal a).
Proof. by apply ex_send. Qed.

Lemma fkeeps_SendOp_requests a :
  (∀ c, free a → fkeeps (SendOp_config a c)) ∧ (∀ n, fkeeps (SendOp_setResendAttempts a n)) ∧
  (∀ cb, free a → fkeeps (SendOp_send a cb)) ∧ fkeeps (SendOp_cancel a).
Proof.
  unfold SendOp_config, SendOp_setResendAttempts, SendOp_send, SendOp_cancel.
  split_and!; intros; fauto;
    first [ by eapply fr_write | by eapply fr_alloc_send | by apply ex_refresh | by apply fkeeps_with_guard, fkeeps_doSendInternal ].
Qed.

Lemma fkeeps_resendAllUntil_bound a : ct_faults FFuel → fkeeps (resendAllUntil a).
Proof.
  intros Hfuel. unfold resendAllUntil. fauto. generalize 0 as idx.
  match goal with |- ∀ i, keeps (resendAllUntil_loop ?f i _) => generalize f as fuel end.
  induction fuel as [|fuel IH]; intros idx; simpl;
    [by apply keeps_throw|].
  unfold SendOp_forceDupResend. fauto.
Qed.

Context (Hresend : ∀ a, fkeeps (resendAllUntil a)).
Hint Resolve Hresend : frame.

Lemma fkeeps_find l id :
  fkeeps (findSendOp_loop l id) ∧ fkeeps (findRecvOp_loop l id) ∧
  (∀ fr a b, fkeeps (isLegitSendAck_loop fr l a b)).
Proof. induction l as [|x l (IH1 & IH2 & IH3)]; split_and!; intros; simpl; fauto. Qed.

Lemma fkeeps_processPublishAckMsg msg id b : fkeeps (processPublishAckMsg msg id b).
Proof.
  unfold processPublishAckMsg, findSendOp, isLegitSendAck. fauto;
    [apply fkeeps_find | by apply (fkeeps_find _ 0%Z)].
Qed.
Hint Resolve fkeeps_processPublishAckMsg : frame.

Context (Hreport : ∀ info, fkeeps (reportMsgInfo info)).
Hint Resolve Hreport : frame.

Lemma fkeeps_RecvOp_handle_Publish a msg : fkeeps (RecvOp_handle_Publish a msg).
Proof.
  unfold RecvOp_handle_Publish, RecvOp_accept, RecvOp_restartResponseTimer. fauto.
Qed.

Lemma fkeeps_RecvOp_handle_Pubrel a id fl : fkeeps (RecvOp_handle_Pubrel a id fl).
Proof. unfold RecvOp_handle_Pubrel, RecvOp_resetTimer. fauto. Qed.
Hint Resolve fkeeps_RecvOp_handle_Publish fkeeps_RecvOp_handle_Pubrel : frame.

Lemma fkeeps_handle_Publish msg : fkeeps (ClientImpl_handle_Publish msg).
Proof.
  unfold ClientImpl_handle_Publish, createRecvOp, findRecvOp, RecvOp_resetTimer. fauto.
  apply fkeeps_find.
Qed.

Lemma fkeeps_handle_Pubrel id fl : fkeeps (ClientImpl_handle_Pubrel id fl).
Proof. unfold ClientImpl_handle_Pubrel, findRecvOp. fauto. apply fkeeps_find. Qed.
Hint Resolve fkeeps_handle_Publish fkeeps_handle_Pubrel : frame.

(** ** Subscriptions: the functions that change the list *)

Lemma fkeeps_suback_loop topics codes acc : fkeeps (suback_loop topics codes acc).
Proof.
  revert codes acc. induction topics as [|[topic q] topics IH]; intros [|rc codes] acc; simpl;
    try apply keeps_ret. fauto.
Qed.
Hint Resolve fkeeps_suback_loop : frame.

Lemma fkeeps_handle_Suback a id l : fkeeps (SubscribeOp_handle_Suback a id l).
Proof. unfold SubscribeOp_handle_Suback. fauto. Qed.

Lemma fkeeps_handle_Unsuback a id : fkeeps (UnsubscribeOp_handle_Unsuback a id).
Proof.
  unfold UnsubscribeOp_handle_Unsuback. fauto.
Qed.
Hint Resolve fkeeps_handle_Suback fkeeps_handle_Unsuback : frame.

Lemma fkeeps_SubscribeOp_requests a :
  (∀ c, fkeeps (SubscribeOp_configTopic a c)) ∧ (∀ cb, fkeeps (SubscribeOp_send a cb)) ∧
  fkeeps (SubscribeOp_cancel a).
Proof.
  unfold SubscribeOp_configTopic, SubscribeOp_send, SubscribeOp_cancel,
    SubscribeOp_restartTimer. split_and!; intros; fauto.
Qed.

Lemma fkeeps_UnsubscribeOp_requests a :
  (∀ c, fkeeps (UnsubscribeOp_configTopic a c)) ∧ (∀ cb, fkeeps (UnsubscribeOp_send a cb)) ∧
  fkeeps (UnsubscribeOp_cancel a).
Proof.
  unfold UnsubscribeOp_configTopic, UnsubscribeOp_send, UnsubscribeOp_cancel,
    UnsubscribeOp_restartTimer. split_and!; intros; fauto.
Qed.

(** ** Connection *)

Lemma fkeeps_resumeFrom_loop n i : fkeeps (resumeFrom_loop n i).
Proof. revert i. induction n; intros i; simpl; fauto. Qed.
Hint Resolve fkeeps_resumeFrom_loop : frame.

Lemma fkeeps_brokerConnected sp : fkeeps (brokerConnected sp).
Proof.
  unfold brokerConnected, createKeepAliveOpIfNeeded, SendOp_postReconnectionResend,
    RecvOp_postReconnectionResume, RecvOp_connectivityChangedImpl,
    RecvOp_restartResponseTimer, type_of_ptr, Op_terminateOp. fauto.
Qed.
Hint Resolve fkeeps_brokerConnected : frame.

Lemma fkeeps_handle_Connack a m : fkeeps (ConnectOp_handle_Connack a m).
Proof.
  unfold ConnectOp_handle_Connack. fauto.
Qed.
Hint Resolve fkeeps_handle_Connack : frame.

Lemma fkeeps_ConnectOp_requests a :
  (∀ c, fkeeps (ConnectOp_config a c)) ∧ (∀ c, fkeeps (ConnectOp_configWill a c)) ∧
  (∀ cb, fkeeps (ConnectOp_send a cb)) ∧ fkeeps (ConnectOp_cancel a) ∧
  fkeeps (DisconnectOp_send a) ∧ fkeeps (DisconnectOp_cancel a).
Proof.
  unfold ConnectOp_config, ConnectOp_configWill, ConnectOp_send, ConnectOp_cancel,
    DisconnectOp_send, DisconnectOp_cancel, ConnectOp_modifyMsg, ConnectOp_restartTimer.
  split_and!; intros; fauto.
Qed.

(** ** The client *)

Lemma fkeeps_prepare_ops :
  fkeeps disconnectPrepare ∧ (∀ T, fkeeps (subscribePrepare_of T)) ∧ fkeeps publishPrepare.
Proof.
  unfold disconnectPrepare, subscribePrepare_of, publishPrepare, finish_prepare, refuse, ops_full.
  split_and!; intros; fauto.
Qed.

(** The step of [connectPrepare] and of [notifyNetworkDisconnected]. *)
Context (Hnetwork : ∀ b, fkeeps (on_clientState (modify (set_networkDisconnected b)))).

Lemma fkeeps_prepare :
  fkeeps connectPrepare ∧ fkeeps disconnectPrepare ∧ (∀ T, fkeeps (subscribePrepare_of T)) ∧
  fkeeps publishPrepare.
Proof.
  split; [|apply fkeeps_prepare_ops].
  unfold connectPrepare, connectPrepare_init, initInternal, finish_prepare, refuse, ops_full. fauto.
Qed.

Lemma fkeeps_dispatch msg : fkeeps (ClientImpl_dispatch msg).
Proof.
  assert (∀ idxs, fkeeps (handle_loop idxs msg)) as Hloop.
  { induction idxs; simpl; unfold dispatch_op, KeepAliveOp_handle_Pingresp; fauto. }
  unfold ClientImpl_dispatch, ClientImpl_handle_ProtMessage. fauto.
Qed.

Context (Hread : ct_faults FFuel ∨ ∀ buf msg n, frame_read buf = FR_Success msg n → 0 < n ≤ length buf).

Lemma fkeeps_processData_loop fuel rest n :
  ct_faults FFuel ∨ length rest ≤ fuel → fkeeps (processData_loop fuel rest n).
Proof.
  revert rest n. induction fuel as [|fuel IH]; intros [|b rest] n Hn; cbn -[length next_frame];
    fauto; try apply fkeeps_dispatch.
  - destruct Hn as [Hf|Hn]; [by apply keeps_throw | simpl in Hn; lia].
  - apply IH. destruct Hn as [|Hn]; [by left|]. destruct Hread as [|Hr]; [by left|]. right.
    rewrite length_drop. simpl in *.
    match goal with Hm : next_frame _ = FR_Success _ _ |- _ =>
      unfold next_frame in Hm; repeat case_match; simplify_eq end.
    match goal with Hm : frame_read _ = FR_Success _ _ |- _ => apply Hr in Hm; simpl in Hm end.
    lia.
Qed.

Lemma fkeeps_processData buf : fkeeps (processData buf).
Proof.
  pose proof (fkeeps_processData_loop (length buf) buf 0 (or_intror (reflexivity _))).
  unfold processData. fauto.
Qed.

Lemma fkeeps_set_client_callbacks cbs : fkeeps (set_client_callbacks cbs).
Proof.
  unfold set_client_callbacks. eapply fr_modify; intros s; try done. simpl. intros Hs.
  apply orb_prop_intro. by left.
Qed.
Hint Resolve fkeeps_set_client_callbacks : frame.

Lemma fkeeps_requests r : request_free free r → fkeeps (run_request r).
Proof.
  intros Hr.
  destruct r; simpl in *; unfold subscribePrepare, unsubscribePrepare,
    ClientImpl_tick, notifyNetworkDisconnected, client_set_default_response_timeout,
    client_set_verify_outgoing_topic_enabled, client_set_verify_incoming_topic_enabled,
    client_set_verify_incoming_msg_subscribed, setPublishOrdering,
    ClientImpl_destroy, ignore; fauto;
    first [apply fkeeps_processData | apply fkeeps_prepare | apply fkeeps_ConnectOp_requests
      | apply fkeeps_SubscribeOp_requests | apply fkeeps_UnsubscribeOp_requests
      | by apply fkeeps_SendOp_requests].
Qed.
End Frame.

(** ** Stable contracts *)

Section Stable.
  Context `{Config} `{CommsLib} `{App} (C : Contract ClientImpl) {HC : Stable C}.
Abbreviation fkeeps := (keeps (Contract0 := C)).

Hint Extern 1 (keeps (modify _)) => apply st_modify; intros; first [reflexivity | assumption] : frame.
Hint Extern 1 (keeps (throw _)) => apply keeps_throw, st_faults; discriminate : frame.
Hint Extern 1 (keeps (on_timerMgr _)) => apply st_timer; eauto 2 with plain nocore : frame.
Hint Resolve st_alloc st_release : frame.
Ltac sauto := repeat first [ solve [eauto 2 with frame nocore] | keeps_step ].

Lemma stable_modify_op {T} `{Subclass T} a (f : T → T) : fkeeps (modify_op a f).
Proof. unfold modify_op, get_op, get_base. sauto. Qed.
Hint Resolve @stable_modify_op : frame.

#[export] Instance stable_framed : Framed (λ _, True) C.
Proof.
  split; intros.
  - by apply st_faults.
  - by apply st_modify.
  - by apply st_callback.
  - by apply st_timer.
  - by apply st_flags.
  - apply st_store.
  - apply st_remove.
  - apply st_reset.
  - apply stable_modify_op.
  - apply stable_modify_op.
  - unfold SendOp_allocPacketId. sauto.
  - unfold SubscribeOp_allocPacketId. sauto.
  - unfold UnsubscribeOp_allocPacketId. sauto.
  - unfold new_object. sauto.
  - unfold Op_destroy, get_base. sauto.
  - unfold Op_setResponseTimeout, get_base. sauto.
Qed.

Lemma stable_sendMessage msg : fkeeps (sendMessage msg).
Proof. eapply fkeeps_output; [exact stable_framed|]. intros buf. by apply st_callback. Qed.
Hint Resolve stable_sendMessage : frame.

Ltac stable_auto :=
  sauto; match goal with
    | |- keeps (get_op _) => eapply fkeeps_get_op
    | |- keeps (opComplete_with _ _) => eapply fkeeps_opComplete_with
    | |- keeps (callback _) => by apply st_callback
    | |- keeps (comms_assert _) => eapply fkeeps_comms_assert
    | |- keeps (SendOp_canSend _) => eapply fkeeps_canSend
    | |- keeps (SendOp_cancelTimer _) => eapply fkeeps_cancelTimer
    | |- keeps (SendOp_restartResponseTimer _) => eapply fkeeps_restartResponseTimer
    end; eauto using stable_framed.

Lemma stable_completeWithCb_with resume a st : (∀ idx, fkeeps (resume idx)) →
  fkeeps (SendOp_completeWithCb_with resume a st).
Proof. intros Hr. unfold SendOp_completeWithCb_with. stable_auto. Qed.

Lemma stable_send resume a : (∀ idx, fkeeps (resume idx)) →
  fkeeps (SendOp_doSendInternal_with resume a).
Proof.
  intros Hr. pose proof (λ a st, stable_completeWithCb_with resume a st Hr).
  unfold SendOp_doSendInternal_with. stable_auto.
Qed.

#[export] Instance stable_exchanging : Exchanging (λ _, True) C.
Proof.
  split.
  - intros a _. apply stable_modify_op.
  - intros resume a Hr _. by apply stable_send.
  - intros resume a Hr. pose proof (λ a st, stable_completeWithCb_with resume a st Hr).
    pose proof (λ a, stable_send resume a Hr). unfold SendOp_resume_with. stable_auto.
  - intros resume a st Hr _. by apply stable_completeWithCb_with.
  - intros a Hr. pose proof (λ a st, stable_completeWithCb_with resumeSendOpsSince a st Hr).
    unfold SendOp_resendDupMsg, SendOp_completeWithCb. stable_auto.
  - intros a msg Hr Hp. pose proof (λ a st, stable_completeWithCb_with resumeSendOpsSince a st Hr).
    unfold SendOp_handle, SendOp_handle_Puback, SendOp_handle_Pubrec, SendOp_handle_Pubcomp,
      SendOp_completeWithCb. stable_auto.
Qed.

Lemma stable_run_request :
  (∀ idx, fkeeps (resumeSendOpsSince idx)) → (∀ a, fkeeps (resendAllUntil a)) →
  (∀ info, fkeeps (reportMsgInfo info)) →
  (∀ b, fkeeps (on_clientState (modify (set_networkDisconnected b)))) →
  ct_faults FFuel ∨ (∀ buf msg n, frame_read buf = FR_Success msg n → 0 < n ≤ length buf) →
  ∀ r, fkeeps (run_request r).
Proof.
  intros. eapply fkeeps_requests; try eassumption; [exact stable_framed | exact stable_exchanging|].
  by destruct r.
Qed.
End Stable.
