(* ===== verification/Ownership.v ===== *)
(** * Construction and destruction

    A new operation gets timers that nothing else uses and enters [m_ops] and the
    list of its type; a destroyed one gives back its packet identifier and its
    timers.  [opComplete] and the allocations of the client are sequences of
    these steps. *)

From S2P Require Import Prelude SortedVec Config Protocol PacketId TimerMgr State Lifecycle Invariant.
From S2P Require Import Objects.

(** ** Timers of an operation under construction or destruction *)

Lemma TimerInv_start sh mgr a T :
  TimerInv sh mgr → sh !! a = None → TimerInv (<[a := MkShape T 0 []]> sh) mgr.
Proof.
  intros [Hok Hh Hi Hn Ho Ha] Hfresh.
  assert (∀ b x, <[a := MkShape T 0 []]> sh !! b = Some x →
    sh !! b = Some x ∨ sh_timers x = []) as Hback.
  { intros b x. rewrite lookup_insert. case_decide; [intros [= <-]; by right | by left]. }
  assert (∀ b x, sh !! b = Some x → <[a := MkShape T 0 []]> sh !! b = Some x) as Hforth.
  { intros b x Hb. rewrite lookup_insert_ne; [done | congruence]. }
  split; [done| | | | |].
  - intros b x i Hb Hin. destruct (Hback _ _ Hb) as [|E]; [eauto|]. rewrite E in Hin. set_solver.
  - intros b c x y i Hb Hc Hib Hic.
    destruct (Hback _ _ Hb) as [|E]; [|rewrite E in Hib; set_solver].
    destruct (Hback _ _ Hc) as [|E]; [|rewrite E in Hic; set_solver]. eauto.
  - intros b x Hb. destruct (Hback _ _ Hb) as [|E]; [eauto | rewrite E; constructor].
  - intros i Hal. destruct (Ho i Hal) as (b & x & Hb & Hin). eauto.
  - intros i info cb Hl Hcb. destruct (Ha i info cb Hl Hcb) as (x & Hx & ?). eauto.
Qed.

Lemma TimerInv_end sh mgr a T p :
  TimerInv (<[a := MkShape T p []]> sh) mgr → TimerInv (delete a sh) mgr.
Proof.
  intros [Hok Hh Hi Hn Ho Ha].
  assert (∀ b x, delete a sh !! b = Some x → <[a := MkShape T p []]> sh !! b = Some x) as Hforth.
  { intros b x [Hne Hb]%lookup_delete_Some. by rewrite lookup_insert_ne. }
  assert (∀ b x i, <[a := MkShape T p []]> sh !! b = Some x → Some i ∈ sh_timers x →
    delete a sh !! b = Some x) as Hback.
  { intros b x i. rewrite lookup_insert. case_decide; [intros [= <-]; set_solver|].
    intros Hb _. by rewrite lookup_delete_ne. }
  split; [done| | | | |].
  - eauto.
  - eauto.
  - eauto.
  - intros i Hal. destruct (Ho i Hal) as (b & x & Hb & Hin). eauto.
  - intros i info cb Hl Hcb. destruct (Ha i info cb Hl Hcb) as (x & Hx & ? & ?). eauto.
Qed.

(** The allocated timer goes to the operation at [a]. *)
Lemma TimerInv_alloc sh mgr mgr' a T p l i :
  TimerInv (<[a := MkShape T p l]> sh) mgr → allocated_from mgr mgr' i →
  TimerInv (<[a := MkShape T p (Some i :: l)]> sh) mgr'.
Proof.
  intros [Hok Hh Hi Hn Ho Ha] (Hok' & Hfree & Hidx & Hother).
  set (sh0 := <[a := MkShape T p l]> sh) in *.
  set (sh1 := <[a := MkShape T p (Some i :: l)]> sh).
  assert (∀ j, is_allocated mgr' j ↔ j = i ∨ is_allocated mgr j) as Hal.
  { intros j. unfold is_allocated. destruct (decide (j = i)) as [->|Hj].
    - rewrite Hidx. naive_solver.
    - rewrite (Hother j Hj). naive_solver. }
  assert (∀ b x j, sh1 !! b = Some x → Some j ∈ sh_timers x →
    (j = i ∧ b = a) ∨ (∃ x0, sh0 !! b = Some x0 ∧ Some j ∈ sh_timers x0)) as Hback.
  { intros b x j. unfold sh0, sh1. rewrite !lookup_insert. case_decide; [|eauto].
    intros [= <-]. simpl. intros [[= <-]|Hin]%elem_of_cons; [by left|]. right. eauto. }
  assert (∀ b x, sh0 !! b = Some x → ∃ x1, sh1 !! b = Some x1 ∧ sh_type x1 = sh_type x ∧
    (∀ t, t ∈ sh_timers x → t ∈ sh_timers x1)) as Hforth.
  { intros b x. unfold sh0, sh1. rewrite !lookup_insert. case_decide; [|eauto].
    intros [= <-]. eexists. split; [done|]. simpl. set_solver. }
  split; [done| | | | |].
  - intros b x j Hb Hin. apply Hal. destruct (Hback _ _ _ Hb Hin) as [[-> _]|(x0 & ? & ?)]; eauto.
  - intros b c x y j Hb Hc Hib Hic.
    destruct (Hback _ _ _ Hb Hib) as [[Ej ->]|(x0 & Hb0 & ?)],
      (Hback _ _ _ Hc Hic) as [[Ej' ->]|(y0 & Hc0 & ?)]; [done| | |by eapply Hi];
      destruct Hfree; subst j; eauto.
  - intros b x. unfold sh1. rewrite lookup_insert. case_decide as Hb.
    + intros [= <-]. simpl. constructor.
      * intros Hin. destruct Hfree. apply (Hh a (MkShape T p l)); [apply lookup_insert_eq|].
        simpl. apply list_elem_of_omap in Hin as (t & Ht & E). simpl in E. by subst t.
      * apply (Hn a (MkShape T p l)), lookup_insert_eq.
    + intros Hx. apply (Hn b). unfold sh0. by rewrite lookup_insert_ne.
  - intros j [->|Hj]%Hal.
    + exists a, (MkShape T p (Some i :: l)). split; [apply lookup_insert_eq | simpl; set_solver].
    + destruct (Ho j Hj) as (b & x & Hb & Hin). destruct (Hforth _ _ Hb) as (x1 & ? & _ & ?). eauto.
  - intros j info cb Hl Hcb. destruct (decide (j = i)) as [->|Hj].
    + rewrite Hidx in Hl. by simplify_eq.
    + rewrite (Hother j Hj) in Hl. destruct (Ha j info cb Hl Hcb) as (x & Hx & HT & Hin).
      destruct (Hforth _ _ Hx) as (x1 & ? & ? & ?). exists x1. split; [done|]. split; [congruence | auto].
Qed.

Lemma TimerInv_none sh mgr a T p l :
  TimerInv (<[a := MkShape T p l]> sh) mgr ↔ TimerInv (<[a := MkShape T p (None :: l)]> sh) mgr.
Proof.
  assert (∀ l l', (∀ i, Some i ∈ l ↔ Some i ∈ l') → omap id l = omap id l' →
    TimerInv (<[a := MkShape T p l]> sh) mgr → TimerInv (<[a := MkShape T p l']> sh) mgr) as Hgen.
  { clear l. intros l l' Hel Hom [Hok Hh Hi Hn Ho Ha].
    assert (∀ b x, <[a := MkShape T p l']> sh !! b = Some x → ∃ x0,
      <[a := MkShape T p l]> sh !! b = Some x0 ∧ sh_type x0 = sh_type x ∧
      omap id (sh_timers x0) = omap id (sh_timers x) ∧
      (∀ i, Some i ∈ sh_timers x0 ↔ Some i ∈ sh_timers x)) as Hback.
    { intros b x. rewrite !lookup_insert. case_decide; [intros [= <-]|]; eexists; split; done. }
    assert (∀ b x, <[a := MkShape T p l]> sh !! b = Some x → ∃ x0,
      <[a := MkShape T p l']> sh !! b = Some x0 ∧ sh_type x0 = sh_type x ∧
      (∀ i, Some i ∈ sh_timers x0 ↔ Some i ∈ sh_timers x)) as Hforth.
    { intros b x. rewrite !lookup_insert. case_decide; [intros [= <-]|]; eexists; split; done. }
    split; [done| | | | |].
    - intros b x i Hb Hin. destruct (Hback _ _ Hb) as (x0 & ? & _ & _ & E). apply E in Hin. eauto.
    - intros b c x y i Hb Hc Hib Hic. destruct (Hback _ _ Hb) as (x0 & ? & _ & _ & E).
      destruct (Hback _ _ Hc) as (y0 & ? & _ & _ & E'). apply E in Hib. apply E' in Hic. eauto.
    - intros b x Hb. destruct (Hback _ _ Hb) as (x0 & ? & _ & <- & _). eauto.
    - intros i Hal. destruct (Ho i Hal) as (b & x & Hb & Hin).
      destruct (Hforth _ _ Hb) as (x0 & ? & _ & E). apply E in Hin. eauto.
    - intros i info cb Hl Hcb. destruct (Ha i info cb Hl Hcb) as (x & Hx & HT & Hin).
      destruct (Hforth _ _ Hx) as (x0 & ? & ET & E). apply E in Hin. exists x0.
      by rewrite ET. }
  split; apply Hgen; try done; set_solver.
Qed.

(** The destruction of the first timer of the operation at [a]. *)
Lemma TimerInv_free sh mgr a T p l i :
  TimerInv (<[a := MkShape T p (Some i :: l)]> sh) mgr →
  TimerInv (<[a := MkShape T p l]> sh) (free_timer i mgr).
Proof.
  intros [Hok Hh Hi Hn Ho Ha].
  set (sh0 := <[a := MkShape T p (Some i :: l)]> sh) in *.
  set (sh1 := <[a := MkShape T p l]> sh).
  assert (sh0 !! a = Some (MkShape T p (Some i :: l))) as Ha0 by apply lookup_insert_eq.
  assert (Some i ∉ l) as Hil.
  { intros Hin. specialize (Hn _ _ Ha0). simpl in Hn. apply NoDup_cons in Hn as [[] _].
    apply list_elem_of_omap. by exists (Some i). }
  assert (∀ b x j, sh1 !! b = Some x → Some j ∈ sh_timers x →
    j ≠ i ∧ ∃ x0, sh0 !! b = Some x0 ∧ Some j ∈ sh_timers x0) as Hback.
  { intros b x j. unfold sh1. rewrite lookup_insert. case_decide as Hb.
    - subst b. intros [= <-]. simpl. intros Hin. split; [by intros ->|].
      exists (MkShape T p (Some i :: l)). split; [done | simpl; set_solver].
    - intros Hx Hin. assert (sh0 !! b = Some x) as Hx0 by (unfold sh0; by rewrite lookup_insert_ne).
      split; [|eauto]. intros ->. apply Hb. symmetry. eapply (Hi b a _ _ i Hx0 Ha0); [done|].
      simpl. set_solver. }
  assert (∀ b x j, j ≠ i → sh0 !! b = Some x → Some j ∈ sh_timers x →
    ∃ x1, sh1 !! b = Some x1 ∧ sh_type x1 = sh_type x ∧ Some j ∈ sh_timers x1) as Hforth.
  { intros b x j Hj. unfold sh0, sh1. rewrite !lookup_insert. case_decide; [|eauto].
    intros [= <-]. simpl. intros [|]%elem_of_cons; [congruence|]. eauto. }
  pose proof (Hh a _ i Ha0 ltac:(by apply list_elem_of_here)) as Hali.
  split; [by apply free_timer_ok| | | | |].
  - intros b x j Hb Hin. destruct (Hback _ _ _ Hb Hin) as (Hj & x0 & ? & ?).
    apply is_allocated_free. eauto.
  - intros b c x y j Hb Hc Hib Hic. destruct (Hback _ _ _ Hb Hib) as (_ & x0 & ? & ?).
    destruct (Hback _ _ _ Hc Hic) as (_ & y0 & ? & ?). eauto.
  - intros b x. unfold sh1. rewrite lookup_insert. case_decide as Hb.
    + intros [= <-]. specialize (Hn _ _ Ha0). by apply NoDup_cons in Hn as [_ ?].
    + intros Hx. apply (Hn b). unfold sh0. by rewrite lookup_insert_ne.
  - intros j [Hj Hal]%is_allocated_free. destruct (Ho j Hal) as (b & x & Hb & Hin).
    destruct (Hforth _ _ _ Hj Hb Hin) as (x1 & ? & _ & ?). eauto.
  - intros j info cb. unfold free_timer. cbn [m_timers]. rewrite lookup_upd. case_decide as Hj.
    + by intros (y & _ & ->)%fmap_Some.
    + intros Hl Hcb. destruct (Ha j info cb Hl Hcb) as (x & Hx & HT & Hin).
      destruct (Hforth (m_timeoutData info) x j ltac:(congruence) Hx Hin) as (x1 & ? & ? & ?). exists x1.
      split; [done|]. split; [congruence | done].
Qed.

Section Ownership.
  Context `{Config} (F : fault → Prop) (HF : F FAssert).

Lemma wp_Timer_destroys sh mgr a T p l :
  TimerInv (<[a := MkShape T p l]> sh) mgr →
  wp F (mapM_ Timer_destroy l) (λ _ mgr', TimerInv (delete a sh) mgr') mgr.
Proof.
  revert mgr. induction l as [|t l IH]; intros mgr Hinv; simpl.
  { apply wp_ret. by eapply TimerInv_end. }
  apply wp_bind. eapply wp_mono.
  { apply (Timer_destroy_spec F t mgr); [apply Hinv | | by left].
    intros i ->. eapply (ti_held _ _ Hinv a); [apply lookup_insert_eq | simpl; set_solver]. }
  intros _ mgr' ->. apply IH. destruct t as [i|]; [by apply TimerInv_free | by apply TimerInv_none].
Qed.

(** ** Construction *)

Lemma constructing_start T s : Inv s → Constructing T [] s.
Proof.
  intros [Hl Ho [Hp Ht Hd] Hapi]. split; [done..| |done|done]. apply TimerInv_start; [done|].
  apply eq_None_not_Some. intros Hlive%(di_next _ _ _ Hd). lia.
Qed.

Lemma constructing_alloc T l s :
  Constructing T l s →
  wp F (on_timerMgr allocTimer) (λ t s',
    Constructing T (t :: l) s' ∧ evolves s s' ∧ g_next s' = g_next s ∧
    m_lists s' = m_lists s) s.
Proof.
  intros [Hl Ho Hp Ht Hd Hapi]. apply wp_zoom.
  eapply wp_mono; [apply (allocTimer_spec F); [apply Ht | by left]|].
  intros t mgr Hmgr. split; [|split; [apply evolves_set_timerMgr | done]].
  split; [done..| |done|done]. simpl. change (shapes (set_timerMgr mgr s)) with (shapes s).
  destruct t as [i|].
  - by eapply TimerInv_alloc.
  - destruct Hmgr as [-> _]. by apply (proj1 (TimerInv_none _ _ _ _ _ _)).
Qed.

(** The fresh address. *)
Lemma new_object_pending d s :
  Constructing (typeImpl d) (held_timers d) s → held_packetId d = 0%Z →
  wp F (new_object d) (λ a s', Pending a s' ∧ evolves s s' ∧ a = g_next s ∧
    m_lists s' = m_lists s ∧ (∃ t, g_store s' !! a = Some (MkOp t d))) s.
Proof.
  intros [Hl Ho Hp Ht Hd Hapi] Hpid. unfold new_object.
  apply wp_bind, wp_gets. apply wp_bind, wp_gets. apply wp_bind, wp_modify.
  apply wp_bind, wp_modify. apply wp_ret.
  set (a := g_next s). set (t := (cfg_responseTimeoutMs ∘ m_configState) s).
  set (s' := set_next (S a) (set_store (<[a:=MkOp t d]> (g_store s)) s)).
  assert (shapes s !! a = None) as Hfresh.
  { apply eq_None_not_Some. intros Hlive%(di_next _ _ _ Hd). unfold a in *. lia. }
  assert (shapes s' = <[a := shape_of d]> (shapes s)) as Hsh.
  { unfold shapes, s'. simpl. by rewrite fmap_insert. }
  assert (delete a (shapes s') = shapes s) as Hdel.
  { rewrite Hsh, delete_insert_id; done. }
  split; [|split; [|split; [done|split; [done|]]]].
  - split; [| | | |done].
    + rewrite Hsh, lookup_insert_eq. eauto.
    + by rewrite Hdel.
    + by rewrite Hdel.
    + split.
      * rewrite Hsh. destruct Hp as [Hids Hheld Hinj]. split; [done| |].
        -- intros b x. rewrite lookup_insert. case_decide; [intros [= <-]; done | eauto].
        -- intros b c x y. rewrite !lookup_insert. repeat case_decide; subst; try done.
           ++ intros [= <-] _. done.
           ++ intros _ [= <-] E Hnz. simpl in E. congruence.
           ++ eauto.
      * rewrite Hsh. unfold shape_of. rewrite Hpid. exact Ht.
      * rewrite Hsh. destruct Hd as [Hn Honce Hlive Hfr]. split; simpl; [| done | |].
        -- intros b. rewrite lookup_insert. case_decide; [intros _; unfold a in *; lia|].
           intros Hb%Hn. unfold a. lia.
        -- intros b. rewrite lookup_insert. case_decide; [|auto]. intros _. apply Hfr.
           unfold a in *. lia.
        -- intros b Hb. apply Hfr. unfold a in *. lia.
  - split; simpl; [unfold a; lia | done | | |done].
    + intros b Hb Hnone. split; [|done]. rewrite Hsh, lookup_insert_ne; [done | unfold a; lia].
    + intros b x y Hb Hx. rewrite Hsh, lookup_insert_ne by (unfold a; lia).
      intros Hy. by simplify_eq.
  - exists t. apply lookup_insert_eq.
Qed.

(** The constructors. *)
Definition constructed (T : OpType) (s : ClientImpl) (a : addr) (s' : ClientImpl) : Prop :=
  Pending a s' ∧ evolves s s' ∧ a = g_next s ∧ m_lists s' = m_lists s ∧
  ∃ x, shapes s' !! a = Some x ∧ sh_type x = T.

Lemma wp_new_object d s0 s :
  Constructing (typeImpl d) (held_timers d) s → held_packetId d = 0%Z →
  evolves s0 s → g_next s = g_next s0 → m_lists s = m_lists s0 →
  wp F (new_object d) (λ a s', constructed (typeImpl d) s0 a s' ∧
    (∃ t, g_store s' !! a = Some (MkOp t d))) s.
Proof.
  intros Hc Hpid Hev Hnext Hls. eapply wp_mono; [by apply new_object_pending|].
  intros a s' (Hpd & Hev' & -> & Hls' & t & Ht). split; [|eauto]. split; [done|].
  split; [by etrans|]. split; [done|]. split; [congruence|]. exists (shape_of d).
  split; [by apply (shapes_lookup _ _ _ Ht) | done].
Qed.

Ltac alloc_timer :=
  apply wp_bind; eapply wp_mono; [by apply constructing_alloc|];
  intros ? ? (? & ? & ? & ?).

Lemma wp_one_timer_new (mk : Timer → Derived) T s :
  (∀ t, typeImpl (mk t) = T) → (∀ t, held_timers (mk t) = [t]) →
  (∀ t, held_packetId (mk t) = 0%Z) → Inv s →
  wp F (t ← on_timerMgr allocTimer; new_object (mk t))
    (λ a s', constructed T s a s') s.
Proof.
  intros HT Htm Hpid Hs. apply (constructing_start T) in Hs. alloc_timer.
  eapply wp_mono; [eapply (wp_new_object (mk a) s); rewrite ?HT, ?Htm; try done|].
  intros b sn [Hc _]. by rewrite HT in Hc.
Qed.

Lemma wp_KeepAliveOp_new s :
  Inv s → wp F KeepAliveOp_new (λ a s', constructed Type_KeepAlive s a s') s.
Proof.
  intros Hs. apply (constructing_start Type_KeepAlive) in Hs. unfold KeepAliveOp_new.
  alloc_timer. alloc_timer. alloc_timer.
  apply wp_bind. eapply wp_mono; [eapply (wp_new_object _ s); [done | done | | |]|].
  { etrans; [|done]. by etrans. }
  { congruence. }
  { congruence. }
  intros a' sn [Hc (t & Ht)]. simpl in Hc.
  do 3 (apply wp_bind, wp_comms_assert; [done|]).
  apply wp_bind. unfold KeepAliveOp_restartPingTimer. apply wp_bind, wp_gets.
  destruct (_ =? 0)%Z; [by apply wp_ret, wp_ret|].
  apply wp_bind. eapply (wp_get_op_live (T := KeepAliveOp)); [exact Ht|].
  destruct Hc as ([Hlive Hpl Hpo [Hpp Hpt Hpd] Hapi] & Hev & Hnext & Hls & x & Hx & HT).
  eapply wp_mono; [eapply wp_timerWait; [done | done | exact Ht | simpl; set_solver | done]|].
  intros _ sn' (mgr & -> & Hm). apply wp_ret. split; [done|].
  split; [etrans; [done | apply evolves_set_timerMgr]|]. eauto 10.
Qed.

Lemma wp_Op_new T s :
  Inv s → wp F (Op_new T) (λ a s', constructed T s a s') s.
Proof.
  intros Hs. destruct T; simpl.
  - by apply (wp_one_timer_new (λ t, DConnect (MkConnectOp ConnectMsg_new t None))).
  - by apply wp_KeepAliveOp_new.
  - apply (constructing_start Type_Disconnect) in Hs. unfold DisconnectOp_new.
    eapply wp_mono; [by apply (wp_new_object (DDisconnect MkDisconnectOp) s)|].
    by intros a sn [Hc _].
  - by apply (wp_one_timer_new (λ t, DSubscribe (MkSubscribeOp 0 [] t None))).
  - by apply (wp_one_timer_new (λ t, DUnsubscribe (MkUnsubscribeOp 0 [] t None))).
  - pose proof (wp_one_timer_new (λ t, DRecv (MkRecvOp t 0)) Type_Recv s) as Hnew.
    unfold RecvOp_new. apply (constructing_start Type_Recv) in Hs. alloc_timer.
    apply wp_bind. eapply wp_mono; [eapply (wp_new_object _ s); done|].
    intros b sn [Hc _]. apply wp_bind, wp_comms_assert; [done|]. by apply wp_ret.
  - unfold SendOp_new. apply (constructing_start Type_Send) in Hs. alloc_timer.
    apply wp_bind. eapply wp_mono; [eapply (wp_new_object _ s); done|].
    intros b sn [Hc _]. apply wp_bind, wp_comms_assert; [done|]. by apply wp_ret.
Qed.

(** ** Lists *)

Lemma ListsInv_push sh ls a x :
  sh !! a = Some x → ListsInv (delete a sh) ls →
  at_max_size (ObjListType_capacity (list_limit (sh_type x)) true)
    (length (list_of (sh_type x) ls)) = false →
  (is_single (sh_type x) = true → list_of (sh_type x) ls = []) →
  ListsInv sh (set_list (sh_type x) (list_of (sh_type x) ls ++ [a]) ls).
Proof.
  intros Ha [Hl Hnd Hlim Hsing] Hmax Hone. split.
  - intros T b. rewrite list_of_set_list. case_decide as HT.
    + subst T. rewrite elem_of_app, list_elem_of_singleton, Hl. split.
      * intros [(y & [_ Hy]%lookup_delete_Some & HT)| ->]; eauto.
      * intros (y & Hy & HT). destruct (decide (b = a)) as [->|]; [by right|]. left.
        exists y. by rewrite lookup_delete_ne.
    + rewrite Hl. split.
      * intros (y & [_ Hy]%lookup_delete_Some & HT'). eauto.
      * intros (y & Hy & HT'). exists y. rewrite lookup_delete_ne; [done|]. congruence.
  - intros T. rewrite list_of_set_list. case_decide as HT; [|done]. subst T.
    apply NoDup_app. split; [done|]. split; [|apply NoDup_singleton].
    intros b Hb ->%list_elem_of_singleton. apply Hl in Hb as (y & Hy & _).
    by rewrite lookup_delete_eq in Hy.
  - intros T HT. rewrite list_of_set_list. case_decide; [subst T | auto].
    rewrite length_app. unfold ObjListType_capacity in Hmax.
    destruct (Nat.eqb_spec (list_limit (sh_type x)) 0); [done|]. simpl in Hmax. simpl. lia.
  - intros T HT. rewrite list_of_set_list. case_decide; [subst T | auto].
    by rewrite Hone.
Qed.

Lemma OpsInv_push sh ops deleted a :
  is_Some (sh !! a) → OpsInv (delete a sh) ops deleted → OpsInv sh (ops ++ [Some a]) deleted.
Proof.
  intros Ha [Ho Hnd Hdel]. split.
  - intros b. rewrite elem_of_app, list_elem_of_singleton, Ho. split.
    + intros [[y [_ Hy]%lookup_delete_Some]|[= ->]]; eauto.
    + intros [y Hy]. destruct (decide (b = a)) as [->|]; [by right|]. left.
      rewrite lookup_delete_ne; eauto.
  - rewrite omap_app. simpl. apply NoDup_app. split; [done|].
    split; [|apply NoDup_singleton]. intros b Hb ->%list_elem_of_singleton.
    apply list_elem_of_omap in Hb as (p & Hp & E). simpl in E. subst p.
    apply Ho in Hp as [y Hy]. by rewrite lookup_delete_eq in Hy.
  - intros Hd [Hin|[=]%list_elem_of_singleton]%elem_of_app. by apply Hdel.
Qed.

Lemma wp_push_op T a x s :
  Pending a s → shapes s !! a = Some x → sh_type x = T →
  (is_single T = true → ops_of T s = []) → F FCapacity →
  wp F (push_op T a) (λ _ s', Inv s' ∧ evolves s s') s.
Proof.
  intros [_ Hl Ho Hobj Hapi] Ha HT Hone Hcap. unfold push_op, push_back_check, set_ops_of.
  apply wp_bind, wp_gets. apply wp_bind, wp_when; intros _; [by apply wp_throw|].
  apply wp_bind, wp_modify. apply wp_bind, wp_modify. apply wp_bind, wp_gets.
  apply wp_bind, wp_when; intros Hmax; [by apply wp_throw|].
  apply wp_bind, wp_modify. simpl.
  set (ls := set_list T (list_of T (m_lists s) ++ [a]) (m_lists s)).
  assert (∀ s', shapes s' = shapes s → m_lists s' = ls → m_ops s' = m_ops s ++ [Some a] →
    m_opsDeleted s' = m_opsDeleted s → m_clientState s' = m_clientState s →
    m_timerMgr s' = m_timerMgr s → g_next s' = g_next s → g_trace s' = g_trace s →
    m_apiEnterCount s' = m_apiEnterCount s → Inv s' ∧ evolves s s') as Hgen.
  { intros s' Esh Els Eops Edel Ecs Emgr Enext Etr Eapi. split; [split; [| | |by rewrite Eapi]|].
    - rewrite Esh, Els. subst T. by apply ListsInv_push.
    - rewrite Esh, Eops, Edel. apply OpsInv_push; [by rewrite Ha | done].
    - destruct Hobj as [Hp Ht Hd]. split; rewrite ?Esh, ?Ecs, ?Emgr, ?Enext, ?Etr; done.
    - split; rewrite ?Esh, ?Enext, ?Etr; [done..| |done]. intros. by simplify_eq. }
  apply wp_when; intros _; [apply wp_modify|]; by apply Hgen.
Qed.

(** ** Destruction *)

Lemma PidInv_delete sh ids ids' a x :
  PidInv sh ids → sh !! a = Some x → packetIds_ok ids' →
  (∀ y, y ∈ ids → y ≠ sh_pid x → y ∈ ids') → PidInv (delete a sh) ids'.
Proof.
  intros [Hok Hh Hi] Ha Hok' Hsub. split; [done| |].
  - intros b y [Hb Hy]%lookup_delete_Some Hnz. apply Hsub; [by eapply Hh|].
    intros E. apply Hb. eapply Hi; [exact Ha | exact Hy | done | congruence].
  - intros b c y z [_ Hy]%lookup_delete_Some [_ Hz]%lookup_delete_Some. by apply Hi.
Qed.

Lemma wp_releasePacketId ids_sh a x cs :
  PidInv ids_sh (m_allocatedPacketIds cs) → ids_sh !! a = Some x →
  wp F (releasePacketId (sh_pid x)) (λ _ cs',
    PidInv (delete a ids_sh) (m_allocatedPacketIds cs')) cs.
Proof.
  intros Hp Ha. destruct (decide (sh_pid x = 0%Z)) as [Hz|Hnz].
  - rewrite Hz. apply wp_ret. apply (PidInv_delete _ _ _ a x Hp Ha (pi_ids _ _ Hp)). done.
  - destruct (releasePacketId_present cs (sh_pid x)) as (ids' & Heq & Hok & Hel);
      [apply Hp | done | by eapply (pi_held _ _ Hp)|].
    unfold wp. rewrite Heq. apply (PidInv_delete _ _ _ a x Hp Ha Hok).
    intros y Hy Hne. by apply Hel.
Qed.

Lemma shapes_delete a s s' :
  g_store s' = delete a (g_store s) → shapes s' = delete a (shapes s).
Proof. intros E. unfold shapes. by rewrite E, fmap_delete. Qed.

(** The state after the destruction of an operation. *)
Definition destroyed (a : addr) (s s' : ClientImpl) : Prop :=
  Inv s' ∧ evolves s s' ∧ g_store s' = delete a (g_store s) ∧ g_trace s' = g_trace s ∧
  g_next s' = g_next s.

Lemma destroyed_gone a s s' : destroyed a s s' → shapes s' !! a = None.
Proof.
  intros (_ & _ & Hst & _). rewrite (shapes_delete a s s' Hst). apply lookup_delete_eq.
Qed.

Lemma wp_Op_destroy a s :
  Pending a s → wp F (Op_destroy a) (λ _ s', destroyed a s s') s.
Proof.
  intros [[x Ha] Hl Ho [Hp Ht Hd] Hapi]. unfold Op_destroy.
  destruct (shapes_live _ _ _ Ha) as (o & Hoa & Ex).
  apply wp_bind. eapply wp_get_base_live; [exact Hoa|].
  apply wp_bind, wp_zoom.
  eapply wp_mono; [pose proof (wp_releasePacketId _ a x _ Hp Ha) as Hrel; rewrite Ex in Hrel;
    exact Hrel|].
  intros u cs Hp'. simpl in Hp'. apply wp_bind, wp_zoom. simpl.
  eapply wp_mono.
  { apply (wp_Timer_destroys (shapes s) _ a (sh_type x) (sh_pid x)).
    rewrite insert_id by (rewrite Ha, Ex; done). done. }
  intros v mgr Ht'. simpl in Ht'. apply wp_modify.
  set (s' := set_store _ _).
  assert (shapes s' = delete a (shapes s)) as Hshd by (by apply shapes_delete).
  split; [split; [| |split|]; rewrite ?Hshd; try done|].
  - destruct Hd as [Hn Honce Hlive Hfr]. split; [|done| |done]; simpl;
      intros b [y [_ Hy]%lookup_delete_Some]; [apply Hn | apply Hlive]; eauto.
  - split; [|done]. split; [done..| | |done]; rewrite ?Hshd.
    + intros b _ Hb. split; [|done]. apply lookup_delete_None. by right.
    + intros b y z _ Hy. intros [_ Hz]%lookup_delete_Some. by simplify_eq.
Qed.

(** The entry of the operation in [m_ops] is null already. *)
Record Unlinking (a : addr) (s : ClientImpl) : Prop := {
  ul_lists : ListsInv (shapes s) (m_lists s);
  ul_ops : OpsInv (delete a (shapes s)) (m_ops s) (m_opsDeleted s);
  ul_obj : ObjInv s;
  ul_api : (0 ≤ m_apiEnterCount s ≤ u32_max)%Z;
}.

Lemma erase_at_spec {A} (l : list A) i x :
  NoDup l → l !! i = Some x →
  NoDup (erase_at i l) ∧ ∀ y, y ∈ erase_at i l ↔ y ∈ l ∧ y ≠ x.
Proof.
  intros Hnd Hi. pose proof (take_drop_middle _ _ _ Hi) as E. unfold erase_at.
  rewrite <- E in Hnd. apply NoDup_app in Hnd as (Hnd1 & Hdisj & Hnd2).
  apply NoDup_cons in Hnd2 as [Hx Hnd2]. split.
  - apply NoDup_app. split; [done|]. split; [|done].
    intros y Hy Hin. apply (Hdisj y Hy). by apply elem_of_cons; right.
  - intros y. rewrite <- E at 3. rewrite !elem_of_app, elem_of_cons. split.
    + intros [Hy|Hy]; (split; [tauto|]); intros ->; [|done].
      apply (Hdisj x Hy). by apply elem_of_cons; left.
    + intros [[?|[->|?]] Hne]; tauto.
Qed.

Lemma length_erase_at {A} (l : list A) i : length (erase_at i l) ≤ length l.
Proof. unfold erase_at. rewrite length_app, length_take, length_drop. lia. Qed.

Lemma ListsInv_erase sh ls a x i :
  ListsInv sh ls → sh !! a = Some x → list_of (sh_type x) ls !! i = Some a →
  ListsInv (delete a sh) (set_list (sh_type x) (erase_at i (list_of (sh_type x) ls)) ls).
Proof.
  intros [Hl Hnd Hlim Hsing] Ha Hi.
  destruct (erase_at_spec _ _ _ (Hnd (sh_type x)) Hi) as [Hnd' Hel].
  pose proof (length_erase_at (list_of (sh_type x) ls) i) as Hlen.
  split; intros T; rewrite list_of_set_list; [|case_decide; by subst|..];
    [|intros HT; case_decide; subst; auto; etrans; [exact Hlen | auto]..].
  intros b. case_decide as HT.
  - subst T. rewrite Hel, Hl. split.
    + intros ((y & Hy & HT) & Hne). exists y. rewrite lookup_delete_ne; done.
    + intros (y & [Hne Hy]%lookup_delete_Some & HT). split; [eauto | done].
  - rewrite Hl. split.
    + intros (y & Hy & HT'). exists y. rewrite lookup_delete_ne; [done | congruence].
    + intros (y & [_ Hy]%lookup_delete_Some & HT'). eauto.
Qed.

Lemma wp_eraseFromList T a x s :
  Unlinking a s → shapes s !! a = Some x → sh_type x = T →
  wp F (eraseFromList a T) (λ _ s', destroyed a s s') s.
Proof.
  intros [Hl Ho [Hp Ht Hd] Hapi] Ha HT. unfold eraseFromList, set_ops_of.
  apply wp_bind, wp_gets.
  assert (a ∈ ops_of T s) as Hin by (apply Hl; eauto).
  destruct (list_find _ _) as [[i b]|] eqn:Hf.
  2:{ apply list_find_None in Hf. rewrite Forall_forall in Hf. by destruct (Hf a Hin). }
  apply list_find_Some in Hf as (Hi & -> & _).
  apply wp_bind, wp_modify.
  set (ls := set_list T (erase_at i (ops_of T s)) (m_lists s)).
  assert (∀ s1, g_store s1 = g_store s → m_lists s1 = ls → m_ops s1 = m_ops s →
    m_opsDeleted s1 = m_opsDeleted s → m_clientState s1 = m_clientState s →
    m_timerMgr s1 = m_timerMgr s → g_next s1 = g_next s → g_trace s1 = g_trace s →
    m_apiEnterCount s1 = m_apiEnterCount s →
    wp F (Op_destroy a ;; mret i) (λ _ s', destroyed a s s') s1) as Hgen.
  { intros s1 Est Els Eops Edel Ecs Emgr Enext Etr Eapi. apply wp_bind.
    assert (shapes s1 = shapes s) as Esh by (unfold shapes; by rewrite Est).
    assert (Pending a s1) as Hpd.
    { split; [by rewrite Esh, Ha | | | |by rewrite Eapi]; rewrite ?Esh, ?Els, ?Eops, ?Edel.
      - subst T. by apply ListsInv_erase.
      - done.
      - split; rewrite ?Esh, ?Ecs, ?Emgr, ?Enext, ?Etr; done. }
    eapply wp_mono; [by apply wp_Op_destroy|].
    intros _ s' (Hinv & Hev & Est' & Etr' & Enext'). apply wp_ret. split; [done|].
    split; [|split_and!; congruence].
    destruct Hev as [Hn Hpre Hdead Hsame Hev]. rewrite Esh, Enext, Etr, Eapi in *. by split. }
  apply wp_bind, wp_when; intros _; [apply wp_modify|]; by apply Hgen.
Qed.

(** The entry in [m_ops] becomes null. *)
Lemma OpsInv_null sh ops deleted a i :
  OpsInv sh ops deleted → ops !! i = Some (Some a) →
  OpsInv (delete a sh) (<[i := None]> ops) true.
Proof.
  intros [Ho Hnd Hdel] Hi. pose proof (take_drop_middle _ _ _ Hi) as E.
  assert (<[i := None]> ops = take i ops ++ None :: drop (S i) ops) as E'.
  { apply insert_take_drop. by eapply lookup_lt_Some. }
  rewrite <- E in Hnd. rewrite omap_app in Hnd. simpl in Hnd.
  apply NoDup_app in Hnd as (Hnd1 & Hdisj & [Hx Hnd2]%NoDup_cons).
  assert (∀ (l : list (option addr)) b, Some b ∈ l → b ∈ (omap id l : list addr)) as Hom.
  { intros l b Hb. apply list_elem_of_omap. by exists (Some b). }
  split; [| |done].
  - intros b. rewrite E'. trans (Some b ∈ ops ∧ b ≠ a).
    + rewrite <- E at 3. rewrite !elem_of_app, !elem_of_cons. split.
      * intros [Hb|[[=]|Hb]]; (split; [tauto|]); intros ->; [|by apply Hx, Hom].
        apply (Hdisj a (Hom _ _ Hb)), elem_of_cons. by left.
      * intros [[?|[[= ->]|?]] Hne]; tauto.
    + rewrite Ho. split.
      * intros [[y Hy] Hne]. exists y. by rewrite lookup_delete_ne.
      * intros [y [Hne Hy]%lookup_delete_Some]. eauto.
  - rewrite E', omap_app. simpl. apply NoDup_app. split; [done|]. split; [|done].
    intros b Hb Hb'. apply (Hdisj b Hb), elem_of_cons. by right.
Qed.
End Ownership.
