(* ===== verification/Preservation.v ===== *)
(** * Every function of the library preserves the invariant

    For an application whose reactions fulfil the contract, so does every
    function of the library, hence every request; the scripted applications
    fulfil it at any depth of nesting, so that the invariant holds in every
    reachable state. *)

From S2P Require Import Prelude SortedVec Config Protocol Topic PacketId TimerMgr State Lifecycle.
From S2P Require Import Completion Session SendOp RecvOp SubscribeOp ConnectOp Client.
From S2P Require Import Invariant Objects Ownership.

Section Preservation.
  Context `{Config} `{CommsLib} `{!CommsLaws} `{App} `{!AppContract}.

(** ** Generic rules *)

Lemma keeps_range_for {A} (vec : ClientImpl → list A) ch (body : A → M ClientImpl unit) :
  (∀ x, keeps (body x)) → keeps (range_for vec ch body).
Proof.
  intros Hb. unfold range_for. keeps_auto; apply Hb.
Qed.

Lemma keeps_on_clientState_modify f :
  (∀ cs, m_allocatedPacketIds (f cs) = m_allocatedPacketIds cs) →
  keeps (on_clientState (modify f)).
Proof.
  intros Hf s Hs. apply wp_zoom, wp_modify. apply core_inv; [|done].
  unfold core. simpl. by rewrite Hf.
Qed.

Lemma keeps_set_session f : keeps (set_session f).
Proof. by apply keeps_core. Qed.

Hint Extern 1 (keeps (on_clientState (modify _))) =>
  apply keeps_on_clientState_modify; reflexivity : keeps.
Hint Resolve keeps_set_session : keeps.
Hint Extern 1 (keeps (range_for _ _ _)) => apply keeps_range_for; intro; keeps_auto : keeps.

(** ** Output *)

Lemma keeps_restartPingTimer a : keeps (KeepAliveOp_restartPingTimer a).
Proof. unfold KeepAliveOp_restartPingTimer. keeps_auto. Qed.
Hint Resolve keeps_restartPingTimer : keeps.

Lemma keeps_sendMessage msg : keeps (sendMessage msg).
Proof. unfold sendMessage, KeepAliveOp_messageSent. keeps_auto. Qed.
Hint Resolve keeps_sendMessage : keeps.

(** ** Construction *)

Lemma keeps_alloc {A} T (k : option addr → M ClientImpl A) :
  keeps (k None) →
  (∀ a s0 s, Inv s0 → constructed T s0 a s →
    wp any_fault (k (Some a)) (λ _ s', Inv s' ∧ evolves s0 s') s) →
  keeps (ObjAllocator_alloc T ≫= k).
Proof.
  intros Hnone Hsome s Hs. unfold ObjAllocator_alloc.
  apply wp_bind, wp_bind, wp_gets. destruct (alloc_succeeds _ _); [|by apply Hnone].
  apply wp_bind. eapply wp_mono; [by apply wp_Op_new|]. intros a s' Hc. by apply wp_ret, Hsome.
Qed.

Lemma wp_push_then {A} T a s0 s (m : M ClientImpl A) :
  constructed T s0 a s → (is_single T = true → ops_of T s0 = []) → keeps m →
  wp any_fault (push_op T a ;; m) (λ _ s', Inv s' ∧ evolves s0 s') s.
Proof.
  intros (Hpd & Hev & _ & Hls & x & Hx & HT) Hone Hm. apply wp_bind.
  eapply wp_mono; [eapply (wp_push_op any_fault); [done..| |done]|].
  { intros Hsing. unfold ops_of. rewrite Hls. by apply Hone. }
  intros _ s' [Hs' Hev'].
  eapply wp_mono; [by apply Hm|]. intros _ s'' [? ?]. split; [done|].
  etrans; [done|]. by etrans.
Qed.

Lemma constructed_lock T s0 a s b :
  constructed T s0 a s → constructed T s0 a (set_preparationLocked b s).
Proof.
  intros ([? ? ? [] ?] & [] & ? & ? & ?). split; [|split; [by split | by split]].
  by split.
Qed.

Lemma wp_finish_prepare T s :
  Inv s → (is_single T = true → ops_of T s = []) →
  wp any_fault (finish_prepare T) (λ _ s', Inv s' ∧ evolves s s') s.
Proof.
  intros Hs Hone. unfold finish_prepare, ObjAllocator_alloc.
  apply wp_bind, wp_bind, wp_gets. destruct (alloc_succeeds _ _); [|by apply wp_ret, wp_ret].
  apply wp_bind. eapply wp_mono; [by apply wp_Op_new|]. intros a s' Hc.
  apply wp_ret, wp_bind, wp_modify.
  apply wp_push_then; [by apply constructed_lock | done | apply keeps_ret].
Qed.

(** The guards that precede an allocation read a single state. *)
Lemma keeps_finish_prepare T : is_single T = false → keeps (finish_prepare T).
Proof. intros HT s Hs. apply wp_finish_prepare; [done | congruence]. Qed.

(** ** Completion *)

Section with_resume.
  Context (resume : nat → M ClientImpl unit) (Hresume : ∀ idx, keeps (resume idx)).

Lemma wp_opComplete_with a s :
  Inv s →
  wp any_fault (opComplete_with resume a) (λ _ s', Inv s' ∧ evolves s s' ∧
    (is_Some (shapes s !! a) → shapes s' !! a = None ∧ completions a (g_trace s') = 0)) s.
Proof.
  intros Hs. pose proof Hs as [Hl Ho [Hp Ht Hd] Ha0]. unfold opComplete_with.
  apply wp_bind, wp_gets. destruct (list_find _ _) as [[i p]|] eqn:Hf.
  2:{ apply wp_comms_assert; [done|]. split; [done|]. split; [done|].
      intros Hlive%(li_ops _ _ _ Ho). apply list_find_None in Hf.
      rewrite Forall_forall in Hf. by destruct (Hf _ Hlive). }
  apply list_find_Some in Hf as (Hi & -> & _).
  apply wp_bind, wp_modify. apply wp_bind, wp_modify.
  set (s1 := set_opsDeleted true _).
  apply wp_bind, wp_get_base; [done|]. intros o Hoa.
  pose proof (shapes_lookup s1 a o Hoa) as Ha.
  assert (Unlinking a s1) as Hul by (split; [done | by eapply OpsInv_null | by split | done]).
  assert (∀ s2, destroyed a s1 s2 → ∀ (m : M ClientImpl unit), keeps m →
    wp any_fault m (λ _ s', Inv s' ∧ evolves s s' ∧ (is_Some (shapes s !! a) →
      shapes s' !! a = None ∧ completions a (g_trace s') = 0)) s2) as Hend.
  { intros s2 Hdes m Hm. pose proof (destroyed_gone _ _ _ Hdes) as Hnone.
    destruct Hdes as (Hs2 & [Hn Hpre Hdead Hsame Hapi] & _ & Etr & Enext).
    eapply wp_mono; [by apply Hm|]. intros _ s3 [Hs3 Hev3].
    assert (evolves s s2) as Hev by by split.
    split; [done|]. split; [by etrans|]. intros Hlive.
    destruct (ev_dead _ _ Hev3 a) as [? Hc]; [|done|].
    { rewrite Enext. by apply (di_next _ _ _ Hd). }
    split; [done|]. rewrite Hc, Etr. by apply (di_live _ _ _ Hd). }
  assert (∀ T, Op_type o = T → wp any_fault (_ ← eraseFromList a T; mret tt) (λ _ s',
    Inv s' ∧ evolves s s' ∧ (is_Some (shapes s !! a) →
      shapes s' !! a = None ∧ completions a (g_trace s') = 0)) s1) as Hother.
  { intros T HT. apply wp_bind. eapply wp_mono; [by eapply wp_eraseFromList|].
    intros idx s2 Hs2. by apply (Hend s2 Hs2 (mret tt)), keeps_ret. }
  destruct (Op_type o) eqn:HT; try by apply Hother.
  unfold opComplete_Send_with. apply wp_bind.
  eapply wp_mono; [by eapply wp_eraseFromList|]. intros idx s2 Hs2.
  apply (Hend s2 Hs2). keeps_auto; apply Hresume.
Qed.

Lemma keeps_opComplete_with a : keeps (opComplete_with resume a).
Proof.
  intros s Hs. eapply wp_mono; [by apply wp_opComplete_with|]. by intros _ s' (? & ? & _).
Qed.

(** A completion followed by its report. *)
Lemma wp_complete_report a (ucb : UserCb) (ev : nat → Event) s :
  Inv s → is_Some (shapes s !! a) → (∀ cb, completion_of (ev cb) = Some a) →
  wp any_fault (opComplete_with resume a ;;
    match ucb with None => mret tt | Some cb => callback (ev cb) end)
    (λ _ s', Inv s' ∧ evolves s s') s.
Proof.
  intros Hs Hlive Hev. apply wp_bind. eapply wp_mono; [by apply wp_opComplete_with|].
  intros _ s1 (Hs1 & Hevol & Hdead). destruct (Hdead Hlive) as [Hnone Hz].
  destruct ucb as [cb|]; [|by apply wp_ret].
  assert (a < g_next s1) as Hlt.
  { pose proof (di_next _ _ _ (oi_done _ (inv_obj _ Hs)) _ Hlive).
    pose proof (ev_next _ _ Hevol). lia. }
  apply wp_bind, wp_modify. eapply wp_mono.
  { apply app_keeps. by eapply log_completion_inv. }
  intros _ s3 [Hs3 Hev3]. split; [done|]. etrans; [|done].
  by eapply evolves_log_completion.
Qed.

Lemma keeps_SendOp_completeWithCb_with a st : keeps (SendOp_completeWithCb_with resume a st).
Proof.
  intros s Hs. apply wp_bind, wp_get_op; [done|]. intros t o Ho.
  apply wp_complete_report; [done | | done]. by rewrite (shapes_lookup _ _ _ Ho).
Qed.
Hint Resolve keeps_SendOp_completeWithCb_with : keeps.

Lemma keeps_restartResponseTimer a : keeps (SendOp_restartResponseTimer a).
Proof. unfold SendOp_restartResponseTimer. keeps_auto. Qed.
Hint Resolve keeps_restartResponseTimer : keeps.

Lemma keeps_doSendInternal_with a : keeps (SendOp_doSendInternal_with resume a).
Proof.
  unfold SendOp_doSendInternal_with. keeps_auto.
  apply keeps_modify_op. intros o. by destruct (so_published o).
Qed.
Hint Resolve keeps_doSendInternal_with : keeps.

Lemma keeps_hasHigherQos_loop l a q : keeps (hasHigherQos_loop l a q).
Proof. induction l; simpl; keeps_auto. Qed.
Hint Resolve keeps_hasHigherQos_loop : keeps.

Lemma keeps_canSend a : keeps (SendOp_canSend a).
Proof. unfold SendOp_canSend, hasPausedSendsBefore, hasHigherQosSendsBefore. keeps_auto. Qed.
Hint Resolve keeps_canSend : keeps.

Lemma keeps_SendOp_resume_with a : keeps (SendOp_resume_with resume a).
Proof. unfold SendOp_resume_with. keeps_auto. Qed.
End with_resume.

Hint Resolve keeps_SendOp_completeWithCb_with keeps_restartResponseTimer
  keeps_doSendInternal_with keeps_canSend keeps_SendOp_resume_with keeps_opComplete_with
  : keeps.

Lemma keeps_resumeSendOps_loop fuel idx : keeps (resumeSendOps_loop fuel idx).
Proof.
  revert idx. induction fuel as [|fuel IH]; intros idx; simpl; [by apply keeps_throw|].
  keeps_auto.
Qed.

Lemma keeps_resumeSendOpsSince idx : keeps (resumeSendOpsSince idx).
Proof. apply keeps_bind; [apply keeps_gets | intros; apply keeps_resumeSendOps_loop]. Qed.
Hint Resolve keeps_resumeSendOpsSince : keeps.

Lemma keeps_opComplete a : keeps (opComplete a).
Proof. apply keeps_opComplete_with, keeps_resumeSendOpsSince. Qed.
Lemma keeps_SendOp_completeWithCb a st : keeps (SendOp_completeWithCb a st).
Proof. apply keeps_SendOp_completeWithCb_with, keeps_resumeSendOpsSince. Qed.
Lemma keeps_SendOp_doSendInternal a : keeps (SendOp_doSendInternal a).
Proof. apply keeps_doSendInternal_with, keeps_resumeSendOpsSince. Qed.
Hint Resolve keeps_opComplete keeps_SendOp_completeWithCb keeps_SendOp_doSendInternal : keeps.

Ltac solve_complete :=
  intros s Hs; apply wp_bind, wp_get_op; [done|]; intros t o Ho;
  apply wp_complete_report; [apply keeps_resumeSendOpsSince | done | | done];
  by rewrite (shapes_lookup _ _ _ Ho).

Lemma keeps_ConnectOp_completeOpInternal a st r :
  keeps (ConnectOp_completeOpInternal a st r).
Proof. solve_complete. Qed.
Lemma keeps_SubscribeOp_completeOpInternal a st r :
  keeps (SubscribeOp_completeOpInternal a st r).
Proof. solve_complete. Qed.
Lemma keeps_UnsubscribeOp_completeOpInternal a st :
  keeps (UnsubscribeOp_completeOpInternal a st).
Proof. solve_complete. Qed.
Hint Resolve keeps_ConnectOp_completeOpInternal keeps_SubscribeOp_completeOpInternal
  keeps_UnsubscribeOp_completeOpInternal : keeps.

(** ** Termination, timeouts and the guard *)

Lemma keeps_terminateOp a st : keeps (Op_terminateOp a st).
Proof. unfold Op_terminateOp. keeps_auto. Qed.
Hint Resolve keeps_terminateOp : keeps.

Lemma keeps_terminateOps st mode : keeps (terminateOps st mode).
Proof. unfold terminateOps. keeps_auto. Qed.
Hint Resolve keeps_terminateOps : keeps.

Lemma keeps_connectivityChanged a : keeps (Op_connectivityChanged a).
Proof.
  unfold Op_connectivityChanged, ConnectOp_connectivityChangedImpl,
    RecvOp_connectivityChangedImpl, SendOp_connectivityChangedImpl. keeps_auto.
Qed.
Hint Resolve keeps_connectivityChanged : keeps.

Lemma keeps_brokerDisconnected r st : keeps (brokerDisconnected r st).
Proof. unfold brokerDisconnected. keeps_auto. Qed.
Hint Resolve keeps_brokerDisconnected : keeps.

Lemma keeps_brokerDisconnected_default : keeps brokerDisconnected_default.
Proof. apply keeps_brokerDisconnected. Qed.
Lemma keeps_brokerDisconnected_protocolError : keeps brokerDisconnected_protocolError.
Proof. apply keeps_brokerDisconnected. Qed.
Hint Resolve keeps_brokerDisconnected_default keeps_brokerDisconnected_protocolError : keeps.

Lemma keeps_KeepAliveOp_restartRecvTimer a : keeps (KeepAliveOp_restartRecvTimer a).
Proof. unfold KeepAliveOp_restartRecvTimer. keeps_auto. Qed.
Hint Resolve keeps_KeepAliveOp_restartRecvTimer : keeps.

Lemma keeps_KeepAliveOp_sendPing a : keeps (KeepAliveOp_sendPing a).
Proof. unfold KeepAliveOp_sendPing. keeps_auto. Qed.
Hint Resolve keeps_KeepAliveOp_sendPing : keeps.

Lemma keeps_SendOp_resendDupMsg a : keeps (SendOp_resendDupMsg a).
Proof. unfold SendOp_resendDupMsg. keeps_auto. Qed.
Hint Resolve keeps_SendOp_resendDupMsg : keeps.

Lemma keeps_run_TimeoutCb cb : keeps (run_TimeoutCb cb).
Proof.
  destruct cb as [[] a]; simpl; unfold KeepAliveOp_pingTimeoutInternal,
    RecvOp_responseTimeoutInternal, SendOp_responseTimeoutInternal; keeps_auto.
Qed.
Hint Resolve keeps_run_TimeoutCb : keeps.

Lemma keeps_TimerMgr_tick ms : keeps (TimerMgr_tick ms).
Proof. unfold TimerMgr_tick. keeps_auto. Qed.
Hint Resolve keeps_TimerMgr_tick : keeps.

Lemma OpsInv_clean sh ops deleted :
  OpsInv sh ops deleted → OpsInv sh (filter (λ p, is_Some p) ops) false.
Proof.
  intros [Ho Hnd Hdel]. split.
  - intros a. rewrite list_elem_of_filter, Ho. split; [by intros [_ ?]|]. intros Ha.
    split; [by eexists | done].
  - replace (omap id (filter _ ops) : list addr) with (omap id ops : list addr); [done|].
    clear. induction ops as [|[a|] ops IH]; [done | |].
    + rewrite filter_cons_True by (by eexists). simpl. by f_equal.
    + rewrite filter_cons_False by (by intros [? ?]). done.
  - intros _ [[? ?] _]%list_elem_of_filter. done.
Qed.

Lemma keeps_cleanOps : keeps cleanOps.
Proof.
  intros s Hs. unfold cleanOps. apply wp_bind, wp_gets.
  destruct (m_opsDeleted s); simpl; [|by apply wp_ret].
  do 2 apply wp_bind, wp_modify. apply wp_modify.
  destruct Hs as [Hl Ho [Hp Ht Hd] Ha0].
  split; [split; [done | by eapply OpsInv_clean | by split | done]|].
  split; [done..| |done]. intros a x y _ Hx Hy. unfold shapes in *. simpl in *. by simplify_eq.
Qed.
Hint Resolve keeps_cleanOps : keeps.

(** Everything evolves but the nesting depth. *)
Definition shifts (s s' : ClientImpl) : Prop :=
  evolves s (set_apiEnterCount (m_apiEnterCount s) s').

Lemma evolves_set_api c c' s s' :
  evolves s s' → c = c' → evolves (set_apiEnterCount c s) (set_apiEnterCount c' s').
Proof. intros [Hn Ht Hd Hs _] ->. by split. Qed.

Lemma shifts_trans s1 s2 s3 : shifts s1 s2 → shifts s2 s3 → shifts s1 s3.
Proof.
  unfold shifts. intros H12 H23. etrans; [exact H12|].
  apply (evolves_set_api (m_apiEnterCount s1) (m_apiEnterCount s1)) in H23; [|done].
  destruct s3. exact H23.
Qed.

Lemma Inv_set_api c s : (0 ≤ c ≤ u32_max)%Z → Inv s → Inv (set_apiEnterCount c s).
Proof. intros Hc [Hl Ho [Hp Ht Hd] _]. by split. Qed.

Lemma u32_range z : (0 ≤ u32 z ≤ u32_max)%Z.
Proof. unfold u32, u32_max. pose proof (Z.mod_pos_bound z (2 ^ 32) ltac:(lia)). lia. Qed.

(** A change of the depth and what follows it. *)
Lemma wp_set_api {A} c (m : M ClientImpl A) s :
  Inv s → (0 ≤ c ≤ u32_max)%Z → keeps m →
  wp any_fault m (λ _ s', Inv s' ∧ shifts s s' ∧ m_apiEnterCount s' = c)
    (set_apiEnterCount c s).
Proof.
  intros Hs Hc Hm. eapply wp_mono; [by apply Hm, Inv_set_api|].
  intros _ s' [Hs' Hev]. split; [done|]. split; [|apply (ev_api _ _ Hev)].
  destruct Hev as [Hn Ht Hd He _]. by split.
Qed.

Lemma wp_doApiEnter s :
  Inv s → wp any_fault doApiEnter (λ _ s', Inv s' ∧ shifts s s' ∧
    m_apiEnterCount s' = u32 (m_apiEnterCount s + 1)) s.
Proof.
  intros Hs. apply wp_bind, wp_modify. apply wp_set_api; [done | apply u32_range|]. keeps_auto.
Qed.

Lemma wp_doApiExit s :
  Inv s → wp any_fault doApiExit (λ _ s', Inv s' ∧ shifts s s' ∧
    m_apiEnterCount s' = u32 (m_apiEnterCount s - 1)) s.
Proof.
  intros Hs. apply wp_bind, wp_gets. apply wp_bind, wp_comms_assert; [done|].
  apply wp_bind, wp_modify. apply wp_set_api; [done | apply u32_range|]. keeps_auto.
Qed.

Lemma u32_up_down c : (0 ≤ c ≤ u32_max)%Z → u32 (u32 (c + 1) - 1) = c.
Proof.
  intros Hc. rewrite <- Z.add_opp_r, u32_add_mod, <- Z.add_assoc, Z.add_0_r.
  by apply u32_small.
Qed.

Lemma shifts_back s s' : shifts s s' → m_apiEnterCount s' = m_apiEnterCount s → evolves s s'.
Proof. intros [Hn Ht Hd He _] Hc. by split. Qed.

Lemma keeps_with_guard {A} (m : M ClientImpl A) : keeps m → keeps (with_guard m).
Proof.
  intros Hm s Hs. unfold with_guard. apply wp_bind.
  eapply wp_mono; [by apply wp_doApiEnter|]. intros _ s1 (Hs1 & Hsh1 & Hc1).
  apply wp_bind. eapply wp_mono; [by apply Hm|]. intros x s2 [Hs2 Hev2].
  apply wp_bind. eapply wp_mono; [by apply wp_doApiExit|]. intros _ s3 (Hs3 & Hsh3 & Hc3).
  apply wp_ret. split; [done|].
  apply shifts_back.
  - eapply shifts_trans; [exact Hsh1|]. eapply shifts_trans; [|exact Hsh3].
    destruct Hev2 as [Hn Ht Hd He _]. by split.
  - rewrite Hc3, (ev_api _ _ Hev2), Hc1. apply u32_up_down, Hs.
Qed.
Hint Extern 1 (keeps (with_guard _)) => apply keeps_with_guard; keeps_auto : keeps.

Lemma keeps_ClientImpl_tick ms : keeps (ClientImpl_tick ms).
Proof.
  intros s Hs. unfold ClientImpl_tick.
  apply wp_bind, wp_gets. apply wp_bind, wp_comms_assert; [done|].
  apply wp_bind, wp_modify, wp_bind.
  eapply wp_mono; [by apply wp_set_api, keeps_TimerMgr_tick; [|apply u32_range]|].
  intros _ s1 (Hs1 & Hsh1 & Hc1). eapply wp_mono; [by apply wp_doApiExit|].
  intros _ s2 (Hs2 & Hsh2 & Hc2). split; [done|]. apply shifts_back.
  - by eapply shifts_trans.
  - rewrite Hc2, Hc1. apply u32_up_down, Hs.
Qed.

(** ** SendOp *)

Lemma keeps_SendOp_cancelTimer a : keeps (SendOp_cancelTimer a).
Proof. unfold SendOp_cancelTimer. keeps_auto. Qed.
Hint Resolve keeps_SendOp_cancelTimer : keeps.

Lemma keeps_SendOp_protocolError a : keeps (SendOp_protocolError a).
Proof. unfold SendOp_protocolError. keeps_auto. Qed.
Hint Resolve keeps_SendOp_protocolError : keeps.

Lemma keeps_SendOp_handle a msg : keeps (SendOp_handle a msg).
Proof.
  unfold SendOp_handle, SendOp_handle_Puback, SendOp_handle_Pubrec, SendOp_handle_Pubcomp.
  keeps_auto.
Qed.
Hint Resolve keeps_SendOp_handle : keeps.

Lemma keeps_SendOp_config a c : keeps (SendOp_config a c).
Proof. unfold SendOp_config. keeps_auto. Qed.

Lemma keeps_SendOp_setResendAttempts a n : keeps (SendOp_setResendAttempts a n).
Proof. unfold SendOp_setResendAttempts. keeps_auto. Qed.

Lemma keeps_allowNextPrepare : keeps allowNextPrepare.
Proof. unfold allowNextPrepare. keeps_auto. Qed.
Hint Resolve keeps_allowNextPrepare : keeps.

Lemma keeps_SendOp_allocPacketId a : keeps (SendOp_allocPacketId a).
Proof.
  apply (keeps_allocPacketId a (λ id o, so_set_pubMsg (pub_set_packetId id (so_pubMsg o)) o)).
  by intros id [].
Qed.
Hint Resolve keeps_SendOp_allocPacketId : keeps.

Lemma keeps_SendOp_refresh a :
  keeps (modify_op a (λ o, so_set_pubMsg (publish_doRefresh (so_pubMsg o)) o)).
Proof.
  apply keeps_modify_op. intros o. unfold shape_of. simpl. f_equal.
  by apply publish_refresh_keeps.
Qed.
Hint Resolve keeps_SendOp_refresh : keeps.

Lemma keeps_SendOp_send a cb : keeps (SendOp_send a cb).
Proof. unfold SendOp_send. keeps_auto. Qed.

Lemma keeps_SendOp_cancel a : keeps (SendOp_cancel a).
Proof. unfold SendOp_cancel. keeps_auto. Qed.

Lemma keeps_SendOp_postReconnectionResend a : keeps (SendOp_postReconnectionResend a).
Proof. unfold SendOp_postReconnectionResend. keeps_auto. Qed.
Hint Resolve keeps_SendOp_postReconnectionResend : keeps.

Lemma keeps_findSendOp_loop l id : keeps (findSendOp_loop l id).
Proof. induction l; simpl; keeps_auto. Qed.
Hint Resolve keeps_findSendOp_loop : keeps.

Lemma keeps_isLegitSendAck_loop fr l a b : keeps (isLegitSendAck_loop fr l a b).
Proof. induction l; simpl; keeps_auto. Qed.
Hint Resolve keeps_isLegitSendAck_loop : keeps.

Lemma keeps_resendAllUntil_loop fuel idx a : keeps (resendAllUntil_loop fuel idx a).
Proof.
  revert idx. induction fuel as [|fuel IH]; intros idx; simpl; [by apply keeps_throw|].
  unfold SendOp_forceDupResend. keeps_auto.
Qed.
Hint Resolve keeps_resendAllUntil_loop : keeps.

Lemma keeps_processPublishAckMsg msg id b : keeps (processPublishAckMsg msg id b).
Proof.
  unfold processPublishAckMsg, KeepAliveOp_handle_ProtMessage, findSendOp, isLegitSendAck,
    resendAllUntil. keeps_auto.
Qed.
Hint Resolve keeps_processPublishAckMsg : keeps.

(** ** RecvOp *)

Lemma keeps_RecvOp_restartResponseTimer a : keeps (RecvOp_restartResponseTimer a).
Proof. unfold RecvOp_restartResponseTimer. keeps_auto. Qed.
Lemma keeps_RecvOp_resetTimer a : keeps (RecvOp_resetTimer a).
Proof. unfold RecvOp_resetTimer. keeps_auto. Qed.
Hint Resolve keeps_RecvOp_restartResponseTimer keeps_RecvOp_resetTimer : keeps.

Lemma keeps_RecvOp_postReconnectionResume a : keeps (RecvOp_postReconnectionResume a).
Proof. unfold RecvOp_postReconnectionResume, RecvOp_connectivityChangedImpl. keeps_auto. Qed.
Hint Resolve keeps_RecvOp_postReconnectionResume : keeps.

Lemma keeps_RecvOp_handle_Publish a msg : keeps (RecvOp_handle_Publish a msg).
Proof. unfold RecvOp_handle_Publish, RecvOp_accept, reportMsgInfo. keeps_auto. Qed.
Hint Resolve keeps_RecvOp_handle_Publish : keeps.

Lemma keeps_RecvOp_handle_Pubrel a id fl : keeps (RecvOp_handle_Pubrel a id fl).
Proof. unfold RecvOp_handle_Pubrel. keeps_auto. Qed.
Hint Resolve keeps_RecvOp_handle_Pubrel : keeps.

Lemma keeps_findRecvOp_loop l id : keeps (findRecvOp_loop l id).
Proof. induction l; simpl; keeps_auto. Qed.
Hint Resolve keeps_findRecvOp_loop : keeps.

Lemma keeps_createRecvOp msg : keeps (createRecvOp msg).
Proof.
  apply keeps_alloc; [apply keeps_ret|]. intros a s0 s _ Hc.
  eapply wp_push_then; [done | done | apply keeps_RecvOp_handle_Publish].
Qed.
Hint Resolve keeps_createRecvOp : keeps.

Lemma keeps_ClientImpl_handle_Publish msg : keeps (ClientImpl_handle_Publish msg).
Proof.
  unfold ClientImpl_handle_Publish, KeepAliveOp_handle_ProtMessage, findRecvOp. keeps_auto.
Qed.
Lemma keeps_ClientImpl_handle_Pubrel id fl : keeps (ClientImpl_handle_Pubrel id fl).
Proof.
  unfold ClientImpl_handle_Pubrel, KeepAliveOp_handle_ProtMessage, findRecvOp. keeps_auto.
Qed.
Hint Resolve keeps_ClientImpl_handle_Publish keeps_ClientImpl_handle_Pubrel : keeps.

(** ** SubscribeOp and UnsubscribeOp *)

Lemma keeps_SubscribeOp_configTopic a c : keeps (SubscribeOp_configTopic a c).
Proof. unfold SubscribeOp_configTopic. keeps_auto. Qed.
Lemma keeps_SubscribeOp_restartTimer a : keeps (SubscribeOp_restartTimer a).
Proof. unfold SubscribeOp_restartTimer. keeps_auto. Qed.
Lemma keeps_SubscribeOp_allocPacketId a : keeps (SubscribeOp_allocPacketId a).
Proof. apply (keeps_allocPacketId a su_set_packetId). by intros id []. Qed.
Hint Resolve keeps_SubscribeOp_restartTimer keeps_SubscribeOp_allocPacketId : keeps.

Lemma keeps_SubscribeOp_send a cb : keeps (SubscribeOp_send a cb).
Proof. unfold SubscribeOp_send. keeps_auto. Qed.
Lemma keeps_SubscribeOp_cancel a : keeps (SubscribeOp_cancel a).
Proof. unfold SubscribeOp_cancel. keeps_auto. Qed.

Lemma keeps_suback_loop ts cs acc : keeps (suback_loop ts cs acc).
Proof.
  revert ts acc. induction cs as [|c cs IH]; intros [|[t q] ts] acc; simpl; unfold store_filter;
    keeps_auto.
Qed.
Hint Resolve keeps_suback_loop : keeps.

Lemma keeps_SubscribeOp_handle_Suback a id l : keeps (SubscribeOp_handle_Suback a id l).
Proof. unfold SubscribeOp_handle_Suback. keeps_auto. Qed.
Hint Resolve keeps_SubscribeOp_handle_Suback : keeps.

Lemma keeps_UnsubscribeOp_configTopic a c : keeps (UnsubscribeOp_configTopic a c).
Proof. unfold UnsubscribeOp_configTopic. keeps_auto. Qed.
Lemma keeps_UnsubscribeOp_restartTimer a : keeps (UnsubscribeOp_restartTimer a).
Proof. unfold UnsubscribeOp_restartTimer. keeps_auto. Qed.
Lemma keeps_UnsubscribeOp_allocPacketId a : keeps (UnsubscribeOp_allocPacketId a).
Proof. apply (keeps_allocPacketId a un_set_packetId). by intros id []. Qed.
Hint Resolve keeps_UnsubscribeOp_restartTimer keeps_UnsubscribeOp_allocPacketId : keeps.

Lemma keeps_UnsubscribeOp_send a cb : keeps (UnsubscribeOp_send a cb).
Proof. unfold UnsubscribeOp_send. keeps_auto. Qed.
Lemma keeps_UnsubscribeOp_cancel a : keeps (UnsubscribeOp_cancel a).
Proof. unfold UnsubscribeOp_cancel. keeps_auto. Qed.
Lemma keeps_UnsubscribeOp_handle_Unsuback a id : keeps (UnsubscribeOp_handle_Unsuback a id).
Proof. unfold UnsubscribeOp_handle_Unsuback. keeps_auto. Qed.
Hint Resolve keeps_UnsubscribeOp_handle_Unsuback : keeps.

(** ** ConnectOp and DisconnectOp *)

Lemma keeps_ConnectOp_modifyMsg a f : keeps (ConnectOp_modifyMsg a f).
Proof. by apply keeps_modify_op. Qed.
Lemma keeps_ConnectOp_restartTimer a : keeps (ConnectOp_restartTimer a).
Proof. unfold ConnectOp_restartTimer. keeps_auto. Qed.
Hint Resolve keeps_ConnectOp_modifyMsg keeps_ConnectOp_restartTimer : keeps.

Lemma keeps_ConnectOp_config a c : keeps (ConnectOp_config a c).
Proof. unfold ConnectOp_config. keeps_auto. Qed.
Lemma keeps_ConnectOp_configWill a c : keeps (ConnectOp_configWill a c).
Proof. unfold ConnectOp_configWill. keeps_auto. Qed.
Lemma keeps_ConnectOp_send a cb : keeps (ConnectOp_send a cb).
Proof. unfold ConnectOp_send. keeps_auto. Qed.
Lemma keeps_ConnectOp_cancel a : keeps (ConnectOp_cancel a).
Proof. unfold ConnectOp_cancel. keeps_auto. Qed.

Lemma keeps_createKeepAliveOpIfNeeded : keeps createKeepAliveOpIfNeeded.
Proof.
  intros s Hs. unfold createKeepAliveOpIfNeeded, ObjAllocator_alloc.
  apply wp_bind, wp_gets. case_bool_decide as Hl; [|by apply wp_ret].
  apply wp_bind, wp_bind, wp_gets.
  destruct (alloc_succeeds _ _); [|by apply wp_ret, wp_comms_assert].
  apply wp_bind. eapply wp_mono; [by apply wp_Op_new|]. intros a s1 Hc. apply wp_ret.
  pose proof (wp_push_then _ a s s1 (mret tt) Hc (λ _, Hl) (keeps_ret tt)) as Hp.
  unfold wp, mbind, M_bind in *. by destruct (push_op _ _ _) as [[] ?|].
Qed.
Hint Resolve keeps_createKeepAliveOpIfNeeded : keeps.

Lemma keeps_resumeFrom_loop n i : keeps (resumeFrom_loop n i).
Proof. revert i. induction n; intros i; simpl; keeps_auto. Qed.
Hint Resolve keeps_resumeFrom_loop : keeps.

Lemma keeps_brokerConnected sp : keeps (brokerConnected sp).
Proof. unfold brokerConnected, type_of_ptr. keeps_auto. Qed.
Hint Resolve keeps_brokerConnected : keeps.

Lemma keeps_ConnectOp_handle_Connack a m : keeps (ConnectOp_handle_Connack a m).
Proof. unfold ConnectOp_handle_Connack. keeps_auto. Qed.
Hint Resolve keeps_ConnectOp_handle_Connack : keeps.

Lemma keeps_DisconnectOp_send a : keeps (DisconnectOp_send a).
Proof. unfold DisconnectOp_send. keeps_auto. Qed.
Lemma keeps_DisconnectOp_cancel a : keeps (DisconnectOp_cancel a).
Proof. unfold DisconnectOp_cancel. keeps_auto. Qed.

(** ** ClientImpl *)

Lemma keeps_initInternal : keeps initInternal.
Proof. unfold initInternal. keeps_auto. Qed.
Hint Resolve keeps_initInternal : keeps.

Lemma keeps_connectPrepare : keeps connectPrepare.
Proof.
  unfold connectPrepare, connectPrepare_init, refuse, ops_full.
  apply keeps_bind; [keeps_auto|]. intros _. apply keeps_bind; [keeps_auto|]. intros ec.
  destruct (negb _); [apply keeps_ret|]. intros s Hs.
  apply wp_bind, wp_gets. apply wp_bind, wp_gets.
  case_bool_decide as Hl; [|by apply wp_ret]. simpl.
  destruct (ses_disconnecting _); [by apply wp_ret|].
  destruct (ses_connected _); [by apply wp_ret|]. destruct (at_max_size _ _); [by apply wp_ret|].
  destruct (m_preparationLocked s); [by apply wp_ret|]. by apply wp_finish_prepare.
Qed.

Lemma keeps_disconnectPrepare : keeps disconnectPrepare.
Proof.
  intros s Hs. unfold disconnectPrepare, refuse, ops_full.
  apply wp_bind, wp_gets. apply wp_bind, wp_gets.
  destruct (negb (ses_connected _)); [by apply wp_ret|].
  case_bool_decide as Hl; [|by apply wp_ret]. simpl.
  destruct (ses_disconnecting _); [by apply wp_ret|].
  destruct (m_networkDisconnected _); [by apply wp_ret|].
  destruct (at_max_size _ _); [by apply wp_ret|].
  destruct (m_preparationLocked s); [by apply wp_ret|]. by apply wp_finish_prepare.
Qed.

Lemma keeps_subscribePrepare_of T : is_single T = false → keeps (subscribePrepare_of T).
Proof.
  intros HT. unfold subscribePrepare_of, refuse, ops_full. keeps_auto.
  by apply keeps_finish_prepare.
Qed.

Lemma keeps_publishPrepare : keeps publishPrepare.
Proof.
  unfold publishPrepare, refuse, ops_full.
  apply keeps_bind; [apply keeps_gets|]. intros s. apply keeps_bind; [apply keeps_gets|].
  intros full. destruct (negb _); [apply keeps_ret|].
  destruct (ses_disconnecting _); [apply keeps_ret|].
  destruct (m_networkDisconnected _); [apply keeps_ret|]. destruct full; [apply keeps_ret|].
  apply keeps_alloc; [apply keeps_ret|]. intros a s0 s1 _ Hc.
  destruct (m_preparationLocked s).
  - apply wp_bind. destruct Hc as (Hpd & Hev & _). eapply wp_mono; [by apply wp_Op_destroy|].
    intros _ s2 (Hs2 & Hev2 & _). apply wp_ret. split; [done | by etrans].
  - apply wp_bind, wp_modify.
    apply wp_push_then; [by apply constructed_lock | done | apply keeps_ret].
Qed.

Lemma keeps_dispatch_op msg a : keeps (dispatch_op msg a).
Proof.
  unfold dispatch_op, KeepAliveOp_handle_Pingresp, KeepAliveOp_handle_ProtMessage. keeps_auto.
Qed.
Hint Resolve keeps_dispatch_op : keeps.

Lemma keeps_handle_loop idxs msg : keeps (handle_loop idxs msg).
Proof. induction idxs; simpl; keeps_auto. Qed.
Hint Resolve keeps_handle_loop : keeps.

Lemma keeps_ClientImpl_dispatch msg : keeps (ClientImpl_dispatch msg).
Proof. unfold ClientImpl_dispatch, ClientImpl_handle_ProtMessage. keeps_auto. Qed.
Hint Resolve keeps_ClientImpl_dispatch : keeps.

Lemma keeps_processData_loop fuel rest n : keeps (processData_loop fuel rest n).
Proof.
  revert rest n. induction fuel as [|fuel IH]; intros [|b rest] n; cbn -[Nat.leb];
    keeps_auto.
Qed.
Hint Resolve keeps_processData_loop : keeps.

Lemma keeps_processData buf : keeps (processData buf).
Proof. unfold processData. keeps_auto. Qed.
Lemma keeps_notifyNetworkDisconnected : keeps notifyNetworkDisconnected.
Proof. unfold notifyNetworkDisconnected. keeps_auto. Qed.
Lemma keeps_ClientImpl_destroy : keeps ClientImpl_destroy.
Proof. unfold ClientImpl_destroy. keeps_auto. Qed.

Lemma keeps_Op_setResponseTimeout a ms : keeps (Op_setResponseTimeout a ms).
Proof.
  intros s Hs. unfold Op_setResponseTimeout. apply wp_bind, wp_get_base; [done|].
  intros o Ha. apply wp_modify, core_inv; [|done]. unfold core. do 8 f_equal.
  unfold shapes. simpl. rewrite fmap_insert. simpl. apply insert_id.
  by rewrite lookup_fmap, Ha.
Qed.

Lemma keeps_ignore {A} (m : M ClientImpl A) : keeps m → keeps (ignore m).
Proof. intros Hm. unfold ignore. keeps_auto. Qed.

Lemma keeps_setters :
  (∀ ms, keeps (client_set_default_response_timeout ms)) ∧
  (∀ b, keeps (client_set_verify_outgoing_topic_enabled b)) ∧
  (∀ b, keeps (client_set_verify_incoming_topic_enabled b)) ∧
  (∀ b, keeps (client_set_verify_incoming_msg_subscribed b)) ∧
  (∀ o, keeps (setPublishOrdering o)) ∧ (∀ cbs, keeps (set_client_callbacks cbs)).
Proof.
  split_and!; intros x; unfold client_set_default_response_timeout,
    client_set_verify_outgoing_topic_enabled, client_set_verify_incoming_topic_enabled,
    client_set_verify_incoming_msg_subscribed, setPublishOrdering, set_client_callbacks;
    keeps_auto.
Qed.

Lemma keeps_run_request r : keeps (run_request r).
Proof.
  destruct keeps_setters as (? & ? & ? & ? & ? & ?).
  destruct r; simpl; unfold subscribePrepare, unsubscribePrepare; try apply keeps_ignore;
    auto using keeps_ClientImpl_tick, keeps_processData, keeps_notifyNetworkDisconnected,
      keeps_Op_setResponseTimeout, keeps_connectPrepare, keeps_ConnectOp_config,
      keeps_ConnectOp_configWill, keeps_ConnectOp_send, keeps_ConnectOp_cancel,
      keeps_disconnectPrepare, keeps_DisconnectOp_send, keeps_DisconnectOp_cancel,
      keeps_subscribePrepare_of, keeps_SubscribeOp_configTopic, keeps_SubscribeOp_send,
      keeps_SubscribeOp_cancel, keeps_UnsubscribeOp_configTopic, keeps_UnsubscribeOp_send,
      keeps_UnsubscribeOp_cancel, keeps_publishPrepare, keeps_SendOp_config,
      keeps_SendOp_setResendAttempts, keeps_SendOp_send, keeps_SendOp_cancel,
      keeps_ClientImpl_destroy.
Qed.
End Preservation.

(** ** Scripted applications and reachable states *)

Section reachable.
  Context `{Config} `{CommsLib} `{!CommsLaws} `{Script}.

#[export] Instance scripted_contract depth : AppContract (H0 := scripted depth).
Proof.
  induction depth as [|depth IH]; intros e; simpl; [apply keeps_ret|].
  apply keeps_bind; [apply keeps_gets|]. intros rs. apply keeps_mapM_. intros r.
  by apply (keeps_run_request (H2 := scripted depth)).
Qed.

Lemma run_request_keeps depth r s s' :
  Inv s → run_request (H1 := scripted depth) r s = Ok tt s' → Inv s' ∧ evolves s s'.
Proof.
  intros Hs Hr. pose proof (keeps_run_request (H2 := scripted depth) r s Hs) as Hk.
  unfold wp in Hk. by rewrite Hr in Hk.
Qed.

Lemma reachable_Inv depth s : reachable depth s → Inv s.
Proof.
  induction 1 as [|s r s' _ IH Hr]; [apply Inv_new|]. by apply (run_request_keeps _ _ _ _ IH Hr).
Qed.

Lemma reachable_run depth rs s s' :
  reachable depth s → run_requests (H1 := scripted depth) rs s = Ok tt s' → reachable depth s'.
Proof.
  unfold run_requests. revert s.
  induction rs as [|r rs IH]; intros s Hs; simpl; [by intros [= <-]|].
  unfold mbind, M_bind. destruct (run_request (H1 := scripted depth) r s) as [[] s1|] eqn:Hr; [|done].
  intros Hrs. apply (IH s1); [|done]. by eapply reachable_step.
Qed.
End reachable.
