(* ===== verification/Scenarios.v ===== *)
(** * Concrete instances

    A small protocol library, an application that never calls the client from a
    callback, and runs of the client with them: the inputs at which the theorems
    of the development are instantiated.  The library reads the acknowledgements
    and the QoS 0 to 2 publishes of MQTT (remaining lengths below 128) and writes
    an empty buffer. *)

From S2P Require Import Prelude Config Protocol Topic PacketId TimerMgr State Lifecycle.
From S2P Require Import Completion Session SendOp RecvOp SubscribeOp ConnectOp Client.

Definition byte_Z (b : byte) : Z := Z.of_N (Byte.to_N b).

Definition be16 (hi lo : byte) : Z := (byte_Z hi * 256 + byte_Z lo)%Z.

Definition decode_publish (flags : Z) (body : bytes) : option ProtMessage :=
  match body with
  | hi :: lo :: rest =>
      let n := Z.to_nat (be16 hi lo) in
      let topic := String.string_of_list_byte (take n rest) in
      let qos := (flags / 2 mod 4)%Z in
      let msg id payload := MPublish {|
        pub_dup := (8 <=? flags)%Z; pub_qos := qos; pub_retain := Z.odd flags;
        pub_topic := topic; pub_packetIdExists := (0 <? qos)%Z; pub_packetId := id;
        pub_payload := payload |} in
      match (0 <? qos)%Z, drop n rest with
      | false, payload => Some (msg 0%Z payload)
      | true, ihi :: ilo :: payload => Some (msg (be16 ihi ilo) payload)
      | _, _ => None
      end
  | _ => None
  end.

Definition decode (header : byte) (body : bytes) : option ProtMessage :=
  let h := byte_Z header in
  match (h / 16)%Z, body with
  | 2%Z, [sp; rc] => Some (MConnack {| cak_sp := (0 <? byte_Z sp)%Z; cak_returnCode := byte_Z rc |})
  | 3%Z, _ => decode_publish (h mod 16) body
  | 4%Z, [hi; lo] => Some (MPuback (be16 hi lo))
  | 5%Z, [hi; lo] => Some (MPubrec (be16 hi lo))
  | 6%Z, [hi; lo] => Some (MPubrel (be16 hi lo) (h mod 16))
  | 7%Z, [hi; lo] => Some (MPubcomp (be16 hi lo))
  | 9%Z, hi :: lo :: codes => Some (MSuback (be16 hi lo) (byte_Z <$> codes))
  | 11%Z, [hi; lo] => Some (MUnsuback (be16 hi lo))
  | 13%Z, [] => Some MPingresp
  | _, _ => None
  end.

Definition example_frame_read (buf : bytes) : FrameRead :=
  match buf with
  | h :: l :: rest =>
      let n := Z.to_nat (byte_Z l) in
      if length rest <? n then FR_NotEnoughData
      else match decode h (take n rest) with
           | Some msg => FR_Success msg (2 + n)
           | None => FR_Error
           end
  | _ => FR_NotEnoughData
  end.

Definition ExampleComms : CommsLib := {|
  idAndFlags_minLength := 1;
  size_read := λ buf, match buf with [] => ES_NotEnoughData | _ => ES_Success end;
  frame_read := example_frame_read;
  frame_length := λ _, 2;
  frame_write := λ _, Some [];
  connect_doRefresh := λ m, m;
  publish_doRefresh := λ m, pub_set_packetIdExists (0 <? pub_qos m)%Z m;
  pubrel_doValid := λ flags, (flags =? 2)%Z;
  pubrel_flags := 2;
  alloc_succeeds := λ limit live, (limit =? 0) || (live <? limit);
  assign_string := λ s, s;
  assign_bytes := λ l, l;
  subscribe_list_max := None;
  unsubscribe_list_max := None;
  suback_list_max := None;
|}.

Lemma ExampleComms_laws : CommsLaws (H := ExampleComms).
Proof.
  split; [|done].
  intros [|h [|l rest]] msg n; simpl; try done.
  destruct (Nat.ltb_spec (length rest) (Z.to_nat (byte_Z l))); [done|].
  destruct (decode _ _); [|done]. intros [= <- <-]. lia.
Qed.

(** No request from any callback; 10 ms elapse at every cancelled wait. *)
Definition QuietApp : App := {|
  app_react := λ _, mret tt;
  app_elapsed := λ _, 10%Z;
  app_fuel := 0;
|}.

(** ** Requests of the examples *)

Definition connect_config : CC_Mqtt311ConnectConfig := {|
  cc_clientId := Some "id"; cc_username := None; cc_password := None;
  cc_passwordLen := 0; cc_keepAlive := 60; cc_cleanSession := true |}.

Definition reconnect_config : CC_Mqtt311ConnectConfig := {|
  cc_clientId := Some "id"; cc_username := None; cc_password := None;
  cc_passwordLen := 0; cc_keepAlive := 60; cc_cleanSession := false |}.

Definition publish_config (qos : Z) : CC_Mqtt311PublishConfig := {|
  pc_topic := Some "t"; pc_data := None; pc_dataLen := 0; pc_qos := qos;
  pc_retain := false |}.

Definition rq_connect (op : addr) (config : CC_Mqtt311ConnectConfig) : list Request :=
  [RqConnectPrepare; RqConnectConfig op config; RqConnectSend op (Some 1)].

Definition rq_connack (sp : bool) : Request :=
  RqProcessData ([x20; x02; (if sp then x01 else x00); x00])%byte.

(** The first operation is the connect, at address 1; the keep alive operation is
    at address 2. *)
Definition rq_session : list Request :=
  RqSetCallbacks Callbacks_all :: rq_connect 1 connect_config ++ [rq_connack false].

Definition rq_publish (op : addr) (qos : Z) : list Request :=
  [RqPublishPrepare; RqPublishConfig op (publish_config qos); RqPublishSend op (Some op)].

Section run.
  Context (C : Config).
Let run := run_requests (H := C) (H0 := ExampleComms) (H1 := QuietApp).

Definition run_new (rs : list Request) : result ClientImpl unit :=
run rs (ClientImpl_new (H := C)).

Definition state_of (r : result ClientImpl unit) : ClientImpl :=
match r with
| Ok _ s => s
| Fault _ => ClientImpl_new (H := C)
end.

Definition fault_of (r : result ClientImpl unit) : option fault :=
match r with
| Ok _ _ => None
| Fault f => Some f
end.

End run.
