(* ===== verification/Filters.v ===== *)
(** * The confirmed topic filters

    What [SubscribeOp::handle(SubackMsg&)] and [UnsubscribeOp::handle(UnsubackMsg&)]
    (client/lib/src/op/SubscribeOp.cpp, client/lib/src/op/UnsubscribeOp.cpp) do to
    the list of confirmed filters, as a set, and which SUBACKs are accepted. *)

From S2P Require Import Prelude SortedVec Config Protocol Topic PacketId TimerMgr State.
From S2P Require Import Lifecycle Completion Session SendOp RecvOp SubscribeOp ConnectOp.
From S2P Require Import Client Scenarios.

(** ** Specification *)

(** A return code that answers a request of QoS [reqQos]: a failure, or a granted
    QoS that is not above the requested one. *)
Definition grants (reqQos rc : Z) : Prop :=
  rc = SubscribeReturnCode_Failure ∨ (0 ≤ rc ≤ 2 ∧ rc ≤ reqQos)%Z.

(** The filters of the topics that a SUBACK confirms. *)
Fixpoint confirmed (topics : list (string * Z)) (codes : list Z) : list string :=
  match topics, codes with
  | (topic, _) :: topics', rc :: codes' =>
      if (rc <=? SubscribeReturnCode_SuccessQos2)%Z then topic :: confirmed topics' codes'
      else confirmed topics' codes'
  | _, _ => []
  end.

Section Filters.
  Context `{Config} `{CommsLib} `{App}.

(** The filters are recorded: the feature is compiled in and enabled. *)
Definition records_filters (s : ClientImpl) : bool :=
  HasSubTopicVerification && cfg_verifySubFilter (m_configState s).

(** The list of filters is in order and within its storage. *)
Definition filters_ok (l : list string) : Prop :=
  sorted l ∧ ∀ k, filters_capacity = Some k → length l ≤ k.

(** What the list of filters [l'] is after the filters [add] were recorded in [l]. *)
Definition filters_added (l l' add : list string) : Prop :=
  filters_ok l' ∧ ∀ f, f ∈ l' ↔ f ∈ l ∨ f ∈ add.

End Filters.

(** ** Lemmas *)

Section lemmas.
  Context `{Config} `{CommsLib} `{App}.

Lemma filters_found_spec l x : sorted l → filters_found l x = bool_decide (x ∈ l).
Proof. intros Hs. unfold filters_found. apply bool_decide_ext, lower_bound_lookup, Hs. Qed.

Lemma returnCode_grants reqQos rc : returnCode_ok reqQos rc = true ↔ grants reqQos rc.
Proof.
  unfold returnCode_ok, grants, SubscribeReturnCode_SuccessQos2, SubscribeReturnCode_SuccessQos0,
    SubscribeReturnCode_Failure.
  destruct (Z.ltb_spec 2 rc), (Z.eqb_spec rc 128); simpl; try lia;
    destruct (Z.leb_spec 0 rc), (Z.leb_spec rc 2); simpl; try lia;
    destruct (Z.ltb_spec reqQos (rc - 0)); simpl; split; (lia || naive_solver lia).
Qed.

(** [store_filter] records one filter, or leaves the full list alone. *)
Lemma store_filter_spec topic s :
  filters_ok (subFilters s) →
  wp no_fault (store_filter topic) (λ stored s',
    s' = set_subFilters (subFilters s') s ∧
    if stored then filters_added (subFilters s) (subFilters s') [topic]
    else s' = s ∧ (topic ∉ subFilters s) ∧ filters_capacity = Some (length (subFilters s))) s.
Proof.
  intros [Hs Hlen]. unfold store_filter. apply wp_bind, wp_gets.
  rewrite filters_found_spec by done. case_bool_decide as Hin.
  { apply wp_ret. split; [by destruct s as [? ? ? ? [] ]|]. split; [done|]. set_solver. }
  destruct (at_max_size _ _) eqn:Hmax; unfold at_max_size in Hmax.
  - apply wp_ret. split; [by destruct s as [? ? ? ? [] ]|]. split_and!; [done|done|].
    destruct filters_capacity as [k|] eqn:Hk; [|done]. specialize (Hlen k eq_refl).
    f_equal. apply Nat.leb_le in Hmax. lia.
  - apply wp_bind, wp_modify, wp_ret. split; [done|]. split; [split|].
    + by apply insert_at_sorted.
    + intros k Hk. rewrite Hk in Hmax. apply Nat.leb_gt in Hmax.
      unfold subFilters, set_subFilters. simpl. rewrite length_insert_at. exact Hmax.
    + intros f. unfold subFilters at 1, set_subFilters. simpl.
      rewrite elem_of_insert_at, list_elem_of_singleton. tauto.
Qed.

Lemma subFilters_set l s : subFilters (set_subFilters l s) = l.
Proof. done. Qed.

Lemma records_set l s : records_filters (set_subFilters l s) = records_filters s.
Proof. done. Qed.

Lemma filters_added_trans l1 l2 l3 add1 add2 :
  filters_added l1 l2 add1 → filters_added l2 l3 add2 → filters_added l1 l3 (add1 ++ add2).
Proof. intros [_ Ha] [? Hb]. split; [done|]. intros f. rewrite Hb, Ha, elem_of_app. tauto. Qed.

(** What the loop over the return codes ends with, from the codes accumulated. *)
Definition suback_outcome (topics : list (string * Z)) (codes acc : list Z) (s : ClientImpl)
    (r : SubackResult) (s' : ClientImpl) : Prop :=
  s' = set_subFilters (subFilters s') s ∧ filters_ok (subFilters s') ∧
  match r with
  | SR_Codes rcs =>
      rcs = acc ++ codes ∧ Forall2 (λ t rc, grants (snd t) rc) topics codes ∧
      ∀ f, f ∈ subFilters s' ↔
        f ∈ subFilters s ∨ (records_filters s = true ∧ f ∈ confirmed topics codes)
  | SR_Status AsyncOpStatus_ProtocolError =>
      ¬ Forall2 (λ t rc, grants (snd t) rc) topics codes
  | SR_Status AsyncOpStatus_InternalError =>
      (∃ k, suback_list_max = Some k ∧ k < length (acc ++ codes)) ∨
      (records_filters s = true ∧ filters_capacity = Some (length (subFilters s')))
  | SR_Status _ => False
  end.

Lemma suback_loop_step t rc topics codes acc s s1 r s' :
  suback_outcome topics codes (acc ++ [rc]) s1 r s' →
  s1 = set_subFilters (subFilters s1) s → grants (snd t) rc →
  (∀ f, f ∈ subFilters s1 ↔
    f ∈ subFilters s ∨ (records_filters s = true ∧ f ∈ confirmed [t] [rc])) →
  suback_outcome (t :: topics) (rc :: codes) acc s r s'.
Proof.
  intros (Hs' & Hok & Hr) Hs1 Hg Hadd. split; [|split; [done|]].
  { rewrite Hs' at 1. rewrite Hs1 at 1. by destruct s. }
  assert (records_filters s1 = records_filters s) as Hrec by (by rewrite Hs1).
  rewrite Hrec in Hr.
  assert (∀ f, f ∈ confirmed (t :: topics) (rc :: codes) ↔
    f ∈ confirmed [t] [rc] ∨ f ∈ confirmed topics codes) as Hc.
  { intros f. destruct t as [topic q]. simpl. destruct (rc <=? _)%Z; set_solver. }
  destruct r as [rcs|[]]; try done.
  - destruct Hr as (-> & Hall & Hel). split; [by rewrite <- app_assoc|].
    split; [by constructor|]. intros f. rewrite Hel, Hadd, Hc. tauto.
  - rewrite <- app_assoc in Hr. done.
  - intros Hall. apply Hr. by inversion Hall.
Qed.

Lemma suback_loop_spec topics codes acc s :
  filters_ok (subFilters s) → length topics = length codes →
  wp no_fault (suback_loop topics codes acc) (suback_outcome topics codes acc s) s.
Proof.
  revert codes acc s. induction topics as [|[topic reqQos] topics IH];
    intros [|rc codes] acc s Hok Hlen; try done; simpl.
  { apply wp_ret. split; [by destruct s as [? ? ? ? []]|]. split; [done|].
    rewrite app_nil_r. split; [done|]. split; [by constructor|]. set_solver. }
  destruct (at_max_size suback_list_max (length acc)) eqn:Hmax.
  { apply wp_ret. split; [by destruct s as [? ? ? ? []]|]. split; [done|]. left.
    unfold at_max_size in Hmax. destruct suback_list_max as [k|]; [|done]. exists k.
    split; [done|]. apply Nat.leb_le in Hmax. rewrite length_app. simpl. lia. }
  destruct (returnCode_ok reqQos rc) eqn:Hrc; simpl.
  2:{ apply wp_ret. split; [by destruct s as [? ? ? ? []]|]. split; [done|]. intros Hall.
      inversion Hall; subst. simpl in *.
      assert (returnCode_ok reqQos rc = true) by (by apply returnCode_grants). congruence. }
  apply returnCode_grants in Hrc. apply wp_bind, wp_gets. simpl.
  destruct (HasSubTopicVerification && _) eqn:Hrec; simpl; fold (records_filters s) in Hrec.
  2:{ eapply wp_mono; [by apply IH; [|injection Hlen]|]. intros r s' Hr.
      eapply suback_loop_step; [exact Hr | by destruct s as [? ? ? ? []] | done|].
      rewrite Hrec. naive_solver. }
  destruct (Z.ltb_spec SubscribeReturnCode_SuccessQos2 rc) as [Hf|Hf]; simpl.
  - eapply wp_mono; [by apply IH; [|injection Hlen]|]. intros r s' Hr.
    eapply suback_loop_step; [exact Hr | by destruct s as [? ? ? ? []] | done|].
    intros f. simpl. destruct (Z.leb_spec rc SubscribeReturnCode_SuccessQos2); [lia|]. set_solver.
  - apply wp_bind. eapply wp_mono; [by apply store_filter_spec|]. intros stored s1 [Hs1 Hst].
    destruct stored.
    + destruct Hst as [Hok1 Hel]. eapply wp_mono; [by apply IH; [|injection Hlen]|].
      intros r s' Hr. eapply suback_loop_step; [exact Hr | done | done|].
      intros f. rewrite Hel. simpl.
      destruct (Z.leb_spec rc SubscribeReturnCode_SuccessQos2); [|lia]. naive_solver.
    + destruct Hst as (-> & _ & Hk). apply wp_ret.
      split; [by destruct s as [? ? ? ? []]|]. split; [done|]. right. by rewrite Hrec.
Qed.

Lemma remove_filter_spec l topic :
  filters_ok l → filters_ok (remove_filter l topic) ∧
  ∀ f, f ∈ remove_filter l topic ↔ f ∈ l ∧ f ≠ topic.
Proof.
  intros [Hs Hlen]. unfold remove_filter. rewrite filters_found_spec by done.
  case_bool_decide as Hin.
  - destruct (erase_at_sorted l topic Hs Hin) as [Hs' Hel]. split; [split|]; [done| |done].
    intros k Hk. specialize (Hlen k Hk). unfold erase_at.
    rewrite length_app, length_take, length_drop. lia.
  - split; [done|]. set_solver.
Qed.

Lemma remove_filters_spec l topics :
  filters_ok l → filters_ok (foldl remove_filter l topics) ∧
  ∀ f, f ∈ foldl remove_filter l topics ↔ f ∈ l ∧ f ∉ topics.
Proof.
  revert l. induction topics as [|topic topics IH]; intros l Hok; simpl.
  { split; [done|]. set_solver. }
  destruct (remove_filter_spec l topic Hok) as [Hok1 Hel1].
  destruct (IH _ Hok1) as [Hok2 Hel2]. split; [done|]. intros f.
  rewrite Hel2, Hel1, elem_of_cons. tauto.
Qed.
End lemmas.

(** ** Properties *)

Section properties.
  Context `{Config} `{CommsLib} `{App}.


(** an UNSUBACK removes exactly the filters of the request from the
    recorded ones, and the list stays in order; in particular subscribing to new
    filters and unsubscribing from them restores the list. *)
Theorem unsuback_removes l l' topics :
  filters_ok l → filters_added l l' topics → (∀ f, f ∈ topics → f ∉ l) →
  foldl remove_filter l' topics = l ∧ filters_ok (foldl remove_filter l topics) ∧
  ∀ f, f ∈ foldl remove_filter l topics ↔ f ∈ l ∧ f ∉ topics.
Proof.
  intros Hok [Hok' Hadd] Hnew. split; [|by apply remove_filters_spec].
  destruct (remove_filters_spec l' topics Hok') as [[Hs _] Hel].
  apply sorted_ext; [done | apply Hok|]. intros f. rewrite Hel, Hadd.
  specialize (Hnew f). tauto.
Qed.
End properties.

(** ** Witnesses *)

Lemma example_filters_ok (l : list string) : sorted l → filters_ok (H := DefaultConfig) l.
Proof. intros Hs. by split. Defined.

Definition recording_state : ClientImpl :=
  set_subFilters ["a/#"; "c"] (ClientImpl_new (H := DefaultConfig)).


Example unsuback_removes_witness :
  filters_added (H := DefaultConfig) ["a"; "c"] ["a"; "b"; "c"] ["b"] ∧
  foldl remove_filter ["a"; "b"; "c"] ["b"] = ["a"; "c"].
Proof.
  assert (filters_added (H := DefaultConfig) ["a"; "c"] ["a"; "b"; "c"] ["b"]) as Hadd.
  { split; [apply example_filters_ok; repeat constructor|]. intros f.
    rewrite !elem_of_cons, elem_of_nil. tauto. }
  split; [exact Hadd|].
  apply (unsuback_removes (H := DefaultConfig) ["a"; "c"] ["a"; "b"; "c"] ["b"]);
    [apply example_filters_ok; repeat constructor | exact Hadd|].
  intros f ->%list_elem_of_singleton. rewrite !elem_of_cons, elem_of_nil.
  intros [|[|[]]]; discriminate.
Defined.
