(* ===== verification/Requests.v ===== *)
(** * What every request keeps, and that it returns

    Two instances of [Frame]: the list of confirmed filters and the list of packet
    identifiers stay in order, whatever the application does in its callbacks, so
    that the binary searches in them are right in every reachable state; and, when
    the application does not call the client from its callbacks, no bound of the
    model is exceeded: every loop and recursion of the library ends. *)

From S2P Require Import Prelude SortedVec Config Protocol Topic PacketId TimerMgr State.
From S2P Require Import Lifecycle Completion Session SendOp RecvOp SubscribeOp ConnectOp.
From S2P Require Import Client Termination Frame Preservation Scenarios Filters.

(** The lists of filters and of packet identifiers are in order. *)
Definition vectors_ok `{Config} (s : ClientImpl) : Prop :=
  filters_ok (subFilters s) ∧ packetIds_ok (m_allocatedPacketIds (m_clientState s)).

Definition vectors_contract `{Config} (F : fault → Prop) : Contract ClientImpl := {|
  ct_inv := vectors_ok;
  ct_rel := λ _ _, True;
  ct_faults := F;
  ct_pre := any_step_preorder;
|}.

Definition ids_contract (F : fault → Prop) : Contract ClientState := {|
  ct_inv := λ s, packetIds_ok (m_allocatedPacketIds s);
  ct_rel := λ _ _, True;
  ct_faults := F;
  ct_pre := any_step_preorder;
|}.

Lemma filters_ok_nil `{Config} : filters_ok [].
Proof. split; [constructor | simpl; lia]. Qed.

Section vectors.
  Context `{Config} `{CommsLib} `{App} (F : fault → Prop) (HF : ∀ f, f ≠ FFuel → F f).
Abbreviation vkeeps := (keeps (Contract0 := vectors_contract F)).
  Context (Happ : ∀ e, vkeeps (app_react e)).

Lemma vkeeps_modify f :
  (∀ s, m_reuseState (f s) = m_reuseState s) → (∀ s, m_clientState (f s) = m_clientState s) →
  vkeeps (modify f).
Proof.
  intros Hr Hc. apply keeps_modify. intros s [Hs Hi]. split; [|done].
  split; [unfold subFilters; by rewrite Hr | by rewrite Hc].
Qed.

Lemma vkeeps_on_clientState {A} (m : M ClientState A) :
  keeps (Contract0 := ids_contract F) m → vkeeps (on_clientState m).
Proof.
  intros Hm s [Hs Hi]. apply wp_zoom. eapply wp_mono; [by apply Hm|].
  intros a t [Ht _]. by split.
Qed.

Lemma ids_modify f :
  (∀ s, m_allocatedPacketIds (f s) = m_allocatedPacketIds s) →
  keeps (Contract0 := ids_contract F) (modify f).
Proof. intros Hf. apply keeps_modify. intros s Hs. simpl. by rewrite Hf. Qed.

Lemma ids_allocPacketId : keeps (Contract0 := ids_contract F) allocPacketId.
Proof.
  intros s Hs. unfold wp.
  destruct (allocPacketId_cases s Hs) as [[_ ->] | (_ & ids & id & k & -> & Hok & _)]; done.
Qed.

Lemma ids_releasePacketId id : keeps (Contract0 := ids_contract F) (releasePacketId id).
Proof.
  intros s Hs. unfold releasePacketId. destruct (_ =? 0)%Z; [done|]. apply wp_bind, wp_gets.
  destruct (_ !! _) as [x|] eqn:Hx; [|by apply wp_comms_assert; [apply HF|]].
  destruct (Z.eqb_spec x id) as [->|]; [|by apply wp_comms_assert; [apply HF|]].
  apply wp_modify. split; [|done]. apply erase_lower_bound_ok; [done|].
  by eapply list_elem_of_lookup_2.
Qed.

Lemma vkeeps_store_filter topic : vkeeps (store_filter topic).
Proof.
  intros s [Hs Hi]. apply (wp_faults no_fault); [|done].
  eapply wp_mono; [by apply store_filter_spec|]. intros stored s' [-> Hst].
  split; [|done]. split; [|done]. destruct stored; [by destruct Hst | by destruct Hst as [-> _]].
Qed.

#[export] Instance vectors_stable : Stable (vectors_contract F).
Proof.
  split.
  - done.
  - intros f Hr Hc _ _. by apply vkeeps_modify.
  - intros e _. apply keeps_bind; [by apply vkeeps_modify | done].
  - intros A m Hm. apply plain_zoom; [|done]. intros s Hs.
    apply (wp_faults not_fuel); [by apply Hm | done].
  - intros f Hf _. by apply vkeeps_on_clientState, ids_modify.
  - apply vkeeps_on_clientState, ids_allocPacketId.
  - intros id. apply vkeeps_on_clientState, ids_releasePacketId.
  - apply vkeeps_store_filter.
  - intros topics. apply keeps_modify. intros s [Hs Hi]. split; [|done].
    split; [by apply remove_filters_spec | done].
  - apply keeps_modify. intros s [_ Hi]. split; [|done]. split; [apply filters_ok_nil | done].
Qed.

Lemma vkeeps_report info : vkeeps (reportMsgInfo info).
Proof.
  unfold reportMsgInfo, must_callback, callback. keeps_auto;
    [apply keeps_comms_assert | apply vkeeps_modify | apply keeps_throw]; by try apply HF.
Qed.
End vectors.

(** ** Reachable states *)

Section reachable.
  Context `{Config} `{CommsLib} `{Script}.

Lemma vectors_ok_new : vectors_ok ClientImpl_new.
Proof. split; [apply filters_ok_nil | apply packetIds_ok_nil]. Qed.

(** With any application that keeps the vectors in order. *)
Lemma run_request_vectors `{App} r :
  (∀ e, keeps (Contract0 := vectors_contract any_fault) (app_react e)) →
  keeps (Contract0 := vectors_contract any_fault) (run_request r).
Proof.
  intros Happ. pose proof (vectors_stable any_fault (λ _ _, I) Happ) as HC.
  assert (∀ idx, keeps (Contract0 := vectors_contract any_fault) (resumeSendOpsSince idx))
    as Hresume by (intros; by apply (fkeeps_resumeSendOpsSince_bound (vectors_contract any_fault))).
  apply (stable_run_request (vectors_contract any_fault)); [done | | | | by left].
  - intros a. by apply (fkeeps_resendAllUntil_bound (vectors_contract any_fault)).
  - by apply vkeeps_report.
  - intros b. by apply vkeeps_on_clientState, ids_modify.
Qed.

Lemma scripted_vectors depth e :
  keeps (Contract0 := vectors_contract any_fault) (app_react (App := scripted depth) e).
Proof.
  revert e. induction depth as [|depth IH]; intros e; simpl; [apply keeps_ret|].
  apply keeps_bind; [apply keeps_gets|]. intros rs. apply keeps_mapM_. intros r.
  by apply run_request_vectors.
Qed.

(** C27: in every reachable state the list of confirmed filters is sorted without
    duplicates and within its storage, so that the binary search of the handlers
    of SUBACK, UNSUBACK and of the configuration of an unsubscribe finds a filter
    if and only if it was confirmed. *)
Theorem reachable_filters_sorted depth s :
  reachable depth s →
  filters_ok (subFilters s) ∧ NoDup (subFilters s) ∧
  ∀ f, filters_found (subFilters s) f = bool_decide (f ∈ subFilters s).
Proof.
  intros Hr. assert (vectors_ok s) as [Hok _].
  { induction Hr as [|s r s' _ IH Hstep]; [apply vectors_ok_new|].
    pose proof (run_request_vectors (H2 := scripted depth) r (scripted_vectors depth) s IH) as Hk.
    unfold wp in Hk. rewrite Hstep in Hk. apply Hk. }
  split; [done|]. destruct Hok as [Hs _]. split; [by apply sorted_nodup|].
  intros f. by apply filters_found_spec.
Qed.
End reachable.

(** ** Termination *)

Section termination.
  Context `{Config} `{CommsLib} `{!CommsLaws} `{App}.
  Context (Hquiet : ∀ e s, app_react e s = Ok tt s).

Lemma quiet_vectors F e : keeps (Contract0 := vectors_contract F) (app_react e).
Proof. intros s Hs. unfold wp. by rewrite Hquiet. Qed.

(** Two facts about the same run. *)
Lemma keeps_not_fuel {A} (m : M ClientImpl A) :
  keeps (Contract0 := vectors_contract any_fault) m →
  (∀ s, wp not_fuel m (λ _ s', shrinks s s') s) →
  keeps (Contract0 := vectors_contract not_fuel) m.
Proof.
  intros Hm Hf s Hs. specialize (Hm s Hs). specialize (Hf s). unfold wp in *.
  by destruct (m s).
Qed.

Lemma run_request_returns r : keeps (Contract0 := vectors_contract not_fuel) (run_request r).
Proof.
  pose proof (vectors_stable any_fault (λ _ _, I) (quiet_vectors any_fault)) as HC.
  pose proof (vectors_stable not_fuel (λ _ Hf, Hf) (quiet_vectors not_fuel)) as HC'.
  assert (∀ idx, keeps (Contract0 := vectors_contract any_fault) (resumeSendOpsSince idx))
    as Hresume by (intros; by apply (fkeeps_resumeSendOpsSince_bound (vectors_contract any_fault))).
  apply (stable_run_request (vectors_contract not_fuel)).
  - intros idx. apply keeps_not_fuel; [done|]. by apply wp_resumeSendOpsSince.
  - intros a. apply keeps_not_fuel; [by apply (fkeeps_resendAllUntil_bound (vectors_contract any_fault))|].
    by apply wp_resendAllUntil.
  - apply vkeeps_report; [done | apply quiet_vectors].
  - intros b. by apply vkeeps_on_clientState, ids_modify.
  - right. apply frame_read_consumes.
Qed.

(** C2: for an application that does not call the client from its callbacks, no
    sequence of requests on a new client runs out of the fuel of a loop or
    recursion: every call of the library returns, or stops at an undefined
    behaviour that the model names.  The bounds of the model are those of
    [resumeSendOpsSince], [resendAllUntil], [processData] and [allocPacketId]. *)
Theorem runs_terminate rs : run_requests rs ClientImpl_new ≠ Fault FFuel.
Proof.
  assert (keeps (Contract0 := vectors_contract not_fuel) (run_requests rs)) as Hk.
  { apply keeps_mapM_. intros r. apply run_request_returns. }
  pose proof (Hk ClientImpl_new vectors_ok_new) as Hw. unfold wp in Hw.
  by intros Heq; rewrite Heq in Hw.
Qed.
End termination.

(** ** Witness *)

(** Two filters are confirmed in the order "t", "a/+". *)
Definition sub_config (topic : string) : CC_Mqtt311SubscribeTopicConfig :=
  {| st_topic := Some topic; st_maxQos := 2 |}.

Definition SilentScript : Script :=
  {| script_react := λ _, []; script_elapsed := λ _, 10%Z; script_fuel := 0 |}.

Definition subscribed_requests : list Request :=
  rq_session ++ [RqSubscribePrepare; RqSubscribeConfigTopic 3 (sub_config "t");
    RqSubscribeConfigTopic 3 (sub_config "a/+"); RqSubscribeSend 3 (Some 3);
    RqProcessData [x90; x04; x00; x01; x02; x01]%byte].

Definition subscribed_run : result ClientImpl unit :=
  run_requests (H := DefaultConfig) (H0 := ExampleComms)
    (H1 := scripted (H := DefaultConfig) (H0 := ExampleComms) (H1 := SilentScript) 1)
    subscribed_requests (ClientImpl_new (H := DefaultConfig)).

Definition subscribed_state : ClientImpl := state_of DefaultConfig subscribed_run.

Example reachable_filters_sorted_witness :
  subFilters subscribed_state = ["a/+"; "t"] ∧
  ∀ f, filters_found (subFilters subscribed_state) f =
       bool_decide (f ∈ subFilters subscribed_state).
Proof.
  split; [vm_compute; reflexivity|].
  refine (proj2 (proj2 (reachable_filters_sorted (H := DefaultConfig) (H0 := ExampleComms)
    (H1 := SilentScript) 1 subscribed_state _))).
  apply (reachable_run (H := DefaultConfig) (H0 := ExampleComms) 1 subscribed_requests
    (ClientImpl_new (H := DefaultConfig)));
    [apply (reachable_new (H := DefaultConfig) (H0 := ExampleComms)) | vm_compute; reflexivity].
Defined.

(** Two publishes of QoS 0 wait for one of QoS 2; its completion resumes them. *)
Definition resumed_requests : list Request :=
  [RqSetCallbacks Callbacks_all; RqSetPublishOrdering PublishOrdering_Full] ++
  rq_connect 1 connect_config ++ [rq_connack false] ++
  rq_publish 3 2 ++ rq_publish 4 0 ++ rq_publish 5 0 ++
  [RqProcessData [x50; x02; x00; x01]%byte; RqProcessData [x70; x02; x00; x01]%byte].

Definition resumed_run : result ClientImpl unit :=
  run_requests (H := DefaultConfig) (H0 := ExampleComms) (H1 := QuietApp)
    resumed_requests (ClientImpl_new (H := DefaultConfig)).

Example runs_terminate_witness :
  m_ops (state_of DefaultConfig resumed_run) = [Some 2] ∧ resumed_run ≠ Fault FFuel.
Proof.
  split; [vm_compute; reflexivity|].
  apply (runs_terminate (H := DefaultConfig) (H0 := ExampleComms) (H1 := ExampleComms_laws)
    (H2 := QuietApp)). intros e s. reflexivity.
Defined.
