(* ===== verification/Receiving.v ===== *)
(** * The reception of data as the parsing of a stream

    [ClientImpl::processData] (client/lib/src/ClientImpl.cpp) reads a frame and
    dispatches its message before it reads the next one.  Its specification parses
    the whole buffer first, which does not depend on the state of the client, and
    then dispatches the messages; the parsing of a stream does not depend on how
    the application cuts it into buffers. *)

From S2P Require Import Prelude SortedVec Config Protocol Topic PacketId TimerMgr State.
From S2P Require Import Lifecycle Completion Session SendOp RecvOp SubscribeOp ConnectOp.
From S2P Require Import Client Scenarios.

(** ** Specification *)

Section specification.
  Context `{CommsLib}.

(** The messages at the front of a buffer, how many bytes they take, and whether
    what follows them is malformed. *)
Record Parsed := MkParsed {
  ps_messages : list ProtMessage;
  ps_consumed : nat;
  ps_error : bool;
}.

Definition parsed_cons (msg : ProtMessage) (n : nat) (p : Parsed) : Parsed :=
  MkParsed (msg :: ps_messages p) (n + ps_consumed p) (ps_error p).

Fixpoint parse_fuel (fuel : nat) (buf : bytes) : Parsed :=
  match next_frame buf, fuel with
  | FR_NotEnoughData, _ => MkParsed [] 0 false
  | FR_Success msg n, S fuel' => parsed_cons msg n (parse_fuel fuel' (drop n buf))
  | _, _ => MkParsed [] 0 true
  end.

Definition parse (buf : bytes) : Parsed := parse_fuel (length buf) buf.

(** The library decides with the bytes of a frame, not with those that follow. *)
Class StreamLaws : Prop := {
  size_read_more : ∀ buf more,
    size_read buf ≠ ES_NotEnoughData → size_read (buf ++ more) = size_read buf;
  frame_read_more : ∀ buf more,
    frame_read buf ≠ FR_NotEnoughData → frame_read (buf ++ more) = frame_read buf;
}.

(** Processing the parsed messages, then the end of the buffer. *)
Definition processData_spec `{Config} `{App} (buf : bytes) : M ClientImpl nat :=
  with_guard
    (networkDisconnected ← gets (m_networkDisconnected ∘ m_clientState);
     comms_assert (negb networkDisconnected) ;;
     if networkDisconnected : bool then mret 0
     else
       mapM_ ClientImpl_dispatch (ps_messages (parse buf)) ;;
       if ps_error (parse buf) then
         brokerDisconnected BrokerDisconnectReason_ProtocolError AsyncOpStatus_ProtocolError ;;
         mret (length buf)
       else mret (ps_consumed (parse buf))).
End specification.

(** ** Parsing *)

Section parsing.
  Context `{CommsLib} `{!CommsLaws}.

Lemma next_frame_consumes buf msg n :
  next_frame buf = FR_Success msg n → 0 < n ≤ length buf.
Proof.
  unfold next_frame. case_match; [done|]. case_match; try done. apply frame_read_consumes.
Qed.

Lemma parse_fuel_enough fuel buf :
  length buf ≤ fuel → parse_fuel fuel buf = parse buf.
Proof.
  unfold parse. revert buf. assert (∀ n fuel buf, length buf ≤ n → n ≤ fuel →
    parse_fuel fuel buf = parse_fuel n buf) as Hmono.
  { induction n as [|n IH]; intros [|m] buf Hb Hn; simpl; try done; try lia;
      destruct (next_frame buf) as [msg k| |] eqn:Hf; try done;
      pose proof (next_frame_consumes _ _ _ Hf); [lia|].
    f_equal. apply IH; [rewrite length_drop|]; lia. }
  intros buf Hb. by apply Hmono.
Qed.

(** The recursion of [parse], without fuel. *)
Lemma parse_unfold buf :
  parse buf =
    match next_frame buf with
    | FR_NotEnoughData => MkParsed [] 0 false
    | FR_Success msg n => parsed_cons msg n (parse (drop n buf))
    | FR_Error => MkParsed [] 0 true
    end.
Proof.
  rewrite <- (parse_fuel_enough (S (length buf)) buf) by lia. simpl.
  destruct (next_frame buf) as [msg n| |] eqn:Hf; try done. f_equal.
  apply next_frame_consumes in Hf. apply parse_fuel_enough. rewrite length_drop. lia.
Qed.

(** Induction on the frames of a buffer. *)
Lemma frames_ind (P : bytes → Prop) :
  (∀ buf, (∀ msg n, next_frame buf = FR_Success msg n → P (drop n buf)) → P buf) →
  ∀ buf, P buf.
Proof.
  intros HP buf. remember (length buf) as n eqn:Hn. revert buf Hn.
  induction (lt_wf n) as [n _ IH]; intros buf ->. apply HP. intros msg k Hf.
  apply next_frame_consumes in Hf. eapply IH; [|done]. rewrite length_drop. lia.
Qed.

Lemma parse_consumed buf : ps_consumed (parse buf) ≤ length buf.
Proof.
  induction buf as [buf IH] using frames_ind. rewrite parse_unfold.
  destruct (next_frame buf) as [msg n| |] eqn:Hf; simpl; try lia.
  specialize (IH _ _ eq_refl). apply next_frame_consumes in Hf. rewrite length_drop in IH. lia.
Qed.

Lemma next_frame_more `{!StreamLaws} buf more :
  next_frame buf ≠ FR_NotEnoughData → next_frame (buf ++ more) = next_frame buf.
Proof.
  unfold next_frame. rewrite length_app. case_match eqn:Hl; [done|]. apply Nat.leb_gt in Hl.
  destruct (Nat.leb_spec (length buf + length more) idAndFlags_minLength); [lia|].
  rewrite drop_app_le by lia. intros Hn. rewrite size_read_more by (by intros E; rewrite E in Hn).
  case_match; try done. by apply frame_read_more.
Qed.
End parsing.

(** ** Properties *)

Section Receiving.
  Context `{Config} `{CommsLib} `{!CommsLaws} `{App}.

Lemma processData_loop_step fuel rest consumed s :
  rest ≠ [] →
  processData_loop (S fuel) rest consumed s =
    match next_frame rest with
    | FR_NotEnoughData => Ok (PE_Consumed consumed) s
    | FR_Error => Ok PE_Error s
    | FR_Success msg n =>
        (ClientImpl_dispatch msg ;; processData_loop fuel (drop n rest) (consumed + n)) s
    end.
Proof.
  intros Hr. destruct rest as [|b rest]; [done|]. cbn -[length next_frame]. by case_match.
Qed.

Lemma processData_loop_nil fuel consumed s :
  processData_loop fuel [] consumed s = Ok (PE_Consumed consumed) s.
Proof. by destruct fuel. Qed.

Lemma next_frame_nil : next_frame [] = FR_NotEnoughData.
Proof. done. Qed.

(** The loop dispatches what the parser finds. *)
Lemma processData_loop_parse fuel rest consumed s :
  length rest ≤ fuel →
  processData_loop fuel rest consumed s =
    (mapM_ ClientImpl_dispatch (ps_messages (parse rest)) ;;
     mret (if ps_error (parse rest) then PE_Error
           else PE_Consumed (consumed + ps_consumed (parse rest)))) s.
Proof.
  revert fuel consumed s. induction rest as [rest IH] using frames_ind. intros fuel consumed s Hlen.
  rewrite parse_unfold. destruct (decide (rest = [])) as [->|Hr].
  { rewrite processData_loop_nil, next_frame_nil. cbn. by rewrite Nat.add_0_r. }
  destruct fuel as [|fuel]; [destruct rest; simpl in *; [done|lia]|].
  rewrite processData_loop_step by done. destruct (next_frame rest) as [msg n| |] eqn:Hf.
  - pose proof (next_frame_consumes _ _ _ Hf). cbn [ps_messages ps_error ps_consumed parsed_cons].
    cbn [mapM_]. rewrite bind_assoc. apply bind_ext. intros [] s1 _.
    rewrite (IH msg n eq_refl) by (rewrite length_drop; lia). apply bind_ext. intros _ s2 _.
    by rewrite Nat.add_assoc.
  - cbn. by rewrite Nat.add_0_r.
  - done.
Qed.

Lemma with_guard_ext {A} (m m' : M ClientImpl A) s :
  (∀ s', m s' = m' s') → with_guard m s = with_guard m' s.
Proof.
  intros Hm. unfold with_guard. apply bind_ext. intros _ s1 _.
  unfold mbind, M_bind. by rewrite Hm.
Qed.

(** The loop is the dispatch of the parsed messages. *)
Lemma processData_eq buf s : processData buf s = processData_spec buf s.
Proof.
  unfold processData, processData_spec.
  apply with_guard_ext. intros s1. apply bind_ext. intros down s2 _. apply bind_ext. intros [] s3 _.
  destruct down; [done|]. unfold mbind at 1, M_bind at 1.
  rewrite processData_loop_parse by done. unfold mbind, M_bind.
  destruct (mapM_ _ _ s3) as [[] s4|]; [|done]. simpl. by destruct (ps_error _).
Qed.

(** Parsing resumes where it stopped. *)
Lemma parse_app `{!StreamLaws} buf more :
  parse (buf ++ more) =
    if ps_error (parse buf) then parse buf
    else
      let rest := parse (drop (ps_consumed (parse buf)) buf ++ more) in
      MkParsed (ps_messages (parse buf) ++ ps_messages rest)
        (ps_consumed (parse buf) + ps_consumed rest) (ps_error rest).
Proof.
  induction buf as [buf IH] using frames_ind. rewrite (parse_unfold buf).
  destruct (next_frame buf) as [msg n| |] eqn:Hf.
  - pose proof (next_frame_consumes _ _ _ Hf) as Hn. specialize (IH msg n eq_refl).
    rewrite parse_unfold, next_frame_more, Hf by (by rewrite Hf).
    rewrite drop_app_le by lia. rewrite IH. cbn [ps_error ps_consumed ps_messages parsed_cons].
    destruct (ps_error (parse (drop n buf))) eqn:He.
    + unfold parsed_cons. by rewrite He.
    + unfold parsed_cons. cbn. rewrite drop_drop. f_equal; lia.
  - cbn [ps_error ps_consumed ps_messages app Nat.add]. rewrite drop_0. by destruct (parse (buf ++ more)).
  - by rewrite parse_unfold, next_frame_more, Hf by (by rewrite Hf).
Qed.

(** C20: [processData] refines its specification: within one API guard it
    dispatches exactly the messages of the frames at the front of the buffer, in
    their order, whatever the client does while it handles one of them; it returns
    the number of bytes of these frames, which never exceeds the buffer, or the
    whole length after the report of a protocol error if a malformed frame
    follows.  The loop ends: every frame takes a byte at least. *)
Theorem processData_refines buf s :
  processData buf s = processData_spec buf s ∧ ps_consumed (parse buf) ≤ length buf.
Proof. split; [apply processData_eq | apply parse_consumed]. Qed.

(** the messages of a stream do not depend on how it is cut into buffers:
    parsing a buffer, and then the bytes it left together with those that arrive
    later, gives the messages, the number of bytes and the error of parsing the
    bytes at once; and a malformed frame is found in the buffer that holds it. *)
Theorem parse_stream `{!StreamLaws} buf more :
  parse (buf ++ more) =
    if ps_error (parse buf) then parse buf
    else
      let rest := parse (drop (ps_consumed (parse buf)) buf ++ more) in
      MkParsed (ps_messages (parse buf) ++ ps_messages rest)
        (ps_consumed (parse buf) + ps_consumed rest) (ps_error rest).
Proof. apply parse_app. Qed.
End Receiving.

(** ** Witnesses *)

Lemma ExampleComms_stream : StreamLaws (H := ExampleComms).
Proof.
  split.
  - intros [|b buf] more Hn; [by destruct Hn | done].
  - intros [|h [|l rest]] more; simpl; try done.
    destruct (Nat.ltb_spec (length rest) (Z.to_nat (byte_Z l))) as [|Hl]; [done|].
    intros _. rewrite length_app.
    destruct (Nat.ltb_spec (length rest + length more) (Z.to_nat (byte_Z l))); [lia|].
    by rewrite take_app_le.
Qed.

(** A PUBACK, a PUBCOMP that arrives in two pieces. *)
Definition first_buffer : bytes := [x40; x02; x00; x01; x70; x02; x00]%byte.

Example parse_stream_witness :
  parse (H := ExampleComms) first_buffer = MkParsed [MPuback 1] 4 false ∧
  parse (H := ExampleComms) (first_buffer ++ [x02]%byte) =
    MkParsed [MPuback 1; MPubcomp 2] 8 false.
Proof.
  split; [vm_compute; reflexivity|].
  rewrite (parse_stream (H0 := ExampleComms) (H1 := ExampleComms_laws)
    (H3 := ExampleComms_stream)).
  vm_compute. reflexivity.
Defined.

Example processData_refines_witness :
  ps_messages (parse (H := ExampleComms) first_buffer) = [MPuback 1] ∧
  processData (H := DefaultConfig) (H0 := ExampleComms) (H1 := QuietApp) first_buffer
      (ClientImpl_new (H := DefaultConfig)) =
    processData_spec (H := ExampleComms) (H0 := DefaultConfig) (H1 := QuietApp) first_buffer
      (ClientImpl_new (H := DefaultConfig)).
Proof.
  split; [vm_compute; reflexivity|].
  apply (processData_refines (H := DefaultConfig) (H0 := ExampleComms)
    (H1 := ExampleComms_laws) (H2 := QuietApp)).
Defined.
