(* ===== verification/Safety.v ===== *)
(** * Reachable states

    What the invariant says of the states that a client reaches while an
    application makes any requests and reacts to the callbacks with further
    requests, nested to any depth; stated on the members of [ClientImpl] and on
    the objects.  Each theorem is instantiated on a run in which an application
    publishes again from the completion of a publish. *)

From S2P Require Import Prelude Config Protocol Topic PacketId TimerMgr State Lifecycle.
From S2P Require Import Completion Session SendOp RecvOp SubscribeOp ConnectOp Client.
From S2P Require Import Invariant Objects Ownership Preservation Scenarios.

(** ** An application that calls the client from its callbacks *)

(** It publishes again (operation 5) when the first publish completes. *)
Definition ExampleScript : Script := {|
  script_react := λ tr,
    match last tr with
    | Some (EvPublishComplete 3 _ _) => rq_publish 5 1
    | _ => []
    end;
  script_elapsed := λ _, 10%Z;
  script_fuel := 0;
|}.

Definition run_script (rs : list Request) (s : ClientImpl) : result ClientImpl unit :=
  run_requests (H := DefaultConfig) (H0 := ExampleComms)
    (H1 := scripted (H := DefaultConfig) (H0 := ExampleComms) (H1 := ExampleScript) 2) rs s.

(** Two publishes; the first is acknowledged. *)
Definition script_requests : list Request :=
  rq_session ++ rq_publish 3 1 ++ rq_publish 4 2 ++
  [RqProcessData [x40; x02; x00; x01]%byte].

Definition script_state : ClientImpl :=
  state_of DefaultConfig (run_script script_requests (ClientImpl_new (H := DefaultConfig))).

Abbreviation reachable_example :=
  (reachable (H := DefaultConfig) (H0 := ExampleComms) (H1 := ExampleScript) 2).

Lemma script_state_reachable : reachable_example script_state.
Proof.
  eapply (reachable_run (H := DefaultConfig) (H0 := ExampleComms)).
  - apply (reachable_new (H := DefaultConfig) (H0 := ExampleComms)).
  - instantiate (1 := script_requests). vm_compute. reflexivity.
Qed.

Section Safety.
  Context `{Config} `{CommsLib} `{!CommsLaws} `{Script}.

Lemma shapes_Some s a : is_Some (shapes s !! a) ↔ is_Some (g_store s !! a).
Proof. unfold shapes. by rewrite lookup_fmap, fmap_is_Some. Qed.

Lemma shapes_type s T a :
  (∃ x, shapes s !! a = Some x ∧ sh_type x = T) ↔
  (∃ o, g_store s !! a = Some o ∧ Op_type o = T).
Proof.
  unfold shapes. rewrite lookup_fmap. split.
  - intros (x & (o & -> & ->)%fmap_Some & HT). eauto.
  - intros (o & -> & HT). simpl. eauto.
Qed.

(** C15: in every reachable state each live operation has exactly one entry in [m_ops],
    and is in the list of its type exactly once; these lists hold nothing else,
    and [m_ops] has null entries only while their cleaning is pending. *)
Theorem reachable_ops_linked depth s :
  reachable depth s →
  (∀ a, Some a ∈ m_ops s ↔ is_Some (g_store s !! a)) ∧ NoDup (omap id (m_ops s)) ∧
  (∀ T a, a ∈ ops_of T s ↔ ∃ o, g_store s !! a = Some o ∧ Op_type o = T) ∧
  (∀ T, NoDup (ops_of T s)) ∧
  (m_opsDeleted s = false → None ∉ m_ops s).
Proof.
  intros [[Hl Hnd _ _] [Ho Hond Hdel] _ _]%reachable_Inv. split_and!; [|done| |done|done].
  - intros a. by rewrite Ho, shapes_Some.
  - intros T a. unfold ops_of. by rewrite Hl, shapes_type.
Qed.

(** C16: in every reachable state the packet identifiers that the live operations
    hold are allocated, and no two operations hold the same (0 is none). *)
Theorem reachable_packetIds_distinct depth s :
  reachable depth s →
  packetIds_ok (m_allocatedPacketIds (m_clientState s)) ∧
  (∀ a o, g_store s !! a = Some o → held_packetId (op_derived o) ≠ 0%Z →
    held_packetId (op_derived o) ∈ m_allocatedPacketIds (m_clientState s)) ∧
  (∀ a b o p, g_store s !! a = Some o → g_store s !! b = Some p →
    held_packetId (op_derived o) = held_packetId (op_derived p) →
    held_packetId (op_derived o) ≠ 0%Z → a = b).
Proof.
  intros [_ _ [[Hids Hh Hi] _ _] _]%reachable_Inv. split_and!; [done| |].
  - intros a o Ha%shapes_lookup. exact (Hh a _ Ha).
  - intros a b o p Ha%shapes_lookup Hb%shapes_lookup. exact (Hi a b _ _ Ha Hb).
Qed.

(** C17: in every reachable state the allocated timers are those that the live
    operations own, each owned by one operation (no timer leaks and none is
    shared); an active timer calls a timeout function of the class of its owner,
    with the owner as data: no wait refers to a destroyed operation. *)
Theorem reachable_timers_owned depth s :
  reachable depth s →
  (∀ i, is_allocated (m_timerMgr s) i ↔
    ∃ a o, g_store s !! a = Some o ∧ Some i ∈ held_timers (op_derived o)) ∧
  (∀ a b o p i, g_store s !! a = Some o → g_store s !! b = Some p →
    Some i ∈ held_timers (op_derived o) → Some i ∈ held_timers (op_derived p) → a = b) ∧
  (∀ i info cb, m_timers (m_timerMgr s) !! i = Some info → m_timeoutCb info = Some cb →
    ∃ o, g_store s !! m_timeoutData info = Some o ∧ Op_type o = TimeoutCb_type cb ∧
      Some i ∈ held_timers (op_derived o)).
Proof.
  intros [_ _ [_ [Hok Hh Hi _ Hown Hact] _] _]%reachable_Inv. split_and!.
  - intros i. split.
    + intros (a & x & Hx & Hin)%Hown. unfold shapes in Hx. rewrite lookup_fmap in Hx.
      apply fmap_Some in Hx as (o & Ho & ->). eauto.
    + intros (a & o & Ha%shapes_lookup & Hin). by eapply Hh.
  - intros a b o p i Ha%shapes_lookup Hb%shapes_lookup. exact (Hi a b _ _ i Ha Hb).
  - intros i info cb Hl Hcb. destruct (Hact i info cb Hl Hcb) as (x & Hx & HT & Hin).
    unfold shapes in Hx. rewrite lookup_fmap in Hx. apply fmap_Some in Hx as (o & Ho & ->).
    eauto.
Qed.

(** C1: the completion of an operation is reported at most once, and never
    while the operation is alive. *)
Theorem reachable_completion_once depth s :
  reachable depth s →
  (∀ a, completions a (g_trace s) ≤ 1) ∧
  (∀ a, is_Some (g_store s !! a) → completions a (g_trace s) = 0).
Proof.
  intros [_ _ [_ _ [_ Honce Hlive _]] _]%reachable_Inv. split; [done|].
  intros a Ha%shapes_Some. by apply Hlive.
Qed.

(** C18: a request never brings a destroyed operation back, nor reports its
    completion once more; it never takes back a callback, and a live operation
    keeps its type and its timers as long as it lives. *)
Theorem request_evolves depth s r s' :
  reachable depth s → run_request (H1 := scripted depth) r s = Ok tt s' →
  g_trace s `prefix_of` g_trace s' ∧
  (∀ a, a < g_next s → g_store s !! a = None →
    g_store s' !! a = None ∧ completions a (g_trace s') = completions a (g_trace s)) ∧
  (∀ a o p, g_store s !! a = Some o → g_store s' !! a = Some p →
    Op_type p = Op_type o ∧ held_timers (op_derived p) = held_timers (op_derived o)).
Proof.
  intros Hs%reachable_Inv Hr. destruct (run_request_keeps _ _ _ _ Hs Hr) as [_ [_ Htr Hd He _]].
  split_and!; [done| |].
  - intros a Ha Hn. destruct (Hd a Ha) as [Hn' Hc].
    { apply eq_None_not_Some. rewrite shapes_Some, Hn. by intros []. }
    split; [|done]. apply eq_None_not_Some. rewrite <- shapes_Some, Hn'. by intros [].
  - intros a o p Ho%shapes_lookup Hp%shapes_lookup.
    assert (a < g_next s) as Hlt by (apply (di_next _ _ _ (oi_done _ (inv_obj _ Hs))); eauto).
    destruct (He a _ _ Hlt Ho Hp) as [HT Htm]. by split.
Qed.

(** C31: in every reachable state the number of operations of a type with a
    configured limit is within it (the limits of ExtConfig.h, from which the
    number of timers is computed), and in any configuration there is at most one
    connect, one disconnect and one keep alive operation. *)
Theorem reachable_ops_limits depth s :
  reachable depth s →
  (∀ T, list_limit T ≠ 0 → length (ops_of T s) ≤ list_limit T) ∧
  length (ops_of Type_Connect s) ≤ 1 ∧ length (ops_of Type_Disconnect s) ≤ 1 ∧
  length (ops_of Type_KeepAlive s) ≤ 1.
Proof.
  intros [[_ _ Hlim Hsing] _ _ _]%reachable_Inv.
  split_and!; [done | by apply (Hsing Type_Connect) | by apply (Hsing Type_Disconnect) |
    by apply (Hsing Type_KeepAlive)].
Qed.

(** The guards of the API are balanced: whatever the callbacks do, when
    a request of the application returns, the nesting depth is 0 again, so that
    the next call cleans the lists and reprograms the timer. *)
Theorem reachable_guards_balanced depth s :
  reachable depth s → m_apiEnterCount s = 0%Z.
Proof.
  induction 1 as [|s r s' Hs IH Hr]; [done|]. apply reachable_Inv in Hs.
  destruct (run_request_keeps _ _ _ _ Hs Hr) as [_ Hev]. by rewrite (ev_api _ _ Hev).
Qed.
End Safety.

(** ** Witnesses *)

Ltac at_script_state thm :=
  split; [exact script_state_reachable
         | exact (thm DefaultConfig ExampleComms ExampleComms_laws ExampleScript 2 script_state
             script_state_reachable)].

(** In this state operations 4 and 5 are alive, and 3 has completed. *)
Example script_state_ops :
  m_ops script_state = [Some 2; Some 4; Some 5] ∧ completions 3 (g_trace script_state) = 1.
Proof. by vm_compute. Qed.

Example reachable_ops_linked_witness :
  reachable_example script_state ∧
  ((∀ a, Some a ∈ m_ops script_state ↔ is_Some (g_store script_state !! a)) ∧
   NoDup (omap id (m_ops script_state)) ∧
   (∀ T a, a ∈ ops_of T script_state ↔
     ∃ o, g_store script_state !! a = Some o ∧ Op_type o = T) ∧
   (∀ T, NoDup (ops_of T script_state)) ∧
   (m_opsDeleted script_state = false → None ∉ m_ops script_state)).
Proof. at_script_state @reachable_ops_linked. Defined.

Example reachable_packetIds_distinct_witness :
  reachable_example script_state ∧
  (packetIds_ok (m_allocatedPacketIds (m_clientState script_state)) ∧
   (∀ a o, g_store script_state !! a = Some o → held_packetId (op_derived o) ≠ 0%Z →
     held_packetId (op_derived o) ∈ m_allocatedPacketIds (m_clientState script_state)) ∧
   (∀ a b o p, g_store script_state !! a = Some o → g_store script_state !! b = Some p →
     held_packetId (op_derived o) = held_packetId (op_derived p) →
     held_packetId (op_derived o) ≠ 0%Z → a = b)).
Proof. at_script_state @reachable_packetIds_distinct. Defined.

Example reachable_timers_owned_witness :
  reachable_example script_state ∧
  ((∀ i, is_allocated (m_timerMgr script_state) i ↔
     ∃ a o, g_store script_state !! a = Some o ∧ Some i ∈ held_timers (op_derived o)) ∧
   (∀ a b o p i, g_store script_state !! a = Some o → g_store script_state !! b = Some p →
     Some i ∈ held_timers (op_derived o) → Some i ∈ held_timers (op_derived p) → a = b) ∧
   (∀ i info cb, m_timers (m_timerMgr script_state) !! i = Some info →
     m_timeoutCb info = Some cb →
     ∃ o, g_store script_state !! m_timeoutData info = Some o ∧
       Op_type o = TimeoutCb_type cb ∧ Some i ∈ held_timers (op_derived o))).
Proof. at_script_state @reachable_timers_owned. Defined.

Example reachable_completion_once_witness :
  reachable_example script_state ∧
  ((∀ a, completions a (g_trace script_state) ≤ 1) ∧
   (∀ a, is_Some (g_store script_state !! a) → completions a (g_trace script_state) = 0)).
Proof. at_script_state @reachable_completion_once. Defined.

Definition script_next_state : ClientImpl :=
  match run_request (H := DefaultConfig) (H0 := ExampleComms)
    (H1 := scripted (H := DefaultConfig) (H0 := ExampleComms) (H1 := ExampleScript) 2)
    (RqTick 2000) script_state with
  | Ok _ s => s
  | Fault _ => script_state
  end.

Example request_evolves_witness :
  reachable_example script_state ∧
  (g_trace script_state `prefix_of` g_trace script_next_state ∧
   (∀ a, a < g_next script_state → g_store script_state !! a = None →
     g_store script_next_state !! a = None ∧
     completions a (g_trace script_next_state) = completions a (g_trace script_state)) ∧
   (∀ a o p, g_store script_state !! a = Some o → g_store script_next_state !! a = Some p →
     Op_type p = Op_type o ∧ held_timers (op_derived p) = held_timers (op_derived o))).
Proof.
  split; [exact script_state_reachable|].
  refine (@request_evolves DefaultConfig ExampleComms ExampleComms_laws ExampleScript 2
    script_state (RqTick 2000) script_next_state script_state_reachable _).
  vm_compute. reflexivity.
Defined.

Example reachable_ops_limits_witness :
  reachable_example script_state ∧
  ((∀ T, list_limit (H := DefaultConfig) T ≠ 0 →
     length (ops_of T script_state) ≤ list_limit (H := DefaultConfig) T) ∧
   length (ops_of Type_Connect script_state) ≤ 1 ∧
   length (ops_of Type_Disconnect script_state) ≤ 1 ∧
   length (ops_of Type_KeepAlive script_state) ≤ 1).
Proof. at_script_state @reachable_ops_limits. Defined.

Example reachable_guards_balanced_witness :
  reachable_example script_state ∧ m_apiEnterCount script_state = 0%Z.
Proof. at_script_state @reachable_guards_balanced. Defined.
