(* ===== verification/Publishing.v ===== *)
(** * Order of publishes and their acknowledgements

    The decisions that [ClientImpl] takes on the list of publishes
    ([hasPausedSendsBefore], [hasHigherQosSendsBefore], [findSendOp],
    [isLegitSendAck]) and [SendOp::canSend] (client/lib/src/ClientImpl.cpp,
    client/lib/src/op/SendOp.cpp), as functions of the position in the list, in
    the states of the invariant: there they neither fail nor change the state. *)

From S2P Require Import Prelude SortedVec Config Protocol Topic PacketId TimerMgr State.
From S2P Require Import Lifecycle Completion Session SendOp RecvOp SubscribeOp ConnectOp.
From S2P Require Import Client Invariant Objects Preservation Scenarios Safety.

(** ** Specification *)

(** The publish at an address. *)
Definition send_op (s : ClientImpl) (a : addr) : option SendOp :=
  o ← g_store s !! a; downcast (op_derived o).

Definition is_paused (s : ClientImpl) (a : addr) : bool :=
  match send_op s a with Some o => so_paused o | None => false end.
Definition is_acked (s : ClientImpl) (a : addr) : bool :=
  match send_op s a with Some o => so_acked o | None => false end.
Definition is_published (s : ClientImpl) (a : addr) : bool :=
  match send_op s a with Some o => so_published o | None => false end.
Definition qos_of (s : ClientImpl) (a : addr) : Z :=
  match send_op s a with Some o => pub_qos (so_pubMsg o) | None => 0 end.
Definition pid_of (s : ClientImpl) (a : addr) : Z :=
  match send_op s a with Some o => pub_packetId (so_pubMsg o) | None => 0 end.

(** A publish may go out: always when only the order within a QoS is kept; with
    the full order, when the publish before it is not paused and none before it
    has a higher QoS. *)
Definition may_send (s : ClientImpl) (before : list addr) (a : addr) : bool :=
  match cfg_publishOrdering (m_configState s) with
  | PublishOrdering_SameQos => true
  | _ =>
      negb (from_option (is_paused s) false (last before)) &&
      forallb (λ b, (qos_of s b <=? qos_of s a)%Z) before
  end.

(** An acknowledgement is in order: the publish went out, those before it are
    acknowledged, and none is before it when the acknowledgement is a PUBCOMP. *)
Definition ack_in_order (s : ClientImpl) (before : list addr) (a : addr) (pubcompAck : bool)
    : bool :=
  is_published s a && forallb (is_acked s) before &&
  (negb pubcompAck || bool_decide (before = [])).

(** ** Lemmas *)

Section Publishing.
  Context `{Config} `{CommsLib} `{App}.

Lemma send_op_live s a :
  Inv s → a ∈ ops_of Type_Send s → (∃ t o, g_store s !! a = Some (MkOp t (DSend o))).
Proof.
  intros [[Hl _ _ _] _ _ _] Ha. unfold ops_of in Ha. apply Hl in Ha as (x & Hx & HT).
  unfold shapes in Hx. rewrite lookup_fmap in Hx.
  apply fmap_Some in Hx as ([t d] & Ho & ->). destruct d; try done. eauto.
Qed.

(** Reading a publish of the list succeeds. *)
Lemma wp_get_send {A} a s (k : SendOp → M ClientImpl A) Q :
  Inv s → a ∈ ops_of Type_Send s →
  (∀ o, send_op s a = Some o → wp no_fault (k o) Q s) →
  wp no_fault (get_op (T := SendOp) a ≫= k) Q s.
Proof.
  intros Hs Ha Hk. destruct (send_op_live s a Hs Ha) as (t & o & Ho).
  unfold wp, get_op, get_base, mbind, M_bind, gets. rewrite Ho. simpl. apply Hk.
  unfold send_op. by rewrite Ho.
Qed.

Lemma list_find_at {A} `{EqDecision A} (l1 : list A) a l2 :
  a ∉ l1 → list_find (λ b, b = a) (l1 ++ a :: l2) = Some (length l1, a).
Proof.
  intros Ha. induction l1 as [|b l1 IH]; simpl; [by rewrite decide_True|].
  rewrite decide_False by set_solver. rewrite IH by set_solver. done.
Qed.

Lemma nodup_middle {A} (l1 : list A) a l2 : NoDup (l1 ++ a :: l2) → (a ∉ l1) ∧ (a ∉ l2).
Proof.
  intros Hnd. apply NoDup_app in Hnd as (_ & Hd & [Ha _]%NoDup_cons). split; [|done].
  intros Hin. apply (Hd a Hin). by left.
Qed.

Lemma send_nodup s l1 a l2 :
  Inv s → ops_of Type_Send s = l1 ++ a :: l2 → NoDup (l1 ++ a :: l2).
Proof. intros Hs <-. apply (li_nodup _ _ (inv_lists _ Hs)). Qed.

Lemma hasPausedSendsBefore_spec s l1 a l2 :
  Inv s → ops_of Type_Send s = l1 ++ a :: l2 →
  wp no_fault (hasPausedSendsBefore a) (λ b s', s' = s ∧
    b = from_option (is_paused s) false (last l1)) s.
Proof.
  intros Hs Hl. unfold hasPausedSendsBefore. apply wp_bind, wp_gets. rewrite Hl.
  pose proof (send_nodup s l1 a l2 Hs Hl) as Hnd.
  destruct (nodup_middle _ _ _ Hnd) as [_ Ha].
  rewrite reverse_app, reverse_cons, <- app_assoc. simpl.
  rewrite list_find_at by (by rewrite elem_of_reverse). rewrite length_reverse.
  rewrite length_app. simpl. replace (length l1 + S (length l2) - 1 - length l2) with (length l1) by lia.
  apply wp_bind, wp_comms_assert_true; [apply Nat.ltb_lt; lia|].
  destruct l1 as [|l1 b _] using rev_ind; [by apply wp_ret|].
  rewrite length_app, last_snoc. simpl. rewrite Nat.add_1_r. simpl.
  rewrite Nat.sub_0_r, <- app_assoc. cbn [app]. rewrite list_lookup_middle by done.
  apply wp_get_send; [done| |].
  { rewrite Hl, <- app_assoc. set_solver. }
  intros o Ho. apply wp_ret. split; [done|]. unfold is_paused. by rewrite Ho.
Qed.

Lemma hasHigherQos_loop_spec s l1 a l2 qos :
  Inv s → a ∉ l1 → (∀ b, b ∈ l1 → b ∈ ops_of Type_Send s) →
  wp no_fault (hasHigherQos_loop (l1 ++ a :: l2) a qos) (λ b s', s' = s ∧
    b = negb (forallb (λ b, (qos_of s b <=? qos)%Z) l1)) s.
Proof.
  intros Hs Ha Hin. induction l1 as [|b l1 IH]; simpl.
  { rewrite Nat.eqb_refl. by apply wp_ret. }
  destruct (Nat.eqb_spec b a) as [->|]; [set_solver|].
  apply wp_get_send; [done | apply Hin; by left|]. intros o Ho.
  assert (qos_of s b = pub_qos (so_pubMsg o)) as -> by (unfold qos_of; by rewrite Ho).
  destruct (Z.ltb_spec qos (pub_qos (so_pubMsg o))).
  - apply wp_ret. split; [done|]. destruct (Z.leb_spec (pub_qos (so_pubMsg o)) qos); [lia|done].
  - destruct (Z.leb_spec (pub_qos (so_pubMsg o)) qos); [|lia]. simpl.
    apply IH; [set_solver|]. intros c Hc. apply Hin. by right.
Qed.

Lemma findSendOp_loop_spec s l id :
  Inv s → (∀ b, b ∈ l → b ∈ ops_of Type_Send s) →
  wp no_fault (findSendOp_loop l id) (λ r s', s' = s ∧
    match r with
    | Some a => a ∈ l ∧ pid_of s a = id
    | None => ∀ a, a ∈ l → pid_of s a ≠ id
    end) s.
Proof.
  intros Hs Hin. induction l as [|b l IH]; simpl.
  { apply wp_ret. split; [done|]. set_solver. }
  apply wp_get_send; [done | apply Hin; by left|]. intros o Ho.
  assert (pid_of s b = pub_packetId (so_pubMsg o)) as Hb by (unfold pid_of; by rewrite Ho).
  destruct (Z.eqb_spec (pub_packetId (so_pubMsg o)) id).
  - apply wp_ret. split; [done|]. split; [by left | congruence].
  - eapply wp_mono; [apply IH; intros c Hc; apply Hin; by right|].
    intros [c|] s' [-> Hr]; (split; [done|]).
    + split; [right|]; apply Hr.
    + intros c [->|Hc]%elem_of_cons; [congruence | by apply Hr].
Qed.

Lemma isLegitSendAck_loop_spec s front l1 a l2 pubcompAck :
  Inv s → a ∉ l1 → (∀ b, b ∈ l1 → b ∈ ops_of Type_Send s) → (l1 ≠ [] → front ≠ Some a) →
  wp no_fault (isLegitSendAck_loop front (l1 ++ a :: l2) a pubcompAck) (λ b s', s' = s ∧
    b = forallb (is_acked s) l1 && (negb pubcompAck || bool_decide (l1 = []))) s.
Proof.
  intros Hs Ha Hin. induction l1 as [|b l1 IH]; intros Hfront; simpl.
  { rewrite Nat.eqb_refl. apply wp_ret. split; [done|]. by rewrite orb_true_r. }
  destruct (Nat.eqb_spec b a) as [->|]; [set_solver|].
  apply wp_get_send; [done | apply Hin; by left|]. intros o Ho.
  assert (is_acked s b = so_acked o) as -> by (unfold is_acked; by rewrite Ho).
  rewrite orb_false_r. destruct (so_acked o); simpl; [|by apply wp_ret].
  rewrite (bool_decide_eq_false_2 (Some a = front)) by (intros <-; by apply Hfront).
  rewrite andb_true_r. destruct pubcompAck; simpl.
  - apply wp_ret. split; [done|]. by rewrite andb_false_r.
  - eapply wp_mono; [apply IH|].
    + set_solver.
    + intros c Hc. apply Hin. by right.
    + intros _. by apply Hfront.
    + intros r s' [-> ->]. split; [done|]. by rewrite !andb_true_r.
Qed.

(** ** Properties *)


(** A packet identifier other than 0 finds the publish that holds it,
    which is unique, or none when no publish does. *)
Theorem findSendOp_unique s id :
  Inv s → id ≠ 0%Z →
  wp no_fault (findSendOp id) (λ r s', s' = s ∧
    ∀ a, r = Some a ↔ a ∈ ops_of Type_Send s ∧ pid_of s a = id) s.
Proof.
  intros Hs Hid. unfold findSendOp. apply wp_bind, wp_gets.
  eapply wp_mono; [by apply findSendOp_loop_spec|]. intros r s' [-> Hr]. split; [done|].
  intros a. split.
  - intros ->. done.
  - intros [Ha Hpid]. destruct r as [b|]; [|by destruct (Hr a Ha)]. f_equal.
    destruct Hr as [Hb Hpidb].
    destruct (send_op_live s a Hs Ha) as (t & o & Ho), (send_op_live s b Hs Hb) as (u & p & Hp).
    unfold pid_of, send_op in *. rewrite Ho in Hpid. rewrite Hp in Hpidb. simpl in *.
    eapply (pi_inj _ _ (oi_pids _ (inv_obj _ Hs)) b a);
      [by apply shapes_lookup in Hp | by apply shapes_lookup in Ho | simpl; congruence |
       simpl; congruence].
Qed.

(** C28: [isLegitSendAck] accepts an acknowledgement exactly when the publish
    went out and every publish before it is acknowledged, and a PUBCOMP only for
    the first publish; so acknowledgements are consumed in the order of the
    publishes. *)
Theorem isLegitSendAck_order s l1 a l2 pubcompAck :
  Inv s → ops_of Type_Send s = l1 ++ a :: l2 →
  wp no_fault (isLegitSendAck a pubcompAck)
    (λ b s', s' = s ∧ b = ack_in_order s l1 a pubcompAck) s.
Proof.
  intros Hs Hl. pose proof (send_nodup s l1 a l2 Hs Hl) as Hnd.
  destruct (nodup_middle _ _ _ Hnd) as [Ha1 Ha2].
  unfold isLegitSendAck, ack_in_order. apply wp_get_send; [done | rewrite Hl; set_solver|].
  intros o Ho. assert (is_published s a = so_published o) as ->
    by (unfold is_published; by rewrite Ho).
  destruct (so_published o); simpl; [|by apply wp_ret].
  apply wp_bind, wp_gets. rewrite Hl. apply isLegitSendAck_loop_spec; [done|done| |].
  - intros b Hb. rewrite Hl. set_solver.
  - destruct l1 as [|b l1]; [done|]. simpl. intros _ [= ->]. set_solver.
Qed.
End Publishing.

(** ** Witnesses *)

(** With the full order: a publish of QoS 2 goes out, one of QoS 1 and another of
    QoS 2 wait. *)
Definition order_requests : list Request :=
  [RqSetCallbacks Callbacks_all; RqSetPublishOrdering PublishOrdering_Full] ++
  rq_connect 1 connect_config ++ [rq_connack false] ++
  rq_publish 3 2 ++ rq_publish 4 1 ++ rq_publish 5 2.

Definition order_state : ClientImpl :=
  state_of DefaultConfig (run_script order_requests (ClientImpl_new (H := DefaultConfig))).

Lemma order_state_Inv : Inv (H := DefaultConfig) order_state.
Proof.
  apply (reachable_Inv (H := DefaultConfig) (H0 := ExampleComms) (H1 := ExampleComms_laws)
    (H2 := ExampleScript) 2).
  apply (reachable_run (H := DefaultConfig) (H0 := ExampleComms) 2 order_requests
    (ClientImpl_new (H := DefaultConfig)));
    [apply (reachable_new (H := DefaultConfig) (H0 := ExampleComms)) | vm_compute; reflexivity].
Qed.


Example findSendOp_unique_witness :
  pid_of order_state 3 = 1%Z ∧
  wp no_fault (findSendOp 1) (λ r s', s' = order_state ∧
    ∀ a, r = Some a ↔ a ∈ ops_of Type_Send order_state ∧ pid_of order_state a = 1%Z) order_state.
Proof.
  split; [vm_compute; reflexivity|].
  apply (findSendOp_unique (H := DefaultConfig) order_state 1); [exact order_state_Inv | discriminate].
Defined.

Example isLegitSendAck_order_witness :
  ack_in_order order_state [3] 4 false = false ∧ ack_in_order order_state [] 3 true = true ∧
  wp no_fault (isLegitSendAck (H := DefaultConfig) 3 true)
    (λ b s', s' = order_state ∧ b = ack_in_order order_state [] 3 true) order_state.
Proof.
  split; [vm_compute; reflexivity|]. split; [vm_compute; reflexivity|].
  apply (isLegitSendAck_order (H := DefaultConfig) order_state [] 3 [4; 5]);
    [exact order_state_Inv | vm_compute; reflexivity].
Defined.
