(* ===== verification/Disconnect.v ===== *)
(** * What a disconnection does

    [ClientImpl::brokerDisconnected] (client/lib/src/ClientImpl.cpp) from any
    state of the invariant, for an application that does not call the client
    from the callbacks: it has no undefined behaviour, terminates the operations
    other than publishes and receptions in the order of [m_ops], each with its
    callback, keeps the publishes and receptions, and suspends the response timers
    of the publishes. *)

From S2P Require Import Prelude SortedVec Config Protocol Topic PacketId TimerMgr State.
From S2P Require Import Lifecycle Completion Session SendOp RecvOp SubscribeOp ConnectOp.
From S2P Require Import Client Invariant Objects Ownership Preservation Scenarios Safety.

(** ** Specification *)

(** The only fault allowed: an assertion that fails in a build with assertions. *)
Definition only_assert (f : fault) : Prop := f = FAssert.

(** The callback with which an operation is terminated, if it has one. *)
Definition termination_event (status : CC_Mqtt311AsyncOpStatus) (a : addr) (o : Op)
    : option Event :=
  match op_derived o with
  | DConnect c => (λ cb, EvConnectComplete a cb status None) <$> co_cb c
  | DSubscribe c => (λ cb, EvSubscribeComplete a cb status None) <$> su_cb c
  | DUnsubscribe c => (λ cb, EvUnsubscribeComplete a cb status) <$> un_cb c
  | _ => None
  end.

(** The callbacks of the termination of the operations but publishes and receptions. *)
Definition termination_events (status : CC_Mqtt311AsyncOpStatus) (s : ClientImpl)
    (ops : list (option addr)) : list Event :=
  omap (λ p, a ← p; o ← g_store s !! a; termination_event status a o) ops.

(** Every active response timer of a publish is suspended. *)
Definition sends_suspended (s : ClientImpl) : Prop :=
  ∀ a t o i info, g_store s !! a = Some (MkOp t (DSend o)) → so_responseTimer o = Some i →
    m_timers (m_timerMgr s) !! i = Some info → m_timeoutCb info ≠ None →
    m_suspended info = true.

(** ** The frame of a destruction *)

(** The members that the destruction of an operation leaves alone. *)
Definition bystanders (s : ClientImpl) :=
  (m_callbacks s, m_configState s, m_sessionState s, m_reuseState s, m_ops s,
   m_preparationLocked s, g_opsChanges s, g_sendOpsPushes s,
   (m_initialized (m_clientState s), m_firstConnect (m_clientState s),
    m_networkDisconnected (m_clientState s))).

Lemma bystanders_preorder : PreOrder (λ s s', bystanders s' = bystanders s).
Proof. split; [done | intros s1 s2 s3; congruence]. Qed.

Definition frame_contract : Contract ClientImpl := {|
  ct_inv := λ _, True;
  ct_rel := λ s s', bystanders s' = bystanders s;
  ct_faults := any_fault;
  ct_pre := bystanders_preorder;
|}.

Abbreviation framed := (keeps (Contract0 := frame_contract)).

Section Disconnect.
  Context `{Config} `{CommsLib} `{App}.

Lemma framed_modify f : (∀ s, bystanders (f s) = bystanders s) → framed (modify f).
Proof. intros Hf. apply keeps_modify. intros s _. split; [done | apply Hf]. Qed.

Lemma framed_comms_assert b : framed (comms_assert b).
Proof. by apply keeps_comms_assert. Qed.

Lemma framed_destroy a : framed (Op_destroy a).
Proof.
  assert (∀ id, framed (on_clientState (releasePacketId id))) as Hrel.
  { intros id s _. unfold wp, on_clientState, zoom, releasePacketId.
    destruct (_ =? 0)%Z; [done|]. unfold mbind, M_bind, gets, comms_assert.
    destruct (_ !! _) as [x|]; [destruct (x =? id)%Z; [done|]|]; by destruct Asserts. }
  assert (∀ m : M (TimerMgr TimeoutCb) unit, framed (on_timerMgr m)) as Htm.
  { intros m s _. unfold wp, on_timerMgr, zoom. by destruct (m _). }
  unfold Op_destroy, get_base.
  repeat first [ apply Hrel | apply Htm | by apply framed_modify | by apply keeps_throw | keeps_step ].
Qed.

Lemma framed_erase a T : framed (eraseFromList a T).
Proof.
  unfold eraseFromList, set_ops_of.
  repeat first [ apply framed_destroy | apply framed_comms_assert | by apply framed_modify
    | keeps_step ].
Qed.

(** ** Completion without the resumption of publishes *)

Lemma nodup_entry (l : list (option addr)) i j a :
  NoDup (omap id l) → l !! i = Some (Some a) → l !! j = Some (Some a) → i = j.
Proof.
  revert i j. induction l as [|p l IH]; intros [|i] [|j] Hnd Hi Hj; simplify_eq/=; try done.
  - apply NoDup_cons in Hnd as [[] _]. apply list_elem_of_omap.
    exists (Some a). split; [by eapply list_elem_of_lookup_2 | done].
  - apply NoDup_cons in Hnd as [[] _]. apply list_elem_of_omap.
    exists (Some a). split; [by eapply list_elem_of_lookup_2 | done].
  - f_equal. apply IH; [|done|done]. destruct p; [by apply NoDup_cons in Hnd as [_ ?] | done].
Qed.

Lemma entry_live s i a : Inv s → m_ops s !! i = Some (Some a) → ∃ o, g_store s !! a = Some o.
Proof.
  intros Hs Hi. assert (Some a ∈ m_ops s) as Hin by (by eapply list_elem_of_lookup_2).
  apply (li_ops _ _ _ (inv_ops _ Hs)) in Hin as [x Hx].
  apply shapes_live in Hx as (o & Ho & _). eauto.
Qed.

(** What the termination of the operation in entry [i] does. *)
Definition terminated (i : nat) (a : addr) (s : ClientImpl) (evs : list Event)
    (s' : ClientImpl) : Prop :=
  Inv s' ∧ g_store s' = delete a (g_store s) ∧ g_trace s' = g_trace s ++ evs ∧
  g_next s' = g_next s ∧ bystanders s' = bystanders (set_ops (<[i := None]> (m_ops s)) s).

(** No publish is paused, so that the completion of one resumes none. *)
Definition no_paused (s : ClientImpl) : Prop :=
  ∀ b t d, g_store s !! b = Some (MkOp t (DSend d)) → so_paused d = false.

Definition resumes_none (o : Op) (s : ClientImpl) : Prop :=
  Op_type o ≠ Type_Send ∨ no_paused s.

Lemma wp_resumeSendOpsSince_none idx s :
  Inv s → no_paused s → wp only_assert (resumeSendOpsSince idx) (λ _ s', s' = s) s.
Proof.
  intros Hs Hp. unfold resumeSendOpsSince. apply wp_bind, wp_gets.
  assert (length (ops_of Type_Send s) - idx < resume_fuel s) as Hf by (unfold resume_fuel; nia).
  revert idx Hf. generalize (resume_fuel s) as fuel.
  induction fuel as [|fuel IH]; intros idx Hf; [lia|]. simpl.
  apply wp_bind, wp_gets. destruct (_ !! idx) as [a|] eqn:Hi; [|by apply wp_ret].
  assert (a ∈ list_of Type_Send (m_lists s)) as (x & Hx & HT)%(li_lists _ _ (inv_lists _ Hs))
    by by eapply list_elem_of_lookup_2.
  apply shapes_live in Hx as ([t [| | | | | |d]] & Ho & ->); try done.
  apply wp_bind. eapply (wp_get_op_live _ a t d); [done|]. rewrite (Hp _ _ _ Ho). cbn [negb].
  apply IH. apply lookup_lt_Some in Hi. lia.
Qed.

Lemma wp_opComplete_entry i a o s :
  Inv s → m_ops s !! i = Some (Some a) → g_store s !! a = Some o → resumes_none o s →
  wp only_assert (opComplete a) (λ _ s', terminated i a s [] s') s.
Proof.
  intros Hs Hi Ho HT. pose proof Hs as [Hl Hops [Hp Ht Hd] Hapi].
  unfold opComplete, opComplete_with. apply wp_bind, wp_gets.
  destruct (list_find _ _) as [[j p]|] eqn:Hf.
  2:{ apply list_find_None in Hf. rewrite Forall_lookup in Hf. by destruct (Hf _ _ Hi). }
  apply list_find_Some in Hf as (Hj & -> & _).
  assert (j = i) as -> by (eapply nodup_entry; [apply Hops | done | done]).
  apply wp_bind, wp_modify. apply wp_bind, wp_modify.
  set (s1 := set_opsDeleted true _).
  apply wp_bind. eapply (wp_get_base_live _ a o); [done|].
  pose proof (shapes_lookup s1 a o Ho) as Ha.
  assert (Unlinking a s1) as Hul by (split; [done | by eapply OpsInv_null | by split | done]).
  assert (∀ k : nat → M ClientImpl unit,
    (∀ n s', Inv s' → g_store s' = delete a (g_store s) → wp only_assert (k n) (λ _ s'', s'' = s') s') →
    wp only_assert (eraseFromList a (Op_type o) ≫= k) (λ _ s', terminated i a s [] s') s1) as Herase.
  { intros k Hk. apply wp_bind. eapply wp_mono.
    { eapply wp_and; [eapply (wp_eraseFromList only_assert); [done | done | exact Ha | done]|].
      by apply framed_erase. }
    intros n s' [(Hinv & _ & Est & Etr & En) [_ Hfr]]. eapply wp_mono; [by apply Hk|].
    intros [] s'' ->. split; [done|].
    split; [done|]. split; [by rewrite app_nil_r|]. split; [done|]. simpl in Hfr.
    rewrite Hfr. done. }
  destruct HT as [HT|Hnone].
  { destruct (Op_type o) eqn:Hty; try done; by apply (Herase (λ _, mret tt)). }
  destruct (Op_type o) eqn:Hty; try by apply (Herase (λ _, mret tt)).
  unfold opComplete_Send_with. apply Herase. intros n s' Hs' Est.
  apply wp_bind, wp_gets. destruct ((ses_disconnecting ∘ m_sessionState) s'); [by apply wp_ret|].
  apply wp_resumeSendOpsSince_none; [done|]. intros b t d. rewrite Est.
  intros [_ Hb]%lookup_delete_Some. by eapply Hnone.
Qed.

Lemma terminated_log i a o s e s' :
  Inv s → g_store s !! a = Some o → completion_of e = Some a →
  terminated i a s [] s' → terminated i a s [e] (log e s').
Proof.
  intros Hs Ho He (Hs' & Est & Etr & En & Hby). rewrite app_nil_r in Etr.
  pose proof (oi_done _ (inv_obj _ Hs)) as Hd.
  assert (is_Some (shapes s !! a)) as Hlive by (rewrite (shapes_lookup _ _ _ Ho); eauto).
  assert (shapes s' !! a = None) as Hgone.
  { rewrite (shapes_delete a s s' Est). apply lookup_delete_eq. }
  split; [|split; [done|split; [simpl; by rewrite Etr | by split]]].
  apply (log_completion_inv e a s'); [done | done | done | |].
  - rewrite En. by apply (di_next _ _ _ Hd).
  - rewrite Etr. by apply (di_live _ _ _ Hd).
Qed.

(** ** Applications that stay quiet *)

Context (Hquiet : ∀ e s, app_react e s = Ok tt s).

Lemma wp_quiet_callback F e (Q : unit → ClientImpl → Prop) s :
  Q tt (log e s) → wp F (callback e) Q s.
Proof. intros HQ. unfold wp, callback, mbind, M_bind, modify. by rewrite Hquiet. Qed.

(** Completion followed by the callback, if there is one. *)
Lemma wp_complete_quiet i a o s (cb : UserCb) (e : nat → Event) :
  Inv s → m_ops s !! i = Some (Some a) → g_store s !! a = Some o → resumes_none o s →
  (∀ n, completion_of (e n) = Some a) →
  wp only_assert
    (opComplete a ;; match cb with None => mret tt | Some n => callback (e n) end)
    (λ _ s', terminated i a s (option_list (e <$> cb)) s') s.
Proof.
  intros Hs Hi Ho HT He. apply wp_bind. eapply wp_mono; [by eapply wp_opComplete_entry|].
  intros [] s' Hterm. destruct cb as [n|]; [|by apply wp_ret].
  apply wp_quiet_callback. by eapply terminated_log.
Qed.

Lemma wp_terminateOp_quiet i a o status s :
  Inv s → m_ops s !! i = Some (Some a) → g_store s !! a = Some o → Op_type o ≠ Type_Send →
  wp only_assert (Op_terminateOp a status)
    (λ _ s', terminated i a s (option_list (termination_event status a o)) s') s.
Proof.
  intros Hs Hi Ho HT. unfold Op_terminateOp.
  apply wp_bind. eapply (wp_get_base_live _ a o); [done|].
  destruct o as [t [c|c|c|c|c|c|c]]; try done; cbn;
    try (by eapply wp_opComplete_entry; [.. | left]);
    apply wp_bind; (eapply (wp_get_op_live _ a t c); [done|]);
    eapply (wp_complete_quiet i a _ s _ (λ n, _)); (done || by left).
Qed.

(** The termination of a publish when none is paused. *)
Lemma wp_terminate_send_quiet i a t d status s :
  Inv s → m_ops s !! i = Some (Some a) → g_store s !! a = Some (MkOp t (DSend d)) → no_paused s →
  wp only_assert (Op_terminateOp a status)
    (λ _ s', terminated i a s
      (option_list ((λ cb, EvPublishComplete a cb status) <$> so_cb d)) s') s.
Proof.
  intros Hs Hi Ho Hnone. unfold Op_terminateOp.
  apply wp_bind. eapply (wp_get_base_live _ a); [done|]. cbn.
  apply wp_bind. eapply (wp_get_op_live _ a t d); [done|].
  eapply (wp_complete_quiet i a _ s _ (λ n, _)); (done || by right).
Qed.

(** ** The loop of [terminateOps] *)

(** A range-for whose body leaves the vector at its length. *)
Lemma wp_range_for {A} F (vec : ClientImpl → list A) changes (body : A → M ClientImpl unit)
    (I : nat → ClientImpl → Prop) s :
  (∀ i s1 x, I i s1 → vec s1 !! i = Some x →
    wp F (body x) (λ _ s2, I (S i) s2 ∧ changes s2 = changes s1) s1) →
  (∀ i s1, I i s1 → length (vec s1) = length (vec s)) →
  I 0 s → wp F (range_for vec changes body) (λ _ s', I (length (vec s)) s') s.
Proof.
  intros Hbody Hlen HI. unfold range_for. apply wp_bind, wp_gets. apply wp_bind, wp_gets.
  cbn [compose]. set (n := length (vec s)) in *.
  assert (∀ k i s1, i + k = n → changes s1 = changes s → I i s1 →
    wp F (mapM_ (λ i, l ← gets vec;
      match l !! i with
      | None => throw FRange
      | Some x => body x ;; c' ← gets changes; when (negb (c' =? changes s)) (throw FIterator)
      end) (seq i k)) (λ _ s', I n s') s1) as Hloop.
  { induction k as [|k IH]; intros i s1 Hk Hc HI1; simpl.
    { apply wp_ret. by replace n with i by lia. }
    apply wp_bind, wp_bind, wp_gets. pose proof (Hlen _ _ HI1) as Hl1.
    destruct (lookup_lt_is_Some_2 (vec s1) i ltac:(lia)) as [x Hx]. rewrite Hx.
    apply wp_bind. eapply wp_mono; [by eapply Hbody|]. intros [] s2 [HI2 Hc2].
    apply wp_bind, wp_gets. rewrite Hc2, Hc, Nat.eqb_refl. simpl.
    apply IH; [lia | congruence | done]. }
  by apply Hloop.
Qed.

(** The state of the loop of [terminateOps], started in [s0], before entry [i]. *)
Record terminating (status : CC_Mqtt311AsyncOpStatus) (s0 : ClientImpl) (i : nat)
    (s : ClientImpl) : Prop := {
  tg_inv : Inv s;
  tg_len : length (m_ops s) = length (m_ops s0);
  tg_rest : ∀ j, i ≤ j → m_ops s !! j = m_ops s0 !! j;
  tg_live : ∀ a o, g_store s !! a = Some o → g_store s0 !! a = Some o;
  tg_kept : ∀ a o, g_store s0 !! a = Some o → is_send_or_recv (Op_type o) = true →
    g_store s !! a = Some o;
  tg_done : ∀ j a o, j < i → m_ops s0 !! j = Some (Some a) → g_store s !! a = Some o →
    is_send_or_recv (Op_type o) = true;
  tg_trace : g_trace s = g_trace s0 ++ termination_events status s0 (take i (m_ops s0));
  tg_bystanders : bystanders (set_ops [] s) = bystanders (set_ops [] s0);
}.

Lemma terminating_start status s : Inv s → terminating status s 0 s.
Proof. intros Hs. split; [done..| |by rewrite app_nil_r|done]. lia. Qed.

Lemma termination_events_snoc status s ops p :
  termination_events status s (ops ++ [p]) =
  termination_events status s ops ++
    option_list (a ← p; o ← g_store s !! a; termination_event status a o).
Proof.
  unfold termination_events. rewrite omap_app. simpl. by destruct (_ ≫= _).
Qed.

(** An entry that stays: it is null, or a publish or a reception. *)
Lemma terminating_skip status s0 i s p :
  terminating status s0 i s → m_ops s !! i = Some p →
  (∀ a o, p = Some a → g_store s !! a = Some o → is_send_or_recv (Op_type o) = true) →
  terminating status s0 (S i) s.
Proof.
  intros [Hs Hlen Hrest Hlive Hkept Hdone Htr Hby] Hi Hp.
  pose proof Hi as Hi0. rewrite Hrest in Hi0 by done.
  split; [done | done | | done | done | | | done].
  - intros j Hj. apply Hrest. lia.
  - intros j a o Hj Hja Ho. destruct (decide (j = i)) as [->|]; [|by eapply (Hdone j); [lia|..]].
    rewrite Hi0 in Hja. injection Hja as ->. by eapply Hp.
  - rewrite Htr, (take_S_r _ _ _ Hi0), termination_events_snoc. f_equal.
    destruct p as [a|]; simpl; [|by rewrite app_nil_r].
    destruct (g_store s0 !! a) as [o|] eqn:Ho; simpl; [|by rewrite app_nil_r].
    destruct (g_store s !! a) as [o'|] eqn:Ho'.
    + assert (o' = o) as -> by (specialize (Hlive _ _ Ho'); congruence).
      specialize (Hp a o eq_refl Ho').
      destruct o as [t []]; simpl in *; try done; by rewrite app_nil_r.
    + destruct (entry_live s i a Hs Hi) as [o' ?]. congruence.
Qed.

(** An entry that is terminated. *)
Lemma terminating_step status s0 i s a o s' :
  terminating status s0 i s → m_ops s !! i = Some (Some a) → g_store s !! a = Some o →
  is_send_or_recv (Op_type o) = false →
  terminated i a s (option_list (termination_event status a o)) s' →
  terminating status s0 (S i) s'.
Proof.
  intros [Hs Hlen Hrest Hlive Hkept Hdone Htr Hby] Hi Ho HT (Hs' & Est & Etr & _ & Eby).
  pose proof Hi as Hi0. rewrite Hrest in Hi0 by done.
  assert (m_ops s' = <[i := None]> (m_ops s)) as Eops by (injection Eby; congruence).
  assert (bystanders (set_ops [] s') = bystanders (set_ops [] s)) as Eby'.
  { injection Eby. intros. unfold bystanders. simpl. congruence. }
  split.
  - done.
  - by rewrite Eops, length_insert.
  - intros j Hj. rewrite Eops, list_lookup_insert_ne by lia. apply Hrest. lia.
  - intros b p. rewrite Est. intros [_ Hb]%lookup_delete_Some. by apply Hlive.
  - intros b p Hb Hp. rewrite Est. apply lookup_delete_Some. split; [|by apply Hkept].
    intros <-. specialize (Hlive _ _ Ho). congruence.
  - intros j b p Hj Hjb. rewrite Est. intros [Hne Hb]%lookup_delete_Some.
    destruct (decide (j = i)) as [->|]; [congruence|]. by eapply (Hdone j); [lia|..].
  - rewrite Etr, Htr, (take_S_r _ _ _ Hi0), termination_events_snoc. simpl.
    by rewrite (Hlive _ _ Ho), app_assoc.
  - by rewrite Eby'.
Qed.

Lemma wp_terminateOps_quiet status s :
  Inv s →
  wp only_assert (terminateOps status KeepSendRecvOps)
    (λ _ s', terminating status s (length (m_ops s)) s') s.
Proof.
  intros Hs. unfold terminateOps.
  apply (wp_range_for only_assert m_ops g_opsChanges _ (terminating status s));
    [| by intros i s1 [] | by apply terminating_start].
  intros i s1 p Hi Hp. pose proof Hi as [Hs1 _ _ _ _ _ _ _].
  destruct p as [a|]; [|apply wp_ret; split; [|done]; by eapply terminating_skip].
  destruct (entry_live s1 i a Hs1 Hp) as [o Ho].
  apply wp_bind. eapply (wp_get_base_live _ a o); [done|].
  destruct (is_send_or_recv (Op_type o)) eqn:HT.
  - apply wp_ret. split; [|done]. eapply terminating_skip; [done..|]. intros b p [= <-] Hb.
    congruence.
  - eapply wp_mono; [eapply (wp_terminateOp_quiet i a o); [done..|]|].
    { intros HT'. rewrite HT' in HT. done. }
    intros [] s2 Hterm. split; [by eapply terminating_step|].
    destruct Hterm as (_ & _ & _ & _ & Eby). injection Eby. congruence.
Qed.

(** ** The loop over [connectivityChanged] *)

(** Suspending one timer, active or not. *)
Lemma wp_suspend sh tm (mgr : TimerMgr TimeoutCb) :
  TimerInv sh mgr → (∀ i, tm = Some i → is_allocated mgr i) →
  wp only_assert (Timer_setSuspended tm true) (λ _ mgr', TimerInv sh mgr' ∧
    ∀ i info', m_timers mgr' !! i = Some info' → ∃ info, m_timers mgr !! i = Some info ∧
      m_timeoutCb info' = m_timeoutCb info ∧
      (m_suspended info = true → m_suspended info' = true) ∧
      (tm = Some i → m_timeoutCb info ≠ None → m_suspended info' = true)) mgr.
Proof.
  intros Hinv Hal. unfold Timer_setSuspended. destruct tm as [i|].
  2:{ apply wp_bind. eapply wp_mono; [by apply (wp_timerIsActive only_assert)|].
      intros b mgr' [-> Hb]. destruct b; simpl.
      - by destruct (Hb eq_refl) as (i & info & ? & _).
      - apply wp_ret. split; [done|]. intros i info Hi. by exists info. }
  destruct (Hal i eq_refl) as (info & Hi & Ha).
  unfold wp, mbind, M_bind.
  rewrite (timerIsActive_eq i mgr info (ti_ok _ _ Hinv) Hi Ha). case_bool_decide as Hcb; simpl.
  - rewrite timerSetSuspended_eq by (by exists info). split.
    + apply upd_timer_inv; [done | done | done | done | by exists info|]. intros x Hx. simplify_eq.
      right. left. done.
    + intros j info'. rewrite lookup_upd. case_decide as Hj.
      * subst j. rewrite Hi. intros [= <-]. exists info. done.
      * intros Hl. exists info'. split; [done|]. split; [done|]. split; [done|]. congruence.
  - split; [done|]. intros j info' Hl. exists info'. split; [done|]. split; [done|].
    split; [done|]. intros [= <-] Hne. assert (info' = info) as -> by congruence.
    destruct Hcb. destruct (m_timeoutCb info); [eauto | done].
Qed.

(** The state of the loop, started in [s1], before entry [i]. *)
Definition suspending (s1 : ClientImpl) (i : nat) (s : ClientImpl) : Prop :=
  ∃ mgr, s = set_timerMgr mgr s1 ∧ TimerInv (shapes s1) mgr ∧
  ∀ j a t o k info, j < i → m_ops s1 !! j = Some (Some a) →
    g_store s1 !! a = Some (MkOp t (DSend o)) → so_responseTimer o = Some k →
    m_timers mgr !! k = Some info → m_timeoutCb info ≠ None → m_suspended info = true.

Lemma wp_connectivityChanged_quiet s1 i a o s :
  Inv s1 → ses_connected (m_sessionState s1) = false → m_ops s1 !! i = Some (Some a) →
  g_store s1 !! a = Some o → is_send_or_recv (Op_type o) = true → suspending s1 i s →
  wp only_assert (Op_connectivityChanged a)
    (λ _ s', suspending s1 (S i) s' ∧ g_opsChanges s' = g_opsChanges s) s.
Proof.
  intros Hs1 Hcon Hi Ho HT (mgr & -> & Hinv & Hsus).
  set (s := set_timerMgr mgr s1).
  assert (link_down s = true) as Hdown by (unfold link_down; simpl; by rewrite Hcon).
  assert (∀ tm, tm ∈ held_timers (op_derived o) →
    wp only_assert (on_timerMgr (Timer_setSuspended tm true)) (λ _ s', ∃ mgr',
      s' = set_timerMgr mgr' s1 ∧ TimerInv (shapes s1) mgr' ∧
      ∀ k info', m_timers mgr' !! k = Some info' → ∃ info, m_timers mgr !! k = Some info ∧
        m_timeoutCb info' = m_timeoutCb info ∧
        (m_suspended info = true → m_suspended info' = true) ∧
        (tm = Some k → m_timeoutCb info ≠ None → m_suspended info' = true)) s) as Hsuspend.
  { intros tm Htm. apply wp_zoom. eapply wp_mono; [apply (wp_suspend (shapes s1)); [done|]|].
    { intros k ->. eapply (ti_held _ _ Hinv a); [by apply shapes_lookup | done]. }
    intros [] mgr' [? ?]. by exists mgr'. }
  assert (∀ b, (∀ t so k info, o = MkOp t (DSend so) → so_responseTimer so = Some k →
      m_timers (m_timerMgr b) !! k = Some info → m_timeoutCb info ≠ None →
      m_suspended info = true) →
    (∃ mgr', b = set_timerMgr mgr' s1 ∧ TimerInv (shapes s1) mgr' ∧
      ∀ k info', m_timers mgr' !! k = Some info' → ∃ info, m_timers mgr !! k = Some info ∧
        m_timeoutCb info' = m_timeoutCb info ∧
        (m_suspended info = true → m_suspended info' = true)) →
    suspending s1 (S i) b ∧ g_opsChanges b = g_opsChanges s) as Hend.
  { intros b Hnew (mgr' & -> & Hinv' & Hmono). split; [|done]. exists mgr'.
    split; [done|]. split; [done|]. intros j c t so k info' Hj Hjc Hc Hk Hl Hcb.
    destruct (decide (j = i)) as [->|].
    - assert (c = a) as -> by congruence. eapply (Hnew t so k info'); [congruence | done..].
    - destruct (Hmono k info' Hl) as (info & Hl0 & Ecb & Hs). apply Hs.
      eapply (Hsus j c t so k info); [lia | done..|congruence]. }
  unfold Op_connectivityChanged. apply wp_bind. eapply (wp_get_base_live _ a o); [done|].
  destruct o as [t [c|c|c|c|c|c|c]]; try done; cbn.
  - unfold RecvOp_connectivityChangedImpl. apply wp_when; intros _.
    + apply wp_bind, wp_gets. rewrite Hdown. apply wp_bind.
      eapply (wp_get_op_live _ a t c); [done|].
      eapply wp_mono; [apply Hsuspend; simpl; set_solver|].
      intros [] s' (mgr' & -> & Hinv' & Hmono). apply Hend; [done|].
      exists mgr'. split; [done|]. split; [done|]. intros k info' Hl.
      destruct (Hmono k info' Hl) as (info & ? & ? & ? & _). by exists info.
    + apply Hend; [done|]. exists mgr. split; [done|]. split; [done|]. intros k info Hl.
      by exists info.
  - unfold SendOp_connectivityChangedImpl. apply wp_bind, wp_gets. rewrite Hdown. apply wp_bind.
    eapply (wp_get_op_live _ a t c); [done|].
    eapply wp_mono; [apply Hsuspend; simpl; set_solver|].
    intros [] s' (mgr' & -> & Hinv' & Hmono). apply Hend.
    + intros t' so k info' [= <- <-] Hk Hl Hcb.
      destruct (Hmono k info' Hl) as (info & Hl0 & Ecb & _ & Hs). apply Hs; congruence.
    + exists mgr'. split; [done|]. split; [done|]. intros k info' Hl.
      destruct (Hmono k info' Hl) as (info & ? & ? & ? & _). by exists info.
Qed.

Lemma wp_connectivity_loop_quiet s1 :
  Inv s1 → ses_connected (m_sessionState s1) = false →
  (∀ a o, g_store s1 !! a = Some o → is_send_or_recv (Op_type o) = true) →
  wp only_assert
    (range_for m_ops g_opsChanges (λ op,
       match op with None => mret tt | Some a => Op_connectivityChanged a end))
    (λ _ s', suspending s1 (length (m_ops s1)) s') s1.
Proof.
  intros Hs1 Hcon Hall.
  apply (wp_range_for only_assert m_ops g_opsChanges _ (suspending s1)).
  - intros i s p Hi Hp. pose proof Hi as (mgr & Es & _). subst s. simpl in Hp.
    destruct p as [a|].
    + destruct (entry_live s1 i a Hs1 Hp) as [o Ho].
      eapply wp_connectivityChanged_quiet; eauto.
    + apply wp_ret. split; [|done]. destruct Hi as (mgr' & E & Hinv & Hsus).
      exists mgr'. split; [done|]. split; [done|]. intros j a t o k info Hj Hja.
      destruct (decide (j = i)) as [->|]; [congruence | apply (Hsus j a t o k info ltac:(lia) Hja)].
  - by intros i s (mgr & -> & _).
  - exists (m_timerMgr s1). split; [by destruct s1|].
    split; [apply (oi_timers _ (inv_obj _ Hs1))|]. lia.
Qed.

(** ** The whole function *)

(** The members that a disconnection leaves alone. *)
Definition unaffected (s s' : ClientImpl) : Prop :=
  length (m_ops s') = length (m_ops s) ∧ g_opsChanges s' = g_opsChanges s ∧
  g_sendOpsPushes s' = g_sendOpsPushes s ∧ m_callbacks s' = m_callbacks s.

Lemma wp_brokerDisconnected_quiet reason status s :
  Inv s → has_brokerDisconnectReportCb (m_callbacks s) = true →
  wp only_assert (brokerDisconnected reason status) (λ _ s',
    Inv s' ∧ m_initialized (m_clientState s') = false ∧
    ses_connected (m_sessionState s') = false ∧ ses_disconnecting (m_sessionState s') = true ∧
    (∀ a o, g_store s' !! a = Some o ↔
      g_store s !! a = Some o ∧ is_send_or_recv (Op_type o) = true) ∧
    g_trace s' = g_trace s ++ termination_events status s (m_ops s) ++
      (if bool_decide (reason = BrokerDisconnectReason_ValuesLimit) then []
       else [EvBrokerDisconnectReport reason]) ∧
    sends_suspended s' ∧ unaffected s s') s.
Proof.
  intros Hs Hcb. unfold brokerDisconnected.
  apply wp_bind, wp_zoom, wp_modify. apply wp_bind, wp_modify. apply wp_bind, wp_modify.
  set (s0 := set_sessionState _ _).
  assert (Inv s0) as Hs0 by (by apply (core_inv s)).
  apply wp_bind. eapply wp_mono; [by apply wp_terminateOps_quiet|].
  intros [] s1 [Hs1 Hlen _ Hlive Hkept Hdone Htr Hby]. simpl in Hdone, Htr.
  rewrite firstn_all in Htr. injection Hby. intros Enet Efirst Einit Epush Ech _ _ Eses _ Ecbs.
  simpl in Enet, Efirst, Einit, Epush, Ech, Eses, Ecbs, Hlen.
  assert (∀ a o, g_store s1 !! a = Some o → is_send_or_recv (Op_type o) = true) as Hall.
  { intros a o Ho. assert (is_Some (shapes s0 !! a)) as Hx.
    { rewrite (shapes_lookup _ _ _ (Hlive _ _ Ho)). eauto. }
    apply (li_ops _ _ _ (inv_ops _ Hs0)) in Hx as [j Hj]%list_elem_of_lookup.
    eapply (Hdone j a o); [by eapply lookup_lt_Some in Hj | done | done]. }
  apply wp_bind. eapply wp_mono; [apply wp_connectivity_loop_quiet; [done | by rewrite Eses | done]|].
  intros [] s2 (mgr & -> & Hinv & Hsus).
  assert (∀ s3, s3 = set_timerMgr mgr s1 →
    Inv s3 ∧ m_initialized (m_clientState s3) = false ∧
    ses_connected (m_sessionState s3) = false ∧ ses_disconnecting (m_sessionState s3) = true ∧
    (∀ a o, g_store s3 !! a = Some o ↔
      g_store s !! a = Some o ∧ is_send_or_recv (Op_type o) = true) ∧
    g_trace s3 = g_trace s ++ termination_events status s (m_ops s) ∧ sends_suspended s3 ∧
    unaffected s s3) as Hend.
  { intros s3 ->. split; [by apply inv_set_timerMgr|]. simpl. rewrite Einit, Eses.
    split; [done|]. split; [done|]. split; [done|]. split.
    { intros a o. split; [intros Ho; split; [by apply Hlive | by eapply Hall] |].
      intros [Ho HT]. by apply Hkept. }
    split; [done|]. split; [|by split_and!].
    intros a t o k info Ha Hk Hl Hc. simpl in Ha, Hl.
    assert (is_Some (shapes s1 !! a)) as Hx by (rewrite (shapes_lookup _ _ _ Ha); eauto).
    apply (li_ops _ _ _ (inv_ops _ Hs1)) in Hx as [j Hj]%list_elem_of_lookup.
    eapply (Hsus j a t o k info); [by eapply lookup_lt_Some in Hj | done..]. }
  destruct (Hend _ eq_refl) as (Hi & E1 & E2 & E3 & E4 & E5 & E6 & E7).
  case_bool_decide.
  - apply wp_ret. rewrite app_nil_r. done.
  - apply wp_bind, wp_gets. simpl. rewrite Ecbs, Hcb. unfold must_callback.
    apply wp_bind, wp_comms_assert_true; [done|]. apply wp_quiet_callback.
    split; [by apply log_inv|]. simpl in *. rewrite E5, app_assoc. done.
Qed.

(** ** Properties *)

(** C26: when the broker is found disconnected, the client has no undefined
    behaviour whatever state it is in; afterwards it is not connected, requires
    initialisation again and refuses to be used before it; exactly the operations
    other than publishes and receptions are gone, each after its callback with the
    given status, in the order of their creation, followed by the report to the
    application if there is a reason; publishes and receptions are as before,
    except that the response timer of every publish is suspended. *)
Theorem brokerDisconnected_outcome reason status s :
  Inv s → has_brokerDisconnectReportCb (m_callbacks s) = true →
  wp only_assert (brokerDisconnected reason status) (λ _ s',
    Inv s' ∧ m_initialized (m_clientState s') = false ∧
    ses_connected (m_sessionState s') = false ∧ ses_disconnecting (m_sessionState s') = true ∧
    (∀ a o, g_store s' !! a = Some o ↔
      g_store s !! a = Some o ∧ is_send_or_recv (Op_type o) = true) ∧
    g_trace s' = g_trace s ++ termination_events status s (m_ops s) ++
      (if bool_decide (reason = BrokerDisconnectReason_ValuesLimit) then []
       else [EvBrokerDisconnectReport reason]) ∧
    sends_suspended s') s.
Proof.
  intros Hs Hcb. eapply wp_mono; [by apply wp_brokerDisconnected_quiet|].
  intros [] s' (? & ? & ? & ? & ? & ? & ? & _). done.
Qed.
End Disconnect.

(** ** Witness *)

(** A subscription and a publish in progress. *)
Definition busy_requests : list Request :=
  rq_session ++ [RqSubscribePrepare;
    RqSubscribeConfigTopic 3 {| st_topic := Some "t"; st_maxQos := 2 |};
    RqSubscribeSend 3 (Some 7)] ++ rq_publish 4 1.

Definition busy_state : ClientImpl :=
  state_of DefaultConfig (run_script busy_requests (ClientImpl_new (H := DefaultConfig))).

Lemma busy_state_Inv : Inv (H := DefaultConfig) busy_state.
Proof.
  apply (reachable_Inv (H := DefaultConfig) (H0 := ExampleComms) (H1 := ExampleComms_laws)
    (H2 := ExampleScript) 2).
  apply (reachable_run (H := DefaultConfig) (H0 := ExampleComms) 2 busy_requests
    (ClientImpl_new (H := DefaultConfig)));
    [apply (reachable_new (H := DefaultConfig) (H0 := ExampleComms)) | vm_compute; reflexivity].
Qed.

Example brokerDisconnected_outcome_witness :
  m_ops busy_state = [Some 2; Some 3; Some 4] ∧
  termination_events AsyncOpStatus_BrokerDisconnected busy_state (m_ops busy_state) =
    [EvSubscribeComplete 3 7 AsyncOpStatus_BrokerDisconnected None] ∧
  wp only_assert
    (brokerDisconnected (H := DefaultConfig) (H0 := ExampleComms) (H1 := QuietApp)
       BrokerDisconnectReason_NoBrokerResponse AsyncOpStatus_BrokerDisconnected)
    (λ _ s', (∀ a o, g_store s' !! a = Some o ↔
        g_store busy_state !! a = Some o ∧ is_send_or_recv (Op_type o) = true) ∧
      sends_suspended s') busy_state.
Proof.
  split; [vm_compute; reflexivity|]. split; [vm_compute; reflexivity|].
  eapply wp_mono.
  - apply (brokerDisconnected_outcome (H := DefaultConfig) (H0 := ExampleComms) (H1 := QuietApp));
      [intros e s; reflexivity | exact busy_state_Inv | vm_compute; reflexivity].
  - intros u s' Hout. destruct Hout as (_ & _ & _ & _ & Hst & _ & Hsus).
    split; [exact Hst | exact Hsus].
Defined.
