(* ===== verification/Ticking.v ===== *)
(** * A tick is programmed as long as a timer runs

    The library has no clock: [doApiExit] (client/lib/src/ClientImpl.cpp) asks the
    application for a tick after the time until the first timer, [doApiEnter] cancels
    the wait and takes the elapsed time.  The calls that do not enter the guard leave
    the wait as it is; the file shows that it then still comes in time. *)

From S2P Require Import Prelude SortedVec Config Protocol Topic PacketId TimerMgr State.
From S2P Require Import Lifecycle Completion Session SendOp RecvOp SubscribeOp ConnectOp.
From S2P Require Import Client Invariant Objects Termination Frame Ownership Preservation.
From S2P Require Import Scenarios Requests Safety Disconnect.

(** ** The timer of the application *)

(** The wait of the application: a new one replaces the one that is pending. *)
Definition wait_step (wait : option Z) (e : Event) : option Z :=
  match e with
  | EvNextTickProgram duration => Some duration
  | EvCancelNextTickWait => None
  | _ => wait
  end.

Definition wait_after (wait : option Z) (evs : list Event) : option Z := foldl wait_step wait evs.

Definition is_tick (r : Request) : bool := match r with RqTick _ => true | _ => false end.

(** The requests of an application with the wait that is pending: a tick uses it up. *)
Fixpoint run_waiting `{Config} `{CommsLib} `{App} (rs : list Request) (wait : option Z)
    : M ClientImpl (option Z) :=
  match rs with
  | [] => mret wait
  | r :: rs' =>
      tr ← gets g_trace;
      run_request r ;;
      tr' ← gets g_trace;
      run_waiting rs'
        (wait_after (if is_tick r then None else wait) (drop (length tr) tr'))
  end.

(** If a timer runs, the wait that is pending ends no later than the timer. *)
Definition programmed (wait : option Z) (s : ClientImpl) : Prop :=
  getMinWait (m_timerMgr s) ≠ 0%Z →
  ∃ d, wait = Some d ∧ (d ≤ getMinWait (m_timerMgr s))%Z.

(** ** The time until the first timer *)

Section min_wait.
  Context {Cb : Type}.
  Implicit Types (mgr : TimerMgr Cb).

Definition runs mgr (i : nat) (info : TimerInfo Cb) : Prop :=
  m_timers mgr !! i = Some info ∧ timer_skipped info = false.

(** No timer runs sooner, and there are no fewer of them. *)
Record no_sooner mgr mgr' : Prop := {
  ns_runs : ∀ i info', runs mgr' i info' →
    ∃ info, runs mgr i info ∧ (m_timeoutMs info ≤ m_timeoutMs info')%Z;
  ns_length : length (m_timers mgr) ≤ length (m_timers mgr');
}.

#[export] Instance no_sooner_preorder : PreOrder no_sooner.
Proof.
  split; [intros mgr; split; eauto using Z.le_refl|].
  intros m1 m2 m3 [Hr Hl] [Hr' Hl']. split; [|lia]. intros i x (y & Hy & Hle)%Hr'.
  destruct (Hr _ _ Hy) as (z & Hz & Hle'). exists z. split; [done | lia].
Qed.

(** The test of [getMinWait] tells that no timer runs. *)
Definition nothing_due mgr : bool :=
  negb (getMinWait mgr =? 0)%Z || forallb timer_skipped (m_timers mgr).

Definition min_timeout mgr : Z :=
  foldl (λ result info, if timer_skipped info then result else Z.min result (m_timeoutMs info))
    u64_max (m_timers mgr).

Lemma getMinWait_min mgr :
  getMinWait mgr = (if (m_allocatedTimers mgr =? 0) || (min_timeout mgr =? u64_max) then 0
                    else Z.min (min_timeout mgr) u32_max)%Z.
Proof. unfold getMinWait, min_timeout. by destruct (_ =? 0)%Z, (_ =? u64_max)%Z. Qed.

Lemma min_timeout_le mgr i info :
  runs mgr i info → (min_timeout mgr ≤ m_timeoutMs info)%Z.
Proof.
  intros [Hi Hs]. destruct (min_fold_spec u64_max (m_timers mgr)) as (_ & Hall & _).
  rewrite Forall_lookup in Hall. by apply (Hall i).
Qed.

Lemma min_timeout_cases mgr :
  min_timeout mgr = u64_max ∨ ∃ i info, runs mgr i info ∧ min_timeout mgr = m_timeoutMs info.
Proof.
  destruct (min_fold_spec u64_max (m_timers mgr)) as (_ & _ & [|Hex]); [by left | right].
  apply Exists_exists in Hex as (info & [i Hi]%list_elem_of_lookup & Hs & Hm). by exists i, info.
Qed.

Lemma min_timeout_mono mgr mgr' :
  (∀ i info', runs mgr' i info' →
    ∃ info, runs mgr i info ∧ (m_timeoutMs info ≤ m_timeoutMs info')%Z) →
  (min_timeout mgr ≤ min_timeout mgr')%Z.
Proof.
  intros Hns. destruct (min_timeout_cases mgr') as [->|(i & info' & Hr & ->)].
  - apply (min_fold_spec u64_max (m_timers mgr)).
  - destruct (Hns i info' Hr) as (info & Hi & Hle). apply min_timeout_le in Hi. lia.
Qed.

(** A wait that covers the timers covers those that run later. *)
Lemma no_sooner_wait mgr mgr' :
  no_sooner mgr mgr' → nothing_due mgr = true → getMinWait mgr' ≠ 0%Z →
  getMinWait mgr ≠ 0%Z ∧ (getMinWait mgr ≤ getMinWait mgr')%Z.
Proof.
  intros Hns Hdue Hw. pose proof (min_timeout_mono _ _ (ns_runs _ _ Hns)) as Hle.
  assert (getMinWait mgr ≠ 0%Z) as Hnz.
  { intros Hz. unfold nothing_due in Hdue. rewrite Hz in Hdue. simpl in Hdue.
    rewrite forallb_forall in Hdue. rewrite getMinWait_min in Hw.
    destruct (min_timeout_cases mgr') as [Hm|(i & info' & Hr & _)].
    - rewrite Hm, Z.eqb_refl, orb_true_r in Hw. done.
    - destruct (ns_runs _ _ Hns _ _ Hr) as (info & [Hi Hs] & _).
      rewrite Hdue in Hs; [done|]. apply list_elem_of_In. by eapply list_elem_of_lookup_2. }
  split; [done|]. rewrite getMinWait_min in Hw, Hnz |- *. rewrite (getMinWait_min mgr').
  repeat case_match; try done. lia.
Qed.

(** Timers that run as before. *)
Lemma same_wait mgr mgr' :
  no_sooner mgr mgr' → (∀ i info, runs mgr i info → runs mgr' i info) →
  timers_ok mgr → timers_small mgr' →
  getMinWait mgr' ≠ 0%Z → getMinWait mgr = getMinWait mgr'.
Proof.
  intros Hns Hns' Hok Hsmall Hw.
  assert (min_timeout mgr = min_timeout mgr') as Hm.
  { pose proof (min_timeout_mono _ _ (ns_runs _ _ Hns)).
    assert (min_timeout mgr' ≤ min_timeout mgr)%Z; [|lia]. apply min_timeout_mono.
    intros i info Hi%Hns'. eauto using Z.le_refl. }
  rewrite getMinWait_min in Hw |- *. rewrite (getMinWait_min mgr'), Hm.
  destruct (min_timeout_cases mgr) as [Hmax|(i & info & [Hi Hs] & _)].
  - rewrite Hm in Hmax. by rewrite Hmax, Z.eqb_refl, orb_true_r in Hw.
  - destruct (Z.eqb_spec (m_allocatedTimers mgr) 0) as [Hz|].
    + rewrite (ok_count _ Hok) in Hz. exfalso.
      pose proof (allocCount_le mgr). pose proof (ns_length _ _ Hns).
      apply timer_skipped_false in Hs as (Ha & _).
      pose proof (allocCount_pos mgr i ltac:(by exists info)).
      unfold timers_small in Hsmall. rewrite u32_small in Hz; lia.
    + by destruct (m_allocatedTimers mgr' =? 0)%Z.
Qed.
End min_wait.

(** ** Functions that start no timer *)

(** Timers that are not allocated have no timeout function. *)
Definition free_idle {Cb} (mgr : TimerMgr Cb) : Prop := ∀ i info,
  m_timers mgr !! i = Some info → m_allocated info = false → m_timeoutCb info = None.

(** Timers run no sooner, or exactly as before. *)
Definition runs_as {Cb} (exact : bool) (mgr mgr' : TimerMgr Cb) : Prop :=
  no_sooner mgr mgr' ∧
  (exact = true → ∀ i info, runs mgr i info → runs mgr' i info).

Lemma runs_as_preorder {Cb} exact : PreOrder (runs_as (Cb := Cb) exact).
Proof.
  split; [by intros mgr; split|]. intros m1 m2 m3 [H1 H1'] [H2 H2'].
  split; [by etrans | auto].
Qed.

Definition idle_timers (Cb : Type) (exact : bool) : Contract (TimerMgr Cb) := {|
  ct_inv := free_idle;
  ct_rel := runs_as exact;
  ct_faults := any_fault;
  ct_pre := runs_as_preorder exact;
|}.

Definition idle_rel (exact : bool) (s s' : ClientImpl) : Prop :=
  runs_as exact (m_timerMgr s) (m_timerMgr s') ∧ g_trace s' = g_trace s.

Lemma idle_rel_preorder exact : PreOrder (idle_rel exact).
Proof.
  pose proof (runs_as_preorder (Cb := TimeoutCb) exact). split; [by intros s; split|].
  intros s1 s2 s3 [H1 H1'] [H2 H2']. split; [by etrans | congruence].
Qed.

Definition idle_contract (exact : bool) : Contract ClientImpl := {|
  ct_inv := λ s, free_idle (m_timerMgr s);
  ct_rel := idle_rel exact;
  ct_faults := any_fault;
  ct_pre := idle_rel_preorder exact;
|}.

Section idle.
  Context `{Config} `{CommsLib} `{App} (exact : bool).
Abbreviation tkeeps := (keeps (Contract0 := idle_timers TimeoutCb exact)).
Abbreviation ikeeps := (keeps (Contract0 := idle_contract exact)).

(** One timer changes, which does not run afterwards, or not sooner. *)
Lemma tkeeps_upd idx (f : TimerInfo TimeoutCb → TimerInfo TimeoutCb) (mgr : TimerMgr TimeoutCb) n :
  (∀ info, m_timers mgr !! idx = Some info → free_idle mgr →
    timer_skipped (f info) = true ∧ (m_allocated (f info) = false → m_timeoutCb (f info) = None) ∧
    (exact = true → timer_skipped info = true)) →
  free_idle mgr → let mgr' := MkTimerMgr (m_timers (upd_timer idx f mgr)) n in
  free_idle mgr' ∧ runs_as exact mgr mgr'.
Proof.
  intros Hf Hmgr mgr'.
  assert (∀ i info', m_timers mgr' !! i = Some info' →
    m_timers mgr !! i = Some info' ∧ i ≠ idx ∨
    i = idx ∧ ∃ info, m_timers mgr !! idx = Some info ∧ info' = f info) as Hl.
  { intros i info'. change (m_timers mgr') with (m_timers (upd_timer idx f mgr)).
    rewrite (lookup_upd idx f mgr i). case_decide as Hi; [|naive_solver].
    intros (info & ? & ->)%fmap_Some. subst. right. eauto. }
  split; [|split; [split|]].
  - intros i info' [[Hi _]|(-> & info & Hi & ->)]%Hl; [by apply (Hmgr i) | by apply Hf].
  - intros i info' [[[Hi _]|(-> & info & Hi & ->)]%Hl Hs]; [by exists info'; split|].
    destruct (Hf info Hi Hmgr) as [Hs' _]. congruence.
  - simpl. by rewrite length_alter.
  - intros He i info [Hi Hs]. split; [|done].
    change (m_timers mgr') with (m_timers (upd_timer idx f mgr)). rewrite (lookup_upd idx f mgr i).
    rewrite decide_False; [done|]. intros ->. destruct (Hf info Hi Hmgr) as (_ & _ & Hs').
    rewrite Hs' in Hs; done.
Qed.

Lemma tkeeps_count (mgr : TimerMgr TimeoutCb) n :
  free_idle mgr → let mgr' := MkTimerMgr (m_timers mgr) n in
  free_idle mgr' ∧ runs_as exact mgr mgr'.
Proof.
  intros Hm mgr'. split; [exact Hm|]. split; [|done]. split; [|done].
  intros i info Hr. exists info. by split.
Qed.

Lemma tkeeps_createTimer idx :
  ∀ s, free_idle s → (∀ info, m_timers s !! idx = Some info → m_allocated info = false) →
  wp any_fault (createTimer (Cb := TimeoutCb) idx) (λ _ s', free_idle s' ∧ runs_as exact s s') s.
Proof.
  intros s Hs Hfree. apply wp_bind, wp_modify. apply wp_bind, wp_modify. apply wp_ret.
  apply tkeeps_upd; [|done]. intros info Hi _. specialize (Hfree info Hi).
  assert (m_timeoutCb info = None) as Hn by by eapply Hs.
  unfold timer_skipped. simpl. rewrite Hn, Hfree. split_and!; auto.
Qed.

Lemma tkeeps_allocTimer : tkeeps allocTimer.
Proof.
  intros s Hs. unfold allocTimer.
  assert (wp any_fault (allocTimer_grow (Cb := TimeoutCb)) (λ _ s', free_idle s' ∧ runs_as exact s s') s)
    as Hgrow.
  { unfold allocTimer_grow. apply wp_bind, wp_gets. destruct (at_max_size _ _);
      [by apply wp_ret; split; [|apply runs_as_preorder]|].
    apply wp_bind, wp_modify.
    set (s1 := MkTimerMgr (m_timers s ++ [TimerInfo_new]) (m_allocatedTimers s)).
    assert (∀ i info, m_timers s1 !! i = Some info → m_timers s !! i = Some info ∨ info = TimerInfo_new)
      as Hl.
    { intros i info [Hi|[_ Hi]]%lookup_app_Some; [by left | right].
      by apply list_lookup_singleton_Some in Hi as [_ <-]. }
    assert (runs_as exact s s1) as Hs1.
    { split; [split|].
      - intros i info [[Hi| ->]%Hl Hr]; [by exists info; split | done].
      - simpl. rewrite length_app. lia.
      - intros _ i info [Hi Hr]. split; [|done]. simpl. by apply lookup_app_l_Some. }
    eapply wp_mono; [apply (tkeeps_createTimer (length (m_timers s)))|].
    - intros i info [Hi| ->]%Hl; [by apply (Hs i) | done].
    - intros info. simpl. by rewrite lookup_app_r, Nat.sub_diag by lia; intros [= <-].
    - intros t s' [Hs' Hr]. split; [done|]. by eapply (runs_as_preorder exact). }
  apply wp_bind, wp_gets. destruct (_ <? _)%Z; [|exact Hgrow].
  destruct (list_find _ _) as [[idx info]|] eqn:Hfind.
  - apply list_find_Some in Hfind as (Hi & Hfree & _). apply tkeeps_createTimer; [done|].
    intros x Hx. by simplify_eq.
  - by apply wp_bind, wp_comms_assert.
Qed.

Lemma tkeeps_destroy l : exact = false → tkeeps (mapM_ Timer_destroy l).
Proof.
  intros He. apply keeps_mapM_. intros [idx|]; [|apply keeps_ret]. simpl. unfold freeTimer.
  intros s Hs. apply wp_bind, wp_gets, wp_bind, wp_comms_assert; [done|].
  destruct (timer_at s _) as [[j info]|]; [|by apply wp_ret; split; [|apply runs_as_preorder]].
  apply wp_bind, wp_comms_assert; [done|]. apply wp_bind, wp_comms_assert; [done|].
  apply wp_bind, wp_modify, wp_modify. apply tkeeps_upd; [|done]. intros x _ _. by rewrite He.
Qed.

Lemma ikeeps_modify f :
  (∀ s, m_timerMgr (f s) = m_timerMgr s) → (∀ s, g_trace (f s) = g_trace s) → ikeeps (modify f).
Proof.
  intros Ht Htr. apply keeps_modify. intros s Hs. simpl. unfold idle_rel. rewrite Ht, Htr.
  split; [done|]. split; [apply runs_as_preorder | done].
Qed.

Lemma ikeeps_timerMgr {A} (m : M (TimerMgr TimeoutCb) A) : tkeeps m → ikeeps (on_timerMgr m).
Proof.
  intros Hm s Hs. apply wp_zoom. eapply wp_mono; [by apply Hm|]. intros a mgr [Hmgr Hr].
  split; [done | by split].
Qed.

Lemma ikeeps_clientState {A} (m : M ClientState A) : ikeeps (on_clientState m).
Proof.
  intros s Hs. unfold wp, on_clientState, zoom. destruct (m _) as [a c|]; [|done].
  split; [done|]. split; [apply runs_as_preorder | done].
Qed.

Lemma ikeeps_comms_assert b : ikeeps (comms_assert b).
Proof. by apply keeps_comms_assert. Qed.

Lemma ikeeps_get_base a : ikeeps (get_base a).
Proof. unfold get_base. by repeat first [keeps_step | apply keeps_throw]. Qed.

Lemma ikeeps_get_op {T} `{Subclass T} a : ikeeps (get_op (T := T) a).
Proof. unfold get_op. by repeat first [apply ikeeps_get_base | keeps_step | apply keeps_throw]. Qed.

Lemma ikeeps_modify_op {T} `{Subclass T} a (f : T → T) : ikeeps (modify_op a f).
Proof. apply keeps_bind; [apply ikeeps_get_op|]. intros o. by apply ikeeps_modify. Qed.

Ltac ikeeps_auto := repeat first
  [ apply ikeeps_get_base | apply ikeeps_get_op | apply ikeeps_modify_op
  | apply ikeeps_comms_assert | apply ikeeps_clientState | by apply ikeeps_modify
  | by apply ikeeps_timerMgr, tkeeps_allocTimer | by apply keeps_throw | assumption | keeps_step ].

Lemma ikeeps_alloc T : T ≠ Type_KeepAlive → ikeeps (ObjAllocator_alloc T).
Proof.
  intros HT. unfold ObjAllocator_alloc, Op_new, ConnectOp_new, DisconnectOp_new, SubscribeOp_new,
    UnsubscribeOp_new, RecvOp_new, SendOp_new, new_object. by destruct T; ikeeps_auto.
Qed.

Lemma ikeeps_push_op T a : ikeeps (push_op T a).
Proof. unfold push_op, push_back_check, set_ops_of. ikeeps_auto. Qed.

Lemma ikeeps_finish_prepare T : T ≠ Type_KeepAlive → ikeeps (finish_prepare T).
Proof.
  intros HT. pose proof (ikeeps_alloc T HT). pose proof (ikeeps_push_op T).
  unfold finish_prepare, refuse. ikeeps_auto. by apply ikeeps_push_op.
Qed.

Lemma ikeeps_destroy a : exact = false → ikeeps (Op_destroy a).
Proof.
  intros He. unfold Op_destroy. ikeeps_auto. by apply ikeeps_timerMgr, tkeeps_destroy.
Qed.

Lemma ikeeps_erase a T : exact = false → ikeeps (eraseFromList a T).
Proof.
  intros He. unfold eraseFromList, set_ops_of. ikeeps_auto. by apply ikeeps_destroy.
Qed.

(** A completion that resumes nothing. *)
Lemma ikeeps_opComplete_with a : exact = false → ikeeps (opComplete_with (λ _, mret tt) a).
Proof.
  intros He. unfold opComplete_with, opComplete_Send_with. ikeeps_auto; by apply ikeeps_erase.
Qed.

Lemma ikeeps_allowNextPrepare : ikeeps allowNextPrepare.
Proof. unfold allowNextPrepare. ikeeps_auto. Qed.

Lemma ikeeps_prepare :
  ikeeps disconnectPrepare ∧ ikeeps subscribePrepare ∧ ikeeps unsubscribePrepare ∧
  (exact = false → ikeeps publishPrepare).
Proof.
  unfold disconnectPrepare, subscribePrepare, unsubscribePrepare, subscribePrepare_of,
    publishPrepare, ops_full, refuse.
  split_and!; intros; ikeeps_auto; try (by apply ikeeps_finish_prepare);
    try (by apply ikeeps_alloc); try (by apply ikeeps_destroy); by apply ikeeps_push_op.
Qed.

Lemma ikeeps_configs a :
  (∀ c, ikeeps (ConnectOp_config a c)) ∧ (∀ c, ikeeps (ConnectOp_configWill a c)) ∧
  (∀ c, ikeeps (SubscribeOp_configTopic a c)) ∧ (∀ c, ikeeps (UnsubscribeOp_configTopic a c)) ∧
  (∀ c, ikeeps (SendOp_config a c)) ∧ (∀ n, ikeeps (SendOp_setResendAttempts a n)) ∧
  (∀ ms, ikeeps (Op_setResponseTimeout a ms)).
Proof.
  unfold ConnectOp_config, ConnectOp_configWill, SubscribeOp_configTopic,
    UnsubscribeOp_configTopic, SendOp_config, SendOp_setResendAttempts, Op_setResponseTimeout,
    ConnectOp_modifyMsg. split_and!; intros; cbv zeta; ikeeps_auto.
Qed.

Lemma ikeeps_setters :
  (∀ ms, ikeeps (client_set_default_response_timeout ms)) ∧
  (∀ b, ikeeps (client_set_verify_outgoing_topic_enabled b)) ∧
  (∀ b, ikeeps (client_set_verify_incoming_topic_enabled b)) ∧
  (∀ b, ikeeps (client_set_verify_incoming_msg_subscribed b)) ∧
  (∀ o, ikeeps (setPublishOrdering o)) ∧ (∀ cbs, ikeeps (set_client_callbacks cbs)).
Proof.
  unfold client_set_default_response_timeout, client_set_verify_outgoing_topic_enabled,
    client_set_verify_incoming_topic_enabled, client_set_verify_incoming_msg_subscribed,
    setPublishOrdering, set_client_callbacks. split_and!; intros; ikeeps_auto.
Qed.
End idle.

(** ** The guard programs the tick *)

Definition has_tick (s : ClientImpl) : Prop := has_nextTickProgramCb (m_callbacks s) = true.

(** The callback for the tick stays set. *)
Definition tick_contract : Contract ClientImpl := {|
  ct_inv := has_tick;
  ct_rel := λ _ _, True;
  ct_faults := any_fault;
  ct_pre := any_step_preorder;
|}.

(** The last that the application hears is the time until the first timer. *)
Definition programs (s s' : ClientImpl) : Prop :=
  g_trace s `prefix_of` g_trace s' ∧
  (getMinWait (m_timerMgr s') ≠ 0%Z → ∃ tr, g_trace s `prefix_of` tr ∧
    g_trace s' = tr ++ [EvNextTickProgram (getMinWait (m_timerMgr s'))]).

(** Between two calls of the API. *)
Definition at_rest `{Config} (s : ClientImpl) : Prop :=
  Inv s ∧ has_tick s ∧ m_apiEnterCount s = 0%Z.

Section Ticking.
  Context `{Config} `{CommsLib} `{!CommsLaws} `{App} `{!AppContract}.
  Context (Hprogram : ∀ ms s, last (g_trace s) = Some (EvNextTickProgram ms) →
    wp any_fault (app_react (EvNextTickProgram ms)) (λ _ s', s' = s) s).
  Context (Happ : ∀ e, keeps (Contract0 := tick_contract) (app_react e)).
Abbreviation nkeeps := (keeps (Contract0 := tick_contract)).
Abbreviation ikeeps := (keeps (Contract0 := idle_contract false)).

Lemma nkeeps_modify f :
  (∀ s, has_nextTickProgramCb (m_callbacks s) → has_nextTickProgramCb (m_callbacks (f s))) →
  nkeeps (modify f).
Proof.
  intros Hf. apply keeps_modify. intros s Hs. split; [|done]. unfold ct_inv, has_tick in *. simpl in *.
  apply Is_true_true. apply Hf. by apply Is_true_true.
Qed.

Lemma nkeeps_clientState {A} (m : M ClientState A) : nkeeps (on_clientState m).
Proof. intros s Hs. unfold wp, on_clientState, zoom. by destruct (m _). Qed.

Lemma nkeeps_timerMgr {A} (m : M (TimerMgr TimeoutCb) A) : nkeeps (on_timerMgr m).
Proof. intros s Hs. unfold wp, on_timerMgr, zoom. by destruct (m _). Qed.

#[local] Instance tick_stable : Stable tick_contract.
Proof.
  split; try (intros; apply nkeeps_clientState); try done.
  - intros. by apply nkeeps_modify.
  - intros e _. apply keeps_bind; [by apply nkeeps_modify | done].
  - intros A m _. apply nkeeps_timerMgr.
  - intros topic. unfold store_filter. keeps_auto. by apply nkeeps_modify.
Qed.

Lemma nkeeps_resume idx : nkeeps (resumeSendOpsSince idx).
Proof. by apply (fkeeps_resumeSendOpsSince_bound tick_contract). Qed.

Lemma nkeeps_resend a : nkeeps (resendAllUntil a).
Proof. by apply (fkeeps_resendAllUntil_bound tick_contract nkeeps_resume). Qed.

Lemma nkeeps_report info : nkeeps (reportMsgInfo info).
Proof.
  unfold reportMsgInfo, must_callback, callback. keeps_auto;
    first [by apply keeps_comms_assert | by apply nkeeps_modify | by apply keeps_throw].
Qed.

Lemma nkeeps_run_request r : nkeeps (run_request r).
Proof.
  apply (stable_run_request tick_contract nkeeps_resume nkeeps_resend nkeeps_report
    (λ _, nkeeps_clientState _)). by left.
Qed.

(** [doApiExit] at the end of the outermost call. *)
Lemma wp_doApiExit_programs s :
  has_tick s → wp any_fault doApiExit (λ _ s', m_apiEnterCount s' = 0%Z → programs s s') s.
Proof.
  intros Hs. unfold doApiExit. apply wp_bind, wp_gets, wp_bind, wp_comms_assert; [done|].
  apply wp_bind, wp_modify, wp_bind, wp_gets. set (s1 := set_apiEnterCount _ s).
  destruct (Z.ltb_spec 0 (m_apiEnterCount s1)) as [Hlt|_].
  { apply wp_ret. intros Hz. lia. }
  apply wp_bind. eapply (wp_mono _ _ (λ _ s2, has_tick s2 ∧ g_trace s2 = g_trace s)).
  { unfold cleanOps. apply wp_bind, wp_gets. by destruct (negb _); [apply wp_ret|]. }
  intros _ s2 [Hs2 Htr]. apply wp_bind, wp_gets. unfold compose. rewrite Hs2. cbn [negb].
  apply wp_bind, wp_gets. destruct (Z.eqb_spec (getMinWait (m_timerMgr s2)) 0) as [Hz|_].
  { apply wp_ret. intros _. unfold programs. by rewrite Htr, Hz. }
  unfold callback. apply wp_bind, wp_modify.
  eapply wp_mono; [apply Hprogram; simpl; by rewrite last_snoc|]. intros [] s3 -> _.
  split; [simpl; rewrite Htr; by apply prefix_app_r|]. intros _. exists (g_trace s2).
  by split; [rewrite Htr|].
Qed.

(** The guard of the outermost call, from its entry on. *)
Lemma wp_exit_programs s s2 :
  at_rest s → Inv s2 → has_tick s2 → g_trace s `prefix_of` g_trace s2 →
  m_apiEnterCount s2 = u32 (0 + 1) →
  wp any_fault doApiExit (λ _ s', at_rest s' ∧ programs s s') s2.
Proof.
  intros _ Hi Hs Hp Hc.
  pose proof (fkeeps_doApiExit tick_contract s2 Hs) as Hn.
  eapply wp_mono; [eapply (wp_and _ _ _ _ _ _ (wp_and _ _ _ _ _ _ (wp_doApiExit s2 Hi) Hn)
    (wp_doApiExit_programs s2 Hs))|].
  intros [] s' [[(Hi' & _ & Hc') [Hs' _]] Hpr]. rewrite Hc in Hc'.
  destruct (Hpr Hc') as [Hp' Hw]. split; [done|]. split; [by etrans|].
  intros Hz. destruct (Hw Hz) as (tr & Htr & ->). exists tr. split; [by etrans | done].
Qed.

Lemma wp_with_guard_programs {A} (m : M ClientImpl A) s :
  at_rest s → keeps m → nkeeps m →
  wp any_fault (with_guard m) (λ _ s', at_rest s' ∧ programs s s') s.
Proof.
  intros Hr Hm Hn. pose proof Hr as (Hi & Hs & Hc). unfold with_guard. apply wp_bind.
  pose proof (fkeeps_doApiEnter tick_contract nkeeps_resume s Hs) as Hent.
  eapply wp_mono; [eapply (wp_and _ _ _ _ _ _ (wp_doApiEnter s Hi) Hent)|].
  intros [] s1 [(Hi1 & [_ Hp1 _ _] & Hc1) [Hs1 _]]. apply wp_bind.
  eapply wp_mono; [eapply (wp_and _ _ _ _ _ _ (Hm s1 Hi1) (Hn s1 Hs1))|].
  intros x s2 [[Hi2 Hev2] [Hs2 _]]. apply wp_bind.
  assert (g_trace s `prefix_of` g_trace s2) as Hp2 by (etrans; [exact Hp1 | apply Hev2]).
  assert (m_apiEnterCount s2 = u32 (0 + 1)) as Hc2 by (by rewrite (Invariant.ev_api _ _ Hev2), Hc1, Hc).
  eapply wp_mono; [by apply (wp_exit_programs s s2)|]. intros [] s3 Hs3. by apply wp_ret.
Qed.

Lemma wp_ClientImpl_tick_programs ms s :
  at_rest s → wp any_fault (ClientImpl_tick ms) (λ _ s', at_rest s' ∧ programs s s') s.
Proof.
  intros Hr. pose proof Hr as (Hi & Hs & Hc). unfold ClientImpl_tick.
  apply wp_bind, wp_gets, wp_bind, wp_comms_assert; [done|]. apply wp_bind, wp_modify, wp_bind.
  pose proof (fkeeps_tick tick_contract nkeeps_resume ms) as Hn.
  eapply wp_mono; [eapply (wp_and _ _ _ _ _ _
    (wp_set_api (u32 (m_apiEnterCount s + 1)) _ s Hi (u32_range _) (keeps_TimerMgr_tick ms)))|].
  { by apply Hn. }
  intros [] s1 [(Hi1 & [_ Hp1 _ _] & Hc1) [Hs1 _]].
  apply wp_exit_programs; try done. by rewrite Hc1, Hc.
Qed.

(** ** Before and after the guard *)

(** The operation at [a] is not a publish. *)
Definition not_send (a : addr) (s : ClientImpl) : Prop :=
  a < g_next s ∧ ∀ o, g_store s !! a = Some o → Op_type o ≠ Type_Send.

Lemma not_send_evolves a s s' : evolves s s' → not_send a s → not_send a s'.
Proof.
  intros Hev [Ha Ho]. split; [pose proof (ev_next _ _ Hev); lia|]. intros o' Ho'%shapes_lookup.
  destruct (shapes s !! a) as [x|] eqn:Hx.
  - destruct (ev_same _ _ Hev a _ _ Ha Hx Ho') as [HT _].
    apply shapes_live in Hx as (o & Ho1 & ->). unfold Op_type in *.
    specialize (Ho _ Ho1). simpl in HT. congruence.
  - destruct (ev_dead _ _ Hev a Ha Hx). congruence.
Qed.

(** Steps that start no timer, while an operation that is not a publish is at hand. *)
Definition calm_rel (s s' : ClientImpl) : Prop := evolves s s' ∧ idle_rel false s s'.

Lemma calm_rel_preorder : PreOrder calm_rel.
Proof.
  pose proof (idle_rel_preorder false). split; [by intros s; split|].
  intros s1 s2 s3 [He Hi] [He' Hi']. split; by etrans.
Qed.

Definition calm_contract (P : ClientImpl → Prop) : Contract ClientImpl := {|
  ct_inv := λ s, at_rest s ∧ P s;
  ct_rel := calm_rel;
  ct_faults := any_fault;
  ct_pre := calm_rel_preorder;
|}.

Lemma Inv_free_idle s : Inv s → free_idle (m_timerMgr s).
Proof.
  intros Hs i info Hi Hf. pose proof (ti_ok _ _ (oi_timers _ (inv_obj _ Hs))) as Hok.
  by rewrite (ok_free _ Hok _ _ Hi Hf).
Qed.

Section calm.
  Context (P : ClientImpl → Prop) (HP : ∀ s s', evolves s s' → P s → P s').
Abbreviation ckeeps := (keeps (Contract0 := calm_contract P)).

Lemma ckeeps_calm {A} (m : M ClientImpl A) : keeps m → nkeeps m → ikeeps m → ckeeps m.
Proof.
  intros Hm Hn Hi s [(Hs & Ht & Hc) Hp].
  eapply wp_mono; [eapply (wp_and _ _ _ _ _ _ (wp_and _ _ _ _ _ _ (Hm s Hs) (Hn s Ht))
    (Hi s (Inv_free_idle s Hs)))|].
  intros x s' [[[Hs' Hev] [Ht' _]] [_ Hr]]. split; [|by split]. split; [|by eapply HP].
  split; [done|]. split; [done|]. rewrite <- Hc. apply (ev_api _ _ Hev).
Qed.

(** What a request does, from a state in which the API is at rest: it may start no
    timer only if [idle]. *)
Definition settles_if (idle : Prop) (s s' : ClientImpl) : Prop :=
  at_rest s' ∧ (idle ∧ idle_rel false s s' ∨ programs s s').
Abbreviation settles := (settles_if True).

Lemma settles_calm I s0 s s' : calm_rel s0 s → settles_if I s s' → settles_if I s0 s'.
Proof.
  intros [_ Hr] [Hs' Hw]. split; [done|]. pose proof Hr as [_ Htr].
  destruct Hw as [[HI Hw]|Hw]; [left | right].
  - split; [done|]. by eapply (idle_rel_preorder false).
  - unfold programs in *. by rewrite <- Htr.
Qed.

Lemma settles_refl s : at_rest s → settles s s.
Proof. intros Hs. split; [done|]. left. split; [done | apply idle_rel_preorder]. Qed.

Lemma wp_calm {A} (m : M ClientImpl A) s :
  ckeeps m → at_rest s → P s → wp any_fault m (λ _ s', settles s s') s.
Proof.
  intros Hm Hs Hp. eapply wp_mono; [by apply Hm|]. intros x s' [[Hs' _] [_ Hr]].
  split; [done | by left].
Qed.

Lemma wp_calm_bind {A B} (I : B → Prop) (m : M ClientImpl A) (k : A → M ClientImpl B) s :
  ckeeps m → at_rest s → P s →
  (∀ x s', at_rest s' → P s' → wp any_fault (k x) (λ y s'', settles_if (I y) s' s'') s') →
  wp any_fault (m ≫= k) (λ y s', settles_if (I y) s s') s.
Proof.
  intros Hm Hs Hp Hk. apply wp_bind. eapply wp_mono; [by apply Hm|].
  intros x s' [[Hs' Hp'] Hr]. eapply wp_mono; [by apply Hk|]. intros y s''.
  by apply settles_calm.
Qed.
End calm.

Abbreviation settles := (settles_if True).
Abbreviation ckeeps a := (keeps (Contract0 := calm_contract (not_send a))).

(** A completion that resumes no publish. *)
Lemma wp_opComplete_none a (Q : unit → ClientImpl → Prop) s :
  Inv s → (∀ o, g_store s !! a = Some o → resumes_none o s) →
  wp any_fault (opComplete_with (λ _, mret tt) a) Q s → wp any_fault (opComplete a) Q s.
Proof.
  intros Hs HT. unfold opComplete, opComplete_with, wp, mbind, M_bind, gets, modify.
  destruct (list_find _ _) as [[i p]|] eqn:Hf; [|done].
  apply list_find_Some in Hf as (Hi & -> & _). set (s1 := set_opsDeleted true _).
  destruct (entry_live _ _ _ Hs Hi) as [o Ho]. unfold get_base, mbind, M_bind, gets.
  change (g_store s1) with (g_store s). rewrite Ho. simpl.
  destruct (Op_type o) eqn:HTy; try done.
  unfold opComplete_Send_with, mbind, M_bind.
  assert (Unlinking a s1) as Hul.
  { pose proof Hs as [Hl Hops [Hp Ht Hd] Hapi].
    split; [done | by eapply OpsInv_null | by split | done]. }
  pose proof (shapes_lookup s1 a o Ho) as Ha.
  assert (wp any_fault (eraseFromList a Type_Send) (λ _ s', destroyed a s1 s') s1) as He
    by by eapply (wp_eraseFromList any_fault).
  unfold wp in He. destruct (eraseFromList a Type_Send s1) as [n s2|]; [|done].
  destruct He as (Hs2 & _ & Est & _). unfold gets.
  destruct ((ses_disconnecting ∘ m_sessionState) s2); [done|].
  assert (no_paused s2) as Hnp.
  { destruct (HT o Ho) as [|Hnp]; [done|]. intros b t d. rewrite Est.
    intros [_ Hb]%lookup_delete_Some. by eapply Hnp. }
  pose proof (wp_resumeSendOpsSince_none n s2 Hs2 Hnp) as Hr. unfold wp in Hr.
  destruct (resumeSendOpsSince n s2) as [[] s3|]; [by rewrite Hr | done].
Qed.

Lemma ckeeps_opComplete a : ckeeps a (opComplete a).
Proof.
  intros s [(Hs & Ht & Hc) Hp].
  assert (wp any_fault (opComplete a) (λ _ s', idle_rel false s s') s) as Hidle.
  { apply wp_opComplete_none; [done | by intros o Ho; left; apply Hp|].
    eapply wp_mono; [by apply (ikeeps_opComplete_with false a), Inv_free_idle|]. by intros _ s' [_ ?]. }
  eapply wp_mono; [eapply (wp_and _ _ _ _ _ _ (wp_and _ _ _ _ _ _ (keeps_opComplete a s Hs)
    (fkeeps_opComplete tick_contract nkeeps_resume a s Ht)) Hidle)|].
  intros x s' [[[Hs' Hev] [Ht' _]] Hr]. split; [|by split].
  split; [|by eapply not_send_evolves]. split; [done|]. split; [done|].
  rewrite <- Hc. apply (ev_api _ _ Hev).
Qed.

Lemma ckeeps_ret {A} a (x : A) : ckeeps a (mret x).
Proof. apply keeps_ret. Qed.

Lemma ckeeps_fail {A} a (x : A) : ckeeps a (opComplete a ;; mret x).
Proof. apply keeps_bind; [apply ckeeps_opComplete | intros _; apply ckeeps_ret]. Qed.

(** The steps between. *)
Lemma ckeeps_steps a :
  (∀ A (f : ClientImpl → A), ckeeps a (gets f)) ∧ ckeeps a allowNextPrepare ∧
  ckeeps a (SubscribeOp_allocPacketId a) ∧ ckeeps a (UnsubscribeOp_allocPacketId a) ∧
  (∀ f, ckeeps a (ConnectOp_modifyMsg a f)).
Proof.
  pose proof (not_send_evolves a) as HP.
  split_and!; intros; try apply keeps_gets; apply ckeeps_calm; try done;
    first [apply keeps_allowNextPrepare | apply keeps_SubscribeOp_allocPacketId
      | apply keeps_UnsubscribeOp_allocPacketId | apply keeps_ConnectOp_modifyMsg
      | apply ikeeps_allowNextPrepare
      | apply (fkeeps_SubscribeOp_requests tick_contract) | idtac].
  all: unfold allowNextPrepare, SubscribeOp_allocPacketId, UnsubscribeOp_allocPacketId,
    ConnectOp_modifyMsg.
  all: repeat first [apply ikeeps_get_op | apply ikeeps_modify_op | apply ikeeps_clientState
    | apply ikeeps_comms_assert | apply nkeeps_clientState | apply (stable_modify_op tick_contract)
    | apply (fkeeps_comms_assert tick_contract) | by apply nkeeps_modify | keeps_step ].
Qed.

Lemma wp_any {A} (m : M ClientImpl A) (Q : A → ClientImpl → Prop) s :
  (∀ x s', Q x s') → wp any_fault m Q s.
Proof. intros HQ. unfold wp. by destruct (m s). Qed.

Lemma wp_sendMessage_cases msg s :
  wp any_fault (sendMessage msg) (λ ec s', ec = ErrorCode_Success ∨ s' = s) s.
Proof.
  unfold sendMessage. cbv zeta.
  match goal with |- wp _ (if ?b then _ else _) _ _ => destruct b end; [by apply wp_ret; right|].
  destruct (frame_write msg).
  - apply wp_bind, wp_gets, wp_bind, wp_any. intros _ s1. apply wp_bind, wp_gets, wp_bind, wp_any.
    intros _ s2. apply wp_ret. by left.
  - apply wp_bind, wp_comms_assert; [done|]. apply wp_ret. by right.
Qed.

(** A call that fails and ends the operation. *)
Lemma wp_fail a ec s :
  at_rest s → not_send a s → ec ≠ ErrorCode_Success →
  wp any_fault (opComplete a ;; mret ec)
    (λ ec s', settles_if (ec ≠ ErrorCode_Success) s s') s.
Proof.
  intros Hs Ha Hec. apply wp_bind. eapply wp_mono; [by apply ckeeps_opComplete|].
  intros _ s' [[Hs' _] [_ Hr]]. apply wp_ret. split; [done | by left].
Qed.

(** The message is sent, and the guard restarts the timer. *)
Lemma wp_send_then a msg (restart : M ClientImpl unit) s :
  keeps restart → nkeeps restart → at_rest s → not_send a s →
  wp any_fault
    (result ← sendMessage msg;
     if negb (bool_decide (result = ErrorCode_Success)) then opComplete a ;; mret result
     else with_guard restart ;; mret ErrorCode_Success)
    (λ ec s', settles_if (ec ≠ ErrorCode_Success) s s') s.
Proof.
  intros Hr Hn Hs Ha. pose proof Hs as (Hi & Ht & Hc). apply wp_bind.
  eapply wp_mono; [eapply (wp_and _ _ _ _ _ _ (wp_and _ _ _ _ _ _ (keeps_sendMessage msg s Hi)
    (stable_sendMessage tick_contract msg s Ht)) (wp_sendMessage_cases msg s))|].
  intros ec s1 [[[Hi1 Hev1] [Ht1 _]] Hcase].
  case_bool_decide as Hec; cbn [negb].
  - assert (at_rest s1) as Hs1.
    { split; [done|]. split; [done|]. rewrite <- Hc. apply (ev_api _ _ Hev1). }
    apply wp_bind. eapply wp_mono; [by apply wp_with_guard_programs|].
    intros [] s2 [Hs2 [Hp Hw]]. apply wp_ret. split; [done|]. right.
    assert (g_trace s `prefix_of` g_trace s1) as Hp1 by apply Hev1.
    split; [by etrans|]. intros Hz. destruct (Hw Hz) as (tr & ? & ?). exists tr.
    split; [by etrans | done].
  - destruct Hcase as [|Heq]; [done|]. subst s1. by apply wp_fail.
Qed.

Lemma not_send_live a o s :
  Inv s → g_store s !! a = Some o → Op_type o ≠ Type_Send → not_send a s.
Proof.
  intros Hs Ho HT. split; [|by intros o' Ho'; simplify_eq].
  apply (di_next _ _ _ (oi_done _ (inv_obj _ Hs))). rewrite (shapes_lookup _ _ _ Ho). by eexists.
Qed.

(** One after the other: the preparation is unlocked, the operation looked up. *)
Lemma wp_unlock_get {T} `{Subclass T} {A} I a (k : T → M ClientImpl A) s :
  at_rest s → (∀ t (o : T), Op_type (MkOp t (upcast o)) ≠ Type_Send) →
  (∀ o s', at_rest s' → not_send a s' → wp any_fault (k o) (λ y s'', settles_if (I y) s' s'') s') →
  wp any_fault (allowNextPrepare ;; o ← get_op a; k o) (λ y s', settles_if (I y) s s') s.
Proof.
  intros Hs HT Hk. apply (wp_calm_bind (λ _, True)); [|done..|].
  { apply ckeeps_calm; [done | apply keeps_allowNextPrepare | | apply ikeeps_allowNextPrepare].
    apply (fkeeps_allowNextPrepare tick_contract). }
  intros _ s1 Hs1 _. apply wp_bind, wp_get_op; [done|]. intros t o Ho.
  apply Hk; [done|]. eapply not_send_live; [apply Hs1 | exact Ho | apply HT].
Qed.

Lemma ckeeps_modify_op {T} `{Subclass T} a (f : T → T) :
  (∀ o, shape_of (upcast (f o)) = shape_of (upcast o)) → ckeeps a (modify_op a f).
Proof.
  intros Hf. apply ckeeps_calm; [apply not_send_evolves | by apply keeps_modify_op | |
    apply ikeeps_modify_op]. by apply (stable_modify_op tick_contract).
Qed.

(** The operation is there, and not a publish. *)
Ltac settle_get :=
  apply wp_bind, wp_get_op; [done|]; intros ? ? _.
Ltac settle_fail a :=
  match goal with |- wp _ (if ?b then _ else _) _ _ => destruct b end;
  [by apply wp_fail |].
Ltac settle_step a :=
  apply (wp_calm_bind (not_send a)); [|done..|]; [|intros ? ? ? ?].

Ltac nkeeps_restart :=
  repeat first [apply (fkeeps_get_base tick_contract) | apply (fkeeps_get_op tick_contract)
    | apply nkeeps_timerMgr | keeps_step].

Lemma wp_SubscribeOp_send_settles a cb s :
  at_rest s → wp any_fault (SubscribeOp_send a cb)
    (λ ec s', settles_if (ec ≠ ErrorCode_Success) s s') s.
Proof.
  intros Hs. apply wp_unlock_get; [done..|]. intros o s1 Hs1 Ha.
  do 3 settle_fail a. settle_step a; [by apply ckeeps_modify_op|].
  settle_step a; [apply ckeeps_steps|]. settle_get.
  apply wp_send_then; [apply keeps_SubscribeOp_restartTimer | | done..].
  unfold SubscribeOp_restartTimer. nkeeps_restart.
Qed.

Lemma wp_UnsubscribeOp_send_settles a cb s :
  at_rest s → wp any_fault (UnsubscribeOp_send a cb)
    (λ ec s', settles_if (ec ≠ ErrorCode_Success) s s') s.
Proof.
  intros Hs. apply wp_unlock_get; [done..|]. intros o s1 Hs1 Ha.
  do 3 settle_fail a. settle_step a; [by apply ckeeps_modify_op|].
  settle_step a; [apply ckeeps_steps|]. settle_get.
  apply wp_send_then; [apply keeps_UnsubscribeOp_restartTimer | | done..].
  unfold UnsubscribeOp_restartTimer. nkeeps_restart.
Qed.

Lemma wp_ConnectOp_send_settles a cb s :
  at_rest s → wp any_fault (ConnectOp_send a cb)
    (λ ec s', settles_if (ec ≠ ErrorCode_Success) s s') s.
Proof.
  intros Hs. apply wp_unlock_get; [done..|]. intros o s1 Hs1 Ha.
  apply wp_bind, wp_gets, wp_bind, wp_gets. do 3 settle_fail a.
  settle_step a; [by apply ckeeps_modify_op|]. settle_step a; [apply ckeeps_steps|]. settle_get.
  apply wp_send_then; [apply keeps_ConnectOp_restartTimer | | done..].
  unfold ConnectOp_restartTimer. nkeeps_restart.
Qed.

(** A cancellation of what is not a publish. *)
Lemma wp_cancel {T} `{Subclass T} a (k : T → M ClientImpl unit) s :
  at_rest s → (∀ t (o : T), Op_type (MkOp t (upcast o)) ≠ Type_Send) →
  (∀ o, k o = mret tt ∨ k o = allowNextPrepare) →
  wp any_fault (o ← get_op a; k o ;; opComplete a ;; mret ErrorCode_Success)
    (λ _ s', settles s s') s.
Proof.
  intros Hs HT Hk. apply wp_bind, wp_get_op; [done|]. intros t o Ho.
  assert (not_send a s) as Ha by (eapply not_send_live; [apply Hs | exact Ho | apply HT]).
  apply (wp_calm (not_send a)); [|done..]. apply keeps_bind.
  - destruct (Hk o) as [->| ->]; [apply ckeeps_ret | apply ckeeps_steps].
  - intros _. apply ckeeps_fail.
Qed.

Lemma wp_DisconnectOp_send_settles a s :
  at_rest s → wp any_fault (DisconnectOp_send a) (λ _ s', settles s s') s.
Proof.
  intros Hs. apply (wp_calm_bind (λ _, True)); [|done..|].
  { apply ckeeps_calm; [done | apply keeps_allowNextPrepare | | apply ikeeps_allowNextPrepare].
    apply (fkeeps_allowNextPrepare tick_contract). }
  intros _ s1 Hs1 _. apply wp_bind. eapply wp_mono; [apply wp_with_guard_programs; [done|..]|].
  - repeat first [apply keeps_sendMessage | apply keeps_opComplete
      | apply keeps_brokerDisconnected_default | keeps_step].
  - repeat first [apply (stable_sendMessage tick_contract)
      | apply (fkeeps_opComplete tick_contract nkeeps_resume)
      | (apply (fkeeps_brokerDisconnected tick_contract nkeeps_resume); discriminate) | keeps_step].
  - intros _ s2 [Hs2 Hp]. apply wp_ret. split; [done | by right].
Qed.

(** *** The preparation of a connection *)

(** Timers that run exactly as after the guard. *)
Lemma programs_exact s0 s s' :
  Inv s → programs s0 s → idle_rel true s s' → timers_small (m_timerMgr s') → programs s0 s'.
Proof.
  intros Hs [Hp Hw] [[Hns He] Htr] Hsmall. unfold programs. rewrite Htr. split; [done|].
  intros Hz. rewrite <- (same_wait _ _ Hns (He eq_refl) (ti_ok _ _ (oi_timers _ (inv_obj _ Hs)))
    Hsmall Hz) in Hz |- *. by apply Hw.
Qed.

Lemma wp_finish_prepare_exact T s :
  at_rest s → T ≠ Type_KeepAlive → (is_single T = true → ops_of T s = []) →
  wp any_fault (finish_prepare T) (λ _ s', at_rest s' ∧ idle_rel true s s') s.
Proof.
  intros (Hs & Ht & Hc) HT Hone.
  assert (nkeeps (finish_prepare T)) as Hn.
  { unfold finish_prepare, refuse. repeat first [apply (fkeeps_alloc tick_contract)
      | apply (fkeeps_push_op tick_contract) | by apply nkeeps_modify | keeps_step]. }
  eapply wp_mono; [eapply (wp_and _ _ _ _ _ _ (wp_and _ _ _ _ _ _ (wp_finish_prepare T s Hs Hone)
    (Hn s Ht)) (ikeeps_finish_prepare true T HT s (Inv_free_idle s Hs)))|].
  intros p s' [[[Hs' Hev] [Ht' _]] [_ Hr]]. split; [|done]. split; [done|]. split; [done|].
  rewrite <- Hc. apply (ev_api _ _ Hev).
Qed.

Lemma wp_connectPrepare_settles s :
  at_rest s →
  wp any_fault connectPrepare
    (λ _ s', timers_small (m_timerMgr s') → settles s s') s.
Proof.
  intros Hs. unfold connectPrepare.
  apply wp_bind. eapply wp_mono.
  { apply (ckeeps_calm (λ _, True)); [done| | |apply ikeeps_clientState|by split].
    - by apply keeps_on_clientState_modify.
    - apply nkeeps_clientState. }
  intros _ s1 [[Hs1 _] Hr1].
  assert (wp any_fault connectPrepare_init (λ _ s2, at_rest s2 ∧ (s2 = s1 ∨ programs s1 s2)) s1) as Hinit.
  { unfold connectPrepare_init. apply wp_bind, wp_gets.
    destruct ((m_initialized ∘ m_clientState) s1); [by apply wp_ret; auto|].
    apply wp_bind, wp_gets. destruct (_ <? _)%Z; [by apply wp_ret; auto|].
    eapply wp_mono; [apply wp_with_guard_programs; [done|..]|intros ? ? [??]; auto].
    - repeat first [apply keeps_terminateOps | apply keeps_set_session
        | by apply keeps_on_clientState_modify | keeps_step].
    - repeat first [(apply (fkeeps_terminateOps tick_contract nkeeps_resume); discriminate)
        | apply (fkeeps_set_session tick_contract) | apply nkeeps_clientState | keeps_step]. }
  apply wp_bind. eapply wp_mono; [exact Hinit|]. intros ec s2 [Hs2 Hcase].
  match goal with |- wp _ ?rest _ _ =>
    assert (wp any_fault rest (λ _ s', at_rest s' ∧ idle_rel true s2 s') s2) as Hrest end.
  { assert (∀ p : Prepared, wp any_fault (mret p) (λ _ s', at_rest s' ∧ idle_rel true s2 s') s2) as Href.
    { intros p. apply wp_ret. split; [done | apply idle_rel_preorder]. }
    unfold refuse, ops_full. destruct (negb (bool_decide (ec = _))); [apply Href|].
    apply wp_bind, wp_gets, wp_bind, wp_gets. case_bool_decide as Hl; cbn [negb]; [|apply Href].
    destruct (ses_disconnecting _); [apply Href|]. destruct (ses_connected _); [apply Href|].
    destruct (at_max_size _ _); [apply Href|].
    destruct (m_preparationLocked s2); [apply Href|]. by apply wp_finish_prepare_exact. }
  eapply wp_mono; [exact Hrest|]. intros p s3 [Hs3 Hr3] Hsmall.
  apply (settles_calm True s s1); [done|]. split; [done|]. destruct Hcase as [->|Hp].
  - left. split; [done|]. destruct Hr3 as [[Hr3 _] Htr]. by split.
  - right. by eapply programs_exact; [apply Hs2|..].
Qed.

(** *** Publishes *)

(** What happens when the call succeeds. *)
Definition settles_ok (s : ClientImpl) (ec : CC_Mqtt311ErrorCode) (s' : ClientImpl) : Prop :=
  ec = ErrorCode_Success → settles s s'.

Lemma wp_calm_ok {A} (m : M ClientImpl A) (k : A → M ClientImpl CC_Mqtt311ErrorCode) s :
  keeps m → nkeeps m → ikeeps m → at_rest s →
  (∀ x s', at_rest s' → wp any_fault (k x) (settles_ok s') s') →
  wp any_fault (m ≫= k) (settles_ok s) s.
Proof.
  intros Hm Hn Hi Hs Hk. apply wp_bind.
  eapply wp_mono; [apply (ckeeps_calm (λ _, True)); [done | done | done | done | by split]|].
  intros x s' [[Hs' _] Hr]. eapply wp_mono; [by apply Hk|]. intros y s'' Hw Hok.
  eapply settles_calm; [done | by apply Hw].
Qed.

Lemma ikeeps_canSend a : ikeeps (SendOp_canSend a).
Proof.
  unfold SendOp_canSend, hasPausedSendsBefore, hasHigherQosSendsBefore.
  repeat first [apply ikeeps_get_op | apply ikeeps_comms_assert | by apply keeps_throw | keeps_step].
  match goal with |- keeps (hasHigherQos_loop ?l _ _) => induction l end; simpl;
    repeat first [apply ikeeps_get_op | apply ikeeps_comms_assert | assumption | keeps_step].
Qed.

Lemma wp_refused a ec s :
  ec ≠ ErrorCode_Success →
  wp any_fault (opComplete a ;; mret ec) (settles_ok s) s.
Proof. intros Hec. apply wp_bind, wp_any. intros _ s'. by apply wp_ret. Qed.

Lemma wp_SendOp_send_settles a cb s :
  at_rest s → wp any_fault (SendOp_send a cb) (settles_ok s) s.
Proof.
  intros Hs.
  assert (∀ (f : SendOp → SendOp) k s0, keeps (modify_op a f) → at_rest s0 →
    (∀ s', at_rest s' → wp any_fault (k tt) (settles_ok s') s') →
    wp any_fault (modify_op a f ≫= k) (settles_ok s0) s0) as Hmod.
  { intros f k s0 Hf Hs0 Hk. apply wp_calm_ok; [done | | apply ikeeps_modify_op | done|].
    - by apply (stable_modify_op tick_contract).
    - by intros []. }
  unfold SendOp_send. apply wp_calm_ok; [apply keeps_allowNextPrepare | |
    apply ikeeps_allowNextPrepare | done|]. { apply (fkeeps_allowNextPrepare tick_contract). }
  intros _ s1 Hs1. apply wp_bind, wp_get_op; [done|]. intros t o _.
  destruct (negb _); [by apply wp_refused|]. destruct (bool_decide _); [by apply wp_refused|].
  apply Hmod; [keeps_auto | done|]. intros s2 Hs2.
  apply wp_calm_ok; [| | | done|].
  { apply keeps_when, keeps_SendOp_allocPacketId. }
  { apply keeps_when. unfold SendOp_allocPacketId. apply keeps_bind; [apply nkeeps_clientState|].
    intros id. by apply (stable_modify_op tick_contract). }
  { apply keeps_when. unfold SendOp_allocPacketId. apply keeps_bind; [apply ikeeps_clientState|].
    intros id. apply ikeeps_modify_op. }
  intros _ s3 Hs3. apply Hmod; [apply keeps_SendOp_refresh | done|]. intros s4 Hs4.
  apply wp_calm_ok; [apply keeps_canSend | by apply (fkeeps_canSend tick_contract) |
    apply ikeeps_canSend | done|].
  intros can s5 Hs5. destruct (negb can).
  - apply wp_bind, wp_get_op; [done|]. intros t' o' _. apply wp_bind, wp_comms_assert; [done|].
    apply Hmod; [keeps_auto | done|]. intros s6 Hs6. apply wp_ret. intros _. by apply settles_refl.
  - apply wp_bind. eapply wp_mono; [apply wp_with_guard_programs; [done | apply keeps_SendOp_doSendInternal|]|].
    { by apply (fkeeps_doSendInternal tick_contract nkeeps_resume). }
    intros ec s6 [Hs6 Hp]. case_bool_decide as Hec; cbn [negb when].
    + apply wp_bind, wp_ret, wp_ret. intros _. split; [done | by right].
    + apply wp_bind, wp_any. intros _ s7. by apply wp_ret.
Qed.

Lemma wp_SendOp_cancel_settles a s :
  at_rest s → no_paused s → wp any_fault (SendOp_cancel a) (λ _ s', settles s s') s.
Proof.
  intros Hs Hnone. pose proof Hs as (Hi & Ht & Hc).
  assert (wp any_fault (SendOp_cancel a) (λ _ s', idle_rel false s s') s) as Hidle.
  { unfold SendOp_cancel. apply wp_bind, wp_get_op; [done|]. intros t o _. apply wp_bind.
    eapply (wp_mono _ _ (λ _ s1, (Inv s1 ∧ idle_rel false s s1) ∧ g_store s1 = g_store s)).
    { apply wp_when; [intros _ | by split; [split; [|apply idle_rel_preorder]|]].
      assert (wp any_fault allowNextPrepare (λ _ s1, g_store s1 = g_store s) s) as Hst.
      { unfold allowNextPrepare. apply wp_bind, wp_gets, wp_bind, wp_comms_assert; [done|].
        by apply wp_modify. }
      eapply wp_mono; [exact (wp_and _ _ _ _ _ _ (wp_and _ _ _ _ _ _ (keeps_allowNextPrepare s Hi)
        (ikeeps_allowNextPrepare false s (Inv_free_idle s Hi))) Hst)|]. naive_solver. }
    intros _ s1 [[Hi1 Hr1] Est]. apply wp_bind, wp_opComplete_none; [done | |].
    { intros o' _. right. intros b t' d. rewrite Est. apply Hnone. }
    eapply wp_mono; [by apply (ikeeps_opComplete_with false a), Inv_free_idle|].
    intros _ s2 [_ Hr2]. apply wp_ret. by eapply (idle_rel_preorder false). }
  eapply wp_mono; [eapply (wp_and _ _ _ _ _ _ (wp_and _ _ _ _ _ _ (keeps_SendOp_cancel a s Hi)
    (proj2 (proj2 (proj2 (fkeeps_SendOp_requests tick_contract nkeeps_resume a))) s Ht)) Hidle)|].
  intros ec s' [[[Hi' Hev] [Ht' _]] Hr]. split; [|by left]. split; [done|]. split; [done|].
  rewrite <- Hc. apply (ev_api _ _ Hev).
Qed.

(** ** Requests *)

(** No publish is paused. *)
Definition none_paused (s : ClientImpl) : bool :=
  forallb (λ a, negb (paused_in s a)) (ops_of Type_Send s).

Lemma none_paused_spec s : Inv s → none_paused s = true → no_paused s.
Proof.
  intros Hs Hn b t d Hb. unfold none_paused in Hn. rewrite forallb_forall in Hn.
  assert (b ∈ ops_of Type_Send s) as Hin.
  { apply (li_lists _ _ (inv_lists _ Hs)). exists (shape_of (DSend d)).
    split; [by apply (shapes_lookup s b (MkOp t (DSend d))) | done]. }
  specialize (Hn b). rewrite <- list_elem_of_In in Hn. specialize (Hn Hin).
  unfold paused_in in Hn. rewrite Hb in Hn. by destruct (so_paused d).
Qed.

Definition accepted (r : result ClientImpl CC_Mqtt311ErrorCode) : bool :=
  match r with Ok ec _ => bool_decide (ec = ErrorCode_Success) | Fault _ => true end.

(** The requests after which the wait is right.  A call that does not enter the guard
    must find no timer that is due; a publish must not be cancelled while others are
    paused, and the call that sends it must succeed, because the library sends the
    publishes that wait for one that ends without a tick; the handle of a disconnect is
    that of a disconnect, the timers are fewer than an [unsigned] counts. *)
Definition settled (r : Request) (s : ClientImpl) : bool :=
  match r with
  | RqTick _ | RqProcessData _ | RqNotifyNetworkDisconnected => true
  | RqFree => false
  | RqDisconnectCancel op => nothing_due (m_timerMgr s) &&
      bool_decide (Op_type <$> g_store s !! op = Some Type_Disconnect)
  | RqPublishCancel _ => nothing_due (m_timerMgr s) && none_paused s
  | RqPublishSend a cb => nothing_due (m_timerMgr s) && accepted (SendOp_send a cb s)
  | RqConnectPrepare => nothing_due (m_timerMgr s) &&
      match connectPrepare s with
      | Ok _ s' => (Z.of_nat (length (m_timers (m_timerMgr s'))) <? u32_max)%Z
      | Fault _ => true
      end
  | _ => nothing_due (m_timerMgr s)
  end.

Lemma wp_settles_weaken {A} (I : A → Prop) (m : M ClientImpl A) s :
  wp any_fault m (λ x s', settles_if (I x) s s') s → wp any_fault m (λ _ s', settles s s') s.
Proof.
  intros Hm. eapply wp_mono; [exact Hm|]. intros x s' [Hs' [[_ Hr]|Hp]]; split; auto.
Qed.

Lemma wp_settles_ignore {A} (m : M ClientImpl A) s :
  wp any_fault m (λ _ s', settles s s') s → wp any_fault (ignore m) (λ _ s', settles s s') s.
Proof. intros Hm. apply wp_bind. eapply wp_mono; [exact Hm|]. intros x s' Hs'. by apply wp_ret. Qed.

Lemma wp_idle_request r s :
  at_rest s → ikeeps (run_request r) → wp any_fault (run_request r) (λ _ s', settles s s') s.
Proof.
  intros Hs Hi. apply (wp_calm (λ _, True)); [|done..]. apply ckeeps_calm; [done | | | done].
  - apply keeps_run_request.
  - apply nkeeps_run_request.
Qed.

Lemma ikeeps_ignore {A} (m : M ClientImpl A) : ikeeps m → ikeeps (ignore m).
Proof. intros Hm. apply keeps_bind; [done|]. intros x. apply keeps_ret. Qed.

Lemma wp_processData_programs buf s :
  at_rest s → wp any_fault (processData buf) (λ _ s', at_rest s' ∧ programs s s') s.
Proof.
  intros Hs. apply wp_with_guard_programs; [done|..].
  - repeat first [apply keeps_processData_loop | apply keeps_brokerDisconnected
      | by apply keeps_comms_assert | keeps_step].
  - repeat first [apply (fkeeps_processData_loop tick_contract nkeeps_resume nkeeps_resend
        nkeeps_report); by left
      | (apply (fkeeps_brokerDisconnected tick_contract nkeeps_resume); discriminate)
      | by apply keeps_comms_assert | keeps_step].
Qed.

Lemma wp_notify_programs s :
  at_rest s → wp any_fault notifyNetworkDisconnected (λ _ s', at_rest s' ∧ programs s s') s.
Proof.
  intros Hs. apply wp_with_guard_programs; [done|..].
  - repeat first [by apply keeps_on_clientState_modify | apply keeps_brokerDisconnected_default
      | keeps_step].
  - repeat first [apply nkeeps_clientState
      | (apply (fkeeps_brokerDisconnected tick_contract nkeeps_resume); discriminate) | keeps_step].
Qed.

(** The calls that enter the guard at once. *)
Definition enters_at_once (r : Request) : bool :=
  match r with
  | RqTick _ | RqProcessData _ | RqNotifyNetworkDisconnected => true
  | _ => false
  end.

Lemma wp_run_request_programs r s :
  at_rest s → enters_at_once r = true →
  wp any_fault (run_request r) (λ _ s', at_rest s' ∧ programs s s') s.
Proof.
  intros Hs Hr. destruct r; try done; simpl.
  - by apply wp_ClientImpl_tick_programs.
  - apply wp_bind. eapply wp_mono; [by apply wp_processData_programs|]. intros n s' Hs'.
    by apply wp_ret.
  - by apply wp_notify_programs.
Qed.

Lemma wp_run_request_settles r s :
  at_rest s → enters_at_once r = false → settled r s = true → wp any_fault (run_request r) (λ _ s', settles s s') s.
Proof.
  intros Hs He Hr.
  destruct (ikeeps_setters false) as (? & ? & ? & ? & ? & ?).
  destruct (ikeeps_prepare false) as (? & ? & ? & Hpub). specialize (Hpub eq_refl).
  pose proof (ikeeps_configs false) as Hcfg.
  destruct r; simpl in He, Hr; try (apply wp_idle_request; [done|];
    try apply ikeeps_ignore; first [done | apply Hcfg]); try done; simpl;
    try apply wp_settles_ignore.
  - apply andb_true_iff in Hr as [_ Hsmall]. pose proof (wp_connectPrepare_settles s Hs) as Hw.
    unfold wp in *. destruct (connectPrepare s) as [p s'|]; [|done]. apply Hw.
    unfold timers_small. lia.
  - eapply wp_settles_weaken, wp_ConnectOp_send_settles. done.
  - apply (wp_cancel op (λ o, when (bool_decide (co_cb o = None)) allowNextPrepare)); [done..|].
    intros o. destruct (bool_decide _); auto.
  - by apply wp_DisconnectOp_send_settles.
  - apply andb_true_iff in Hr as [_ HT%bool_decide_eq_true].
    apply fmap_Some in HT as (o & Ho & HT).
    assert (not_send op s) as Ha by (eapply not_send_live; [apply Hs | exact Ho | congruence]).
    apply (wp_calm (not_send op)); [|done..]. apply keeps_bind; [apply ckeeps_steps|].
    intros _. apply ckeeps_fail.
  - eapply wp_settles_weaken, wp_SubscribeOp_send_settles. done.
  - apply (wp_cancel op (λ o, when (bool_decide (su_cb o = None)) allowNextPrepare)); [done..|].
    intros o. destruct (bool_decide _); auto.
  - eapply wp_settles_weaken, wp_UnsubscribeOp_send_settles. done.
  - apply (wp_cancel op (λ o, when (bool_decide (un_cb o = None)) allowNextPrepare)); [done..|].
    intros o. destruct (bool_decide _); auto.
  - apply andb_true_iff in Hr as [_ Hacc]. pose proof (wp_SendOp_send_settles op cb s Hs) as Hw.
    unfold wp, settles_ok in *. destruct (SendOp_send op cb s) as [ec s'|]; [|done].
    apply Hw. by apply bool_decide_eq_true in Hacc.
  - apply andb_true_iff in Hr as [_ Hnone]. apply wp_SendOp_cancel_settles; [done|].
    apply none_paused_spec; [apply Hs | done].
Qed.

Fixpoint settled_run (rs : list Request) (s : ClientImpl) : bool :=
  match rs with
  | [] => true
  | r :: rs' =>
      settled r s &&
      match run_request r s with Ok _ s' => settled_run rs' s' | Fault _ => true end
  end.

Lemma settled_due r s :
  settled r s = true → enters_at_once r = false → nothing_due (m_timerMgr s) = true.
Proof. destruct r; simpl; try done; by intros [? _]%andb_true_iff. Qed.

(** The wait after a request. *)
Lemma wp_request_wait wait r s :
  at_rest s → programmed wait s → settled r s = true →
  wp any_fault (run_request r) (λ _ s', at_rest s' ∧ programmed
    (wait_after (if is_tick r then None else wait) (drop (length (g_trace s)) (g_trace s'))) s') s.
Proof.
  intros Hs Hw Hr.
  assert (∀ w s', programs s s' → programmed
    (wait_after w (drop (length (g_trace s)) (g_trace s'))) s') as Hprog.
  { intros w s' [_ Hp] Hz. destruct (Hp Hz) as (tr & [evs ->] & ->).
    rewrite <- app_assoc, drop_app_length. unfold wait_after. rewrite foldl_app. simpl.
    eexists. split; [done | lia]. }
  destruct (enters_at_once r) eqn:He.
  - eapply wp_mono; [by apply wp_run_request_programs|]. intros _ s' [Hs' Hp]. by split; [|apply Hprog].
  - eapply wp_mono; [by apply wp_run_request_settles|]. intros _ s' [Hs' [[_ [[Hns _] Htr]]|Hp]];
      (split; [done|]); [|by apply Hprog].
    assert (is_tick r = false) as -> by (by destruct r).
    rewrite Htr, drop_ge by done. intros Hz.
    destruct (no_sooner_wait _ _ Hns (settled_due _ _ Hr He) Hz) as [Hnz Hle].
    destruct (Hw Hnz) as (d & -> & Hd). exists d. split; [done | lia].
Qed.

Lemma wp_run_waiting rs wait s :
  at_rest s → programmed wait s → settled_run rs s = true →
  wp any_fault (run_waiting rs wait) (λ wait' s', at_rest s' ∧ programmed wait' s') s.
Proof.
  revert wait s. induction rs as [|r rs IH]; intros wait s Hs Hw Hrun; simpl in *; [by apply wp_ret|].
  apply andb_true_iff in Hrun as [Hr Hrest]. apply wp_bind, wp_gets, wp_bind.
  pose proof (wp_request_wait wait r s Hs Hw Hr) as Hstep. unfold wp in Hstep |- *.
  destruct (run_request r s) as [[] s1|]; [|done]. destruct Hstep as [Hs1 Hw1]. simpl.
  by apply IH.
Qed.
End Ticking.

(** ** Applications *)

Section scripted.
  Context `{Config} `{CommsLib} `{!CommsLaws} `{Script}.

Lemma scripted_tick depth e :
  keeps (Contract0 := tick_contract) (app_react (App := scripted depth) e).
Proof.
  revert e. induction depth as [|depth IH]; intros e; simpl; [apply keeps_ret|].
  apply keeps_bind; [apply keeps_gets|]. intros rs. apply keeps_mapM_. intros r.
  by apply (nkeeps_run_request (H2 := scripted depth)).
Qed.

End scripted.

(** ** Witness *)

(** The application publishes from the callback of the connect operation. *)
Definition TickScript : Script := {|
  script_react := λ tr,
    match last tr with
    | Some (EvConnectComplete _ _ _ _) => rq_publish 3 2
    | _ => []
    end;
  script_elapsed := λ _, 10%Z;
  script_fuel := 1;
|}.

(** A subscribe is cancelled and another one prepared while the publish waits, then
    the publish is resent in a tick. *)
Definition tick_requests : list Request :=
  rq_connect 1 connect_config ++ [rq_connack false; RqSubscribePrepare;
    RqSubscribeConfigTopic 4 {| st_topic := Some "t"; st_maxQos := 2 |}; RqSetResponseTimeout 4 500;
    RqSubscribeSend 4 (Some 4); RqSubscribeCancel 4; RqSubscribePrepare; RqTick 2000;
    RqSubscribeCancel 5].

Definition tick_run : result ClientImpl (option Z) :=
  run_waiting (H := DefaultConfig) (H0 := ExampleComms)
    (H1 := scripted (H := DefaultConfig) (H0 := ExampleComms) (H1 := TickScript) 1)
    (RqSetCallbacks Callbacks_all :: tick_requests) None (ClientImpl_new (H := DefaultConfig)).

Definition tick_state : ClientImpl := state_of DefaultConfig (
  match tick_run with Ok _ s => Ok tt s | Fault f => Fault f end).


(** While the subscribe waits, its shorter time counts; the wait for it stays pending
    when it is cancelled. *)
Example tick_waits :
  (λ n, match run_waiting (H := DefaultConfig) (H0 := ExampleComms)
      (H1 := scripted (H := DefaultConfig) (H0 := ExampleComms) (H1 := TickScript) 1)
      (RqSetCallbacks Callbacks_all :: take n tick_requests) None
      (ClientImpl_new (H := DefaultConfig)) with
    | Ok wait s => Some (wait, getMinWait (m_timerMgr s))
    | Fault _ => None
    end) <$> [4; 8; 9; 12] =
  [Some (Some 2000, 2000); Some (Some 500, 500); Some (Some 500, 1990); Some (Some 2000, 2000)]%Z.
Proof. vm_compute. reflexivity. Qed.
