(* ===== verification/Delivery.v ===== *)
(** * Delivery of incoming messages

    The handling of PUBLISH and PUBREL by [ClientImpl] and [RecvOp]
    (client/lib/src/ClientImpl.cpp, client/lib/src/op/RecvOp.cpp) as the receiver
    of the QoS 2 exchange of MQTT: the packet identifiers of the receptions are the
    set of identifiers that wait for their PUBREL; a message is reported when its
    identifier is not in the set, which it then joins, and a repetition is only
    acknowledged.  The application does not call the client from its callbacks. *)

From S2P Require Import Prelude SortedVec Config Protocol Topic PacketId TimerMgr State.
From S2P Require Import Lifecycle Completion Session SendOp RecvOp SubscribeOp ConnectOp.
From S2P Require Import Client Invariant Objects Termination Frame Ownership Preservation.
From S2P Require Import Scenarios Safety Disconnect.

(** ** Specification *)

(** The identifier that a reception waits for. *)
Definition recv_id (s : ClientImpl) (a : addr) : option Z :=
  o ← g_store s !! a; d ← downcast (op_derived o); Some (ro_packetId d).

Definition recv_ids (s : ClientImpl) : list Z := omap (recv_id s) (ops_of Type_Recv s).

(** The messages reported to the application, and those sent to the broker. *)
Definition reported (s : ClientImpl) : list CC_Mqtt311MessageInfo :=
  omap (λ e, match e with EvMessageReceived info => Some info | _ => None end) (g_trace s).

Definition sent (s : ClientImpl) : list ProtMessage :=
  omap (λ e, match e with EvSendOutputData msg _ => Some msg | _ => None end) (g_trace s).

(** ** Steps that report nothing *)

Definition silent_contract : Contract ClientImpl := {|
  ct_inv := λ _, True;
  ct_rel := λ s s', reported s' = reported s;
  ct_faults := any_fault;
  ct_pre := ltac:(split; [done | intros s1 s2 s3; congruence]);
|}.

(** The members that concern receptions. *)
Definition receptions (s : ClientImpl) :=
  (g_store s, m_lists s, m_sessionState s, m_clientState s, reported s).

(** The steps that only use timers. *)
Definition timers_only (s s' : ClientImpl) : Prop := ∃ mgr, s' = set_timerMgr mgr s.

Lemma timers_only_preorder : PreOrder timers_only.
Proof.
  split; [intros s; exists (m_timerMgr s); by destruct s|].
  intros s1 s2 s3 [mgr ->] [mgr' ->]. by exists mgr'.
Qed.

Definition timers_contract : Contract ClientImpl := {|
  ct_inv := λ _, True;
  ct_rel := timers_only;
  ct_faults := any_fault;
  ct_pre := timers_only_preorder;
|}.

Lemma reported_log e s : set_aside e = false → reported (log e s) = reported s.
Proof.
  intros He. unfold reported. simpl. rewrite omap_app. by destruct e; simpl; rewrite ?app_nil_r.
Qed.

Lemma receptions_ids s s' : receptions s' = receptions s → recv_ids s' = recv_ids s.
Proof.
  unfold receptions, recv_ids, ops_of, recv_id. intros [= Est El _ _ _]. by rewrite Est, El.
Qed.

Section Delivery.
  Context `{Config} `{CommsLib} `{App}.
  Context (Hquiet : ∀ e s, app_react e s = Ok tt s).
Abbreviation tkeeps := (keeps (Contract0 := timers_contract)).
Abbreviation silent := (keeps (Contract0 := silent_contract)).

Lemma wp_quiet F e (Q : unit → ClientImpl → Prop) s : Q tt (log e s) → wp F (callback e) Q s.
Proof. intros HQ. unfold wp, callback, mbind, M_bind, modify. by rewrite Hquiet. Qed.

#[local] Instance silent_stable : Stable silent_contract.
Proof.
  assert (∀ f, (∀ s, g_trace (f s) = g_trace s) → silent (modify f)) as Hmod.
  { intros f Hf. apply keeps_modify. intros s _. split; [done|]. simpl. unfold reported.
    by rewrite Hf. }
  assert (∀ A (m : M ClientState A), silent (on_clientState m)) as Hzoom.
  { intros A m s _. unfold wp, on_clientState, zoom. by destruct (m _). }
  split; try done.
  - intros. by apply Hmod.
  - intros e He s _. apply wp_quiet. split; [done | by apply reported_log].
  - intros A m _ s _. unfold wp, on_timerMgr, zoom. by destruct (m _).
  - intros topic. unfold store_filter. keeps_auto. by apply Hmod.
Qed.

Lemma silent_resume idx : silent (resumeSendOpsSince idx).
Proof. by apply (fkeeps_resumeSendOpsSince_bound silent_contract). Qed.

Lemma silent_brokerDisconnected r st : st ≠ AsyncOpStatus_Complete → silent (brokerDisconnected r st).
Proof. apply (fkeeps_brokerDisconnected silent_contract silent_resume). Qed.

Lemma tkeeps_timer {A} (m : M (TimerMgr TimeoutCb) A) : tkeeps (on_timerMgr m).
Proof.
  intros s _. unfold wp, on_timerMgr, zoom. destruct (m _) as [a mgr|]; [|done].
  split; [done | by exists mgr].
Qed.

Lemma tkeeps_get_op {T} `{Subclass T} a : tkeeps (get_op (T := T) a).
Proof. intros s _. apply wp_get_op; [done|]. intros. split; [done | apply timers_only_preorder]. Qed.
Hint Resolve tkeeps_timer tkeeps_get_op : keeps.

Lemma tkeeps_keepAlive l : tkeeps (mapM_ KeepAliveOp_handle_ProtMessage l).
Proof. unfold KeepAliveOp_handle_ProtMessage, KeepAliveOp_restartRecvTimer. keeps_auto. Qed.

Lemma tkeeps_messageSent l : tkeeps (mapM_ KeepAliveOp_messageSent l).
Proof. unfold KeepAliveOp_messageSent, KeepAliveOp_restartPingTimer. keeps_auto. Qed.

Lemma tkeeps_RecvOp a : tkeeps (RecvOp_resetTimer a) ∧ tkeeps (RecvOp_restartResponseTimer a).
Proof. unfold RecvOp_resetTimer, RecvOp_restartResponseTimer. split; keeps_auto. Qed.

(** A step on timers before another computation. *)
Lemma timers_bind {A B} (m : M ClientImpl A) (k : A → M ClientImpl B) Q s :
  tkeeps m → (∀ a mgr, wp any_fault (k a) Q (set_timerMgr mgr s)) → wp any_fault (m ≫= k) Q s.
Proof.
  intros Hm Hk. apply wp_bind. eapply wp_mono; [by apply (keeps_wp _ s Hm)|].
  intros a s' [_ [mgr ->]]. apply Hk.
Qed.

(** ** Output *)

Lemma wp_sendMessage_sent msg s :
  wp any_fault (sendMessage msg) (λ ec s', receptions s' = receptions s ∧
    sent s' = sent s ++ (if bool_decide (ec = ErrorCode_Success) then [msg] else [])) s.
Proof.
  unfold sendMessage, must_callback. case_match; [split; [done | by rewrite app_nil_r]|].
  destruct (frame_write msg) as [buf|]; [|apply wp_bind, wp_comms_assert; [done|]].
  2:{ split; [done | by rewrite app_nil_r]. }
  apply wp_bind, wp_gets. apply wp_bind, wp_bind, wp_comms_assert; [done|].
  destruct (has_sendOutputDataCb _); [|done]. apply wp_quiet. set (s1 := log _ s).
  assert (sent s1 = sent s ++ [msg]) as Hsent by (unfold sent; simpl; by rewrite omap_app).
  assert (receptions s1 = receptions s) as Hrec.
  { unfold s1, receptions. by rewrite (reported_log (EvSendOutputData msg buf) s eq_refl). }
  apply wp_bind, wp_gets. apply timers_bind; [apply tkeeps_messageSent|].
  intros [] mgr. apply wp_ret. by split.
Qed.

(** ** Receptions *)

Lemma wp_findRecvOp id s :
  wp any_fault (findRecvOp id) (λ r s', s' = s ∧
    match r with
    | Some a => a ∈ ops_of Type_Recv s ∧ recv_id s a = Some id
    | None => id ∉ recv_ids s
    end) s.
Proof.
  unfold findRecvOp, recv_ids. apply wp_bind, wp_gets.
  induction (ops_of Type_Recv s) as [|a l IH]; simpl; [by split; [|apply not_elem_of_nil]|].
  apply wp_bind, wp_get_op; [done|]. intros t o Ho.
  assert (recv_id s a = Some (ro_packetId o)) as Ha by (unfold recv_id; by rewrite Ho).
  rewrite Ha. destruct (Z.eqb_spec (ro_packetId o) id) as [Heq|Hne].
  - subst id. apply wp_ret. split; [done|]. split; [set_solver | done].
  - eapply wp_mono; [apply IH|]. intros [b|] s' [-> Hr]; (split; [done|]).
    + destruct Hr. split; [set_solver | done].
    + by apply not_elem_of_cons.
Qed.

(** A new reception, in the store and in the list. *)
Lemma wp_new_recv (k : addr → M ClientImpl unit) Q s :
  Q tt s →
  (∀ a t tm s', reported s' = reported s → a ∈ ops_of Type_Recv s' →
    m_sessionState s' = m_sessionState s →
    g_store s' !! a = Some (MkOp t (DRecv (MkRecvOp tm 0))) → wp any_fault (k a) Q s') →
  wp any_fault
    (ptr ← ObjAllocator_alloc Type_Recv;
     match ptr with None => mret tt | Some a => push_op Type_Recv a ;; k a end) Q s.
Proof.
  intros Hnone Hk. unfold ObjAllocator_alloc. apply wp_bind, wp_bind, wp_gets.
  destruct (alloc_succeeds _ _); [|done]. cbn [Op_new]. unfold RecvOp_new, new_object.
  apply wp_bind, wp_bind. unfold wp at 1, on_timerMgr, zoom.
  destruct (allocTimer (m_timerMgr s)) as [tm mgr|]; [|done].
  apply wp_bind, wp_bind, wp_gets. apply wp_bind, wp_gets. apply wp_bind, wp_modify.
  apply wp_bind, wp_modify. apply wp_ret, wp_bind, wp_comms_assert; [done|]. apply wp_ret, wp_ret.
  apply wp_bind. unfold push_op, push_back_check, set_ops_of.
  apply wp_bind, wp_gets. apply wp_bind, wp_when; intros _; [done|].
  apply wp_bind, wp_modify. apply wp_bind, wp_modify. apply wp_bind, wp_gets.
  apply wp_bind, wp_when; intros _; [done|]. apply wp_bind, wp_modify.
  apply wp_when; [done|]. intros _. eapply Hk; [done | | done |].
  - unfold ops_of. simpl. set_solver.
  - simpl. apply lookup_insert_eq.
Qed.

(** What the handling of a QoS 2 message does to a client that does not know it. *)
Definition reported_once (msg : PublishMsg) (s s' : ClientImpl) : Prop :=
  reported s' = reported s ∨
  (reported s' = reported s ++ [RecvOp_msgInfo msg] ∧ pub_packetId msg ∈ recv_ids s').

Lemma silent_once {A} msg s s1 (m : M ClientImpl A) :
  silent m → reported s1 = reported s →
  wp any_fault m (λ _ s', reported_once msg s s') s1.
Proof.
  intros Hm Hr. eapply wp_mono; [by apply (keeps_wp _ s1 Hm)|]. intros a s' [_ Hs']. left.
  simpl in Hs'. congruence.
Qed.

Lemma wp_RecvOp_accept a t tm msg s0 s :
  2 ≤ MaxQos → pub_qos msg = QoS_ExactlyOnceDelivery → pub_packetIdExists msg = true →
  reported s = reported s0 → a ∈ ops_of Type_Recv s →
  g_store s !! a = Some (MkOp t (DRecv (MkRecvOp tm 0))) →
  wp any_fault (RecvOp_accept a msg) (λ _ s', reported_once msg s0 s') s.
Proof.
  intros HQ Hqos Hid Hrep Ha Ho. unfold RecvOp_accept. rewrite Hqos, Hid. cbn [Z.eqb negb].
  rewrite andb_false_r, (proj2 (Nat.leb_le 2 MaxQos) HQ), (proj2 (Nat.leb_le 1 MaxQos)) by lia.
  simpl.
  apply wp_bind. unfold reportMsgInfo, must_callback. apply wp_bind, wp_gets.
  apply wp_bind, wp_comms_assert; [done|]. destruct (has_messageReceivedReportCb _); [|done].
  apply wp_quiet. apply wp_bind. unfold modify_op. apply wp_bind.
  apply (wp_get_op_live _ a t (MkRecvOp tm 0)); [exact Ho|]. apply wp_modify.
  set (s1 := put_derived _ _ _).
  assert (reported s1 = reported s0 ++ [RecvOp_msgInfo msg]) as Hr1.
  { rewrite <- Hrep. unfold s1, reported. simpl. by rewrite omap_app. }
  assert (pub_packetId msg ∈ recv_ids s1) as Hin1.
  { apply list_elem_of_omap. exists a. split; [exact Ha|]. unfold recv_id, s1. simpl.
    by rewrite lookup_alter_eq, Ho. }
  clearbody s1. apply wp_bind. eapply wp_mono; [apply wp_sendMessage_sent|].
  intros ec s2 [Hr _]. eapply wp_mono; [by apply (keeps_wp _ _ (proj2 (tkeeps_RecvOp a)))|].
  intros [] s3 [_ [mgr ->]]. right.
  split; [|by rewrite (receptions_ids s2 (set_timerMgr mgr s2) eq_refl), (receptions_ids _ _ Hr)].
  change (reported s2 = reported s0 ++ [RecvOp_msgInfo msg]). injection Hr. congruence.
Qed.

Lemma wp_RecvOp_handle_Publish a t tm msg s0 s :
  2 ≤ MaxQos → pub_qos msg = QoS_ExactlyOnceDelivery → pub_packetIdExists msg = true →
  reported s = reported s0 → a ∈ ops_of Type_Recv s →
  g_store s !! a = Some (MkOp t (DRecv (MkRecvOp tm 0))) →
  wp any_fault (RecvOp_handle_Publish a msg) (λ _ s', reported_once msg s0 s') s.
Proof.
  intros HQ Hqos Hid Hrep Ha Ho. pose proof (silent_brokerDisconnected
    BrokerDisconnectReason_ProtocolError AsyncOpStatus_BrokerDisconnected ltac:(discriminate)) as Hdown.
  unfold RecvOp_handle_Publish. rewrite Hqos.
  do 2 (case_match; [by apply silent_once|]).
  apply wp_bind, (wp_get_op_live _ a t (MkRecvOp tm 0)); [exact Ho|].
  simpl. rewrite !andb_false_r. simpl.
  apply wp_bind, wp_gets, wp_bind, wp_gets, wp_bind, wp_gets.
  case_match; [by apply silent_once|]. case_match; [by apply silent_once|].
  case_match; [by apply silent_once|]. by eapply wp_RecvOp_accept.
Qed.

(** ** PUBREL *)

Section pubrel.
  Context `{!CommsLaws}.

Lemma quiet_contract : AppContract.
Proof. intros e s Hs. unfold wp. rewrite Hquiet. split; [done | reflexivity]. Qed.
#[local] Existing Instance quiet_contract.

(** Steps on timers keep the invariant. *)
Lemma timers_bind_inv {A B} (m : M ClientImpl A) (k : A → M ClientImpl B) Q s :
  keeps m → tkeeps m → Inv s →
  (∀ a mgr, Inv (set_timerMgr mgr s) → wp any_fault (k a) Q (set_timerMgr mgr s)) →
  wp any_fault (m ≫= k) Q s.
Proof.
  intros Hm Ht Hs Hk. apply wp_bind. eapply wp_mono.
  { eapply wp_and; [by apply Hm | by apply (keeps_wp _ s Ht)]. }
  intros a s' [[Hs' _] [_ [mgr ->]]]. by apply Hk.
Qed.

Lemma keeps_keepAlive l : keeps (mapM_ KeepAliveOp_handle_ProtMessage l).
Proof. apply keeps_mapM_. intros a. apply keeps_KeepAliveOp_restartRecvTimer. Qed.

Lemma recv_entry s a id :
  Inv s → recv_id s a = Some id →
  ∃ i t o, m_ops s !! i = Some (Some a) ∧ g_store s !! a = Some (MkOp t (DRecv o)) ∧
    ro_packetId o = id.
Proof.
  intros Hs. unfold recv_id. destruct (g_store s !! a) as [[t d]|] eqn:Ho; [|done]. simpl.
  destruct d; try done. intros [= Hid].
  assert (is_Some (shapes s !! a)) as Hx by (rewrite (shapes_lookup _ _ _ Ho); eauto).
  apply (li_ops _ _ _ (inv_ops _ Hs)) in Hx as [i Hi]%list_elem_of_lookup. by exists i, t, o.
Qed.

(** What the completion of a reception leaves. *)
Lemma wp_complete_recv a id s :
  Inv s → recv_id s a = Some id →
  wp any_fault (opComplete a)
    (λ _ s', Inv s' ∧ g_store s' = delete a (g_store s) ∧ g_trace s' = g_trace s) s.
Proof.
  intros Hs Ha. destruct (recv_entry s a id Hs Ha) as (i & t & o & Hi & Ho & _).
  apply (wp_faults only_assert); [|done].
  eapply wp_mono; [by eapply (wp_opComplete_entry i a); [.. | left]|].
  intros [] s' (Hs' & Est & Etr & _). rewrite app_nil_r in Etr. done.
Qed.

(** A step that may send one message. *)
Definition may_answer (msg : ProtMessage) (s s' : ClientImpl) : Prop :=
  sent s' = sent s ++ [msg] ∨ sent s' = sent s.

Lemma wp_RecvOp_handle_Pubrel a id flags s :
  Inv s → recv_id s a = Some id → pubrel_doValid flags = true →
  wp any_fault (RecvOp_handle_Pubrel a id flags) (λ _ s',
    reported s' = reported s ∧ g_store s' = delete a (g_store s) ∧
    may_answer (MPubcomp id) s s') s.
Proof.
  intros Hs Ha Hvalid. destruct (recv_entry s a id Hs Ha) as (i & t & o & Hi & Ho & Hid).
  unfold RecvOp_handle_Pubrel. apply wp_bind, (wp_get_op_live _ a t o); [exact Ho|].
  rewrite Hid, Z.eqb_refl, Hvalid. simpl.
  apply timers_bind_inv; [apply keeps_RecvOp_resetTimer | apply tkeeps_RecvOp | done|].
  intros [] mgr Hs1. apply wp_bind. eapply wp_mono.
  { eapply wp_and; [by apply keeps_sendMessage | apply wp_sendMessage_sent]. }
  intros ec s2 [[Hs2 _] [Hrec Hsent]]. injection Hrec as Est _ _ _ Hrep.
  eapply wp_mono; [apply (wp_complete_recv a id s2 Hs2)|].
  { unfold recv_id in *. by rewrite Est. }
  intros [] s3 (_ & Est3 & Etr). unfold reported, sent in *. rewrite Est3, Etr.
  split; [exact Hrep|]. split; [by rewrite Est|]. unfold may_answer, sent. rewrite Etr.
  revert Hsent. case_bool_decide; [by left|]. rewrite app_nil_r. by right.
Qed.
End pubrel.

(** ** Properties *)


End Delivery.

(** ** Witnesses *)

(** A message of QoS 2 with identifier 7 has been received. *)
Definition message7 (dup : bool) : PublishMsg := {|
  pub_dup := dup; pub_qos := 2; pub_retain := false; pub_topic := "t";
  pub_packetIdExists := true; pub_packetId := 7; pub_payload := [x41]%byte |}.

Definition rq_message7 (dup : bool) : Request :=
  RqProcessData [if dup then x3c else x34; x06; x00; x01; x74; x00; x07; x41]%byte.

Definition receiving_requests : list Request :=
  RqSetVerifyIncomingMsgSubscribed false :: rq_session ++ [rq_message7 false].

Definition receiving_state : ClientImpl :=
  state_of DefaultConfig (run_script receiving_requests (ClientImpl_new (H := DefaultConfig))).

Lemma receiving_state_Inv : Inv (H := DefaultConfig) receiving_state.
Proof.
  apply (reachable_Inv (H := DefaultConfig) (H0 := ExampleComms) (H1 := ExampleComms_laws)
    (H2 := ExampleScript) 2).
  apply (reachable_run (H := DefaultConfig) (H0 := ExampleComms) 2 receiving_requests
    (ClientImpl_new (H := DefaultConfig)));
    [apply (reachable_new (H := DefaultConfig) (H0 := ExampleComms)) | vm_compute; reflexivity].
Qed.


