(* ===== verification/Exchange.v ===== *)
(** * The exchange of an outgoing publish

    The handlers of acknowledgements of [SendOp] (client/lib/src/op/SendOp.cpp) as
    the sender of the QoS 1 and QoS 2 exchanges of MQTT: an abstract machine says
    how an exchange reacts to an acknowledgement, and the handlers implement it.
    The application does not call the client from its callbacks. *)

From S2P Require Import Prelude SortedVec Config Protocol Topic PacketId TimerMgr State.
From S2P Require Import Lifecycle Completion Session SendOp RecvOp SubscribeOp ConnectOp.
From S2P Require Import Client Invariant Objects Termination Frame Ownership Preservation.
From S2P Require Import Scenarios Safety Disconnect Delivery.

(** ** The abstract machine *)

(** What the sender of a publish waits for. *)
Inductive Exchange := WaitPuback | WaitPubrec | WaitPubcomp.

(** An exchange ends with a status, or goes on with a PUBREL. *)
Inductive Reaction := Ends (status : CC_Mqtt311AsyncOpStatus) | Releases.

Definition react (ex : Exchange) (msg : ProtMessage) : option Reaction :=
  match ex, msg with
  | WaitPuback, MPuback _ => Some (Ends AsyncOpStatus_Complete)
  | WaitPubrec, MPubrec _ => Some Releases
  | WaitPubcomp, MPubcomp _ => Some (Ends AsyncOpStatus_Complete)
  | _, (MPuback _ | MPubrec _ | MPubcomp _) => Some (Ends AsyncOpStatus_ProtocolError)
  | _, _ => None
  end.

Definition ack_id (msg : ProtMessage) : option Z :=
  match msg with MPuback id | MPubrec id | MPubcomp id => Some id | _ => None end.

(** The phase of a publish that has been sent. *)
Definition exchange_of (o : SendOp) : Exchange :=
  if (pub_qos (so_pubMsg o) =? QoS_AtLeastOnceDelivery)%Z then WaitPuback
  else if so_acked o then WaitPubcomp else WaitPubrec.

(** The publish [o] at [a] is gone and its callback, if any, got the status. *)
Definition ended (a : addr) (o : SendOp) (status : CC_Mqtt311AsyncOpStatus)
    (s s' : ClientImpl) : Prop :=
  g_store s' !! a = None ∧
  ∀ cb, so_cb o = Some cb → ∃ evs, g_trace s' = g_trace s ++ evs ∧
    EvPublishComplete a cb status ∈ evs.

(** The PUBREL of the publish has been sent, and it is acknowledged. *)
Definition released `{CommsLib} (a : addr) (t : Z) (o : SendOp) (s s' : ClientImpl) : Prop :=
  (∃ o', g_store s' !! a = Some (MkOp t (DSend o')) ∧ exchange_of o' = WaitPubcomp ∧
    so_pubMsg o' = so_pubMsg o ∧ so_cb o' = so_cb o) ∧
  sent s' = sent s ++ [MPubrel (pub_packetId (so_pubMsg o)) pubrel_flags].

Section Exchange.
  Context `{Config} `{CommsLib} `{!CommsLaws} `{App}.
  Context (Hquiet : ∀ e s, app_react e s = Ok tt s).

#[local] Instance quiet_app_contract : AppContract := quiet_contract Hquiet.

(** ** The handlers *)

Lemma ended_from a o st s s1 s' : g_trace s1 = g_trace s → ended a o st s1 s' → ended a o st s s'.
Proof. intros Htr [Hgone Hcb]. split; [done|]. by rewrite <- Htr. Qed.

Lemma ended_later a o st s s1 s' : Inv s1 → evolves s1 s' → a < g_next s1 →
  ended a o st s s1 → ended a o st s s'.
Proof.
  intros Hs1 Hev Ha [Hgone Hcb]. split.
  - assert (shapes s1 !! a = None) as Hnone by (unfold shapes; by rewrite lookup_fmap, Hgone).
    destruct (ev_dead _ _ Hev a Ha Hnone) as [Hn _]. unfold shapes in Hn.
    rewrite lookup_fmap in Hn. by apply fmap_None in Hn.
  - intros cb Hc. destruct (Hcb cb Hc) as (evs & Htr & Hin).
    destruct (ev_trace _ _ Hev) as [more Hmore]. exists (evs ++ more).
    split; [by rewrite Hmore, Htr, app_assoc | set_solver].
Qed.

Lemma wp_completeWithCb_ended a t o st s :
  Inv s → g_store s !! a = Some (MkOp t (DSend o)) →
  wp any_fault (SendOp_completeWithCb a st)
    (λ _ s', Inv s' ∧ evolves s s' ∧ ended a o st s s') s.
Proof.
  intros Hs Ho. assert (is_Some (shapes s !! a)) as Hlive by (rewrite (shapes_lookup _ _ _ Ho); eauto).
  assert (keeps (SendOp_completeWithCb a st)) as Hk by apply keeps_SendOp_completeWithCb.
  eapply (wp_mono _ _ (λ _ s', (Inv s' ∧ evolves s s') ∧ ended a o st s s'));
    [|by intros [] s' [[? ?] ?]].
  eapply (wp_and any_fault any_fault); [by apply Hk|].
  unfold SendOp_completeWithCb, SendOp_completeWithCb_with.
  apply wp_bind, (wp_get_op_live _ a t o); [exact Ho|]. apply wp_bind.
  eapply wp_mono; [apply (wp_opComplete_with resumeSendOpsSince keeps_resumeSendOpsSince); done|].
  intros [] s1 (Hs1 & Hev & Hgone). destruct (Hgone Hlive) as [Hnone _].
  assert (g_store s1 !! a = None) as Hst.
  { unfold shapes in Hnone. rewrite lookup_fmap in Hnone. by apply fmap_None in Hnone. }
  destruct (so_cb o) as [cb|] eqn:Hcb; [|apply wp_ret; by split; [|congruence]].
  apply (wp_quiet Hquiet). split; [done|]. intros cb' Hcb'. assert (cb' = cb) as -> by congruence.
  destruct (ev_trace _ _ Hev) as [evs Htr]. exists (evs ++ [EvPublishComplete a cb st]).
  split; [simpl; by rewrite Htr, app_assoc | set_solver].
Qed.

(** An error of the broker: the publish ends, then the session. *)
Lemma wp_protocolError a t o s :
  Inv s → g_store s !! a = Some (MkOp t (DSend o)) →
  wp any_fault (SendOp_protocolError a)
    (λ _ s', ended a o AsyncOpStatus_ProtocolError s s') s.
Proof.
  intros Hs Ho. unfold SendOp_protocolError. apply wp_bind.
  eapply wp_mono; [by eapply wp_completeWithCb_ended|]. intros [] s1 (Hs1 & Hev & Hend).
  eapply wp_mono; [by apply keeps_brokerDisconnected_protocolError|].
  intros [] s2 [Hs2 Hev2]. apply (ended_later a o _ s s1); [done..| |done].
  pose proof (ev_next _ _ Hev).
  pose proof (di_next _ _ _ (oi_done _ (inv_obj _ Hs)) a) as Hlt.
  rewrite (shapes_lookup _ _ _ Ho) in Hlt. specialize (Hlt (ltac:(eauto))). lia.
Qed.

(** The cancellation of the timer that starts every handler. *)
Lemma wp_cancel_then {A} a (k : M ClientImpl A) Q s :
  Inv s → (∀ mgr, Inv (set_timerMgr mgr s) → wp any_fault k Q (set_timerMgr mgr s)) →
  wp any_fault (SendOp_cancelTimer a ;; k) Q s.
Proof.
  intros Hs Hk. apply timers_bind_inv; [apply keeps_SendOp_cancelTimer| |done|by intros []].
  unfold SendOp_cancelTimer. apply keeps_bind; [apply tkeeps_get_op | intros; apply tkeeps_timer].
Qed.

(** An assignment to the publish. *)
Lemma wp_modify_then {A} a t o f (k : M ClientImpl A) Q s :
  Inv s → g_store s !! a = Some (MkOp t (DSend o)) →
  (∀ x, pub_packetId (so_pubMsg (f x)) = pub_packetId (so_pubMsg x)) →
  (∀ x, so_responseTimer (f x) = so_responseTimer x) →
  (∀ s1, Inv s1 → g_trace s1 = g_trace s → g_store s1 !! a = Some (MkOp t (DSend (f o))) →
    wp any_fault k Q s1) →
  wp any_fault (modify_op a f ;; k) Q s.
Proof.
  intros Hs Ho Hid Htm Hk. apply wp_bind.
  eapply (wp_mono _ _ (λ _ s1, (Inv s1 ∧ evolves s s1) ∧ s1 = put_derived a (DSend (f o)) s)).
  - eapply (wp_and any_fault any_fault).
    + apply (keeps_modify_op a f); [|done]. intros x. unfold shape_of. simpl. by rewrite Hid, Htm.
    + unfold modify_op. apply wp_bind, (wp_get_op_live _ a t o); [exact Ho|]. by apply wp_modify.
  - intros [] s1 [[Hs1 _] ->]. apply Hk; [done | done|]. simpl. by rewrite lookup_alter_eq, Ho.
Qed.

Lemma wp_release a t o s :
  Inv s → g_store s !! a = Some (MkOp t (DSend o)) →
  pub_qos (so_pubMsg o) = QoS_ExactlyOnceDelivery →
  wp any_fault
    (modify_op a (so_set_acked true) ;;
     modify_op a (so_set_sendAttempts 0) ;;
     result ← sendMessage (MPubrel (pub_packetId (so_pubMsg o)) pubrel_flags);
     if negb (bool_decide (result = ErrorCode_Success)) then
       SendOp_completeWithCb a AsyncOpStatus_InternalError
     else
       modify_op a (λ o, so_set_sendAttempts (u32 (so_sendAttempts o + 1)) o) ;;
       SendOp_restartResponseTimer a)
    (λ _ s', released a t o s s' ∨ ended a o AsyncOpStatus_InternalError s s') s.
Proof.
  intros Hs Ho Hqos.
  apply (wp_modify_then a t o); [done..|]. intros s1 Hs1 Htr1 Ho1.
  eapply wp_modify_then; [done..|]. intros s2 Hs2 Htr2 Ho2. set (o2 := so_set_sendAttempts 0 _) in *.
  apply wp_bind. eapply wp_mono.
  { eapply wp_and; [by apply keeps_sendMessage | by apply wp_sendMessage_sent]. }
  intros ec s3 [[Hs3 Hev] [Hrec Hsent]]. injection Hrec as Est _ _ _ _.
  assert (g_store s3 !! a = Some (MkOp t (DSend o2))) as Ho3 by (by rewrite Est).
  assert (sent s2 = sent s) as Hsent2 by (unfold sent; by rewrite Htr2, Htr1).
  case_bool_decide as Hec; simpl.
  - apply (wp_modify_then a t o2); [done..|]. intros s4 Hs4 Htr4 Ho4.
    assert (keeps (Contract0 := timers_contract) (SendOp_restartResponseTimer a)) as Ht.
    { unfold SendOp_restartResponseTimer. apply keeps_bind; [apply keeps_gets|]. intros ms.
      apply keeps_bind; [apply tkeeps_get_op | intros; apply tkeeps_timer]. }
    eapply wp_mono; [by apply (keeps_wp _ _ Ht)|]. intros [] s5 [_ [mgr ->]]. left. split.
    + eexists. split; [exact Ho4|]. unfold exchange_of. simpl. by rewrite Hqos.
    + rewrite <- Hsent2, <- Hsent. unfold sent. simpl. by rewrite Htr4.
  - eapply wp_mono; [by apply (wp_completeWithCb_ended a t o2)|]. intros [] s4 (_ & _ & Hend).
    right. destruct Hend as [Hgone Hcb]. split; [done|]. intros cb Hc.
    destruct (Hcb cb Hc) as (evs & Htr & Hin). destruct (ev_trace _ _ Hev) as [more Hmore].
    exists (more ++ evs). rewrite Htr, Hmore, Htr2, Htr1, app_assoc.
    split; [done | set_solver].
Qed.

(** The three handlers, for the identifier of the publish. *)
Section handlers.
  Context (a : addr) (t : Z) (o : SendOp) (s : ClientImpl) (Hs : Inv s)
    (Ho : g_store s !! a = Some (MkOp t (DSend o))).
Let id := pub_packetId (so_pubMsg o).
Let qos := pub_qos (so_pubMsg o).

(** The end of the publish once its timer is cancelled. *)
Lemma wp_end_ok mgr st : Inv (set_timerMgr mgr s) →
  wp any_fault (SendOp_completeWithCb a st) (λ _ s', ended a o st s s') (set_timerMgr mgr s).
Proof.
  intros Hs1. eapply wp_mono; [by apply (wp_completeWithCb_ended a t o)|].
  intros [] s' (_ & _ & Hend). by eapply ended_from.
Qed.

Lemma wp_end_error mgr : Inv (set_timerMgr mgr s) →
  wp any_fault (SendOp_protocolError a)
    (λ _ s', ended a o AsyncOpStatus_ProtocolError s s') (set_timerMgr mgr s).
Proof.
  intros Hs1. eapply wp_mono; [by apply (wp_protocolError a t o)|].
  intros [] s' Hend. by eapply ended_from.
Qed.

Lemma wp_handle_Puback :
  wp any_fault (SendOp_handle_Puback a id) (λ _ s',
    ended a o (if (qos =? QoS_AtLeastOnceDelivery)%Z then AsyncOpStatus_Complete
               else AsyncOpStatus_ProtocolError) s s') s.
Proof.
  unfold SendOp_handle_Puback. apply wp_bind, (wp_get_op_live _ a t o); [exact Ho|].
  apply wp_bind, wp_comms_assert; [done|]. apply wp_bind, wp_comms_assert; [done|].
  apply wp_cancel_then; [done|]. intros mgr Hs1. fold qos.
  destruct (qos =? _)%Z; simpl; [by apply wp_end_ok | by apply wp_end_error].
Qed.

Lemma wp_handle_Pubrec :
  wp any_fault (SendOp_handle_Pubrec a id) (λ _ s',
    if (qos =? QoS_ExactlyOnceDelivery)%Z && negb (so_acked o) then
      released a t o s s' ∨ ended a o AsyncOpStatus_InternalError s s'
    else ended a o AsyncOpStatus_ProtocolError s s') s.
Proof.
  unfold SendOp_handle_Pubrec. apply wp_bind, (wp_get_op_live _ a t o); [exact Ho|].
  fold id qos. rewrite Z.eqb_refl. cbn [negb]. apply wp_bind, wp_comms_assert; [done|].
  apply wp_cancel_then; [done|]. intros mgr Hs1.
  destruct (Z.eqb_spec qos QoS_ExactlyOnceDelivery); simpl; [|by apply wp_end_error].
  destruct (so_acked o) eqn:Hack; simpl; [by apply wp_end_error|].
  eapply wp_mono; [by apply (wp_release a t o)|]. intros [] s' [[Hst Hsent]|Hend].
  - left. by split.
  - right. by eapply ended_from.
Qed.

Lemma wp_handle_Pubcomp :
  wp any_fault (SendOp_handle_Pubcomp a id) (λ _ s',
    ended a o (if (qos =? QoS_ExactlyOnceDelivery)%Z && so_acked o then AsyncOpStatus_Complete
               else AsyncOpStatus_ProtocolError) s s') s.
Proof.
  unfold SendOp_handle_Pubcomp. apply wp_bind, (wp_get_op_live _ a t o); [exact Ho|].
  fold id qos. rewrite Z.eqb_refl. cbn [negb].
  apply wp_cancel_then; [done|]. intros mgr Hs1.
  destruct (qos =? _)%Z; simpl; [|by apply wp_end_error].
  destruct (so_acked o); simpl; [by apply wp_end_ok | by apply wp_end_error].
Qed.
End handlers.

(** ** Properties *)

(** C14: the handlers of PUBACK, PUBREC and PUBCOMP implement the abstract exchange:
    for an acknowledgement of the packet identifier of a publish of QoS 1 or 2,
    the publish is destroyed and its callback called with the status of the
    reaction (complete, or a protocol error when the acknowledgement does not fit
    the phase or the QoS), or it becomes acknowledged and a PUBREL goes out; if
    this output fails it ends with an internal error. *)
Theorem SendOp_handle_refines a t o msg r s :
  2 ≤ MaxQos → Inv s → g_store s !! a = Some (MkOp t (DSend o)) →
  pub_qos (so_pubMsg o) ∈ [QoS_AtLeastOnceDelivery; QoS_ExactlyOnceDelivery] →
  ack_id msg = Some (pub_packetId (so_pubMsg o)) → react (exchange_of o) msg = Some r →
  wp any_fault (SendOp_handle a msg) (λ _ s',
    match r with
    | Ends status => ended a o status s s'
    | Releases => released a t o s s' ∨ ended a o AsyncOpStatus_InternalError s s'
    end) s.
Proof.
  intros HQ Hs Ho Hqos Hid Hreact.
  pose proof (wp_handle_Puback a t o s Hs Ho) as Hpuback.
  pose proof (wp_handle_Pubrec a t o s Hs Ho) as Hpubrec.
  pose proof (wp_handle_Pubcomp a t o s Hs Ho) as Hpubcomp.
  unfold SendOp_handle. destruct msg; try done; injection Hid as ->;
    rewrite ?(proj2 (Nat.leb_le 2 MaxQos) HQ), ?(proj2 (Nat.leb_le 1 MaxQos)) by lia;
    (eapply wp_mono; [eassumption|]); intros [] s'; unfold react, exchange_of in Hreact;
    repeat apply elem_of_cons in Hqos as [Hqos|Hqos]; try (by apply elem_of_nil in Hqos);
    rewrite Hqos in *; simpl in *; destruct (so_acked o); by simplify_eq.
Qed.
End Exchange.

(** ** Witness *)

(** A publish of QoS 2, operation 3, waits for its PUBREC. *)
Definition exchange_requests : list Request := rq_session ++ rq_publish 3 2.

Definition exchange_state : ClientImpl :=
  state_of DefaultConfig (run_script exchange_requests (ClientImpl_new (H := DefaultConfig))).

Definition exchange_op : SendOp :=
  match o ← g_store exchange_state !! 3; downcast (op_derived o) with
  | Some o => o
  | None => MkSendOp None PublishMsg_new None 0 0 false false false
  end.

Lemma exchange_state_Inv : Inv (H := DefaultConfig) exchange_state.
Proof.
  apply (reachable_Inv (H := DefaultConfig) (H0 := ExampleComms) (H1 := ExampleComms_laws)
    (H2 := ExampleScript) 2).
  apply (reachable_run (H := DefaultConfig) (H0 := ExampleComms) 2 exchange_requests
    (ClientImpl_new (H := DefaultConfig)));
    [apply (reachable_new (H := DefaultConfig) (H0 := ExampleComms)) | vm_compute; reflexivity].
Qed.

Example SendOp_handle_refines_witness :
  exchange_of exchange_op = WaitPubrec ∧ so_cb exchange_op = Some 3 ∧
  wp any_fault
    (SendOp_handle (H := DefaultConfig) (H0 := ExampleComms) (H1 := QuietApp) 3 (MPubrec 1))
    (λ _ s', released (H := ExampleComms) 3 2000 exchange_op exchange_state s' ∨
      ended 3 exchange_op AsyncOpStatus_InternalError exchange_state s') exchange_state.
Proof.
  split; [vm_compute; reflexivity|]. split; [vm_compute; reflexivity|].
  refine (SendOp_handle_refines (H := DefaultConfig) (H0 := ExampleComms)
    (H1 := ExampleComms_laws) (H2 := QuietApp) _ 3 2000 exchange_op (MPubrec 1) Releases
    exchange_state _ exchange_state_Inv _ _ _ _);
    [intros e s; reflexivity | vm_compute; lia | vm_compute; reflexivity
    | vm_compute; right; left | vm_compute; reflexivity | vm_compute; reflexivity].
Defined.
