(* ===== verification/Conformance.v ===== *)
(** * What the sender of a publish does

    From the time at which a publish has gone out the client sends, of the messages with
    its packet identifier, only those that MQTT allows (sections 4.3.2, 4.3.3 and 4.4): the
    same PUBLISH again with the duplicate flag, until it has been acknowledged by a PUBREC,
    and from then on only PUBREL.  With the end of the operation the identifier is free for
    others; a success is reported only for a publish of QoS 1, or after a PUBREC.  This
    holds for anything that happens: acknowledgements of any kind, timeouts, the loss and
    the recovery of the connection, other operations, calls from callbacks.

    The proof is an instance of [Frame], for a contract that follows one publish. *)

From S2P Require Import Prelude SortedVec Config Protocol Topic PacketId TimerMgr State.
From S2P Require Import Lifecycle Completion Session SendOp RecvOp SubscribeOp ConnectOp.
From S2P Require Import Client Invariant Objects Termination Frame Ownership Preservation.
From S2P Require Import Scenarios Safety Requests Delivery.

(** ** The abstract sender *)

(** The publish has gone out; it has been acknowledged by a PUBREC; its operation has
    ended, and whether it may report success; it has reported. *)
Inductive Phase := Sent | Released | Gone (ok : bool) | Reported.

(** What is observed of a publish. *)
Inductive Observed := Sends (msg : ProtMessage) | Reports (status : CC_Mqtt311AsyncOpStatus).

(** Whether a success may be reported. *)
Definition may_succeed (m : PublishMsg) (p : Phase) : Prop :=
  match p with
  | Sent => pub_qos m = QoS_AtLeastOnceDelivery
  | Gone ok => ok = true
  | Released | Reported => True
  end.

(** The runs of a sender of [m].  The identifier of an operation that has ended may be
    given to another one. *)
Inductive conforms `{CommsLib} (m : PublishMsg) : Phase → list Observed → Phase → Prop :=
  | conforms_nil p : conforms m p [] p
  | conforms_publish l p :
      conforms m Sent l p → conforms m Sent (Sends (MPublish (pub_set_dup true m)) :: l) p
  | conforms_pubrec l p :
      pub_qos m = QoS_ExactlyOnceDelivery → conforms m Released l p → conforms m Sent l p
  | conforms_pubrel l p : conforms m Released l p →
      conforms m Released (Sends (MPubrel (pub_packetId m) pubrel_flags) :: l) p
  | conforms_end_sent l p :
      conforms m (Gone (pub_qos m =? QoS_AtLeastOnceDelivery)%Z) l p → conforms m Sent l p
  | conforms_end_released l p : conforms m (Gone true) l p → conforms m Released l p
  | conforms_reuse ok msg l p :
      conforms m (Gone ok) l p → conforms m (Gone ok) (Sends msg :: l) p
  | conforms_report q st l p :
      (st = AsyncOpStatus_Complete → may_succeed m q) →
      conforms m Reported l p → conforms m q (Reports st :: l) p
  | conforms_reported msg l p :
      conforms m Reported l p → conforms m Reported (Sends msg :: l) p.

(** The messages of an exchange with an identifier, and the completion of [a]. *)
Definition exchange_id (msg : ProtMessage) : option Z :=
  match msg with
  | MPublish m => Some (pub_packetId m)
  | MPubrel id _ => Some id
  | _ => None
  end.

Definition observe (a : addr) (id : Z) (e : Event) : option Observed :=
  match e with
  | EvSendOutputData msg _ =>
      if bool_decide (exchange_id msg = Some id) then Some (Sends msg) else None
  | EvPublishComplete b _ st => if bool_decide (b = a) then Some (Reports st) else None
  | _ => None
  end.

Section sender.
  Context `{CommsLib} (m : PublishMsg).

Lemma conforms_trans p l p' l' p'' :
  conforms m p l p' → conforms m p' l' p'' → conforms m p (l ++ l') p''.
Proof. intros Hl. revert l'. induction Hl; intros l' Hl'; simpl; eauto using conforms. Qed.

Lemma conforms_absorb l : conforms m Reported l Reported.
Proof. induction l as [|[]]; by constructor. Qed.

Lemma conforms_may_succeed p l p' : conforms m p l p' → may_succeed m p → may_succeed m p'.
Proof.
  induction 1; simpl in *; try done; auto. intros Hq. apply IHconforms. by apply Z.eqb_eq.
Qed.

Lemma conforms_reports p l p' : conforms m p l p' → p ≠ Reported → p' = Reported →
  ∃ st, Reports st ∈ l.
Proof.
  induction 1 as [| | | | | | |q st l p' _ _ _|]; intros Hp Hp'; try done;
    try (destruct IHconforms as [st Hst]; [done.. | by exists st; set_solver]).
  exists st. set_solver.
Qed.

(** *** What the runs look like *)

Abbreviation again := (Sends (MPublish (pub_set_dup true m))).
Abbreviation pubrel := (Sends (MPubrel (pub_packetId m) pubrel_flags)).

Definition ended (p : Phase) : bool := match p with Gone _ | Reported => true | _ => false end.

Lemma conforms_ended p l p' : conforms m p l p' → ended p = true → ended p' = true.
Proof. induction 1; auto. Qed.

(** Duplicates of the PUBLISH, then PUBREL, and something else only when the operation
    has ended. *)
Lemma conforms_shape p l p' : conforms m p l p' → ended p = false →
  ∃ n j l', l = replicate n again ++ replicate j pubrel ++ l' ∧
    (p = Released → n = 0 ∧ p' ≠ Sent) ∧ (p' = Sent → j = 0) ∧ (ended p' = false → l' = []) ∧
    (p = Sent → j ≠ 0 → pub_qos m = QoS_ExactlyOnceDelivery).
Proof.
  assert (∀ q l q', conforms m q l q' → ended q = true → ended q' ≠ false) as Hend.
  { intros q l0 q' Hc Hq. by rewrite (conforms_ended _ _ _ Hc Hq). }
  induction 1 as [p|l p' _ IH|l p' Hq _ IH|l p' _ IH|l p' Hl _|l p' Hl _| |q st l p' _ Hl _|];
    intros Hp; try done.
  - exists 0, 0, []. by destruct p.
  - destruct (IH eq_refl) as (n & j & l' & -> & _ & Hj & Hl' & Hr). by exists (S n), j, l'.
  - destruct (IH eq_refl) as (n & j & l' & -> & Hn & Hj & Hl' & _). destruct (Hn eq_refl) as [-> _].
    by exists 0, j, l'.
  - destruct (IH eq_refl) as (n & j & l' & -> & Hn & Hj & Hl' & _). destruct (Hn eq_refl) as [-> Hs].
    by exists 0, (S j), l'.
  - exists 0, 0, l. apply Hend in Hl; [|done]. by destruct p'.
  - exists 0, 0, l. apply Hend in Hl; [|done]. by destruct p'.
  - exists 0, 0, (Reports st :: l). apply Hend in Hl; [|done]. by destruct p'.
Qed.
End sender.

(** ** The contract *)

Section follow.
  Context `{Config} `{CommsLib} (a : addr) (m : PublishMsg).

(** The publish has gone out with the message [m]. *)
Definition is_sending (o : SendOp) : Prop :=
  so_paused o = false ∧ pub_set_dup true (so_pubMsg o) = pub_set_dup true m.

Definition phase_of (o : SendOp) : Phase := if so_acked o then Released else Sent.

(** The phases of the abstract sender that a state stands for. *)
Definition core_phase (s : ClientImpl) (p : Phase) : Prop :=
  match op_derived <$> g_store s !! a with
  | Some (DSend o) => p = phase_of o
  | Some _ => False
  | None => ∃ ok, p = Gone ok
  end.
Definition at_phase (s : ClientImpl) (p : Phase) : Prop := p = Reported ∨ core_phase s p.

(** While the publish lives, its identifier is allocated and no other operation holds it. *)
Record followed (s : ClientImpl) : Prop := {
  fo_next : a < g_next s;
  fo_ids : packetIds_ok (m_allocatedPacketIds (m_clientState s));
  fo_live : ∀ ob, g_store s !! a = Some ob →
    (∃ o, op_derived ob = DSend o ∧ is_sending o) ∧
    pub_packetId m ∈ m_allocatedPacketIds (m_clientState s) ∧
    ∀ b ob', b ≠ a → g_store s !! b = Some ob' → held_packetId (op_derived ob') ≠ pub_packetId m;
}.

Definition follows (s s' : ClientImpl) : Prop :=
  ∃ evs, g_trace s' = g_trace s ++ evs ∧
    ∀ p, at_phase s p → ∃ p', at_phase s' p' ∧
      conforms m p (omap (observe a (pub_packetId m)) evs) p'.

#[local] Instance follows_preorder : PreOrder follows.
Proof.
  split.
  - intros s. exists []. rewrite app_nil_r. split; [done|]. intros p Hp. exists p.
    split; [done | constructor].
  - intros s1 s2 s3 (l1 & E1 & C1) (l2 & E2 & C2). exists (l1 ++ l2). rewrite E2, E1, app_assoc.
    split; [done|]. intros p1 Hp1. destruct (C1 p1 Hp1) as (p2 & Hp2 & S1).
    destruct (C2 p2 Hp2) as (p3 & Hp3 & S2). exists p3. split; [done|].
    rewrite omap_app. by eapply conforms_trans.
Qed.

(** Nothing is required after a report. *)
Lemma follows_step s s' evs : g_trace s' = g_trace s ++ evs →
  (∀ p, core_phase s p → ∃ p', at_phase s' p' ∧
    conforms m p (omap (observe a (pub_packetId m)) evs) p') →
  follows s s'.
Proof.
  intros Htr Hp. exists evs. split; [done|]. intros p [->|Hc]; [|by apply Hp].
  exists Reported. split; [by left | apply conforms_absorb].
Qed.

(** A step without events that leaves the publish alone or destroys it. *)
Lemma follows_silent s s' : g_trace s' = g_trace s →
  op_derived <$> g_store s' !! a = op_derived <$> g_store s !! a ∨ g_store s' !! a = None →
  follows s s'.
Proof.
  intros Htr Hst. apply (follows_step _ _ []); [by rewrite app_nil_r|]. intros p Hp. simpl.
  destruct Hst as [Hst|Hst].
  - exists p. split; [right; unfold core_phase in *; by rewrite Hst | constructor].
  - unfold at_phase, core_phase in *. rewrite Hst. simpl.
    destruct (g_store s !! a) as [[t []]|]; simpl in Hp; try done.
    + subst p. unfold phase_of. destruct (so_acked o).
      * exists (Gone true). split; [right; eauto | apply conforms_end_released; constructor].
      * eexists (Gone _). split; [right; eauto | apply conforms_end_sent; constructor].
    + exists p. split; [by right | constructor].
Qed.

Definition follow_contract : Contract ClientImpl := {|
  ct_inv := followed;
  ct_rel := follows;
  ct_faults := any_fault;
|}.
Abbreviation wkeeps := (keeps (Contract0 := follow_contract)).

(** A step that leaves the publish alone, or destroys it. *)
Lemma follow_other s s' : followed s → g_next s ≤ g_next s' →
  packetIds_ok (m_allocatedPacketIds (m_clientState s')) → g_trace s' = g_trace s →
  (∀ ob, g_store s' !! a = Some ob → g_store s !! a = Some ob ∧
    (pub_packetId m ∈ m_allocatedPacketIds (m_clientState s) →
     pub_packetId m ∈ m_allocatedPacketIds (m_clientState s')) ∧
    ∀ b ob', b ≠ a → g_store s' !! b = Some ob' →
      held_packetId (op_derived ob') ≠ pub_packetId m ∨
      ∃ ob, g_store s !! b = Some ob ∧ held_packetId (op_derived ob') = held_packetId (op_derived ob)) →
  followed s' ∧ follows s s'.
Proof.
  intros [Hn Hids Hlive] Hn' Hids' Htr Ha. split; [split; [lia | done|]|].
  - intros ob Hob. destruct (Ha ob Hob) as (Hob' & Hin & Hothers).
    destruct (Hlive ob Hob') as (Ho & Hin' & Hothers'). split_and!; [done | by apply Hin|].
    intros b ob' Hb Hbs. destruct (Hothers b ob' Hb Hbs) as [|(ob'' & Hbs' & ->)]; [done|].
    by apply (Hothers' b).
  - apply follows_silent; [done|]. destruct (g_store s' !! a) as [ob|] eqn:Hob; [|by right].
    left. by destruct (Ha ob eq_refl) as [-> _].
Qed.

(** A step that changes neither operations nor identifiers. *)
Lemma follow_same s s' : followed s → g_store s' = g_store s → g_next s' = g_next s →
  m_allocatedPacketIds (m_clientState s') = m_allocatedPacketIds (m_clientState s) →
  g_trace s' = g_trace s → followed s' ∧ follows s s'.
Proof.
  intros Hs Hst Hn Hids Htr. apply follow_other; [done | lia | by rewrite Hids; apply Hs | done|].
  intros ob. rewrite Hst, Hids. intros Hob. split_and!; [done..|]. eauto.
Qed.

(** An assignment to the publish. *)
Lemma follow_self t o o' s : followed s → g_store s !! a = Some (MkOp t (DSend o)) → is_sending o' →
  (so_acked o' = so_acked o ∨
   so_acked o = false ∧ so_acked o' = true ∧ pub_qos m = QoS_ExactlyOnceDelivery) →
  followed (put_derived a (DSend o') s) ∧ follows s (put_derived a (DSend o') s).
Proof.
  intros [Hn Hids Hlive] Ho Hsend Hack. destruct (Hlive _ Ho) as (_ & Hin & Hothers).
  assert (g_store (put_derived a (DSend o') s) !! a = Some (MkOp t (DSend o'))) as Ho'
    by (simpl; by rewrite lookup_alter_eq, Ho).
  split; [split; [done | done|]|].
  - intros ob. rewrite Ho'. intros [= <-]. split_and!; [by exists o' | done|].
    intros b ob' Hb. simpl. rewrite lookup_alter_ne by done. by apply Hothers.
  - apply (follows_step _ _ []); [by rewrite app_nil_r|]. unfold at_phase, core_phase.
    rewrite Ho', Ho. simpl. intros p ->. exists (phase_of o'). split; [by right|]. unfold phase_of.
    destruct Hack as [->|(-> & -> & Hq)]; [constructor | by apply conforms_pubrec; [|constructor]].
Qed.

(** An assignment to another operation. *)
Lemma follow_put b t d d' s : followed s → b ≠ a → g_store s !! b = Some (MkOp t d) →
  held_packetId d' = held_packetId d ∨ held_packetId d' ≠ pub_packetId m →
  followed (put_derived b d' s) ∧ follows s (put_derived b d' s).
Proof.
  intros Hs Hb Hd Hid. apply follow_other; [done | done | apply Hs | done|].
  intros ob. simpl. rewrite lookup_alter_ne by done. intros Hob. split_and!; [done..|].
  intros c ob' Hc. rewrite lookup_alter. case_decide as Hbc; [subst c|eauto].
  rewrite Hd. intros [= <-]. simpl. destruct Hid as [Hid|Hid]; [right | by left].
  exists (MkOp t d). by split.
Qed.

(** A new timeout of an operation. *)
Lemma follow_timeout b ob ms s : followed s → g_store s !! b = Some ob →
  let s' := set_store (<[b := MkOp ms (op_derived ob)]> (g_store s)) s in
  followed s' ∧ follows s s'.
Proof.
  intros Hs Hb s'.
  assert (∀ c, op_derived <$> g_store s' !! c = op_derived <$> g_store s !! c) as Hder.
  { intros c. simpl. rewrite lookup_insert. case_decide; [subst c; by rewrite Hb | done]. }
  assert (∀ c oc, g_store s' !! c = Some oc →
    ∃ oc', g_store s !! c = Some oc' ∧ op_derived oc' = op_derived oc) as Hback.
  { intros c oc Hc. specialize (Hder c). rewrite Hc in Hder. by apply symmetry, fmap_Some in Hder
      as (oc' & ? & ?); eauto. }
  destruct Hs as [Hn Hids Hlive]. split; [split; [done..|]|].
  - intros oa (oa' & Ha & <-)%Hback. destruct (Hlive _ Ha) as (Ho & Hin & Hothers).
    split_and!; [done..|]. intros c oc Hc (oc' & Hoc & <-)%Hback. by apply (Hothers c).
  - apply follows_silent; [done|]. left. apply Hder.
Qed.

(** *** Elementary steps *)

Lemma follow_modify f : (∀ s, g_store (f s) = g_store s) → (∀ s, g_next (f s) = g_next s) →
  (∀ s, m_clientState (f s) = m_clientState s) → (∀ s, g_trace (f s) = g_trace s) →
  wkeeps (modify f).
Proof.
  intros Hst Hn Hc Htr. apply keeps_modify. intros s Hs. apply follow_same; [done|..]; by rewrite ?Hc.
Qed.

Lemma follow_comms_assert b : wkeeps (comms_assert b).
Proof. by apply keeps_comms_assert. Qed.

Lemma follow_modify_op {T} `{Subclass T} b (f : T → T) :
  (∀ o, op_kept (upcast o) (upcast (f o))) → wkeeps (modify_op b f).
Proof.
  intros Hf s Hs. unfold modify_op. apply wp_bind, wp_get_op; [done|]. intros t o Ho.
  apply wp_modify. specialize (Hf o). destruct (decide (b = a)) as [->|Hb].
  - destruct (fo_live _ Hs _ Ho) as ((o1 & Eo & Hp & Hm) & _). simpl in Eo. rewrite Eo in Ho, Hf.
    destruct (upcast (f o)) as [| | | | | |o2]; try done. destruct Hf as (Em & Ea & Hpause).
    eapply follow_self; [done | done | | by left]. split; [|congruence].
    destruct (so_paused o2); [|done]. rewrite Hp in Hpause. by destruct Hpause.
  - eapply follow_put; [done | done | done|]. left.
    destruct (upcast o), (upcast (f o)); simpl in *; naive_solver congruence.
Qed.

Lemma follow_write b f : b ≠ a →
  (∀ o, pub_packetId (so_pubMsg (f o)) = pub_packetId (so_pubMsg o)) →
  wkeeps (modify_op (T := SendOp) b f).
Proof.
  intros Hb Hf s Hs. unfold modify_op. apply wp_bind, wp_get_op; [done|]. intros t o Ho.
  apply wp_modify. eapply follow_put; [done | done | done|]. left. apply Hf.
Qed.

(** The identifier that an operation gets is not one that is allocated. *)
Lemma follow_alloc {T} `{Subclass T} b (g : Z → T → T) : pub_packetId m ≠ 0%Z →
  (∀ id o, held_packetId (upcast (g id o)) = id) → (∀ o o', upcast o = DSend o' → b ≠ a) →
  wkeeps (id ← on_clientState allocPacketId; modify_op b (g id)).
Proof.
  intros Hm Hg Hb s Hs. apply wp_bind, wp_zoom.
  assert (∀ id cs, packetIds_ok (m_allocatedPacketIds cs) →
    (pub_packetId m ∈ m_allocatedPacketIds (m_clientState s) → pub_packetId m ≠ id) →
    (∀ y, y ∈ m_allocatedPacketIds (m_clientState s) → y ∈ m_allocatedPacketIds cs) →
    wp any_fault (modify_op b (g id)) (λ _ s', followed s' ∧ follows s s') (set_clientState cs s)) as Hk.
  { intros id cs Hok Hid Hsub. set (s1 := set_clientState cs s).
    assert (followed s1 ∧ follows s s1) as [Hs1 H01].
    { apply follow_other; [done | done | done | done|]. intros ob Hob. split_and!; [done | apply Hsub|].
      eauto. }
    unfold modify_op. apply wp_bind, wp_get_op; [done|]. intros t o Ho. apply wp_modify.
    assert (b ≠ a) as Hba.
    { intros ->. destruct (fo_live _ Hs1 _ Ho) as ((o' & Eo & _) & _). by eapply Hb. }
    destruct (decide (is_Some (g_store s !! a))) as [[ob Hlive]|Hdead].
    - destruct (fo_live _ Hs _ Hlive) as (_ & Hin & _).
      destruct (follow_put b t (upcast o) (upcast (g id o)) s1 Hs1 Hba Ho) as [Hs2 H12];
        [right; rewrite Hg; by apply not_eq_sym, Hid|].
      split; [done | by etrans].
    - assert (g_store (put_derived b (upcast (g id o)) s1) !! a = None) as Hnone.
      { simpl. rewrite lookup_alter_ne by done. by apply eq_None_not_Some. }
      split; [split; [apply Hs | done|] | by apply follows_silent; [|right]].
      intros ob. by rewrite Hnone. }
  destruct (allocPacketId_cases _ (fo_ids _ Hs)) as [[_ Ha]|(_ & ids & id & k & Ha & Hok & Hel & Hfree)];
    (eapply wp_ok; [exact Ha|]); apply Hk; simpl; try done.
  - apply Hs.
  - intros Hin <-. by destruct Hfree as (_ & Hfree & _).
  - intros y Hy. apply Hel. by right.
Qed.

Lemma follow_new d : held_packetId d = 0%Z → pub_packetId m ≠ 0%Z → wkeeps (new_object d).
Proof.
  intros Hd Hm s Hs. unfold new_object. do 2 apply wp_bind, wp_gets.
  apply wp_bind, wp_modify, wp_bind, wp_modify, wp_ret. pose proof (fo_next _ Hs).
  apply follow_other; [done | simpl; lia | apply Hs | done|]. simpl. intros ob.
  rewrite lookup_insert_ne by lia. intros Hob. split_and!; [done..|]. intros b ob' Hb.
  rewrite lookup_insert. case_decide; [|eauto]. intros [= <-]. left. simpl. congruence.
Qed.

Lemma wp_release_others id cs : packetIds_ok (m_allocatedPacketIds cs) →
  wp any_fault (releasePacketId id) (λ _ cs', packetIds_ok (m_allocatedPacketIds cs') ∧
    ∀ y, y ∈ m_allocatedPacketIds cs → y ≠ id → y ∈ m_allocatedPacketIds cs') cs.
Proof.
  intros Hok. unfold releasePacketId. destruct (_ =? 0)%Z; [done|]. apply wp_bind, wp_gets.
  destruct (_ !! _) as [x|] eqn:Hx; [|by apply wp_comms_assert].
  destruct (Z.eqb_spec x id) as [->|]; [|by apply wp_comms_assert].
  apply wp_modify. destruct (erase_lower_bound_ok _ id Hok) as [Hok' Hel];
    [by eapply list_elem_of_lookup_2|]. split; [done|]. intros y Hy Hid. by apply Hel.
Qed.

Lemma wp_timer_any {A} (tm : M (TimerMgr TimeoutCb) A) Q s :
  (∀ x mgr, Q x (set_timerMgr mgr s)) → wp any_fault (on_timerMgr tm) Q s.
Proof. intros HQ. apply wp_zoom. unfold wp. by destruct (tm _). Qed.

Lemma follow_destroy b : wkeeps (Op_destroy b).
Proof.
  intros s Hs. unfold Op_destroy. apply wp_bind, wp_get_base; [done|]. intros ob Hb.
  apply wp_bind, wp_zoom. eapply wp_mono; [apply wp_release_others, Hs|]. intros [] cs [Hok Hsub].
  apply wp_bind, wp_timer_any. intros [] mgr. apply wp_modify.
  apply follow_other; [done | done | done | done|]. simpl. intros ob' [Hab Ha]%lookup_delete_Some.
  destruct (fo_live _ Hs _ Ha) as (_ & _ & Hothers). split_and!; [done| |].
  - intros Hin. apply Hsub; [done|]. by apply not_eq_sym, (Hothers b).
  - intros c oc Hc [_ Hoc]%lookup_delete_Some. eauto.
Qed.

(** *** Calls of the application *)

Context `{App} (Happ : ∀ e, wkeeps (app_react e)).

Lemma follow_callback e : exchange_event e = false → wkeeps (callback e).
Proof.
  intros He. apply keeps_bind; [|intros _; apply Happ]. apply keeps_modify. intros s [Hn Hids Hlive].
  split; [by split|]. apply (follows_step _ _ [e]); [done|]. intros p Hp. exists p.
  split; [by right|]. destruct e as [| |[] ?| | | | | | |]; try done; constructor.
Qed.

#[local] Instance follow_framed : pub_packetId m ≠ 0%Z → Framed (λ b, b ≠ a) follow_contract.
Proof.
  intros Hm. split.
  - done.
  - intros. by apply follow_modify.
  - intros. by apply follow_callback.
  - intros A tm _ s Hs. apply wp_timer_any. intros x mgr. by apply follow_same.
  - intros f Hf _ s Hs. apply wp_zoom, wp_modify. by apply follow_same; [|..|apply Hf|].
  - intros topic. unfold store_filter. keeps_auto. by apply follow_modify.
  - intros. by apply follow_modify.
  - by apply follow_modify.
  - intros T HT b f. apply follow_modify_op.
  - apply follow_write.
  - intros b Hb. by apply (follow_alloc b (λ id o, so_set_pubMsg (pub_set_packetId id (so_pubMsg o)) o)).
  - intros b. by apply (follow_alloc b su_set_packetId).
  - intros b. by apply (follow_alloc b un_set_packetId).
  - intros d Hd. by apply follow_new.
  - apply follow_destroy.
  - intros b ms s Hs. unfold Op_setResponseTimeout. apply wp_bind, wp_get_base; [done|].
    intros ob Hb. apply wp_modify. by apply follow_timeout.
Qed.

(** *** The messages of publishes *)

Context (Hm : pub_packetId m ≠ 0%Z).
#[local] Instance follow_framed_here : Framed (λ b, b ≠ a) follow_contract := follow_framed Hm.

(** Continue a run that has followed the publish so far. *)
Lemma wp_follow {A} (p : M ClientImpl A) s s1 : followed s1 → follows s s1 → wkeeps p →
  wp any_fault p (λ _ s', followed s' ∧ follows s s') s1.
Proof.
  intros Hs1 H01 Hp. eapply wp_mono; [by apply Hp|]. intros x s2 [Hs2 H12]. split; [done | by etrans].
Qed.

Lemma followed_log e s : followed s → followed (log e s).
Proof. intros []. by split. Qed.

Lemma wp_output msg s : followed s →
  (∀ buf, follows s (log (EvSendOutputData msg buf) s)) →
  wp any_fault (sendMessage msg) (λ _ s', followed s' ∧ follows s s') s.
Proof.
  intros Hs Hlog. unfold sendMessage. cbv zeta. case_match; [by apply wp_ret|].
  destruct (frame_write msg) as [buf|]; [|by apply wp_bind, wp_comms_assert].
  apply wp_bind, wp_gets, wp_bind. unfold must_callback. apply wp_bind, wp_comms_assert; [done|].
  destruct (has_sendOutputDataCb _); [|done]. unfold callback. apply wp_bind, wp_modify.
  pose proof (followed_log (EvSendOutputData msg buf) s Hs) as Hs1.
  eapply wp_mono; [apply (wp_follow _ s); [done | apply Hlog | apply Happ]|].
  intros [] s2 [Hs2 H02]. apply (wp_follow _ s); [done..|].
  keeps_auto. apply (fkeeps_messageSent follow_contract).
Qed.

Lemma wp_send_own b t o msg s : followed s → g_store s !! b = Some (MkOp t (DSend o)) →
  msg = MPublish (so_pubMsg o) ∧ (b = a → so_acked o = false ∧ pub_dup (so_pubMsg o) = true) ∨
  msg = MPubrel (pub_packetId (so_pubMsg o)) pubrel_flags ∧ (b = a → so_acked o = true) →
  wp any_fault (sendMessage msg) (λ _ s', followed s' ∧ follows s s') s.
Proof.
  intros Hs Ho Hmsg. apply wp_output; [done|]. intros buf.
  eapply follows_step; [done|]. intros p Hp. simpl in Hp |- *. exists p. split; [by right|].
  destruct (decide (b = a)) as [->|Hb].
  - destruct (fo_live _ Hs _ Ho) as ((o' & Eo & _ & Hd) & _ & _). injection Eo as <-.
    assert (pub_packetId (so_pubMsg o) = pub_packetId m) as Hid by (by injection Hd).
    unfold core_phase in Hp. rewrite Ho in Hp. simpl in Hp. subst p. unfold phase_of.
    destruct Hmsg as [(-> & Hph)|(-> & Hph)]; simpl; rewrite Hid, bool_decide_true by done.
    + destruct (Hph eq_refl) as [-> Hdup].
      assert (so_pubMsg o = pub_set_dup true m) as ->.
      { rewrite <- Hd. destruct (so_pubMsg o); simpl in *. by subst. }
      repeat constructor.
    + rewrite (Hph eq_refl). repeat constructor.
  - case_match; [|constructor]. case_bool_decide as Hmid; simplify_eq.
    unfold core_phase in Hp. destruct (g_store s !! a) as [oa|] eqn:Ha; simpl in Hp.
    + destruct (fo_live _ Hs _ Ha) as (_ & _ & Hothers). destruct (Hothers b _ Hb Ho). simpl.
      by destruct Hmsg as [(-> & _)|(-> & _)]; injection Hmid.
    + destruct Hp as [ok ->]. repeat constructor.
Qed.

(** An assignment to a publish, whose members are then known. *)
Lemma wp_own_modify {B} b t o f (k : unit → M ClientImpl B) Q s :
  followed s → g_store s !! b = Some (MkOp t (DSend o)) →
  pub_packetId (so_pubMsg (f o)) = pub_packetId (so_pubMsg o) →
  (b = a → is_sending o → is_sending (f o) ∧
    (so_acked (f o) = so_acked o ∨
     so_acked o = false ∧ so_acked (f o) = true ∧ pub_qos (so_pubMsg o) = QoS_ExactlyOnceDelivery)) →
  (∀ s', followed s' → follows s s' → g_store s' !! b = Some (MkOp t (DSend (f o))) →
    wp any_fault (k tt) Q s') →
  wp any_fault (modify_op (T := SendOp) b f ≫= k) Q s.
Proof.
  intros Hs Ho Hid Hf Hk. apply wp_bind. unfold modify_op.
  apply wp_bind, (wp_get_op_live _ b t o); [exact Ho|]. apply wp_modify.
  assert (followed (put_derived b (DSend (f o)) s) ∧ follows s (put_derived b (DSend (f o)) s)) as [Hs1 H01].
  { destruct (decide (b = a)) as [->|Hb].
    - destruct (fo_live _ Hs _ Ho) as ((o' & Eo & Hsend) & _). injection Eo as <-.
      destruct (Hf eq_refl Hsend) as [Hsend' Hack]. eapply follow_self; [done..|].
      destruct Hsend as [_ Hd]. assert (pub_qos (so_pubMsg o) = pub_qos m) as <- by (by injection Hd).
      done.
    - eapply follow_put; [done..|]. by left. }
  apply Hk; [done..|]. simpl. by rewrite lookup_alter_eq, Ho.
Qed.

(** *** Completion *)

Lemma wp_complete resume b st s : (∀ idx, wkeeps (resume idx)) → followed s →
  (∀ t o, g_store s !! b = Some (MkOp t (DSend o)) → b = a → st = AsyncOpStatus_Complete →
    may_succeed m (phase_of o)) →
  wp any_fault (SendOp_completeWithCb_with resume b st) (λ _ s', followed s' ∧ follows s s') s.
Proof.
  intros Hr Hs Hst. unfold SendOp_completeWithCb_with. apply wp_bind, wp_get_op; [done|].
  intros t o Ho. specialize (Hst t o Ho). apply wp_bind.
  eapply wp_mono; [by apply (fkeeps_opComplete_with follow_contract resume Hr)|].
  intros [] s1 [Hs1 H01]. destruct (so_cb o) as [cb|]; [|by apply wp_ret].
  unfold callback. apply wp_bind, wp_modify. set (e := EvPublishComplete b cb st).
  apply (wp_follow _ s); [by apply followed_log | | apply Happ].
  destruct (decide (b = a)) as [Hb|Hb].
  - destruct H01 as (evs & Htr & Hc). exists (evs ++ [e]).
    split; [simpl; by rewrite Htr, app_assoc|]. intros p Hp. destruct (Hc p Hp) as (p1 & _ & S1).
    exists Reported. split; [by left|]. rewrite omap_app. eapply conforms_trans; [exact S1|].
    simpl. rewrite bool_decide_true by done. apply conforms_report; [|constructor].
    intros Hok. eapply conforms_may_succeed; [exact S1|]. destruct Hp as [->|Hp]; [done|].
    unfold core_phase in Hp. rewrite <- Hb, Ho in Hp. simpl in Hp. subst p. by apply Hst.
  - etrans; [exact H01|]. apply (follows_step _ _ [e]); [done|]. intros p Hp. exists p.
    split; [by right|]. simpl. rewrite bool_decide_false by done. constructor.
Qed.

Lemma follow_complete resume b st : (∀ idx, wkeeps (resume idx)) →
  (b = a → st ≠ AsyncOpStatus_Complete) → wkeeps (SendOp_completeWithCb_with resume b st).
Proof. intros Hr Hst s Hs. apply wp_complete; [done..|]. intros t o _ Hb Hok. by destruct Hst. Qed.

Ltac follow_auto :=
  keeps_auto; first [ apply follow_modify_op; op_kept_auto | apply (fkeeps_get_op follow_contract)
    | by apply follow_complete | apply (fkeeps_canSend follow_contract)
    | apply (fkeeps_restartResponseTimer follow_contract) ].

Lemma wp_cancelTimer b Q s : (∀ mgr, Q tt (set_timerMgr mgr s)) →
  wp any_fault (SendOp_cancelTimer b) Q s.
Proof.
  intros HQ. unfold SendOp_cancelTimer. apply wp_bind, wp_get_op; [done|]. intros t o _.
  apply wp_timer_any. by intros [].
Qed.

Lemma wp_after_timer {A} (p : M ClientImpl A) mgr s : followed s → wkeeps p →
  wp any_fault p (λ _ s', followed s' ∧ follows s s') (set_timerMgr mgr s).
Proof.
  intros Hs Hp. assert (followed (set_timerMgr mgr s) ∧ follows s (set_timerMgr mgr s)) as [? ?]
    by (by apply follow_same). by apply (wp_follow _ s).
Qed.

(** *** The functions that send *)

Lemma follow_send resume b : (∀ idx, wkeeps (resume idx)) → b ≠ a →
  wkeeps (SendOp_doSendInternal_with resume b).
Proof.
  intros Hr Hb s Hs. unfold SendOp_doSendInternal_with.
  apply wp_bind. eapply wp_mono; [apply follow_modify_op; [op_kept_auto | done]|]. intros [] s1 [Hs1 H01].
  apply wp_bind, wp_get_op; [done|]. intros t o Ho. apply wp_bind.
  eapply wp_mono; [apply (wp_send_own b t o); [done | done | by left]|]. intros ec s2 [Hs2 H12].
  apply (wp_follow _ s); [done | by etrans|]. follow_auto.
Qed.

Lemma follow_resume resume b : (∀ idx, wkeeps (resume idx)) → wkeeps (SendOp_resume_with resume b).
Proof.
  intros Hr. destruct (decide (b = a)) as [->|Hb].
  - intros s Hs. unfold SendOp_resume_with. apply wp_bind, wp_get_op; [done|]. intros t o Ho.
    destruct (fo_live _ Hs _ Ho) as ((o' & Eo & Hp & _) & _). injection Eo as <-. by rewrite Hp.
  - unfold SendOp_resume_with. pose proof (follow_send resume b Hr Hb). follow_auto.
Qed.

Lemma follow_resend b : (∀ idx, wkeeps (resumeSendOpsSince idx)) → wkeeps (SendOp_resendDupMsg b).
Proof.
  intros Hr s Hs. unfold SendOp_resendDupMsg. apply wp_bind, wp_get_op; [done|]. intros t o Ho.
  destruct (_ <=? _)%Z; [by apply follow_complete|].
  apply wp_bind, wp_comms_assert; [done|]. apply wp_bind. destruct (so_acked o) eqn:Hack; simpl.
  - apply wp_bind, wp_comms_assert; [done|]. apply wp_ret, wp_bind.
    eapply wp_mono; [apply (wp_send_own b t o); [done | done | by right]|]. intros ec s1 [Hs1 H01].
    apply (wp_follow _ s); [done..|]. follow_auto.
  - eapply wp_own_modify; [done | done | done | |].
    { intros _ [Hp Hd]. split; [by split | by left]. }
    intros s1 Hs1 H01 Ho1. apply wp_bind. eapply wp_get_op_live; [exact Ho1|].
    apply wp_ret, wp_bind.
    eapply wp_mono; [apply (wp_send_own b t _ _ _ Hs1 Ho1); by left|]. intros ec s2 [Hs2 H12].
    apply (wp_follow _ s); [done | by etrans|]. follow_auto.
Qed.

Section acknowledged.
  Context (Hr : ∀ idx, wkeeps (resumeSendOpsSince idx)).
  Context (Hprot : ∀ b, wkeeps (SendOp_protocolError b)).

Lemma follow_pubrec b id : wkeeps (SendOp_handle_Pubrec b id).
Proof.
  intros s Hs. unfold SendOp_handle_Pubrec. apply wp_bind, wp_get_op; [done|]. intros t o Ho.
  destruct (negb (_ =? id)%Z); [by apply wp_ret|]. apply wp_bind, wp_comms_assert; [done|].
  apply wp_bind, wp_cancelTimer. intros mgr. set (s1 := set_timerMgr mgr s).
  assert (followed s1 ∧ follows s s1) as [Hs1 H01] by (by apply follow_same).
  destruct (Z.eqb_spec (pub_qos (so_pubMsg o)) QoS_ExactlyOnceDelivery) as [Hq|]; simpl;
    [|by apply (wp_follow _ s)].
  destruct (so_acked o) eqn:Hack; [by apply (wp_follow _ s)|].
  eapply (wp_own_modify b t o); [done | done | done | |].
  { intros _ [Hp Hd]. split; [by split | by right]. }
  intros s2 Hs2 H12 Ho2. eapply wp_own_modify; [done | done | done | |].
  { intros _ Hsend. split; [done | by left]. }
  intros s3 Hs3 H23 Ho3. apply wp_bind.
  eapply wp_mono; [apply (wp_send_own b t _ _ _ Hs3 Ho3); by right|]. intros ec s4 [Hs4 H34].
  apply (wp_follow _ s); [done | by repeat (etrans; [eassumption|])|]. follow_auto.
Qed.

(** The acknowledgement that completes a publish: PUBACK for QoS 1, PUBCOMP after PUBREC. *)
Lemma wp_final_ack b mgr s : followed s →
  (∀ t o, g_store s !! b = Some (MkOp t (DSend o)) → b = a → may_succeed m (phase_of o)) →
  wp any_fault (SendOp_completeWithCb b AsyncOpStatus_Complete)
    (λ _ s', followed s' ∧ follows s s') (set_timerMgr mgr s).
Proof.
  intros Hs Hok. set (s1 := set_timerMgr mgr s).
  assert (followed s1 ∧ follows s s1) as [Hs1 H01] by (by apply follow_same).
  eapply wp_mono; [apply (wp_complete resumeSendOpsSince); [done | done|]; eauto|].
  intros [] s2 [Hs2 H12]. split; [done | by etrans].
Qed.

Lemma follow_puback b id : wkeeps (SendOp_handle_Puback b id).
Proof.
  intros s Hs. unfold SendOp_handle_Puback. apply wp_bind, wp_get_op; [done|]. intros t o Ho.
  do 2 (apply wp_bind, wp_comms_assert; [done|]). apply wp_bind, wp_cancelTimer. intros mgr.
  destruct (Z.eqb_spec (pub_qos (so_pubMsg o)) QoS_AtLeastOnceDelivery) as [Hq|]; simpl.
  - apply wp_final_ack; [done|]. intros t' o' Ho' ->. rewrite Ho in Ho'. injection Ho' as <- <-.
    destruct (fo_live _ Hs _ Ho) as ((o1 & Eo & _ & Hd) & _). injection Eo as <-.
    unfold phase_of. destruct (so_acked o); [done|]. simpl. by injection Hd as <-.
  - by apply wp_after_timer.
Qed.

Lemma follow_pubcomp b id : wkeeps (SendOp_handle_Pubcomp b id).
Proof.
  intros s Hs. unfold SendOp_handle_Pubcomp. apply wp_bind, wp_get_op; [done|]. intros t o Ho.
  destruct (negb (_ =? id)%Z); [by apply wp_ret|]. apply wp_bind, wp_cancelTimer. intros mgr.
  assert (∀ b, wp any_fault (SendOp_protocolError b) (λ _ s', followed s' ∧ follows s s')
    (set_timerMgr mgr s)) as Hp by (intros; by apply wp_after_timer).
  destruct (negb (_ =? _)%Z); [apply Hp|]. destruct (so_acked o) eqn:Hack; [|apply Hp]. simpl.
  apply wp_final_ack; [done|]. intros t' o' Ho' ->. rewrite Ho in Ho'. injection Ho' as <- <-.
  unfold phase_of. by rewrite Hack.
Qed.

Lemma follow_handle b msg : wkeeps (SendOp_handle b msg).
Proof.
  destruct msg; try apply keeps_ret; apply keeps_when;
    [apply follow_puback | apply follow_pubrec | apply follow_pubcomp].
Qed.
End acknowledged.

#[local] Instance follow_exchanging `{!CommsLaws} : Exchanging (λ b, b ≠ a) follow_contract.
Proof.
  split.
  - intros b Hb. apply follow_write; [done|]. intros o. apply publish_refresh_keeps.
  - intros resume b Hr Hb. by apply follow_send.
  - intros resume b Hr. by apply follow_resume.
  - intros resume b st Hr Hst. by apply follow_complete.
  - intros b Hr. by apply follow_resend.
  - intros b msg Hr Hp. by apply follow_handle.
Qed.

Lemma follow_request `{!CommsLaws} r : request_free (λ b, b ≠ a) r → wkeeps (run_request r).
Proof.
  assert (∀ idx, wkeeps (resumeSendOpsSince idx)) as Hresume
    by (intros; by apply (fkeeps_resumeSendOpsSince_bound follow_contract)).
  apply (fkeeps_requests follow_contract Hresume).
  - intros b. by apply (fkeeps_resendAllUntil_bound follow_contract Hresume).
  - intros info. unfold reportMsgInfo, must_callback. keeps_auto.
    all: first [by apply follow_comms_assert | by apply follow_callback | by apply keeps_throw].
  - intros v s Hs. by apply wp_zoom, wp_modify, follow_same.
  - by left.
Qed.
End follow.

(** ** Reachable states *)

(** A request that does not configure or send the publish at [a]: a publish that is sent
    is not prepared any more. *)
Definition leaves (a : addr) : Request → Prop := request_free (λ b, b ≠ a).

Section conformance.
  Context `{Config} `{CommsLib} `{!CommsLaws} `{Script}.

Lemma scripted_follow a m depth : pub_packetId m ≠ 0%Z →
  (∀ tr, Forall (leaves a) (script_react tr)) →
  ∀ e, keeps (Contract0 := follow_contract a m) (app_react (App := scripted depth) e).
Proof.
  intros Hm Hscript. induction depth as [|depth IH]; intros e; simpl; [apply keeps_ret|].
  intros s Hs. apply wp_bind, wp_gets. simpl. generalize (Hscript (g_trace s)).
  generalize (script_react (g_trace s)) as rs. intros rs Hrs. revert s Hs. unfold run_requests.
  change (keeps (Contract0 := follow_contract a m) (mapM_ (run_request (H1 := scripted depth)) rs)).
  induction Hrs as [|r rs Hr _ IHrs]; simpl; [apply keeps_ret|].
  apply keeps_bind; [|done]. by apply follow_request.
Qed.

Lemma followed_start depth a t o s : reachable depth s →
  g_store s !! a = Some (MkOp t (DSend o)) → so_paused o = false →
  pub_packetId (so_pubMsg o) ≠ 0%Z → followed a (so_pubMsg o) s.
Proof.
  intros [_ _ [[Hids Hh Hi] _ [Hn _ _ _]] _]%reachable_Inv Ho Hp Hid.
  pose proof (shapes_lookup _ _ _ Ho) as Ha. split; [apply Hn; eauto | done|].
  intros ob Hob. rewrite Ho in Hob. injection Hob as <-. split_and!.
  - by exists o.
  - by apply (Hh a _ Ha).
  - intros b ob Hb Hbs%shapes_lookup Heq. apply Hb, eq_sym. by apply (Hi _ _ _ _ Ha Hbs).
Qed.

(** A publish that has reported is not alive. *)
Lemma reported_completes a id evs st :
  Reports st ∈ omap (observe a id) evs → completions a evs ≠ 0.
Proof.
  intros (e & He & Ho)%list_elem_of_omap. unfold completions.
  assert (e ∈ filter (λ e, completion_of e = Some a) evs) as Hf.
  { apply list_elem_of_filter. split; [|done]. destruct e; simpl in *; repeat case_bool_decide; by simplify_eq. }
  destruct (filter _ evs); [by apply elem_of_nil in Hf | done].
Qed.

(** C9: from the time a publish has gone out, what is sent with its packet identifier and
    what is reported of it is a run of the abstract sender: the same PUBLISH with the
    duplicate flag, after a PUBREC only PUBREL, nothing else until the operation ends, and
    a success only for QoS 1 or after a PUBREC; as long as the operation lives it has the
    phase of the abstract sender and the same message.  The application may do anything in
    its callbacks and between, but not configure or send again the operation that it has
    sent. *)
Theorem publish_conforms depth a t o rs s s' :
  reachable depth s → g_store s !! a = Some (MkOp t (DSend o)) →
  so_paused o = false → pub_packetId (so_pubMsg o) ≠ 0%Z →
  (∀ tr, Forall (leaves a) (script_react tr)) → Forall (leaves a) rs →
  run_requests (H1 := scripted depth) rs s = Ok tt s' →
  ∃ evs p, g_trace s' = g_trace s ++ evs ∧
    conforms (so_pubMsg o) (phase_of o) (omap (observe a (pub_packetId (so_pubMsg o))) evs) p ∧
    match op_derived <$> g_store s' !! a with
    | Some (DSend o') =>
        p = phase_of o' ∧ pub_set_dup true (so_pubMsg o') = pub_set_dup true (so_pubMsg o)
    | Some _ => False
    | None => ended p = true
    end.
Proof.
  intros Hreach Ho Hp Hid Hscript Hrs Hrun. set (m := so_pubMsg o) in *.
  pose proof (followed_start depth a t o s Hreach Ho Hp Hid) as Hs.
  assert (keeps (Contract0 := follow_contract a m) (run_requests (H1 := scripted depth) rs)) as Hk.
  { unfold run_requests. clear Hrun. induction Hrs as [|r rs Hr _ IH]; simpl; [apply keeps_ret|].
    apply keeps_bind; [|done]. apply follow_request; try done; by apply scripted_follow. }
  specialize (Hk s Hs). unfold wp in Hk. rewrite Hrun in Hk. destruct Hk as [Hs' (evs & Htr & Hc)].
  destruct (Hc (phase_of o)) as (p & Hat & Hrunp); [right; unfold core_phase; by rewrite Ho|].
  exists evs, p. split_and!; [done..|].
  pose proof (reachable_run depth rs s s' Hreach Hrun) as [_ _ [_ _ [_ _ Hlive _]] _]%reachable_Inv.
  destruct (g_store s' !! a) as [[t' d']|] eqn:Ho'; simpl.
  - destruct (fo_live _ _ _ Hs' _ Ho') as ((o' & Eo & _ & Hd) & _). simpl in Eo. subst d'.
    split; [|done]. destruct Hat as [->|Hat]; [|unfold core_phase in Hat; by rewrite Ho' in Hat].
    destruct (conforms_reports _ _ _ _ Hrunp) as [st Hst]; [by unfold phase_of; destruct (so_acked o) | done|].
    apply reported_completes in Hst. destruct Hst.
    assert (completions a (g_trace s') = 0) as H0'.
    { apply Hlive. rewrite (shapes_lookup _ _ _ Ho'). eauto. }
    rewrite Htr in H0'. unfold completions in *. rewrite filter_app, length_app in H0'. lia.
  - destruct Hat as [->|Hat]; [done|]. unfold core_phase in Hat. rewrite Ho' in Hat. by destruct Hat as [ok ->].
Qed.
End conformance.

(** ** Witness *)

(** A publish of QoS 2 is resent at a timeout, acknowledged by a PUBREC, its PUBREL is
    resent, and it is completed by a PUBCOMP; the application publishes again from its
    callback. *)
Definition conformance_requests : list Request :=
  [RqTick 2000; RqProcessData [x50; x02; x00; x02]%byte; RqTick 2000;
   RqProcessData [x70; x02; x00; x02]%byte].

Definition conformance_state : ClientImpl :=
  state_of DefaultConfig (run_script conformance_requests script_state).

Definition publish_of (a : addr) (s : ClientImpl) : SendOp :=
  match op_derived <$> g_store s !! a with
  | Some (DSend o) => o
  | _ => MkSendOp None PublishMsg_new None 0 0 false false false
  end.

Example publish_conforms_witness :
  let o := publish_of 4 script_state in
  (∃ evs p, g_trace conformance_state = g_trace script_state ++ evs ∧
    conforms (H := ExampleComms) (so_pubMsg o) (phase_of o)
      (omap (observe 4 (pub_packetId (so_pubMsg o))) evs) p ∧ ended p = true) ∧
  omap (observe 4 2) (drop (length (g_trace script_state)) (g_trace conformance_state)) =
    [Sends (MPublish (pub_set_dup true (so_pubMsg o)));
     Sends (MPubrel 2 (pubrel_flags (CommsLib := ExampleComms)));
     Sends (MPubrel 2 (pubrel_flags (CommsLib := ExampleComms)));
     Reports AsyncOpStatus_Complete].
Proof.
  split; [|vm_compute; reflexivity].
  apply (publish_conforms (H := DefaultConfig) (H0 := ExampleComms) (H1 := ExampleComms_laws)
    (H2 := ExampleScript) 2 4 2000 (publish_of 4 script_state) conformance_requests
    script_state conformance_state).
  - exact script_state_reachable.
  - vm_compute. reflexivity.
  - vm_compute. reflexivity.
  - vm_compute. discriminate.
  - intros tr. simpl. destruct (last tr) as [[]|]; try constructor.
    destruct op as [|[|[|[|]]]]; repeat constructor; discriminate.
  - repeat constructor.
  - vm_compute. reflexivity.
Defined.
