(* ===== verification/Api.v ===== *)
(** * The functions of the C interface

    client/lib/templ/client.cpp.templ: every function of the interface, with null
    handles and null pointers, the getters and the initialisation of configurations.
    [Client.Request] lists the calls that change the state; here every function
    of the interface is shown to be a sequence of them, so that what holds for
    requests holds for the interface.

    The handle of the client is a boolean (whether it is the client or null), that of
    an operation an optional address. *)

From S2P Require Import Prelude Config Protocol Topic PacketId TimerMgr State Lifecycle.
From S2P Require Import Completion Session SendOp RecvOp SubscribeOp ConnectOp Client.
From S2P Require Import Scenarios.

(** ** Initialisation of configurations *)

Definition DefaultKeepAlive : Z := 60.

Definition client_connect_init_config : CC_Mqtt311ConnectConfig := {|
  cc_clientId := None; cc_username := None; cc_password := None; cc_passwordLen := 0;
  cc_keepAlive := DefaultKeepAlive; cc_cleanSession := false |}.

Definition client_connect_init_config_will : CC_Mqtt311ConnectWillConfig := {|
  cw_topic := None; cw_data := None; cw_dataLen := 0; cw_qos := QoS_AtMostOnceDelivery;
  cw_retain := false |}.

Definition client_subscribe_init_config_topic `{Config} : CC_Mqtt311SubscribeTopicConfig := {|
  st_topic := None; st_maxQos := Z.of_nat MaxQos |}.

Definition client_unsubscribe_init_config_topic : CC_Mqtt311UnsubscribeTopicConfig := {|
  ut_topic := None |}.

Definition client_publish_init_config : CC_Mqtt311PublishConfig := {|
  pc_topic := None; pc_data := None; pc_dataLen := 0; pc_qos := QoS_AtMostOnceDelivery;
  pc_retain := false |}.

Section Api.
  Context `{Config} `{CommsLib} `{App}.

Abbreviation CM := (M ClientImpl).

(** The handle is dereferenced; with an assertion before; or tested. *)
Definition deref_client {A} (c : bool) (m : CM A) : CM A := if c then m else throw FNull.

Definition asserted_client {A} (c : bool) (m : CM A) : CM A :=
  comms_assert c ;; deref_client c m.

Definition checked_client {A} (c : bool) (bad : A) (m : CM A) : CM A :=
  if c then m else mret bad.

Definition checked_op {A} (op : option addr) (bad : A) (f : addr → CM A) : CM A :=
  match op with Some a => f a | None => mret bad end.

(** [(handle == nullptr) || (config == nullptr)] *)
Definition checked_config {A} (op : option addr) (config : option A)
    (f : addr → A → CM CC_Mqtt311ErrorCode) : CM CC_Mqtt311ErrorCode :=
  match op, config with
  | Some a, Some x => f a x
  | _, _ => mret ErrorCode_BadParam
  end.

(** The preparations: null, with the error code. *)
Definition checked_prepare (c : bool) (m : CM Prepared) : CM Prepared :=
  checked_client c (None, ErrorCode_BadParam) m.

(** *** The client *)

Definition api_tick (c : bool) (ms : Z) : CM unit := deref_client c (ClientImpl_tick ms).
Definition api_process_data (c : bool) (buf : bytes) : CM nat :=
  asserted_client c (processData buf).
Definition api_notify_network_disconnected (c : bool) : CM unit :=
  asserted_client c notifyNetworkDisconnected.
Definition api_is_network_disconnected (c : bool) : CM bool :=
  asserted_client c (gets (m_networkDisconnected ∘ m_clientState)).

Definition api_set_default_response_timeout (c : bool) (ms : Z) : CM CC_Mqtt311ErrorCode :=
  checked_client c ErrorCode_BadParam (client_set_default_response_timeout ms).
Definition api_get_default_response_timeout (c : bool) : CM Z :=
  checked_client c 0%Z (gets (cfg_responseTimeoutMs ∘ m_configState)).

Definition api_set_verify_outgoing_topic_enabled (c enabled : bool) : CM CC_Mqtt311ErrorCode :=
  checked_client c ErrorCode_BadParam (client_set_verify_outgoing_topic_enabled enabled).
Definition api_get_verify_outgoing_topic_enabled (c : bool) : CM bool :=
  if HasTopicFormatVerification
  then asserted_client c (gets (cfg_verifyOutgoingTopic ∘ m_configState)) else mret false.
Definition api_set_verify_incoming_topic_enabled (c enabled : bool) : CM CC_Mqtt311ErrorCode :=
  checked_client c ErrorCode_BadParam (client_set_verify_incoming_topic_enabled enabled).
Definition api_get_verify_incoming_topic_enabled (c : bool) : CM bool :=
  if HasTopicFormatVerification
  then asserted_client c (gets (cfg_verifyIncomingTopic ∘ m_configState)) else mret false.
Definition api_set_verify_incoming_msg_subscribed (c enabled : bool) : CM CC_Mqtt311ErrorCode :=
  checked_client c ErrorCode_BadParam (client_set_verify_incoming_msg_subscribed enabled).
Definition api_get_verify_incoming_msg_subscribed (c : bool) : CM bool :=
  if HasSubTopicVerification
  then asserted_client c (gets (cfg_verifySubFilter ∘ m_configState)) else mret false.

(** The setters of the callbacks; a null callback keeps the previous one. *)
Definition api_set_callbacks (c : bool) (cbs : Callbacks) : CM unit :=
  deref_client c (set_client_callbacks cbs).

(** [ObjAllocator::free]: the client is wrapped in its smart pointer and destroyed
    with it; what the allocator of COMMS does with null is not the repository's. *)
Definition api_free : CM unit := ClientImpl_destroy.

(** *** Response timeouts of operations *)

Definition api_set_response_timeout (op : option addr) (ms : Z) : CM CC_Mqtt311ErrorCode :=
  checked_op op ErrorCode_BadParam (λ a, Op_setResponseTimeout a ms ;; mret ErrorCode_Success).
Definition api_get_response_timeout (op : option addr) : CM Z :=
  checked_op op 0%Z (λ a, o ← get_base a; mret (op_responseTimeoutMs o)).

(** *** Connect and disconnect *)

Definition api_connect_prepare (c : bool) : CM Prepared := checked_prepare c connectPrepare.
Definition api_connect_config (op : option addr) (config : option CC_Mqtt311ConnectConfig)
    : CM CC_Mqtt311ErrorCode := checked_config op config ConnectOp_config.
Definition api_connect_config_will (op : option addr) (config : option CC_Mqtt311ConnectWillConfig)
    : CM CC_Mqtt311ErrorCode := checked_config op config ConnectOp_configWill.
Definition api_connect_send (op : option addr) (cb : UserCb) : CM CC_Mqtt311ErrorCode :=
  checked_op op ErrorCode_BadParam (λ a, ConnectOp_send a cb).
Definition api_connect_cancel (op : option addr) : CM CC_Mqtt311ErrorCode :=
  checked_op op ErrorCode_BadParam ConnectOp_cancel.
Definition api_connect (c : bool) (config : option CC_Mqtt311ConnectConfig)
    (willConfig : option CC_Mqtt311ConnectWillConfig) (cb : UserCb) : CM CC_Mqtt311ErrorCode :=
  checked_client c ErrorCode_BadParam (client_connect config willConfig cb).
Definition api_is_connected (c : bool) : CM bool :=
  checked_client c false (gets (ses_connected ∘ m_sessionState)).

Definition api_disconnect_prepare (c : bool) : CM Prepared := checked_prepare c disconnectPrepare.
Definition api_disconnect_send (op : option addr) : CM CC_Mqtt311ErrorCode :=
  checked_op op ErrorCode_BadParam DisconnectOp_send.
Definition api_disconnect_cancel (op : option addr) : CM CC_Mqtt311ErrorCode :=
  checked_op op ErrorCode_BadParam DisconnectOp_cancel.
Definition api_disconnect (c : bool) : CM CC_Mqtt311ErrorCode :=
  checked_client c ErrorCode_BadParam client_disconnect.

(** *** Subscribe and unsubscribe *)

Definition api_subscribe_prepare (c : bool) : CM Prepared := checked_prepare c subscribePrepare.
Definition api_subscribe_config_topic (op : option addr)
    (config : option CC_Mqtt311SubscribeTopicConfig) : CM CC_Mqtt311ErrorCode :=
  checked_config op config SubscribeOp_configTopic.
Definition api_subscribe_send (op : option addr) (cb : UserCb) : CM CC_Mqtt311ErrorCode :=
  checked_op op ErrorCode_BadParam (λ a, SubscribeOp_send a cb).
Definition api_subscribe_cancel (op : option addr) : CM CC_Mqtt311ErrorCode :=
  checked_op op ErrorCode_BadParam SubscribeOp_cancel.
Definition api_subscribe (c : bool) (topicConfigs : list CC_Mqtt311SubscribeTopicConfig)
    (cb : UserCb) : CM CC_Mqtt311ErrorCode :=
  checked_client c ErrorCode_BadParam (client_subscribe topicConfigs cb).

Definition api_unsubscribe_prepare (c : bool) : CM Prepared := checked_prepare c unsubscribePrepare.
Definition api_unsubscribe_config_topic (op : option addr)
    (config : option CC_Mqtt311UnsubscribeTopicConfig) : CM CC_Mqtt311ErrorCode :=
  checked_config op config UnsubscribeOp_configTopic.
Definition api_unsubscribe_send (op : option addr) (cb : UserCb) : CM CC_Mqtt311ErrorCode :=
  checked_op op ErrorCode_BadParam (λ a, UnsubscribeOp_send a cb).
Definition api_unsubscribe_cancel (op : option addr) : CM CC_Mqtt311ErrorCode :=
  checked_op op ErrorCode_BadParam UnsubscribeOp_cancel.
Definition api_unsubscribe (c : bool) (topicConfigs : list CC_Mqtt311UnsubscribeTopicConfig)
    (cb : UserCb) : CM CC_Mqtt311ErrorCode :=
  checked_client c ErrorCode_BadParam (client_unsubscribe topicConfigs cb).

(** *** Publish *)

Definition api_publish_prepare (c : bool) : CM Prepared := checked_prepare c publishPrepare.
Definition api_publish_count (c : bool) : CM nat :=
  checked_client c 0 (gets (length ∘ ops_of Type_Send)).
Definition api_publish_set_resend_attempts (op : option addr) (attempts : Z)
    : CM CC_Mqtt311ErrorCode :=
  checked_op op ErrorCode_BadParam (λ a, SendOp_setResendAttempts a attempts).
Definition api_publish_get_resend_attempts (op : option addr) : CM Z :=
  checked_op op 0%Z SendOp_getResendAttempts.
Definition api_publish_config (op : option addr) (config : option CC_Mqtt311PublishConfig)
    : CM CC_Mqtt311ErrorCode := checked_config op config SendOp_config.
Definition api_publish_send (op : option addr) (cb : UserCb) : CM CC_Mqtt311ErrorCode :=
  checked_op op ErrorCode_BadParam (λ a, SendOp_send a cb).
Definition api_publish_cancel (op : option addr) : CM CC_Mqtt311ErrorCode :=
  checked_op op ErrorCode_BadParam SendOp_cancel.
Definition api_publish_was_initiated (op : option addr) : CM bool :=
  checked_op op false (λ a, o ← get_op (T := SendOp) a; mret (so_published o)).
Definition api_publish (c : bool) (config : option CC_Mqtt311PublishConfig) (cb : UserCb)
    : CM CC_Mqtt311ErrorCode :=
  checked_client c ErrorCode_BadParam (client_publish config cb).
Definition api_publish_set_ordering (c : bool) (ordering : CC_Mqtt311PublishOrdering)
    : CM CC_Mqtt311ErrorCode :=
  checked_client c ErrorCode_BadParam (setPublishOrdering ordering).
Definition api_publish_get_ordering (c : bool) : CM CC_Mqtt311PublishOrdering :=
  checked_client c PublishOrdering_ValuesLimit (gets (cfg_publishOrdering ∘ m_configState)).

(** ** Calls of the interface *)

Inductive ApiCall :=
  | Api_tick (c : bool) (ms : Z)
  | Api_process_data (c : bool) (buf : bytes)
  | Api_notify_network_disconnected (c : bool)
  | Api_is_network_disconnected (c : bool)
  | Api_set_default_response_timeout (c : bool) (ms : Z)
  | Api_get_default_response_timeout (c : bool)
  | Api_set_verify_outgoing_topic_enabled (c enabled : bool)
  | Api_get_verify_outgoing_topic_enabled (c : bool)
  | Api_set_verify_incoming_topic_enabled (c enabled : bool)
  | Api_get_verify_incoming_topic_enabled (c : bool)
  | Api_set_verify_incoming_msg_subscribed (c enabled : bool)
  | Api_get_verify_incoming_msg_subscribed (c : bool)
  | Api_set_callbacks (c : bool) (cbs : Callbacks)
  | Api_free
  | Api_set_response_timeout (op : option addr) (ms : Z)
  | Api_get_response_timeout (op : option addr)
  | Api_connect_prepare (c : bool)
  | Api_connect_config (op : option addr) (config : option CC_Mqtt311ConnectConfig)
  | Api_connect_config_will (op : option addr) (config : option CC_Mqtt311ConnectWillConfig)
  | Api_connect_send (op : option addr) (cb : UserCb)
  | Api_connect_cancel (op : option addr)
  | Api_connect (c : bool) (config : option CC_Mqtt311ConnectConfig)
      (willConfig : option CC_Mqtt311ConnectWillConfig) (cb : UserCb)
  | Api_is_connected (c : bool)
  | Api_disconnect_prepare (c : bool)
  | Api_disconnect_send (op : option addr)
  | Api_disconnect_cancel (op : option addr)
  | Api_disconnect (c : bool)
  | Api_subscribe_prepare (c : bool)
  | Api_subscribe_config_topic (op : option addr) (config : option CC_Mqtt311SubscribeTopicConfig)
  | Api_subscribe_send (op : option addr) (cb : UserCb)
  | Api_subscribe_cancel (op : option addr)
  | Api_subscribe (c : bool) (configs : list CC_Mqtt311SubscribeTopicConfig) (cb : UserCb)
  | Api_unsubscribe_prepare (c : bool)
  | Api_unsubscribe_config_topic (op : option addr)
      (config : option CC_Mqtt311UnsubscribeTopicConfig)
  | Api_unsubscribe_send (op : option addr) (cb : UserCb)
  | Api_unsubscribe_cancel (op : option addr)
  | Api_unsubscribe (c : bool) (configs : list CC_Mqtt311UnsubscribeTopicConfig) (cb : UserCb)
  | Api_publish_prepare (c : bool)
  | Api_publish_count (c : bool)
  | Api_publish_set_resend_attempts (op : option addr) (attempts : Z)
  | Api_publish_get_resend_attempts (op : option addr)
  | Api_publish_config (op : option addr) (config : option CC_Mqtt311PublishConfig)
  | Api_publish_send (op : option addr) (cb : UserCb)
  | Api_publish_cancel (op : option addr)
  | Api_publish_was_initiated (op : option addr)
  | Api_publish (c : bool) (config : option CC_Mqtt311PublishConfig) (cb : UserCb)
  | Api_publish_set_ordering (c : bool) (ordering : CC_Mqtt311PublishOrdering)
  | Api_publish_get_ordering (c : bool).

Definition run_api (call : ApiCall) : CM unit :=
  match call with
  | Api_tick c ms => api_tick c ms
  | Api_process_data c buf => ignore (api_process_data c buf)
  | Api_notify_network_disconnected c => api_notify_network_disconnected c
  | Api_is_network_disconnected c => ignore (api_is_network_disconnected c)
  | Api_set_default_response_timeout c ms => ignore (api_set_default_response_timeout c ms)
  | Api_get_default_response_timeout c => ignore (api_get_default_response_timeout c)
  | Api_set_verify_outgoing_topic_enabled c b => ignore (api_set_verify_outgoing_topic_enabled c b)
  | Api_get_verify_outgoing_topic_enabled c => ignore (api_get_verify_outgoing_topic_enabled c)
  | Api_set_verify_incoming_topic_enabled c b => ignore (api_set_verify_incoming_topic_enabled c b)
  | Api_get_verify_incoming_topic_enabled c => ignore (api_get_verify_incoming_topic_enabled c)
  | Api_set_verify_incoming_msg_subscribed c b => ignore (api_set_verify_incoming_msg_subscribed c b)
  | Api_get_verify_incoming_msg_subscribed c => ignore (api_get_verify_incoming_msg_subscribed c)
  | Api_set_callbacks c cbs => api_set_callbacks c cbs
  | Api_free => api_free
  | Api_set_response_timeout op ms => ignore (api_set_response_timeout op ms)
  | Api_get_response_timeout op => ignore (api_get_response_timeout op)
  | Api_connect_prepare c => ignore (api_connect_prepare c)
  | Api_connect_config op config => ignore (api_connect_config op config)
  | Api_connect_config_will op config => ignore (api_connect_config_will op config)
  | Api_connect_send op cb => ignore (api_connect_send op cb)
  | Api_connect_cancel op => ignore (api_connect_cancel op)
  | Api_connect c config willConfig cb => ignore (api_connect c config willConfig cb)
  | Api_is_connected c => ignore (api_is_connected c)
  | Api_disconnect_prepare c => ignore (api_disconnect_prepare c)
  | Api_disconnect_send op => ignore (api_disconnect_send op)
  | Api_disconnect_cancel op => ignore (api_disconnect_cancel op)
  | Api_disconnect c => ignore (api_disconnect c)
  | Api_subscribe_prepare c => ignore (api_subscribe_prepare c)
  | Api_subscribe_config_topic op config => ignore (api_subscribe_config_topic op config)
  | Api_subscribe_send op cb => ignore (api_subscribe_send op cb)
  | Api_subscribe_cancel op => ignore (api_subscribe_cancel op)
  | Api_subscribe c configs cb => ignore (api_subscribe c configs cb)
  | Api_unsubscribe_prepare c => ignore (api_unsubscribe_prepare c)
  | Api_unsubscribe_config_topic op config => ignore (api_unsubscribe_config_topic op config)
  | Api_unsubscribe_send op cb => ignore (api_unsubscribe_send op cb)
  | Api_unsubscribe_cancel op => ignore (api_unsubscribe_cancel op)
  | Api_unsubscribe c configs cb => ignore (api_unsubscribe c configs cb)
  | Api_publish_prepare c => ignore (api_publish_prepare c)
  | Api_publish_count c => ignore (api_publish_count c)
  | Api_publish_set_resend_attempts op n => ignore (api_publish_set_resend_attempts op n)
  | Api_publish_get_resend_attempts op => ignore (api_publish_get_resend_attempts op)
  | Api_publish_config op config => ignore (api_publish_config op config)
  | Api_publish_send op cb => ignore (api_publish_send op cb)
  | Api_publish_cancel op => ignore (api_publish_cancel op)
  | Api_publish_was_initiated op => ignore (api_publish_was_initiated op)
  | Api_publish c config cb => ignore (api_publish c config cb)
  | Api_publish_set_ordering c ordering => ignore (api_publish_set_ordering c ordering)
  | Api_publish_get_ordering c => ignore (api_publish_get_ordering c)
  end.

(** ** Every call is a sequence of requests *)

(** What a computation does when it returns is the effect of some requests. *)
Definition by_requests {A} (m : CM A) : Prop :=
  ∀ s a s', m s = Ok a s' → ∃ rs, run_requests rs s = Ok tt s'.

Lemma by_ret {A} (x : A) : by_requests (mret x).
Proof. intros s a s' [= _ <-]. by exists []. Qed.

Lemma by_gets {A} (f : ClientImpl → A) : by_requests (gets f).
Proof. intros s a s' [= _ <-]. by exists []. Qed.

Lemma by_throw {A} f : by_requests (throw (A := A) f).
Proof. by intros s a s'. Qed.

Lemma run_requests_app rs rs' s s1 :
  run_requests rs s = Ok tt s1 → run_requests (rs ++ rs') s = run_requests rs' s1.
Proof.
  unfold run_requests. revert s. induction rs as [|r rs IH]; intros s; cbn [app mapM_];
    [by intros [= ->]|]. unfold mbind, M_bind. destruct (run_request r s) as [[] s0|]; [|done].
  apply IH.
Qed.

Lemma by_bind {A B} (m : CM A) (k : A → CM B) :
  by_requests m → (∀ a, by_requests (k a)) → by_requests (m ≫= k).
Proof.
  intros Hm Hk s b s'. unfold mbind, M_bind. destruct (m s) as [a s1|] eqn:Em; [|done].
  intros Ek. destruct (Hm _ _ _ Em) as [rs Hrs]. destruct (Hk _ _ _ _ Ek) as [rs' Hrs'].
  exists (rs ++ rs'). by rewrite (run_requests_app _ _ _ _ Hrs).
Qed.

(** A request whose result is not ignored. *)
Lemma by_request {A} r (m : CM A) :
  (∀ s a s', m s = Ok a s' → run_request r s = Ok tt s') → by_requests m.
Proof.
  intros Hr s a s' Hm. exists [r]. unfold run_requests. cbn [mapM_].
  unfold mbind, M_bind. by rewrite (Hr _ _ _ Hm).
Qed.

Lemma ignore_ok {A} (m : CM A) s a s' : m s = Ok a s' → ignore m s = Ok tt s'.
Proof. intros Hm. unfold ignore, mbind, M_bind. by rewrite Hm. Qed.

(** The requests that are functions of the interface. *)
Lemma by_run_request r : by_requests (run_request r).
Proof. apply (by_request r). by intros s [] s'. Qed.

Lemma by_ignored {A} r (m : CM A) : run_request r = ignore m → by_requests m.
Proof. intros Hr. apply (by_request r). intros s a s' Hm. rewrite Hr. by eapply ignore_ok. Qed.

Lemma by_comms_assert b : by_requests (comms_assert b).
Proof. unfold comms_assert. destruct Asserts, b; simpl; apply by_ret || apply by_throw. Qed.

Lemma by_checked_op {A} op (bad : A) f : (∀ a, by_requests (f a)) → by_requests (checked_op op bad f).
Proof. intros Hf. destruct op; [apply Hf | apply by_ret]. Qed.

Lemma by_checked_config {A} op (config : option A) f :
  (∀ a x, by_requests (f a x)) → by_requests (checked_config op config f).
Proof. intros Hf. destruct op, config; [apply Hf | apply by_ret..]. Qed.

Lemma by_checked_client {A} c (bad : A) m : by_requests m → by_requests (checked_client c bad m).
Proof. intros Hm. destruct c; [apply Hm | apply by_ret]. Qed.

Lemma by_deref_client {A} c (m : CM A) : by_requests m → by_requests (deref_client c m).
Proof. intros Hm. destruct c; [apply Hm | apply by_throw]. Qed.

Lemma by_asserted_client {A} c (m : CM A) : by_requests m → by_requests (asserted_client c m).
Proof. intros Hm. apply by_bind; [apply by_comms_assert|]. intros _. by apply by_deref_client. Qed.

Lemma by_ignore {A} (m : CM A) : by_requests m → by_requests (ignore m).
Proof. intros Hm. apply by_bind; [done|]. intros _. apply by_ret. Qed.

Lemma by_configure_all {A} (f : A → CM CC_Mqtt311ErrorCode) l :
  (∀ x, by_requests (f x)) → by_requests (configure_all f l).
Proof.
  intros Hf. induction l as [|x l IH]; cbn [configure_all]; [apply by_ret|].
  apply by_bind; [apply Hf|]. intros ec. case_bool_decide; [done | apply by_ret].
Qed.

Lemma by_composite prepare configure send cancel :
  by_requests prepare → (∀ op, by_requests (configure op)) → (∀ op, by_requests (send op)) →
  (∀ op, by_requests (cancel op)) → by_requests (composite prepare configure send cancel).
Proof.
  intros Hp Hc Hs Hx. apply by_bind; [done|]. intros [[op|] ec]; [|apply by_ret].
  apply by_bind; [apply Hc|]. intros ec'. case_bool_decide; [apply Hs|].
  apply by_bind; [apply Hx|]. intros _. apply by_ret.
Qed.

Lemma by_get_base a : by_requests (get_base a).
Proof. apply by_bind; [apply by_gets|]. intros st. case_match; [apply by_ret | apply by_throw]. Qed.

Lemma by_get_op {T} `{Subclass T} a : by_requests (get_op (T := T) a).
Proof. apply by_bind; [apply by_get_base|]. intros o. case_match; [apply by_ret | apply by_throw]. Qed.

(** The request that a function of the client is. *)
Ltac by_request_of :=
  match goal with
  | |- by_requests (ClientImpl_tick ?ms) => exact (by_run_request (RqTick ms))
  | |- by_requests (processData ?b) => exact (by_ignored (RqProcessData b) _ eq_refl)
  | |- by_requests notifyNetworkDisconnected => exact (by_run_request RqNotifyNetworkDisconnected)
  | |- by_requests (client_set_default_response_timeout ?ms) =>
      exact (by_ignored (RqSetDefaultResponseTimeout ms) _ eq_refl)
  | |- by_requests (client_set_verify_outgoing_topic_enabled ?b) =>
      exact (by_ignored (RqSetVerifyOutgoingTopic b) _ eq_refl)
  | |- by_requests (client_set_verify_incoming_topic_enabled ?b) =>
      exact (by_ignored (RqSetVerifyIncomingTopic b) _ eq_refl)
  | |- by_requests (client_set_verify_incoming_msg_subscribed ?b) =>
      exact (by_ignored (RqSetVerifyIncomingMsgSubscribed b) _ eq_refl)
  | |- by_requests (set_client_callbacks ?cbs) => exact (by_run_request (RqSetCallbacks cbs))
  | |- by_requests ClientImpl_destroy => exact (by_run_request RqFree)
  | |- by_requests (Op_setResponseTimeout ?a ?ms) =>
      exact (by_run_request (RqSetResponseTimeout a ms))
  | |- by_requests connectPrepare => exact (by_ignored RqConnectPrepare _ eq_refl)
  | |- by_requests (ConnectOp_config ?a ?x) => exact (by_ignored (RqConnectConfig a x) _ eq_refl)
  | |- by_requests (ConnectOp_configWill ?a ?x) =>
      exact (by_ignored (RqConnectConfigWill a x) _ eq_refl)
  | |- by_requests (ConnectOp_send ?a ?cb) => exact (by_ignored (RqConnectSend a cb) _ eq_refl)
  | |- by_requests (ConnectOp_cancel ?a) => exact (by_ignored (RqConnectCancel a) _ eq_refl)
  | |- by_requests disconnectPrepare => exact (by_ignored RqDisconnectPrepare _ eq_refl)
  | |- by_requests (DisconnectOp_send ?a) => exact (by_ignored (RqDisconnectSend a) _ eq_refl)
  | |- by_requests (DisconnectOp_cancel ?a) => exact (by_ignored (RqDisconnectCancel a) _ eq_refl)
  | |- by_requests subscribePrepare => exact (by_ignored RqSubscribePrepare _ eq_refl)
  | |- by_requests (SubscribeOp_configTopic ?a ?x) =>
      exact (by_ignored (RqSubscribeConfigTopic a x) _ eq_refl)
  | |- by_requests (SubscribeOp_send ?a ?cb) => exact (by_ignored (RqSubscribeSend a cb) _ eq_refl)
  | |- by_requests (SubscribeOp_cancel ?a) => exact (by_ignored (RqSubscribeCancel a) _ eq_refl)
  | |- by_requests unsubscribePrepare => exact (by_ignored RqUnsubscribePrepare _ eq_refl)
  | |- by_requests (UnsubscribeOp_configTopic ?a ?x) =>
      exact (by_ignored (RqUnsubscribeConfigTopic a x) _ eq_refl)
  | |- by_requests (UnsubscribeOp_send ?a ?cb) =>
      exact (by_ignored (RqUnsubscribeSend a cb) _ eq_refl)
  | |- by_requests (UnsubscribeOp_cancel ?a) => exact (by_ignored (RqUnsubscribeCancel a) _ eq_refl)
  | |- by_requests publishPrepare => exact (by_ignored RqPublishPrepare _ eq_refl)
  | |- by_requests (SendOp_config ?a ?x) => exact (by_ignored (RqPublishConfig a x) _ eq_refl)
  | |- by_requests (SendOp_setResendAttempts ?a ?n) =>
      exact (by_ignored (RqPublishSetResendAttempts a n) _ eq_refl)
  | |- by_requests (SendOp_send ?a ?cb) => exact (by_ignored (RqPublishSend a cb) _ eq_refl)
  | |- by_requests (SendOp_cancel ?a) => exact (by_ignored (RqPublishCancel a) _ eq_refl)
  | |- by_requests (setPublishOrdering ?o) => exact (by_ignored (RqSetPublishOrdering o) _ eq_refl)
  end.

(** Decompose a function of the interface. *)
Ltac by_step :=
  first
    [ by_request_of
    | apply by_ret | apply by_gets | apply by_get_op | apply by_get_base
    | apply by_ignore | apply by_checked_op; intro | apply by_checked_config; intros ??
    | apply by_checked_client | apply by_deref_client | apply by_asserted_client
    | apply by_composite; [|intro..] | apply by_configure_all; intro
    | apply by_bind; [|intro] | case_match ].

(** The functions that the command line applications call. *)
Lemma by_application_calls :
  (∀ c cbs, by_requests (api_set_callbacks c cbs)) ∧ (∀ c ms, by_requests (api_tick c ms)) ∧
  (∀ c buf, by_requests (api_process_data c buf)) ∧
  (∀ c, by_requests (api_notify_network_disconnected c)) ∧
  (∀ c, by_requests (api_connect_prepare c)) ∧ (∀ o x, by_requests (api_connect_config o x)) ∧
  (∀ o x, by_requests (api_connect_config_will o x)) ∧
  (∀ o cb, by_requests (api_connect_send o cb)) ∧ (∀ c, by_requests (api_disconnect c)) ∧
  (∀ c, by_requests (api_subscribe_prepare c)) ∧
  (∀ o x, by_requests (api_subscribe_config_topic o x)) ∧
  (∀ o cb, by_requests (api_subscribe_send o cb)) ∧
  (∀ c x cb, by_requests (api_publish c x cb)).
Proof.
  unfold api_set_callbacks, api_tick, api_process_data, api_notify_network_disconnected,
    api_connect_prepare, api_connect_config, api_connect_config_will, api_connect_send,
    api_disconnect, api_subscribe_prepare, api_subscribe_config_topic, api_subscribe_send,
    api_publish, checked_prepare, client_disconnect, client_publish.
  split_and!; intros; repeat by_step.
Qed.

(** Those that the fuzzing driver calls besides. *)
Lemma by_fuzz_calls :
  (∀ c, by_requests (api_is_network_disconnected c)) ∧ (∀ c, by_requests (api_is_connected c)) ∧
  by_requests api_free ∧
  (∀ c b, by_requests (api_set_verify_outgoing_topic_enabled c b)) ∧
  (∀ c, by_requests (api_get_verify_outgoing_topic_enabled c)) ∧
  (∀ c, by_requests (api_unsubscribe_prepare c)) ∧
  (∀ o x, by_requests (api_unsubscribe_config_topic o x)) ∧
  (∀ o cb, by_requests (api_unsubscribe_send o cb)) ∧
  (∀ o, by_requests (api_unsubscribe_cancel o)).
Proof.
  unfold api_is_network_disconnected, api_is_connected, api_free,
    api_set_verify_outgoing_topic_enabled, api_get_verify_outgoing_topic_enabled,
    api_unsubscribe_prepare, api_unsubscribe_config_topic, api_unsubscribe_send,
    api_unsubscribe_cancel, checked_prepare.
  split_and!; intros; repeat by_step.
Qed.

(** What the requests keep, the functions of the interface keep. *)
Lemma keeps_by_requests (C : Contract ClientImpl) {A} (m : CM A) :
  (∀ f, ct_faults f) → (∀ r, keeps (Contract0 := C) (run_request r)) → by_requests m →
  keeps (Contract0 := C) m.
Proof.
  intros Hf Hr Hm s Hs. unfold wp. destruct (m s) as [a s'|f] eqn:E; [|apply Hf].
  destruct (Hm _ _ _ E) as [rs Hrs].
  assert (keeps (Contract0 := C) (run_requests rs)) as Hk by (by apply keeps_mapM_).
  specialize (Hk s Hs). unfold wp in Hk. by rewrite Hrs in Hk.
Qed.


End Api.

(** ** Witness *)

(** A composite call of a client that has a session. *)
Definition api_state : ClientImpl := state_of DefaultConfig (run_new DefaultConfig rq_session).

Definition api_example : ApiCall := Api_publish true (Some (publish_config 1)) (Some 7).

