(* ===== verification/Options.v ===== *)
(** * Command line options

    [class ProgramOptions] of the applications
    (client/app/common/ProgramOptions.cpp, client/app/common/ProgramOptions.h) and of
    the fuzzing driver (client/afl_fuzz/ProgramOptions.cpp): the options they declare
    to boost, and the functions that read the parsed values.

    The parser of the command line is boost::program_options: [Parser] is its
    outcome, with the documented facts about it in [ParserLaws].  A value of the
    wrong type, or none, makes [variable_value::as] throw ([FThrow]). *)

From Stdlib Require Import Ascii.
From S2P Require Import Prelude.

(** ** Values and declarations *)

(** [boost::any] of a [variable_value]. *)
Inductive OptValue :=
  | OV_flag
  | OV_string (v : string)
  | OV_unsigned (v : Z)
  | OV_uint16 (v : Z)
  | OV_bool (v : bool)
  | OV_strings (v : list string)
  | OV_unsigneds (v : list Z).

(** The type of an option, with its default value if it has one. *)
Inductive OptType :=
  | OT_flag
  | OT_string (default : option string)
  | OT_unsigned (default : option Z)
  | OT_uint16 (default : option Z)
  | OT_bool (default : option bool)
  | OT_strings
  | OT_unsigneds.

Abbreviation options_description := (list (string * OptType)).
Abbreviation variables_map := (gmap string OptValue).

(** The type that [as] expects. *)
Class Castable (T : Type) := cast : OptValue → option T.

#[export] Instance cast_string : Castable string :=
  λ v, match v with OV_string s => Some s | _ => None end.
#[export] Instance cast_bool : Castable bool :=
  λ v, match v with OV_bool b => Some b | _ => None end.
#[export] Instance cast_strings : Castable (list string) :=
  λ v, match v with OV_strings l => Some l | _ => None end.
#[export] Instance cast_unsigneds : Castable (list Z) :=
  λ v, match v with OV_unsigneds l => Some l | _ => None end.
Definition cast_unsigned : Castable Z :=
  λ v, match v with OV_unsigned z => Some z | _ => None end.
Definition cast_uint16 : Castable Z :=
  λ v, match v with OV_uint16 z => Some z | _ => None end.

(** The parser: a map of values, or an exception. *)
Class Parser := parse_command_line : options_description → list string → option variables_map.

(** The value fits the declaration. *)
Definition fits (t : OptType) (v : OptValue) : bool :=
  match t, v with
  | OT_flag, OV_flag | OT_string _, OV_string _ | OT_unsigned _, OV_unsigned _
  | OT_uint16 _, OV_uint16 _ | OT_bool _, OV_bool _ | OT_strings, OV_strings _
  | OT_unsigneds, OV_unsigneds _ => true
  | _, _ => false
  end.

Definition has_default (t : OptType) : bool :=
  match t with
  | OT_string (Some _) | OT_unsigned (Some _) | OT_uint16 (Some _) | OT_bool (Some _) => true
  | _ => false
  end.

(** A map that [store] and [notify] can produce for a description: every value fits
    a declaration of its name, and an option with a default has a value. *)
Definition conforms (desc : options_description) (vm : variables_map) : Prop :=
  (∀ name v, vm !! name = Some v → ∃ t, (name, t) ∈ desc ∧ fits t v = true) ∧
  (∀ name t, (name, t) ∈ desc → has_default t = true → is_Some (vm !! name)).

Class ParserLaws `{Parser} : Prop :=
  parse_conforms : ∀ desc args vm, parse_command_line desc args = Some vm → conforms desc vm.

(** ** Options of the applications *)

Module App.

(** [ConnectionType] *)
Inductive ConnectionType := ConnectionType_Tcp | ConnectionType_Tls.

Record ProgramOptions := MkProgramOptions {
  m_desc : options_description;
  m_vm : variables_map;
}.

Definition ProgramOptions_new : ProgramOptions := MkProgramOptions [] ∅.

Abbreviation PO := (M ProgramOptions).

Section options.
  Context (has_openssl : bool).

(** [m_desc.add(opts)] *)
Definition add (opts : options_description) : PO unit :=
  modify (λ o, MkProgramOptions (m_desc o ++ opts) (m_vm o)).

Definition DefaultPort : Z := 1883.

Definition addCommon : PO unit := add [("help", OT_flag); ("verbose", OT_flag)].

Definition addConnect : PO unit := add
  [("client-id", OT_string (Some "")); ("username", OT_string (Some ""));
   ("password", OT_string (Some "")); ("keep-alive", OT_unsigned (Some 60%Z));
   ("will-topic", OT_string (Some "")); ("will-msg", OT_string (Some ""));
   ("will-qos", OT_unsigned (Some 0%Z)); ("will-retain", OT_flag)].

Definition addNetwork (port : Z) : PO unit := add
  [("broker", OT_string (Some "127.0.0.1")); ("port", OT_uint16 (Some port))].

Definition addTls : PO unit :=
  when has_openssl (add
    [("tls", OT_flag); ("tls-ca", OT_string (Some "")); ("tls-key", OT_string (Some ""));
     ("tls-key-pass", OT_string (Some "")); ("tls-cert", OT_string (Some ""))]).

Definition addPublish : PO unit := add
  [("pub-topic", OT_string (Some "")); ("pub-msg", OT_string (Some ""));
   ("pub-qos", OT_unsigned (Some 0%Z)); ("pub-retain", OT_bool (Some false))].

Definition addSubscribe : PO unit := add
  [("sub-topic", OT_strings); ("sub-qos", OT_unsigneds); ("sub-no-retained", OT_flag);
   ("sub-binary", OT_flag)].

Definition parseArgs `{Parser} (args : list string) : PO bool :=
  o ← gets (λ o, o);
  match parse_command_line (m_desc o) args with
  | None => throw FThrow
  | Some vm => modify (λ o, MkProgramOptions (m_desc o) vm) ;; mret true
  end.

(** [m_vm.count(name) > 0U] and [m_vm[name].as<T>()] *)
Definition count (name : string) (o : ProgramOptions) : bool :=
  bool_decide (is_Some (m_vm o !! name)).

Definition as_ {T} `{!Castable T} (name : string) (o : ProgramOptions) : option T :=
  m_vm o !! name ≫= cast.

(** An absent list is empty. *)
Definition list_or_empty {T} `{!Castable (list T)} (name : string) (o : ProgramOptions)
    : option (list T) :=
  if count name o then as_ name o else Some [].

Definition helpRequested : ProgramOptions → bool := count "help".
Definition verbose : ProgramOptions → bool := count "verbose".

Definition isTls (o : ProgramOptions) : bool := if has_openssl then count "tls" o else false.

Definition connectionType (o : ProgramOptions) : ConnectionType :=
  if has_openssl && isTls o then ConnectionType_Tls else ConnectionType_Tcp.

Definition networkAddress : ProgramOptions → option string := as_ "broker".
Definition networkPort : ProgramOptions → option Z := as_ (Castable0 := cast_uint16) "port".

(** The getters of the TLS options. *)
Definition tls_option (name : string) (o : ProgramOptions) : option string :=
  if has_openssl then as_ name o else Some "".
Definition tlsCa : ProgramOptions → option string := tls_option "tls-ca".
Definition tlsPrivateKey : ProgramOptions → option string := tls_option "tls-key".
Definition tlsPrivateKeyPass : ProgramOptions → option string := tls_option "tls-key-pass".
Definition tlsCert : ProgramOptions → option string := tls_option "tls-cert".

Definition clientId : ProgramOptions → option string := as_ "client-id".
Definition username : ProgramOptions → option string := as_ "username".
Definition password : ProgramOptions → option string := as_ "password".
Definition keepAlive : ProgramOptions → option Z := as_ (Castable0 := cast_unsigned) "keep-alive".
Definition willTopic : ProgramOptions → option string := as_ "will-topic".
Definition willMessage : ProgramOptions → option string := as_ "will-msg".
Definition willQos : ProgramOptions → option Z := as_ (Castable0 := cast_unsigned) "will-qos".
Definition willRetain : ProgramOptions → bool := count "will-retain".
Definition pubTopic : ProgramOptions → option string := as_ "pub-topic".
Definition pubMessage : ProgramOptions → option string := as_ "pub-msg".
Definition pubQos : ProgramOptions → option Z := as_ (Castable0 := cast_unsigned) "pub-qos".
Definition pubRetain : ProgramOptions → option bool := as_ "pub-retain".
Definition subTopics : ProgramOptions → option (list string) := list_or_empty "sub-topic".
Definition subQoses : ProgramOptions → option (list Z) := list_or_empty "sub-qos".
Definition subNoRetained : ProgramOptions → bool := count "sub-no-retained".
Definition subBinary : ProgramOptions → bool := count "sub-binary".

(** The constructors of [Pub] and [Sub] (client/app/pub/Pub.cpp,
    client/app/sub/Sub.cpp). *)
Definition Pub_options : PO unit :=
  addCommon ;; addNetwork DefaultPort ;; addTls ;; addConnect ;; addPublish.

Definition Sub_options : PO unit :=
  addCommon ;; addNetwork DefaultPort ;; addTls ;; addConnect ;; addSubscribe.

End options.
End App.

(** ** Options of the fuzzing driver *)

Module Fuzz.

Record ProgramOptions := MkProgramOptions {
  m_desc : options_description;
  m_vm : variables_map;
}.

(** The constructor. *)
Definition ProgramOptions_new : ProgramOptions := MkProgramOptions
  ([("help", OT_flag); ("verbose", OT_flag); ("log-file", OT_string None);
    ("gen-input", OT_string (Some ""))] ++
   [("client-id", OT_string (Some "afl_client"))] ++
   [("sub-topic", OT_strings); ("min-pub-count", OT_unsigned (Some 3%Z))]) ∅.

Definition parseArgs `{Parser} (args : list string) : M ProgramOptions bool :=
  o ← gets (λ o, o);
  match parse_command_line (m_desc o) args with
  | None => throw FThrow
  | Some vm => modify (λ o, MkProgramOptions (m_desc o) vm) ;; mret true
  end.

Definition count (name : string) (o : ProgramOptions) : bool :=
  bool_decide (is_Some (m_vm o !! name)).

Definition as_ {T} `{!Castable T} (name : string) (o : ProgramOptions) : option T :=
  m_vm o !! name ≫= cast.

Definition helpRequested : ProgramOptions → bool := count "help".
Definition verbose : ProgramOptions → bool := count "verbose".
Definition hasLogFile : ProgramOptions → bool := count "log-file".
Definition logFile : ProgramOptions → option string := as_ "log-file".
Definition genInputFile : ProgramOptions → option string := as_ "gen-input".
Definition clientId : ProgramOptions → option string := as_ "client-id".
Definition minPubCount : ProgramOptions → option Z :=
  as_ (Castable0 := cast_unsigned) "min-pub-count".

Definition stringListOpts (name : string) (o : ProgramOptions) : option (list string) :=
  if count name o then as_ name o else Some [].

(** [str.find(',', pos)] on the suffix that starts at [pos]: what precedes the
    comma and what follows it. *)
Fixpoint find_comma (s : string) : option (string * string) :=
  match s with
  | EmptyString => None
  | String c s' =>
      if bool_decide (c = ","%char) then Some ("", s')
      else match find_comma s' with
           | None => None
           | Some (a, b) => Some (String c a, b)
           end
  end.

(** The loop over a value, one unit of fuel per iteration. *)
Fixpoint split_topics (fuel : nat) (rest : string) : list string :=
  match fuel with
  | O => []
  | S fuel' =>
      if bool_decide (rest = "") then []
      else match find_comma rest with
           | None => [rest]
           | Some (a, b) => a :: split_topics fuel' b
           end
  end.

Definition topics_of (str : string) : list string := split_topics (S (String.length str)) str.

Definition subTopics (o : ProgramOptions) : option (list (list string)) :=
  values ← stringListOpts "sub-topic" o;
  Some (topics_of <$> (if bool_decide (values = []) then ["#"] else values)).

End Fuzz.

(** ** Lemmas *)

(** The name is declared, every time with the given shape. *)
Definition declared (desc : options_description) (name : string) (p : OptType → bool) : bool :=
  bool_decide (name ∈ desc.*1) &&
  forallb (λ d, negb (bool_decide (d.1 = name)) || p d.2) desc.

Lemma declared_fits desc vm name p v :
  conforms desc vm → declared desc name p = true → vm !! name = Some v →
  ∃ t, p t = true ∧ fits t v = true.
Proof.
  intros [Hv _] [_ Hp]%andb_true_iff Hn. destruct (Hv _ _ Hn) as (t & Hin & Hfit). exists t.
  split; [|done]. rewrite forallb_forall in Hp. apply list_elem_of_In in Hin.
  specialize (Hp _ Hin). simpl in Hp. by rewrite bool_decide_eq_true_2 in Hp.
Qed.

(** An option with a default has a value. *)
Lemma declared_default desc vm name p :
  conforms desc vm → declared desc name p = true → (∀ t, p t = true → has_default t = true) →
  ∃ v t, vm !! name = Some v ∧ p t = true ∧ fits t v = true.
Proof.
  intros Hc Hd Hp. pose proof Hd as [Hin%bool_decide_eq_true Hall]%andb_true_iff.
  apply list_elem_of_fmap in Hin as ([name' t] & -> & Hin). simpl in *.
  rewrite forallb_forall in Hall. pose proof Hin as Hin'. apply list_elem_of_In in Hin'.
  specialize (Hall _ Hin'). simpl in Hall. rewrite bool_decide_eq_true_2 in Hall by done.
  destruct (proj2 Hc name' t Hin (Hp t Hall)) as [v Hv]. exists v.
  destruct (declared_fits _ _ _ _ _ Hc Hd Hv) as (t' & ? & ?). eauto.
Qed.

Definition string_option (t : OptType) : bool :=
  match t with OT_string (Some _) => true | _ => false end.
Definition unsigned_option (t : OptType) : bool :=
  match t with OT_unsigned (Some _) => true | _ => false end.
Definition uint16_option (t : OptType) : bool :=
  match t with OT_uint16 (Some _) => true | _ => false end.
Definition bool_option (t : OptType) : bool :=
  match t with OT_bool (Some _) => true | _ => false end.
Definition strings_option (t : OptType) : bool :=
  match t with OT_strings => true | _ => false end.
Definition unsigneds_option (t : OptType) : bool :=
  match t with OT_unsigneds => true | _ => false end.

(** What makes a getter succeed: a declaration of the type with a default, or of a
    list. *)
Definition getter_ok {T} (C : Castable T) (p : OptType → bool) : Prop :=
  ∀ t v, p t = true → fits t v = true → is_Some (C v).

Lemma as_some {T} (C : Castable T) p desc vm name :
  conforms desc vm → declared desc name p = true → (∀ t, p t = true → has_default t = true) →
  getter_ok C p → is_Some (vm !! name ≫= cast).
Proof.
  intros Hc Hd Hdef Hok. destruct (declared_default _ _ _ _ Hc Hd Hdef) as (v & t & -> & ? & ?).
  simpl. by eapply Hok.
Qed.

Lemma list_some {T} (C : Castable (list T)) p desc vm name :
  conforms desc vm → declared desc name p = true → getter_ok C p →
  is_Some (if bool_decide (is_Some (vm !! name)) then vm !! name ≫= cast else Some []).
Proof.
  intros Hc Hd Hok. case_bool_decide as Hs; [|by eexists]. destruct Hs as [v Hv]. rewrite Hv.
  destruct (declared_fits _ _ _ _ _ Hc Hd Hv) as (t & ? & ?). simpl. by eapply Hok.
Qed.

(** The getters of the options that both applications declare, and of those of one
    of them, succeed. *)
Definition common_readable (ssl : bool) (o : App.ProgramOptions) : Prop :=
  is_Some (App.networkAddress o) ∧ is_Some (App.networkPort o) ∧
  is_Some (App.tlsCa ssl o) ∧ is_Some (App.tlsPrivateKey ssl o) ∧
  is_Some (App.tlsPrivateKeyPass ssl o) ∧ is_Some (App.tlsCert ssl o) ∧
  is_Some (App.clientId o) ∧ is_Some (App.username o) ∧ is_Some (App.password o) ∧
  is_Some (App.keepAlive o) ∧ is_Some (App.willTopic o) ∧ is_Some (App.willMessage o) ∧
  is_Some (App.willQos o).

Definition pub_readable (o : App.ProgramOptions) : Prop :=
  is_Some (App.pubTopic o) ∧ is_Some (App.pubMessage o) ∧ is_Some (App.pubQos o) ∧
  is_Some (App.pubRetain o).

Definition sub_readable (o : App.ProgramOptions) : Prop :=
  is_Some (App.subTopics o) ∧ is_Some (App.subQoses o).

Lemma getters_ok :
  getter_ok cast_string string_option ∧ getter_ok cast_bool bool_option ∧
  getter_ok cast_unsigned unsigned_option ∧ getter_ok cast_uint16 uint16_option ∧
  getter_ok cast_strings strings_option ∧ getter_ok cast_unsigneds unsigneds_option.
Proof.
  repeat split; intros t v Ht Hv; destruct t as [|[]|[]|[]|[]| |], v; simpl in *; try done;
    by eexists.
Qed.

Lemma App_as_some {T} (C : Castable T) p o name :
  conforms (App.m_desc o) (App.m_vm o) → getter_ok C p →
  (∀ t, p t = true → has_default t = true) → declared (App.m_desc o) name p = true →
  is_Some (App.as_ (Castable0 := C) name o).
Proof. intros Hc Hok Hdef Hd. by apply (as_some C p (App.m_desc o)). Qed.

Lemma App_list_some {T} (C : Castable (list T)) p o name :
  conforms (App.m_desc o) (App.m_vm o) → getter_ok C p →
  declared (App.m_desc o) name p = true → is_Some (App.list_or_empty (Castable0 := C) name o).
Proof. intros Hc Hok Hd. by apply (list_some C p (App.m_desc o)). Qed.

Lemma defaults :
  (∀ t, string_option t = true → has_default t = true) ∧
  (∀ t, bool_option t = true → has_default t = true) ∧
  (∀ t, unsigned_option t = true → has_default t = true) ∧
  (∀ t, uint16_option t = true → has_default t = true).
Proof. repeat split; by intros [|[]|[]|[]|[]| |]. Qed.

Lemma read_string o name : conforms (App.m_desc o) (App.m_vm o) →
  declared (App.m_desc o) name string_option = true → is_Some (App.as_ (T := string) name o).
Proof. intros. by apply (App_as_some _ string_option); [|apply getters_ok|apply defaults|]. Qed.

Lemma read_bool o name : conforms (App.m_desc o) (App.m_vm o) →
  declared (App.m_desc o) name bool_option = true → is_Some (App.as_ (T := bool) name o).
Proof. intros. by apply (App_as_some _ bool_option); [|apply getters_ok|apply defaults|]. Qed.

Lemma read_unsigned o name : conforms (App.m_desc o) (App.m_vm o) →
  declared (App.m_desc o) name unsigned_option = true →
  is_Some (App.as_ (Castable0 := cast_unsigned) name o).
Proof. intros. by apply (App_as_some _ unsigned_option); [|apply getters_ok|apply defaults|]. Qed.

Lemma read_uint16 o name : conforms (App.m_desc o) (App.m_vm o) →
  declared (App.m_desc o) name uint16_option = true →
  is_Some (App.as_ (Castable0 := cast_uint16) name o).
Proof. intros. by apply (App_as_some _ uint16_option); [|apply getters_ok|apply defaults|]. Qed.

Lemma read_tls (ssl : bool) o name : conforms (App.m_desc o) (App.m_vm o) →
  (ssl = true → declared (App.m_desc o) name string_option = true) →
  is_Some (App.tls_option ssl name o).
Proof. intros Hc Hd. destruct ssl; [|by eexists]. by apply read_string; [|apply Hd]. Qed.

Lemma read_strings o name : conforms (App.m_desc o) (App.m_vm o) →
  declared (App.m_desc o) name strings_option = true →
  is_Some (App.list_or_empty (T := string) name o).
Proof. intros. by apply (App_list_some _ strings_option); [|apply getters_ok|]. Qed.

Lemma read_unsigneds o name : conforms (App.m_desc o) (App.m_vm o) →
  declared (App.m_desc o) name unsigneds_option = true →
  is_Some (App.list_or_empty (T := Z) name o).
Proof. intros. by apply (App_list_some _ unsigneds_option); [|apply getters_ok|]. Qed.

(** The declarations that make the getters succeed. *)
Definition all_declared (desc : options_description) (p : OptType → bool) (names : list string)
    : bool := forallb (λ name, declared desc name p) names.

Definition common_declared (ssl : bool) (desc : options_description) : bool :=
  all_declared desc string_option
    (["broker"; "client-id"; "username"; "password"; "will-topic"; "will-msg"] ++
     if ssl then ["tls-ca"; "tls-key"; "tls-key-pass"; "tls-cert"] else []) &&
  all_declared desc unsigned_option ["keep-alive"; "will-qos"] &&
  all_declared desc uint16_option ["port"].

Definition pub_declared (desc : options_description) : bool :=
  all_declared desc string_option ["pub-topic"; "pub-msg"] &&
  all_declared desc unsigned_option ["pub-qos"] && all_declared desc bool_option ["pub-retain"].

Definition sub_declared (desc : options_description) : bool :=
  all_declared desc strings_option ["sub-topic"] && all_declared desc unsigneds_option ["sub-qos"].

Lemma all_declared_in desc p names name :
  all_declared desc p names = true → In name names → declared desc name p = true.
Proof. unfold all_declared. rewrite forallb_forall. auto. Qed.

Ltac in_list := simpl; tauto.

Lemma common_readable_of ssl o : conforms (App.m_desc o) (App.m_vm o) →
  common_declared ssl (App.m_desc o) = true → common_readable ssl o.
Proof.
  intros Hc [[Hs Hu]%andb_true_iff Hp]%andb_true_iff.
  pose proof (λ n, all_declared_in _ _ _ n Hs) as Hstr.
  pose proof (λ n, all_declared_in _ _ _ n Hu) as Huns.
  pose proof (λ n, all_declared_in _ _ _ n Hp) as Hport.
  split_and!;
    [ apply read_string | apply read_uint16 | apply read_tls | apply read_tls | apply read_tls
    | apply read_tls | apply read_string | apply read_string | apply read_string
    | apply read_unsigned | apply read_string | apply read_string | apply read_unsigned ];
    try exact Hc; try (intros ->); first [apply Hstr; in_list | apply Huns; in_list | apply Hport; in_list].
Qed.

Lemma pub_readable_of o : conforms (App.m_desc o) (App.m_vm o) →
  pub_declared (App.m_desc o) = true → pub_readable o.
Proof.
  intros Hc [[Hs Hu]%andb_true_iff Hb]%andb_true_iff.
  split_and!; [apply read_string | apply read_string | apply read_unsigned | apply read_bool];
    try exact Hc; eapply all_declared_in; [exact Hs| |exact Hs| |exact Hu| |exact Hb|]; in_list.
Qed.

Lemma sub_readable_of o : conforms (App.m_desc o) (App.m_vm o) →
  sub_declared (App.m_desc o) = true → sub_readable o.
Proof.
  intros Hc [Hs Hu]%andb_true_iff. split; [apply read_strings | apply read_unsigneds];
    try exact Hc; eapply all_declared_in; [exact Hs| |exact Hu|]; in_list.
Qed.

Definition parse_throws (f : fault) : Prop := f = FThrow.

Section typed.
  Context `{Parser} `{!ParserLaws} (ssl : bool).

Lemma wp_parseArgs args (Q : bool → App.ProgramOptions → Prop) o :
  (∀ vm, conforms (App.m_desc o) vm → Q true (App.MkProgramOptions (App.m_desc o) vm)) →
  wp parse_throws (App.parseArgs args) Q o.
Proof.
  intros HQ. unfold App.parseArgs. apply wp_bind, wp_gets.
  destruct (parse_command_line (App.m_desc o) args) as [vm|] eqn:Hp; [|by apply wp_throw].
  apply wp_bind, wp_modify, wp_ret. apply HQ. by eapply parse_conforms.
Qed.

(** C25: no getter of the options throws: whatever the arguments, after
    the parser has accepted them every option that the applications read by value
    has one, of the type they read, with the options of TLS compiled in or not. *)
Theorem options_typed args :
  wp parse_throws (App.Pub_options ssl ;; App.parseArgs args)
    (λ _ o, common_readable ssl o ∧ pub_readable o) App.ProgramOptions_new ∧
  wp parse_throws (App.Sub_options ssl ;; App.parseArgs args)
    (λ _ o, common_readable ssl o ∧ sub_readable o) App.ProgramOptions_new.
Proof.
  destruct ssl; split; apply wp_bind; (eapply wp_ok; [vm_compute; reflexivity|]); apply wp_parseArgs;
    intros vm Hvm; (split; [apply common_readable_of|]);
    first [apply pub_readable_of | apply sub_readable_of | idtac];
    first [exact Hvm | vm_compute; reflexivity].
Qed.
End typed.

(** ** Lists of topics *)

Fixpoint join_topics (l : list string) : string :=
  match l with
  | [] => ""
  | [t] => t
  | t :: l' => t +:+ String ","%char (join_topics l')
  end.

Definition no_comma (s : string) : Prop := Fuzz.find_comma s = None.

Lemma find_comma_app a b : no_comma a → Fuzz.find_comma (a +:+ String ","%char b) = Some (a, b).
Proof.
  unfold no_comma. induction a as [|c a IH]; [done|]. cbn [Fuzz.find_comma].
  change (String c a +:+ ?s) with (String c (a +:+ s)). cbn [Fuzz.find_comma].
  case_bool_decide; [done|]. destruct (Fuzz.find_comma a) as [[]|]; [done|].
  intros _. by rewrite IH.
Qed.

Lemma find_comma_length s a b :
  Fuzz.find_comma s = Some (a, b) → String.length b < String.length s.
Proof.
  revert a. induction s as [|c s IH]; intros a; simpl; [done|].
  case_bool_decide; [intros [= _ ->]; lia|].
  destruct (Fuzz.find_comma s) as [[a' b']|]; [|done]. intros [= _ ->].
  specialize (IH _ eq_refl). lia.
Qed.

Lemma join_length t l : String.length (join_topics l) ≤ String.length (join_topics (t :: l)).
Proof.
  destruct l as [|t' l]; [simpl; lia|].
  assert (∀ a b, String.length (a +:+ b) = String.length a + String.length b) as Happ.
  { intros a b. induction a as [|c a IH]; [done|]. exact (f_equal S IH). }
  change (join_topics (t :: t' :: l)) with (t +:+ String ","%char (join_topics (t' :: l))).
  rewrite Happ. simpl. lia.
Qed.

Lemma join_nonempty l : l ≠ [] → last l ≠ Some "" → join_topics l ≠ "".
Proof.
  destruct l as [|t [|t' l]]; [done| |]; intros _ Hl; simpl in *; [|by destruct t].
  intros Ht. by subst t.
Qed.

Lemma split_join fuel l :
  Forall no_comma l → last l ≠ Some "" → String.length (join_topics l) < fuel →
  Fuzz.split_topics fuel (join_topics l) = l.
Proof.
  intros Hc. revert fuel. induction Hc as [|t l Ht Hc IH]; intros fuel Hl Hf;
    (destruct fuel as [|fuel]; [lia|]); [done|]. cbn [Fuzz.split_topics].
  rewrite bool_decide_eq_false_2 by (by apply join_nonempty).
  destruct l as [|t' l]; [cbn [join_topics]; by rewrite Ht|].
  change (join_topics (t :: t' :: l)) with (t +:+ String ","%char (join_topics (t' :: l))) in *.
  pose proof (find_comma_app t (join_topics (t' :: l)) Ht) as E.
  rewrite E. apply find_comma_length in E. by rewrite IH by (done || lia).
Qed.

(** The topics of an argument of the fuzzing driver are those
    that were joined with commas, in their order, if none of them has a comma and the
    last one is not empty (a comma at the end adds no topic); in particular the loop
    that splits the argument ends. *)
Theorem topics_of_join (l : list string) :
  Forall no_comma l → last l ≠ Some "" → Fuzz.topics_of (join_topics l) = l.
Proof. intros Hc Hl. apply split_join; [done..|]. lia. Qed.

Example topics_of_join_witness :
  Forall no_comma ["a/#"; ""; "b"] ∧ join_topics ["a/#"; ""; "b"] = "a/#,,b" ∧
  Fuzz.topics_of "a/#,,b" = ["a/#"; ""; "b"].
Proof.
  split; [by repeat constructor|]. split; [reflexivity|].
  refine (topics_of_join ["a/#"; ""; "b"] _ _); [by repeat constructor | discriminate].
Defined.

(** ** Witness *)

(** A parser that accepts an empty command line. *)
Definition default_value (t : OptType) : option OptValue :=
  match t with
  | OT_string d => OV_string <$> d
  | OT_unsigned d => OV_unsigned <$> d
  | OT_uint16 d => OV_uint16 <$> d
  | OT_bool d => OV_bool <$> d
  | _ => None
  end.

Definition defaults_of (desc : options_description) : list (string * OptValue) :=
  omap (λ d, v ← default_value d.2; Some (d.1, v)) desc.

Definition ExampleParser : Parser := λ desc args,
  if bool_decide (args = []) then Some (list_to_map (defaults_of desc)) else None.

Lemma defaults_of_in desc name v :
  (name, v) ∈ defaults_of desc → ∃ t, (name, t) ∈ desc ∧ default_value t = Some v.
Proof.
  unfold defaults_of. rewrite list_elem_of_omap. intros ([name' t] & Hin & Hd). simpl in Hd.
  destruct (default_value t) eqn:E; [|done]. injection Hd as -> ->. eauto.
Qed.

Lemma ExampleParser_laws : ParserLaws (H := ExampleParser).
Proof.
  intros desc args vm. unfold parse_command_line, ExampleParser. case_bool_decide; [|done].
  intros [= <-]. split.
  - intros name v Hv. apply elem_of_list_to_map_2, defaults_of_in in Hv as (t & Hin & Hd).
    exists t. split; [done|]. destruct t as [|[]|[]|[]|[]| |]; simpl in Hd; by simplify_eq.
  - intros name t Hin Ht. apply not_eq_None_Some. intros Hn.
    apply not_elem_of_list_to_map_2 in Hn. apply Hn, list_elem_of_fmap.
    destruct (default_value t) as [v|] eqn:E; [|by destruct t as [|[]|[]|[]|[]| |]].
    exists (name, v). split; [done|]. apply list_elem_of_omap. exists (name, t). simpl.
    by rewrite E.
Qed.

Example options_typed_witness :
  wp parse_throws (App.Pub_options true ;; App.parseArgs (H := ExampleParser) [])
    (λ _ o, common_readable true o ∧ pub_readable o) App.ProgramOptions_new ∧
  wp parse_throws (App.Sub_options true ;; App.parseArgs (H := ExampleParser) [])
    (λ _ o, common_readable true o ∧ sub_readable o) App.ProgramOptions_new.
Proof. apply (options_typed (H := ExampleParser) (H0 := ExampleParser_laws)). Defined.
