(* ===== verification/AppSession.v ===== *)
(** * Network sessions of the applications

    [class Session] with its subclasses [TcpSession] and [TlsSession]
    (client/app/common/Session.cpp, client/app/common/TcpSession.cpp,
    client/app/common/TlsSession.cpp): they connect to the broker, keep the bytes
    that the client has not consumed, and report a lost connection once.

    The state is that of the session and that of its owner, which the two callbacks
    work on.  The network is boost::asio: the outcome of a read or a write is an
    argument, that of the steps of the connection is [Asio]. *)

From S2P Require Import Prelude SortedVec Config Protocol Topic PacketId TimerMgr State.
From S2P Require Import Lifecycle Completion Session SendOp RecvOp SubscribeOp ConnectOp.
From S2P Require Import Client Termination Frame Scenarios Receiving Options.

(** ** State *)

(** [boost::asio::ssl::context], as far as it is configured. *)
Record SslContext := MkSslContext {
  ctx_verify_file : option string;
  ctx_verify_peer : bool;
  ctx_password : option string;
  ctx_private_key : option string;
  ctx_certificate : option string;
}.

Definition SslContext_new : SslContext := MkSslContext None false None None None.

Record NetSession := MkNetSession {
  sn_hasDataReportCb : bool;
  sn_hasNetworkDisconnectedReportCb : bool;
  sn_networkDisconnected : bool;
  (** an asynchronous read is pending *)
  sn_reading : bool;
  (** [m_buf] *)
  sn_buf : bytes;
  sn_ctx : option SslContext;
}.

Definition NetSession_new : NetSession := MkNetSession false false false false [] None.

Definition sn_set_callbacks (v : bool) (s : NetSession) : NetSession :=
  MkNetSession v v (sn_networkDisconnected s) (sn_reading s) (sn_buf s) (sn_ctx s).
Definition sn_set_networkDisconnected (v : bool) (s : NetSession) : NetSession :=
  MkNetSession (sn_hasDataReportCb s) (sn_hasNetworkDisconnectedReportCb s) v (sn_reading s)
    (sn_buf s) (sn_ctx s).
Definition sn_set_reading (v : bool) (s : NetSession) : NetSession :=
  MkNetSession (sn_hasDataReportCb s) (sn_hasNetworkDisconnectedReportCb s)
    (sn_networkDisconnected s) v (sn_buf s) (sn_ctx s).
Definition sn_set_buf (v : bytes) (s : NetSession) : NetSession :=
  MkNetSession (sn_hasDataReportCb s) (sn_hasNetworkDisconnectedReportCb s)
    (sn_networkDisconnected s) (sn_reading s) v (sn_ctx s).
Definition sn_set_ctx (v : option SslContext) (s : NetSession) : NetSession :=
  MkNetSession (sn_hasDataReportCb s) (sn_hasNetworkDisconnectedReportCb s)
    (sn_networkDisconnected s) (sn_reading s) (sn_buf s) v.

(** The outcome of an operation on the socket: [operation_aborted], another error,
    success. *)
Inductive IoStatus := IO_Aborted | IO_Error | IO_Success.

(** The steps of the connection: whether they succeed. *)
Class Asio := {
  asio_resolve : string → Z → bool;
  asio_connect : bool;
  ssl_handshake : SslContext → bool;
  ssl_load_verify_file : string → bool;
  ssl_set_verify_mode : bool → bool;
  ssl_set_password_callback : bool;
  ssl_use_private_key_file : string → option string → bool;
  ssl_use_certificate_file : string → bool;
}.

(** [Session::create]: the table of the connection types. *)
Inductive SessionKind := KindTcp | KindTls.

Definition Session_create (has_openssl : bool) (opts : App.ProgramOptions) : option SessionKind :=
  match App.connectionType has_openssl opts with
  | App.ConnectionType_Tcp => Some KindTcp
  | App.ConnectionType_Tls => if has_openssl then Some KindTls else None
  end.

Section AppSession.
  Context `{Config} {C : Type}.
  (** The callbacks of the owner. *)
  Context (dataReportCb : bytes → M C nat) (networkDisconnectedReportCb : M C unit).

Abbreviation SM := (M (NetSession * C)).

Definition owner {A} (m : M C A) : SM A := zoom snd (λ c s, (s.1, c)) m.
Definition own (f : NetSession → NetSession) : SM unit := modify (λ s, (f s.1, s.2)).

Definition reportData (buf : bytes) : SM nat :=
  cb ← gets (sn_hasDataReportCb ∘ fst);
  comms_assert cb ;;
  if cb : bool then owner (dataReportCb buf) else throw FThrow.

Definition reportNetworkDisconnected : SM unit :=
  down ← gets (sn_networkDisconnected ∘ fst);
  if down : bool then mret tt
  else
    own (sn_set_networkDisconnected true) ;;
    cb ← gets (sn_hasNetworkDisconnectedReportCb ∘ fst);
    comms_assert cb ;;
    if cb : bool then owner networkDisconnectedReportCb else throw FThrow.

(** ** TcpSession *)

(** The start of a read. *)
Definition TcpSession_doRead : SM unit := own (sn_set_reading true).

(** The completion of a read: the handler of [async_read_some], with the bytes
    that arrived; [buf] is [m_inData], or [m_buf] with the new bytes. *)
Definition TcpSession_handleRead (ec : IoStatus) (inData : bytes) : SM unit :=
  own (sn_set_reading false) ;;
  match ec with
  | IO_Aborted => mret tt
  | IO_Error => reportNetworkDisconnected
  | IO_Success =>
      pending ← gets (sn_buf ∘ fst);
      let kept := negb (bool_decide (pending = [])) in
      let buf := if kept then pending ++ inData else inData in
      when kept (own (sn_set_buf buf)) ;;
      consumed ← reportData buf;
      (if length buf <=? consumed then own (sn_set_buf [])
       else
         m_buf ← gets (sn_buf ∘ fst);
         if negb (bool_decide (m_buf = [])) then
           comms_assert kept ;;
           own (sn_set_buf (drop consumed m_buf))
         else
           comms_assert (negb kept) ;;
           own (sn_set_buf (m_buf ++ drop consumed inData))) ;;
      TcpSession_doRead
  end.

(** [boost::asio::write] yields an outcome and the number of bytes written. *)
Definition TcpSession_sendDataImpl (buf : bytes) (outcome : IoStatus * nat) : SM unit :=
  match outcome with
  | (IO_Aborted, _) => mret tt
  | (IO_Error, _) => reportNetworkDisconnected
  | (IO_Success, written) =>
      if written =? length buf then mret tt else reportNetworkDisconnected
  end.

(** A getter of the options. *)
Definition option_value {A} (v : option A) : SM A :=
  match v with Some x => mret x | None => throw FThrow end.

Section start.
  Context `{Asio} (has_openssl : bool) (opts : App.ProgramOptions).

Definition TcpSession_startImpl : SM bool :=
  address ← option_value (App.networkAddress opts);
  port ← option_value (App.networkPort opts);
  if negb (asio_resolve address port) then mret false
  else if negb asio_connect then mret false
  else TcpSession_doRead ;; mret true.

(** ** TlsSession *)

Definition TlsSession_doRead : SM unit := own (sn_set_reading true).

(** The handler has the text of that of [TcpSession]. *)
Definition TlsSession_handleRead (ec : IoStatus) (inData : bytes) : SM unit :=
  TcpSession_handleRead ec inData.

Definition TlsSession_sendDataImpl (buf : bytes) (outcome : IoStatus * nat) : SM unit :=
  match outcome with
  | (IO_Aborted, _) => mret tt
  | (IO_Error, _) => reportNetworkDisconnected
  | (IO_Success, written) =>
      if written =? length buf then mret tt else reportNetworkDisconnected
  end.

(** [m_ctx->]: the context, which must exist. *)
Definition with_ctx (f : SslContext → SslContext) : SM unit :=
  ctx ← gets (sn_ctx ∘ fst);
  match ctx with
  | None => throw FNull
  | Some c => own (sn_set_ctx (Some (f c)))
  end.

Definition assert_ctx : SM unit :=
  ctx ← gets (sn_ctx ∘ fst);
  comms_assert (match ctx with Some _ => true | None => false end).

Definition configureSslCaCert : SM bool :=
  assert_ctx ;;
  tlsCa ← option_value (App.tlsCa has_openssl opts);
  let given := negb (bool_decide (tlsCa = "")) in
  loaded ← (if given then
      with_ctx (λ c, MkSslContext
        (if ssl_load_verify_file tlsCa then Some tlsCa else ctx_verify_file c)
        (ctx_verify_peer c) (ctx_password c) (ctx_private_key c) (ctx_certificate c)) ;;
      mret (ssl_load_verify_file tlsCa)
    else mret true);
  if negb loaded then mret false
  else
    with_ctx (λ c, MkSslContext (ctx_verify_file c)
      (if ssl_set_verify_mode given then given else ctx_verify_peer c)
      (ctx_password c) (ctx_private_key c) (ctx_certificate c)) ;;
    mret (ssl_set_verify_mode given).

(** The password callback: at most [maxLen] characters of the password. *)
Definition password_callback (pass : string) (maxLen : nat) : string :=
  String.substring 0 (min (String.length pass) maxLen) pass.

Definition configureSslKey : SM bool :=
  key ← option_value (App.tlsPrivateKey has_openssl opts);
  if bool_decide (key = "") then mret true
  else
    assert_ctx ;;
    pass ← option_value (App.tlsPrivateKeyPass has_openssl opts);
    set ← (if negb (bool_decide (pass = "")) then
        with_ctx (λ c, MkSslContext (ctx_verify_file c) (ctx_verify_peer c)
          (if ssl_set_password_callback then Some pass else ctx_password c)
          (ctx_private_key c) (ctx_certificate c)) ;;
        mret ssl_set_password_callback
      else mret true);
    if negb set then mret false
    else
      ctx ← gets (sn_ctx ∘ fst);
      let used := ssl_use_private_key_file key (ctx ≫= ctx_password) in
      with_ctx (λ c, MkSslContext (ctx_verify_file c) (ctx_verify_peer c) (ctx_password c)
        (if used then Some key else ctx_private_key c) (ctx_certificate c)) ;;
      mret used.

Definition configureSslCert : SM bool :=
  cert ← option_value (App.tlsCert has_openssl opts);
  if bool_decide (cert = "") then mret true
  else
    assert_ctx ;;
    with_ctx (λ c, MkSslContext (ctx_verify_file c) (ctx_verify_peer c) (ctx_password c)
      (ctx_private_key c) (if ssl_use_certificate_file cert then Some cert else ctx_certificate c)) ;;
    mret (ssl_use_certificate_file cert).

Definition configureSslContext : SM bool :=
  own (sn_set_ctx (Some SslContext_new)) ;;
  ca ← configureSslCaCert;
  if negb ca then mret false
  else
    key ← configureSslKey;
    if negb key then mret false else configureSslCert.

Definition TlsSession_startImpl : SM bool :=
  address ← option_value (App.networkAddress opts);
  port ← option_value (App.networkPort opts);
  if negb (asio_resolve address port) then mret false
  else
    configured ← configureSslContext;
    if negb configured then mret false
    else
      assert_ctx ;;
      ctx ← gets (sn_ctx ∘ fst);
      match ctx with
      | None => throw FNull
      | Some c =>
          if negb asio_connect then mret false
          else if negb (ssl_handshake c) then mret false
          else TlsSession_doRead ;; mret true
      end.

End start.
End AppSession.

(** ** The stream of a connection *)

(** How many bytes the client consumes of a buffer. *)
Definition consumed_of `{CommsLib} (buf : bytes) : nat :=
  if ps_error (parse buf) then length buf else ps_consumed (parse buf).

(** What is left of the bytes that arrive. *)
Definition leftover `{CommsLib} (buf : bytes) : bytes := drop (consumed_of buf) buf.

(** The messages that each read completes, in front of which [pending] bytes wait. *)
Fixpoint batches `{CommsLib} (pending : bytes) (reads : list bytes) : list (list ProtMessage) :=
  match reads with
  | [] => []
  | d :: ds => ps_messages (parse (pending ++ d)) :: batches (leftover (pending ++ d)) ds
  end.

(** The client handles the messages of a read within one call of the API. *)
Definition deliver `{Config} `{CommsLib} `{App} (msgs : list ProtMessage) : M ClientImpl unit :=
  with_guard (mapM_ ClientImpl_dispatch msgs).

(** ** The network flag *)

Definition network_contract (v : bool) : Contract ClientImpl := {|
  ct_inv := λ s, m_networkDisconnected (m_clientState s) = v;
  ct_rel := λ _ _, True;
  ct_faults := any_fault;
  ct_pre := any_step_preorder;
|}.

(** The operations on packet identifiers keep the flag. *)
Definition flag_contract : Contract ClientState := {|
  ct_inv := λ _, True;
  ct_rel := λ c c', m_networkDisconnected c' = m_networkDisconnected c;
  ct_faults := any_fault;
  ct_pre := ltac:(split; [done | intros c1 c2 c3; congruence]);
|}.

Lemma flag_modify f : (∀ c, m_networkDisconnected (f c) = m_networkDisconnected c) →
  keeps (Contract0 := flag_contract) (modify f).
Proof. intros Hf. apply keeps_modify. intros c _. by split; [|apply Hf]. Qed.

Lemma flag_throw {A} f : keeps (Contract0 := flag_contract) (throw (A := A) f).
Proof. by apply keeps_throw. Qed.

Lemma flag_packetIds `{Config} : keeps (Contract0 := flag_contract) allocPacketId ∧
  ∀ id, keeps (Contract0 := flag_contract) (releasePacketId id).
Proof.
  unfold allocPacketId, releasePacketId. split; intros; keeps_auto;
    first [by apply flag_modify | apply flag_throw | by apply keeps_comms_assert].
Qed.

Section network.
  Context `{Config} `{App} (v : bool).
Abbreviation vkeeps := (keeps (Contract0 := network_contract v)).
  Context (Hcb : ∀ e, set_aside e = false → vkeeps (callback e)).

Lemma network_clientState {A} (m : M ClientState A) :
  keeps (Contract0 := flag_contract) m → vkeeps (on_clientState m).
Proof.
  intros Hm s Hs. apply wp_zoom. eapply wp_mono; [by apply Hm|]. intros a c' [_ Hc].
  split; [|done]. simpl in *. congruence.
Qed.

Lemma network_stable : Stable (network_contract v).
Proof.
  assert (∀ f, (∀ s, m_clientState (f s) = m_clientState s) → vkeeps (modify f)) as Hmod.
  { intros f Hf. apply keeps_modify. intros s Hs. split; [|done]. simpl in *. by rewrite Hf. }
  split; try done.
  - intros. by apply Hmod.
  - intros A m _ s Hs. apply wp_zoom. unfold wp. by destruct (m _).
  - intros f _ Hf. by apply network_clientState, flag_modify.
  - apply network_clientState, flag_packetIds.
  - intros id. apply network_clientState, flag_packetIds.
  - intros topic. unfold store_filter. keeps_auto. by apply Hmod.
Qed.
End network.

Section stream.
  Context `{Config} `{CommsLib} `{!CommsLaws} `{!StreamLaws} `{App}.
  Context (Hquiet : ∀ e s, app_react e s = Ok tt s).
Abbreviation okeeps := (keeps (Contract0 := network_contract false)).

#[local] Instance online_stable : Stable (network_contract false).
Proof.
  apply network_stable. intros e _ s Hs. unfold callback. apply wp_bind, wp_modify.
  unfold wp. by rewrite Hquiet.
Qed.

Lemma okeeps_resume idx : okeeps (resumeSendOpsSince idx).
Proof. by apply (fkeeps_resumeSendOpsSince_bound (network_contract false)). Qed.

Lemma okeeps_resend a : okeeps (resendAllUntil a).
Proof. by apply (fkeeps_resendAllUntil_bound (network_contract false) okeeps_resume). Qed.

Lemma okeeps_report info : okeeps (reportMsgInfo info).
Proof.
  unfold reportMsgInfo, must_callback. intros s Hs. apply wp_bind, wp_gets, wp_bind.
  apply wp_comms_assert; [done|]. case_match; [|done].
  unfold wp, callback, mbind, M_bind, modify. by rewrite Hquiet.
Qed.

Lemma okeeps_deliver msgs : okeeps (deliver msgs).
Proof.
  apply (fkeeps_with_guard (network_contract false) okeeps_resume), keeps_mapM_. intros msg.
  by apply (fkeeps_dispatch (network_contract false) okeeps_resume okeeps_resend okeeps_report).
Qed.

(** *** One read *)

Lemma with_guard_ret {A} (m : M ClientImpl unit) (x : A) s :
  with_guard (m ;; mret x) s = (with_guard m ;; mret x) s.
Proof.
  unfold with_guard, mbind, M_bind, mret, M_ret. destruct (doApiEnter s) as [[] s1|]; [|done].
  destruct (m s1) as [[] s2|]; [|done]. by destruct (doApiExit s2) as [[] s3|].
Qed.

(** The call of the API starts with a client that is online. *)
Lemma with_guard_online {A} (m m' : M ClientImpl A) s :
  m_networkDisconnected (m_clientState s) = false →
  (∀ s1, m_networkDisconnected (m_clientState s1) = false → m s1 = m' s1) →
  with_guard m s = with_guard m' s.
Proof.
  intros Hs Hm. pose proof (fkeeps_doApiEnter (network_contract false) okeeps_resume s Hs) as Hent.
  unfold with_guard, mbind, M_bind. unfold wp in Hent.
  destruct (doApiEnter s) as [[] s1|]; [|done]. destruct Hent as [Hs1 _]. by rewrite Hm.
Qed.

Lemma processData_deliver buf s :
  m_networkDisconnected (m_clientState s) = false → ps_error (parse buf) = false →
  processData buf s = (deliver (ps_messages (parse buf)) ;; mret (consumed_of buf)) s.
Proof.
  intros Hs He. unfold deliver, consumed_of. rewrite <- with_guard_ret, processData_eq, He.
  apply with_guard_online; [done|]. intros s1 Hs1.
  unfold mbind, M_bind, gets, compose. rewrite Hs1. simpl. rewrite comms_assert_true. by rewrite He.
Qed.

(** The reads of a session whose owner is the client. *)
Definition client_read (d : bytes) : M (NetSession * ClientImpl) unit :=
  TcpSession_handleRead processData notifyNetworkDisconnected IO_Success d.

Definition sn_after (ses : NetSession) (rest : bytes) : NetSession :=
  sn_set_reading true (sn_set_buf rest ses).

Lemma client_read_deliver ses d s :
  sn_hasDataReportCb ses = true → m_networkDisconnected (m_clientState s) = false →
  ps_error (parse (sn_buf ses ++ d)) = false →
  client_read d (ses, s) =
    match deliver (ps_messages (parse (sn_buf ses ++ d))) s with
    | Ok _ s' => Ok tt (sn_after ses (leftover (sn_buf ses ++ d)), s')
    | Fault f => Fault f
    end.
Proof.
  intros Hcb Hs He. destruct ses as [b1 b2 down rd pending ctx]. simpl in *. subst b1.
  unfold client_read, TcpSession_handleRead, reportData, own, owner, zoom, when,
    TcpSession_doRead, mbind, M_bind, gets, modify, compose. cbn -[app length].
  destruct (decide (pending = [])) as [->|Hp].
  - rewrite bool_decide_eq_true_2 by done. cbn -[length]. rewrite comms_assert_true.
    cbn -[length] in *. rewrite processData_deliver by done. unfold mbind, M_bind.
    destruct (deliver _ s) as [[] s1|]; [|done]. cbn -[length].
    destruct (Nat.leb_spec (length d) (consumed_of d)) as [Hle|Hlt]; cbn -[length].
    + unfold sn_after, leftover, sn_set_buf, sn_set_reading. simpl. by rewrite drop_ge.
    + rewrite comms_assert_true. done.
  - rewrite bool_decide_eq_false_2 by done. cbn -[length app]. rewrite comms_assert_true.
    cbn -[length app] in *. rewrite processData_deliver by done. unfold mbind, M_bind.
    destruct (deliver _ s) as [[] s1|]; [|done]. cbn -[length app].
    destruct (Nat.leb_spec (length (pending ++ d)) (consumed_of (pending ++ d))) as [Hle|Hlt];
      cbn -[length app].
    + unfold sn_after, leftover, sn_set_buf, sn_set_reading. simpl. by rewrite drop_ge.
    + rewrite bool_decide_eq_false_2 by (by destruct pending). cbn -[length app].
      rewrite comms_assert_true. done.
Qed.

(** *** The stream *)

Lemma no_error_front buf more :
  ps_error (parse (buf ++ more)) = false →
  ps_error (parse buf) = false ∧
  parse (buf ++ more) =
    MkParsed (ps_messages (parse buf) ++ ps_messages (parse (leftover buf ++ more)))
      (consumed_of buf + ps_consumed (parse (leftover buf ++ more)))
      (ps_error (parse (leftover buf ++ more))).
Proof.
  rewrite parse_app. unfold leftover, consumed_of.
  destruct (ps_error (parse buf)) eqn:E; [congruence | done].
Qed.

Lemma client_reads_deliver ds ses s :
  sn_hasDataReportCb ses = true → m_networkDisconnected (m_clientState s) = false →
  ps_error (parse (sn_buf ses ++ concat ds)) = false → ds ≠ [] →
  concat (batches (sn_buf ses) ds) = ps_messages (parse (sn_buf ses ++ concat ds)) ∧
  mapM_ client_read ds (ses, s) =
    match mapM_ deliver (batches (sn_buf ses) ds) s with
    | Ok _ s' => Ok tt (sn_after ses (leftover (sn_buf ses ++ concat ds)), s')
    | Fault f => Fault f
    end.
Proof.
  revert ses s. induction ds as [|d ds IH]; intros ses s Hcb Hs; [done|].
  cbn [concat]. rewrite app_assoc. intros He _. destruct (no_error_front _ _ He) as [He1 Hp].
  cbn [mapM_ batches concat].
  assert (leftover ((sn_buf ses ++ d) ++ concat ds) =
    leftover (leftover (sn_buf ses ++ d) ++ concat ds)) as Hleft.
  { unfold leftover at 1, consumed_of at 1. rewrite He. rewrite Hp. cbn [ps_consumed].
    assert (consumed_of (sn_buf ses ++ d) ≤ length (sn_buf ses ++ d)) as Hle.
    { unfold consumed_of. rewrite He1. apply parse_consumed. }
    rewrite <- drop_drop, drop_app_le by done. fold (leftover (sn_buf ses ++ d)).
    unfold leftover at 3, consumed_of at 1. rewrite Hp in He. cbn [ps_error] in He. by rewrite He. }
  unfold mbind at 1, M_bind at 1. rewrite client_read_deliver by done.
  unfold mbind at 1, M_bind at 1.
  pose proof (okeeps_deliver (ps_messages (parse (sn_buf ses ++ d))) s Hs) as Hd. unfold wp in Hd.
  rewrite Hp in He |- *. cbn [ps_error ps_messages] in *.
  destruct (decide (ds = [])) as [->|Hds].
  { cbn. cbn in Hp. rewrite !app_nil_r in *. split; [by rewrite Hp at 1|].
    by destruct (deliver _ s) as [[] s1|]. }
  destruct (IH (sn_after ses (leftover (sn_buf ses ++ d))) s) as [Hcat _]; [done..|].
  split; [cbn in Hcat; by rewrite Hcat|].
  destruct (deliver _ s) as [[] s1|]; [|done]. destruct Hd as [Hs1 _].
  destruct (IH (sn_after ses (leftover (sn_buf ses ++ d))) s1) as [_ Hrun]; [done..|].
  rewrite Hrun. cbn. by rewrite Hleft.
Qed.

(** C23: the client behind a network session sees the messages of the
    stream, however the network cuts it: any reads, from a session with some bytes
    pending, deliver in order exactly the messages of the concatenation of these
    bytes and of all that arrived, each batch within one call of the API, and leave
    in the session the bytes that are not yet a frame.  The application does not call
    the client from its callbacks, and the stream is well formed. *)
Theorem session_stream ds ses s :
  sn_hasDataReportCb ses = true → m_networkDisconnected (m_clientState s) = false →
  ps_error (parse (sn_buf ses ++ concat ds)) = false → ds ≠ [] →
  concat (batches (sn_buf ses) ds) = ps_messages (parse (sn_buf ses ++ concat ds)) ∧
  mapM_ client_read ds (ses, s) =
    match mapM_ deliver (batches (sn_buf ses) ds) s with
    | Ok _ s' => Ok tt (sn_after ses (leftover (sn_buf ses ++ concat ds)), s')
    | Fault f => Fault f
    end.
Proof. apply client_reads_deliver. Qed.

End stream.

(** ** The context of TLS *)

Section tls.
  Context `{Config} `{Asio} {C : Type} (opts : App.ProgramOptions) (has_openssl : bool).
  Context (ca key pass cert : string)
    (Hca : App.tlsCa has_openssl opts = Some ca)
    (Hkey : App.tlsPrivateKey has_openssl opts = Some key)
    (Hpass : App.tlsPrivateKeyPass has_openssl opts = Some pass)
    (Hcert : App.tlsCert has_openssl opts = Some cert).

(** An option that is given. *)
Definition given (v : string) : option string := if bool_decide (v = "") then None else Some v.

Definition is_given (v : string) : bool := negb (bool_decide (v = "")).

(** The context that the options ask for. *)
Definition configured_context : SslContext :=
  MkSslContext (given ca) (is_given ca) (if is_given key then given pass else None)
    (given key) (given cert).

Lemma wp_option_value {A} F (v : option A) x (Q : A → NetSession * C → Prop) s :
  v = Some x → Q x s → wp F (option_value v) Q s.
Proof. intros ->. by apply wp_ret. Qed.

(** A step of the configuration: only the context changes. *)
Definition configures (m : M (NetSession * C) bool) (ctx ctx' : SslContext) : Prop :=
  ∀ ses (c : C), wp no_fault m (λ ok s', ∃ ctx1, s' = (sn_set_ctx (Some ctx1) ses, c) ∧
    (ok = true → ctx1 = ctx')) (sn_set_ctx (Some ctx) ses, c).

Lemma wp_assert_ctx (Q : unit → NetSession * C → Prop) ses (c : C) ctx :
  Q tt (sn_set_ctx (Some ctx) ses, c) → wp no_fault assert_ctx Q (sn_set_ctx (Some ctx) ses, c).
Proof. intros HQ. unfold assert_ctx. apply wp_bind, wp_gets. by apply wp_comms_assert_true. Qed.

Lemma wp_with_ctx f (Q : unit → NetSession * C → Prop) ses (c : C) ctx :
  Q tt (sn_set_ctx (Some (f ctx)) ses, c) →
  wp no_fault (with_ctx f) Q (sn_set_ctx (Some ctx) ses, c).
Proof. intros HQ. unfold with_ctx. apply wp_bind, wp_gets. by apply wp_modify. Qed.

Lemma configures_done ctx : configures (mret true) ctx ctx.
Proof. intros ses c. apply wp_ret. eauto. Qed.

Lemma configures_CaCert :
  configures (configureSslCaCert has_openssl opts) SslContext_new
    (MkSslContext (given ca) (is_given ca) None None None).
Proof.
  intros ses c. unfold configureSslCaCert, given, is_given.
  apply wp_bind, wp_assert_ctx, wp_bind. eapply wp_option_value; [exact Hca|].
  destruct (bool_decide (ca = "")) eqn:E; cbn [negb]; apply wp_bind.
  - apply wp_ret. cbn [negb]. apply wp_bind, wp_with_ctx, wp_ret. eexists. split; [done|].
    intros Hok. by destruct (ssl_set_verify_mode false).
  - apply wp_bind, wp_with_ctx, wp_ret.
    destruct (ssl_load_verify_file ca); cbn [negb]; [|by apply wp_ret; eexists].
    apply wp_bind, wp_with_ctx, wp_ret. eexists. split; [done|]. intros Hok. simpl. by rewrite Hok.
Qed.

Lemma configures_Key ctx : ctx_password ctx = None → ctx_private_key ctx = None →
  configures (configureSslKey has_openssl opts) ctx
    (MkSslContext (ctx_verify_file ctx) (ctx_verify_peer ctx)
      (if is_given key then given pass else None) (given key) (ctx_certificate ctx)).
Proof.
  intros Hp Hk. destruct ctx as [f v p k x]. simpl in *. subst p k. intros ses c.
  unfold configureSslKey, given, is_given.
  apply wp_bind. eapply wp_option_value; [exact Hkey|].
  destruct (bool_decide (key = "")) eqn:E; cbn [negb]; [apply wp_ret; eexists; by split|].
  apply wp_bind, wp_assert_ctx, wp_bind. eapply wp_option_value; [exact Hpass|].
  destruct (bool_decide (pass = "")) eqn:E'; cbn [negb]; apply wp_bind.
  - apply wp_ret. cbn [negb]. apply wp_bind, wp_gets, wp_bind, wp_with_ctx, wp_ret.
    eexists. split; [done|]. intros Hok. simpl in *. by rewrite Hok.
  - apply wp_bind, wp_with_ctx, wp_ret.
    destruct ssl_set_password_callback; cbn [negb]; [|by apply wp_ret; eexists].
    apply wp_bind, wp_gets, wp_bind, wp_with_ctx, wp_ret.
    eexists. split; [done|]. intros Hok. simpl in *. by rewrite Hok.
Qed.

Lemma configures_Cert ctx : ctx_certificate ctx = None →
  configures (configureSslCert has_openssl opts) ctx
    (MkSslContext (ctx_verify_file ctx) (ctx_verify_peer ctx) (ctx_password ctx)
      (ctx_private_key ctx) (given cert)).
Proof.
  intros Hx. destruct ctx as [f v p k x]. simpl in *. subst x. intros ses c.
  unfold configureSslCert, given. apply wp_bind. eapply wp_option_value; [exact Hcert|].
  destruct (bool_decide (cert = "")) eqn:E; [apply wp_ret; eexists; by split|].
  apply wp_bind, wp_assert_ctx, wp_bind, wp_with_ctx, wp_ret. eexists. split; [done|].
  intros Hok. simpl. by rewrite Hok.
Qed.

Lemma wp_configureSslContext ses (c : C) :
  wp no_fault (configureSslContext has_openssl opts) (λ ok s', ∃ ctx1,
    s' = (sn_set_ctx (Some ctx1) ses, c) ∧ (ok = true → ctx1 = configured_context)) (ses, c).
Proof.
  unfold configureSslContext. apply wp_bind, wp_modify, wp_bind.
  eapply wp_mono; [apply configures_CaCert|]. intros ok s1 (ctx1 & -> & Hok).
  destruct ok; cbn [negb]; [rewrite Hok by done | by apply wp_ret; eexists].
  apply wp_bind. eapply wp_mono; [by apply configures_Key|]. intros ok s2 (ctx2 & -> & Hok2).
  destruct ok; cbn [negb]; [rewrite Hok2 by done | by apply wp_ret; eexists].
  eapply wp_mono; [by apply configures_Cert|]. intros ok s3 (ctx3 & -> & Hok3).
  eexists. split; [done|]. intros E. by rewrite (Hok3 E).
Qed.

(** C24: a TLS session starts without a fault, and it reads from the
    network only after the host was resolved and connected and the handshake
    succeeded with the context that the options ask for: the broker is verified
    exactly when a CA file is given, with that file, and the key, its password and
    the certificate are those of the options. *)
Theorem TlsSession_start_configured address port ses (c : C) :
  App.networkAddress opts = Some address → App.networkPort opts = Some port →
  wp no_fault (TlsSession_startImpl has_openssl opts) (λ ok s',
    if ok : bool then
      sn_ctx s'.1 = Some configured_context ∧ ssl_handshake configured_context = true ∧
      asio_resolve address port = true ∧ asio_connect = true ∧ sn_reading s'.1 = true
    else sn_reading s'.1 = sn_reading ses) (ses, c).
Proof.
  intros Ha Hp. unfold TlsSession_startImpl.
  apply wp_bind. eapply wp_option_value; [exact Ha|].
  apply wp_bind. eapply wp_option_value; [exact Hp|].
  destruct (asio_resolve address port); cbn [negb]; [|by apply wp_ret].
  apply wp_bind. eapply wp_mono; [apply wp_configureSslContext|]. intros ok s1 (ctx1 & -> & Hok).
  destruct ok; cbn [negb]; [rewrite Hok by done | by apply wp_ret].
  apply wp_bind, wp_assert_ctx, wp_bind, wp_gets. cbn.
  destruct asio_connect; cbn [negb]; [|by apply wp_ret].
  destruct (ssl_handshake configured_context); cbn [negb]; [|by apply wp_ret].
  apply wp_bind, wp_modify, wp_ret. by repeat split.
Qed.
End tls.

(** ** Witnesses *)

(** A session whose callbacks are set. *)
Definition example_session : NetSession := sn_set_callbacks true NetSession_new.

(** A PUBACK, and a PUBCOMP in two pieces, in three reads. *)
Definition example_reads : list bytes :=
  [[x40; x02; x00]%byte; [x01; x70; x02; x00]%byte; [x02; x40]%byte].

Example session_stream_witness :
  batches (H := ExampleComms) [] example_reads = [[]; [MPuback 1]; [MPubcomp 2]] ∧
  leftover (H := ExampleComms) (concat example_reads) = [x40]%byte ∧
  concat (batches (H := ExampleComms) [] example_reads) =
    ps_messages (parse (H := ExampleComms) (concat example_reads)) ∧
  mapM_ (client_read (H := DefaultConfig) (H0 := ExampleComms) (H3 := QuietApp)) example_reads
      (example_session, ClientImpl_new (H := DefaultConfig)) =
    match mapM_ (deliver (H := DefaultConfig) (H0 := ExampleComms) (H1 := QuietApp))
        (batches (H := ExampleComms) [] example_reads) (ClientImpl_new (H := DefaultConfig)) with
    | Ok _ s' => Ok tt (sn_after example_session
        (leftover (H := ExampleComms) (concat example_reads)), s')
    | Fault f => Fault f
    end.
Proof.
  split; [vm_compute; reflexivity|]. split; [vm_compute; reflexivity|].
  apply (session_stream (H := DefaultConfig) (H0 := ExampleComms) (H1 := ExampleComms_laws)
    (H2 := ExampleComms_stream) (H3 := QuietApp) (λ _ _, eq_refl) example_reads example_session);
    [reflexivity | reflexivity | vm_compute; reflexivity | discriminate].
Defined.

(** A network where everything succeeds, and options with a CA file and a key. *)
Definition ExampleAsio : Asio := {|
  asio_resolve := λ _ _, true; asio_connect := true; ssl_handshake := λ _, true;
  ssl_load_verify_file := λ _, true; ssl_set_verify_mode := λ _, true;
  ssl_set_password_callback := true; ssl_use_private_key_file := λ _ _, true;
  ssl_use_certificate_file := λ _, true;
|}.

Definition example_options : App.ProgramOptions := App.MkProgramOptions []
  (list_to_map [("broker", OV_string "host"); ("port", OV_uint16 8883); ("tls", OV_flag);
    ("tls-ca", OV_string "ca.pem"); ("tls-key", OV_string "key.pem");
    ("tls-key-pass", OV_string ""); ("tls-cert", OV_string "cert.pem")]).

Definition example_context : SslContext :=
  MkSslContext (Some "ca.pem") true None (Some "key.pem") (Some "cert.pem").

Example TlsSession_start_configured_witness :
  Session_create true example_options = Some KindTls ∧
  wp no_fault (TlsSession_startImpl (H := DefaultConfig) (H0 := ExampleAsio) true example_options)
    (λ ok s',
      if ok : bool then
        sn_ctx s'.1 = Some example_context ∧ ssl_handshake (Asio := ExampleAsio) example_context = true ∧
        asio_resolve (Asio := ExampleAsio) "host" 8883 = true ∧ asio_connect (Asio := ExampleAsio) = true ∧
        sn_reading s'.1 = true
      else sn_reading s'.1 = sn_reading example_session) (example_session, tt).
Proof.
  split; [vm_compute; reflexivity|].
  apply (TlsSession_start_configured (H := DefaultConfig) (H0 := ExampleAsio) example_options true
    "ca.pem" "key.pem" "" "cert.pem"); vm_compute; reflexivity.
Defined.
