(* ===== verification/AppClient.v ===== *)
(** * The command line applications

    [class AppClient] (client/app/common/AppClient.cpp) with its subclasses [Pub]
    (client/app/pub/Pub.cpp) and [Sub] (client/app/sub/Sub.cpp): the decoding of
    binary arguments, the texts for values of the library, and the functions that
    drive the client.

    What a handler does outside of the client is noted in the trace ([State.AppAction]):
    the end of the event loop with a result ([doTerminate]), and what [AppProgram] makes
    of it.  The output to the terminal is left out; a log of an error has no other
    effect. *)

From Stdlib Require Import Ascii.
From stdpp Require Import pretty.
From S2P Require Import Prelude SortedVec Config Protocol Topic PacketId TimerMgr State.
From S2P Require Import Lifecycle Completion Session SendOp RecvOp SubscribeOp ConnectOp.
From S2P Require Import Client Scenarios Options AppSession Api.

(** ** Binary arguments *)

Definition Backslash : ascii := "\"%char.

(** [isspace] in the C locale. *)
Definition isspace (c : ascii) : bool :=
  let n := nat_of_ascii c in (n =? 32) || ((9 <=? n) && (n <=? 13)).

Definition hex_digit (c : ascii) : option Z :=
  let n := Z.of_nat (nat_of_ascii c) in
  if (48 <=? n)%Z && (n <=? 57)%Z then Some (n - 48)%Z
  else if (97 <=? n)%Z && (n <=? 102)%Z then Some (n - 87)%Z
  else if (65 <=? n)%Z && (n <=? 70)%Z then Some (n - 55)%Z
  else None.

(** The digits at the front, in base 16. *)
Fixpoint hex_digits (acc : option Z) (s : string) : option Z :=
  match s with
  | EmptyString => acc
  | String c s' =>
      match hex_digit c with
      | None => acc
      | Some d => hex_digits (Some (default 0 acc * 16 + d)%Z) s'
      end
  end.

(** After the sign: an optional prefix [0x], which needs a digit after it. *)
Definition hex_number (s : string) : option Z :=
  match s with
  | String "0" (String ("x" | "X") (String c _ as s')) =>
      match hex_digit c with Some _ => hex_digits None s' | None => Some 0%Z end
  | _ => hex_digits None s
  end.

(** [std::stoul(s, nullptr, 16)]: spaces, a sign and a number are read, what follows
    is ignored; a negative number wraps; without a number it throws. *)
Fixpoint stoul16 (s : string) : option Z :=
  match s with
  | EmptyString => None
  | String c s' =>
      if isspace c then stoul16 s'
      else if bool_decide (c = "+"%char) then hex_number s'
      else if bool_decide (c = "-"%char) then
        n ← hex_number s'; Some ((- n) mod 2 ^ 64)%Z
      else hex_number s
  end.

Definition byte_of_Z (z : Z) : byte := default x00 (Byte.of_N (Z.to_N (z mod 256))).

(** The loop of [parseBinaryData], on the characters from [pos]. *)
Fixpoint parseBinaryData (val : string) : bytes :=
  match val with
  | EmptyString => []
  | String ch rest =>
      let addChar := byte_of_ascii ch in
      if negb (bool_decide (ch = Backslash)) then addChar :: parseBinaryData rest
      else
        match rest with
        | EmptyString => addChar :: parseBinaryData rest
        | String nextChar rest2 =>
            if bool_decide (nextChar = Backslash) then addChar :: parseBinaryData rest2
            else if negb (bool_decide (nextChar = "x"%char)) then addChar :: parseBinaryData rest
            else
              match rest2 with
              | String c1 (String c2 rest3) =>
                  match stoul16 (String c1 (String c2 "")) with
                  | Some n => byte_of_Z n :: parseBinaryData rest3
                  | None => addChar :: parseBinaryData rest
                  end
              | _ => addChar :: parseBinaryData rest
              end
        end
  end.

(** ** Texts *)

(** [Map[idx] + " (" + std::to_string(val) + ')'], with the test of the index. *)
Definition table_toString `{Config} {S} (Map : list string) (val : Z) : M S string :=
  match Map !! Z.to_nat val with
  | Some name => mret (name +:+ " (" +:+ pretty val +:+ ")")
  | None => comms_assert false ;; mret (pretty val)
  end.

Definition toString_QoS `{Config} {S} (val : Z) : M S string := table_toString
  ["QoS0 - At Most Once Delivery"; "QoS1 - At Least Once Delivery";
   "QoS2 - Exactly Once Delivery"] val.

Definition toString_ErrorCode `{Config} {S} (val : Z) : M S string := table_toString
  ["Success"; "Internal Error"; "Not Intitialized"; "Busy"; "Not Connected";
   "Already Connected"; "Bad Param"; "Insufficient Config"; "Out Of Memory";
   "Buffer Overflow"; "Not Supported"; "Retry Later"; "Disconnecting";
   "Network Disconnected"; "Preparation Locked"] val.

Definition toString_AsyncOpStatus `{Config} {S} (val : Z) : M S string := table_toString
  ["Complete"; "Internal Error"; "Timeout"; "Protocol Error"; "Aborted";
   "Broker Disconnected"; "Out Of Memory"; "Bad Param"] val.

Definition toString_ConnectReturnCode `{Config} {S} (val : Z) : M S string := table_toString
  ["Accepted"; "Invalid ProtocolVersion"; "Id Rejected"; "Server Unavailable"; "Bad Auth";
   "Not Authorized"] val.

(** A [std::map] instead of a table. *)
Definition toString_SubscribeReturnCode `{Config} {S} (val : Z) : M S string :=
  let Map := [(0%Z, "Success - Qos0"); (1%Z, "Success - Qos1"); (2%Z, "Success - Qos2");
              (128%Z, "Failure")] in
  match snd <$> list_find (λ p, p.1 = val) Map with
  | Some (_, name) => mret (name +:+ " (" +:+ pretty val +:+ ")")
  | None => comms_assert false ;; mret (pretty val)
  end.

(** [std::isprint] in the C locale. *)
Definition isprint (b : byte) : bool :=
  let n := Byte.to_N b in (32 <=? n)%N && (n <=? 126)%N.

Definition hex_char (n : N) : ascii :=
  ascii_of_N (if (n <? 10)%N then 48 + n else 87 + n)%N.

(** Two digits, filled with zeros. *)
Definition hex_byte (b : byte) : string :=
  String (hex_char (Byte.to_N b / 16)) (String (hex_char (Byte.to_N b mod 16)) "").

Definition toString_data (data : bytes) (forceBinary : bool) : string :=
  let binary := forceBinary ||
    existsb (λ b, negb (isprint b) || (126 <? Byte.to_N b)%N) data in
  if negb binary then String.string_of_list_byte data
  else foldr (λ b s, hex_byte b +:+ String " "%char s) "" data.

(** *** The lines printed *)

Definition printQos `{Config} {S} (prefix : string) (val : Z) : M S string :=
  text ← toString_QoS val; mret (prefix +:+ ": " +:+ text).

Definition printBool (prefix : string) (val : bool) : string :=
  prefix +:+ ": " +:+ (if val then "true" else "false").

Definition printConnectReturnCode `{Config} {S} (val : Z) : M S string :=
  text ← toString_ConnectReturnCode val; mret ("Return Code: " +:+ text).

Definition printSubscribeReturnCode `{Config} {S} (val : Z) : M S string :=
  text ← toString_SubscribeReturnCode val; mret ("Return Code: " +:+ text).

Definition print_messageInfo `{Config} {S} (subBinary : bool) (info : CC_Mqtt311MessageInfo)
    (printMessage : bool) : M S (list string) :=
  let message := if printMessage then
    ["Topic: " +:+ mi_topic info; "Data: " +:+ toString_data (mi_data info) subBinary] else [] in
  qos ← printQos "QoS" (mi_qos info);
  mret (["[INFO]: Message Info:"] ++ message ++ [qos; printBool "Retained" (mi_retained info)]).

Definition print_connectResponse `{Config} {S} (response : CC_Mqtt311ConnectResponse)
    : M S (list string) :=
  code ← printConnectReturnCode (cr_returnCode response);
  mret ["[INFO]: Connection Response:"; code;
        printBool "Session Present" (cr_sessionPresent response)].

Fixpoint print_returnCodes `{Config} {S} (codes : list Z) : M S (list string) :=
  match codes with
  | [] => mret []
  | code :: codes' =>
      line ← printSubscribeReturnCode code;
      lines ← print_returnCodes codes';
      mret (line :: lines)
  end.

Definition print_subscribeResponse `{Config} {S} (codes : list Z) : M S (list string) :=
  lines ← print_returnCodes codes; mret ("[INFO]: Subscribe Response:" :: lines).

(** ** The applications *)

Definition act (a : AppAction) : M ClientImpl unit := modify (log (EvApp a)).

(** [m_result = result; m_io.stop();] *)
Definition doTerminate (result : Z) : M ClientImpl unit := act (Act_Stop result).
Definition doTerminate_default : M ClientImpl unit := doTerminate 1.

Section AppClient.
  Context `{Config} `{CommsLib} `{App} (opts : App.ProgramOptions).

Abbreviation CM := (M ClientImpl).

Definition succeeded (ec : CC_Mqtt311ErrorCode) : bool := bool_decide (ec = ErrorCode_Success).

(** A getter of the options, which may throw. *)
Definition opt {A} (v : option A) : CM A :=
  match v with Some x => mret x | None => throw FThrow end.

(** The callbacks that the constructor sets. *)
Definition AppClient_new : CM unit := api_set_callbacks true Callbacks_all.

Definition sendConnect (connect : addr) : CM bool :=
  ec ← api_connect_send (Some connect) (Some connect);
  mret (succeeded ec).

(** [c_str()] of an argument that is not empty; null otherwise. *)
Definition c_str_or_null (s : string) : option string :=
  if bool_decide (s = "") then None else Some (c_str s).

(** The address of a vector that is not empty; null otherwise. *)
Definition data_or_null (data : bytes) : option bytes :=
  match data with [] => None | _ => Some data end.

(** The two configurations that [startImpl] builds. *)
Definition startImpl_config (clientId username : string) (password : bytes) (keepAlive : Z)
    : CC_Mqtt311ConnectConfig := {|
  cc_clientId := c_str_or_null clientId;
  cc_username := c_str_or_null username;
  cc_password := data_or_null password;
  cc_passwordLen := length password;
  cc_keepAlive := keepAlive;
  cc_cleanSession := true |}.

Definition startImpl_will (willTopic : string) (willData : bytes) (willQos : Z) (willRetain : bool)
    : CC_Mqtt311ConnectWillConfig := {|
  cw_topic := Some (c_str willTopic);
  cw_data := data_or_null willData;
  cw_dataLen := length willData;
  cw_qos := willQos;
  cw_retain := willRetain |}.

Definition startImpl : CM bool :=
  p ← api_connect_prepare true;
  match p : Prepared with
  | (None, _) => mret false
  | (Some connect, _) =>
      clientId ← opt (App.clientId opts);
      username ← opt (App.username opts);
      passwordArg ← opt (App.password opts);
      keepAlive ← opt (App.keepAlive opts);
      let password := parseBinaryData passwordArg in
      ec ← api_connect_config (Some connect)
        (Some (startImpl_config clientId username password keepAlive));
      if negb (succeeded ec) then mret false
      else
        willTopic ← opt (App.willTopic opts);
        if bool_decide (willTopic = "") then sendConnect connect
        else
          willMessage ← opt (App.willMessage opts);
          willQos ← opt (App.willQos opts);
          ec ← api_connect_config_will (Some connect)
            (Some (startImpl_will willTopic (parseBinaryData willMessage) willQos
              (App.willRetain opts)));
          if negb (succeeded ec) then mret false else sendConnect connect
  end.

(** The last step posts [doTerminate(0)] to the event loop. *)
Definition doComplete : CM unit :=
  willTopic ← opt (App.willTopic opts);
  disconnected ←
    (if bool_decide (willTopic = "") then ec ← api_disconnect true; mret (succeeded ec)
     else mret true);
  if negb disconnected then doTerminate_default else act (Act_Post 0).

Definition brokerDisconnectedImpl : CM unit := doTerminate_default.

(** *** Pub *)

Definition Pub_config (topic : string) (data : bytes) (qos : Z) (retain : bool)
    : CC_Mqtt311PublishConfig := {|
  pc_topic := Some (c_str topic);
  pc_data := data_or_null data;
  pc_dataLen := length data;
  pc_qos := qos;
  pc_retain := retain |}.

Definition Pub_brokerConnectedImpl : CM unit :=
  topic ← opt (App.pubTopic opts);
  message ← opt (App.pubMessage opts);
  qos ← opt (App.pubQos opts);
  retain ← opt (App.pubRetain opts);
  ec ← api_publish true (Some (Pub_config topic (parseBinaryData message) qos retain)) (Some 0);
  when (negb (succeeded ec)) doTerminate_default.

Definition Pub_publishCompleteInternal (status : CC_Mqtt311AsyncOpStatus) : CM unit :=
  if negb (bool_decide (status = AsyncOpStatus_Complete)) then doTerminate_default
  else doTerminate 0.

(** *** Sub *)

(** The loop over the topics, with the QoS values that are left for them. *)
Fixpoint Sub_configTopics (subscribe : addr) (topics : list string) (qoses : list Z)
    : CM CC_Mqtt311ErrorCode :=
  match topics with
  | [] => mret ErrorCode_Success
  | topic :: topics' =>
      let maxQos := match qoses with
                    | qos :: _ => qos
                    | [] => st_maxQos client_subscribe_init_config_topic
                    end in
      ec ← api_subscribe_config_topic (Some subscribe)
        (Some {| st_topic := Some (c_str topic); st_maxQos := maxQos |});
      if negb (succeeded ec) then mret ec else Sub_configTopics subscribe topics' (tail qoses)
  end.

Definition Sub_brokerConnectedImpl : CM unit :=
  topics ← opt (App.subTopics opts);
  qoses ← opt (App.subQoses opts);
  p ← api_subscribe_prepare true;
  match p : Prepared with
  | (None, _) => doTerminate_default
  | (Some subscribe, _) =>
      ec ← Sub_configTopics subscribe topics qoses;
      if negb (succeeded ec) then doTerminate_default
      else
        ec ← api_subscribe_send (Some subscribe) (Some 0);
        when (negb (succeeded ec)) doTerminate_default
  end.

(** The lines that show a message. *)
Definition Sub_messageReceivedImpl (info : CC_Mqtt311MessageInfo) : CM (list string) :=
  if mi_retained info && App.subNoRetained opts then mret []
  else if App.verbose opts then print_messageInfo (App.subBinary opts) info true
  else mret [mi_topic info +:+ ": " +:+ toString_data (mi_data info) (App.subBinary opts)].

(** The loop over the codes from [idx] on: the topics that the broker refused, with
    the text of the code. *)
Fixpoint Sub_reportFailures (codes : list Z) (idx : nat) : CM (list (string * string)) :=
  match codes with
  | [] => mret []
  | returnCode :: codes' =>
      if negb (SubscribeReturnCode_SuccessQos2 <? returnCode)%Z then Sub_reportFailures codes' (S idx)
      else
        topics ← opt (App.subTopics opts);
        comms_assert (idx <? length topics) ;;
        match topics !! idx with
        | None => throw FRange
        | Some topic =>
            text ← toString_SubscribeReturnCode returnCode;
            rest ← Sub_reportFailures codes' (S idx);
            mret ((topic, text) :: rest)
        end
  end.

(** After a success the program listens to the messages; the result is what it prints. *)
Definition Sub_subscribeCompleteInternal (status : CC_Mqtt311AsyncOpStatus)
    (returnCodes : option (list Z)) : CM (list (string * string)) :=
  if negb (bool_decide (status = AsyncOpStatus_Complete)) then doTerminate_default ;; mret []
  else
    comms_assert (bool_decide (is_Some returnCodes)) ;;
    match returnCodes with
    | None => throw FNull
    | Some codes =>
        failures ← Sub_reportFailures codes 0;
        when (App.verbose opts) (_ ← print_subscribeResponse codes; mret tt) ;;
        mret failures
    end.

(** *** The end of the connect operation *)

Definition connectCompleteImpl (brokerConnectedImpl : CM unit)
    (status : CC_Mqtt311AsyncOpStatus) (response : option CC_Mqtt311ConnectResponse)
    : CM unit :=
  if negb (bool_decide (status = AsyncOpStatus_Complete)) then doTerminate_default
  else
    comms_assert (bool_decide (is_Some response)) ;;
    match response with
    | None => throw FNull
    | Some r =>
        when (App.verbose opts) (_ ← print_connectResponse r; mret tt) ;;
        if (ConnectReturnCode_Accepted <? cr_returnCode r)%Z then doTerminate_default
        else brokerConnectedImpl
    end.

End AppClient.

#[export] Instance byte_eq_decision : EqDecision byte := Byte.byte_eq_dec.

(** A text for some bytes: a backslash is doubled, and the bytes that [hex] selects
    are written as two digits after [\x]. *)
Definition escape_byte (hex : byte → bool) (b : byte) : string :=
  if hex b then String Backslash (String "x" (hex_byte b))
  else if bool_decide (b = x5c) then String Backslash (String Backslash "")
  else String (ascii_of_byte b) "".

Fixpoint escape (hex : byte → bool) (data : bytes) : string :=
  match data with
  | [] => ""
  | b :: data' => escape_byte hex b +:+ escape hex data'
  end.

Lemma stoul16_hex_byte b : byte_of_Z (default 0%Z (stoul16 (hex_byte b))) = b ∧
  is_Some (stoul16 (hex_byte b)).
Proof. destruct b; (split; [vm_compute; reflexivity | by eexists]). Qed.

Lemma hex_byte_chars b : ∃ c1 c2, hex_byte b = String c1 (String c2 "").
Proof. unfold hex_byte. eauto. Qed.

Lemma byte_ascii b : byte_of_ascii (ascii_of_byte b) = b.
Proof. by destruct b. Qed.

Lemma ascii_backslash b : bool_decide (ascii_of_byte b = Backslash) = bool_decide (b = x5c).
Proof. by destruct b. Qed.

Lemma parse_char c s : c ≠ Backslash →
  parseBinaryData (String c s) = byte_of_ascii c :: parseBinaryData s.
Proof. intros Hc. cbn [parseBinaryData]. by rewrite bool_decide_eq_false_2. Qed.

Lemma parse_backslash s :
  parseBinaryData (String Backslash (String Backslash s)) = x5c :: parseBinaryData s.
Proof. cbn [parseBinaryData]. by rewrite !bool_decide_eq_true_2. Qed.

Lemma parse_hex b s :
  parseBinaryData (String Backslash (String "x" (hex_byte b +:+ s))) = b :: parseBinaryData s.
Proof.
  destruct (hex_byte_chars b) as (c1 & c2 & Hb). destruct (stoul16_hex_byte b) as [Hv [n Hn]].
  rewrite Hn in Hv. rewrite Hb in Hn |- *. change (String c1 (String c2 "") +:+ s) with
    (String c1 (String c2 s)). cbn [parseBinaryData].
  rewrite bool_decide_eq_true_2, (bool_decide_eq_false_2 ("x"%char = Backslash)),
    (bool_decide_eq_true_2 ("x"%char = "x"%char)) by done. cbn [negb].
  rewrite Hn. by rewrite <- Hv.
Qed.

(** C36: a text in which backslashes are doubled and any of the bytes
    are written in hexadecimal after a backslash and an x stands in an argument for
    exactly these bytes: every sequence of bytes can be given to the applications. *)
Theorem parseBinaryData_escape (hex : byte → bool) (data : bytes) :
  parseBinaryData (escape hex data) = data.
Proof.
  induction data as [|b data IH]; [done|]. cbn [escape]. unfold escape_byte.
  destruct (hex b); [etrans; [apply (parse_hex b (escape hex data))|]; by rewrite IH|].
  destruct (decide (b = x5c)) as [->|Hb].
  - rewrite bool_decide_eq_true_2 by done. etrans; [apply (parse_backslash (escape hex data))|]. by rewrite IH.
  - rewrite bool_decide_eq_false_2 by done.
    etrans; [apply (parse_char (ascii_of_byte b) (escape hex data))|].
    + intros Hbs. pose proof (ascii_backslash b) as Hd. rewrite bool_decide_eq_true_2 in Hd by done.
      by rewrite bool_decide_eq_false_2 in Hd.
    + by rewrite byte_ascii, IH.
Qed.

(** Two digits are not what [stoul] requires: it takes a sign, and ignores what
    follows the first digit. *)
Example parseBinaryData_sign : parseBinaryData (String Backslash "x-1") = [xff].
Proof. reflexivity. Qed.

Example parseBinaryData_one_digit : parseBinaryData (String Backslash "x1g") = [x01].
Proof. reflexivity. Qed.
