(* ===== verification/AppProgram.v ===== *)
(** * The programs

    [mqtt311_client_pub] and [mqtt311_client_sub] as a whole: [main]
    (client/app/pub/main.cpp, client/app/sub/main.cpp), the start of [AppClient], its
    callbacks, its timer (client/app/common/AppClient.cpp) and the event loop.

    The members of the application change in callbacks of the client.  They are a
    function of the members at the call and of the events since then, [absorb], and an
    application sees them as such.  [Io] are the events of the loop; what boost does
    with them (the state of the timer, the order of the handlers) is documented by
    boost: a wait that has expired cannot be cancelled any more. *)

From S2P Require Import Prelude SortedVec Config Protocol Topic PacketId TimerMgr State.
From S2P Require Import Lifecycle Completion Session SendOp RecvOp SubscribeOp ConnectOp.
From S2P Require Import Client Invariant Objects Termination Frame Ownership Preservation.
From S2P Require Import Scenarios Requests Ticking Api Options AppSession AppClient.

(** ** The members *)

(** [m_result], the flag of [m_io] and the handlers posted to it; [m_timer] with the
    time at which it expires and the duration that its handler has captured, and the
    durations of the waits that have expired, whose handlers are in the queue;
    [m_lastWaitProgram], and the clock; the session. *)
Record AppMembers := MkAppMembers {
  m_result : Z;
  io_stopped : bool;
  io_posted : list Z;
  m_timer : option (Z * Z);
  g_expired : list Z;
  m_lastWaitProgram : Z;
  g_now : Z;
  m_session : option (SessionKind * NetSession);
}.

Definition AppMembers_new : AppMembers := MkAppMembers 0 false [] None [] 0 0 None.

Definition am_stop (a : AppMembers) : AppMembers :=
  MkAppMembers (m_result a) true (io_posted a) (m_timer a) (g_expired a) (m_lastWaitProgram a)
    (g_now a) (m_session a).
Definition am_set_result (r : Z) (a : AppMembers) : AppMembers :=
  MkAppMembers r (io_stopped a) (io_posted a) (m_timer a) (g_expired a) (m_lastWaitProgram a)
    (g_now a) (m_session a).
Definition am_set_posted (l : list Z) (a : AppMembers) : AppMembers :=
  MkAppMembers (m_result a) (io_stopped a) l (m_timer a) (g_expired a) (m_lastWaitProgram a)
    (g_now a) (m_session a).
Definition am_set_timer (t : option (Z * Z)) (a : AppMembers) : AppMembers :=
  MkAppMembers (m_result a) (io_stopped a) (io_posted a) t (g_expired a) (m_lastWaitProgram a)
    (g_now a) (m_session a).
Definition am_set_expired (l : list Z) (a : AppMembers) : AppMembers :=
  MkAppMembers (m_result a) (io_stopped a) (io_posted a) (m_timer a) l (m_lastWaitProgram a)
    (g_now a) (m_session a).
Definition am_set_lastWaitProgram (t : Z) (a : AppMembers) : AppMembers :=
  MkAppMembers (m_result a) (io_stopped a) (io_posted a) (m_timer a) (g_expired a) t
    (g_now a) (m_session a).
Definition am_set_now (t : Z) (a : AppMembers) : AppMembers :=
  MkAppMembers (m_result a) (io_stopped a) (io_posted a) (m_timer a) (g_expired a)
    (m_lastWaitProgram a) t (m_session a).
Definition am_set_session (s : option (SessionKind * NetSession)) (a : AppMembers) : AppMembers :=
  MkAppMembers (m_result a) (io_stopped a) (io_posted a) (m_timer a) (g_expired a)
    (m_lastWaitProgram a) (g_now a) s.

(** *** The timer *)

(** [expires_after] cancels the wait that is pending; [async_wait] starts the new one. *)
Definition nextTickProgramInternal (duration : Z) (a : AppMembers) : AppMembers :=
  am_set_timer (Some ((g_now a + duration)%Z, duration))
    (am_set_lastWaitProgram (g_now a) a).

(** The wait is cancelled; the result is the time since it has been programmed. *)
Definition cancelNextTickWaitInternal (a : AppMembers) : AppMembers * Z :=
  (am_set_timer None a, u32 (g_now a - m_lastWaitProgram a)).

(** *** What the callbacks do to the members *)

Definition session_down (s : SessionKind * NetSession) : SessionKind * NetSession :=
  (s.1, sn_set_networkDisconnected true s.2).

Definition on_event (a : AppMembers) (e : Event) : AppMembers :=
  match e with
  | EvNextTickProgram duration => nextTickProgramInternal duration a
  | EvCancelNextTickWait => (cancelNextTickWaitInternal a).1
  | EvApp (Act_Stop result) => am_stop (am_set_result result a)
  | EvApp (Act_Post result) => am_set_posted (io_posted a ++ [result]) a
  | EvApp Act_NetworkDown => am_set_session (session_down <$> m_session a) a
  | _ => a
  end.

Definition absorb (a : AppMembers) (evs : list Event) : AppMembers := foldl on_event a evs.

(** ** The callbacks *)

Section callbacks.
  Context `{Config} `{CommsLib} `{App}.
  (** The members, and what a write to the network yields, when the trace is the list. *)
  Context (members : list Event → AppMembers) (write : list Event → bytes → IoStatus * nat).
  Context (opts : App.ProgramOptions).

(** The second lambda of [createSession]; the session has set its flag before. *)
Definition networkDisconnectedReport : M ClientImpl unit :=
  act Act_NetworkDown ;;
  api_notify_network_disconnected true ;;
  doTerminate_default.

(** A function of the session, from a callback of the client. *)
Definition sendDataInternal (buf : bytes) : M ClientImpl unit := λ s,
  match m_session (members (g_trace s)) with
  | None => (comms_assert false ;; throw FNull) s
  | Some (kind, ses) =>
      let sendDataImpl := match kind with
                          | KindTcp => TcpSession_sendDataImpl networkDisconnectedReport
                          | KindTls => TlsSession_sendDataImpl networkDisconnectedReport
                          end in
      match sendDataImpl buf (write (g_trace s) buf) (ses, s) with
      | Ok _ (_, s') => Ok tt s'
      | Fault f => Fault f
      end
  end.

Definition Pub_react (e : Event) : M ClientImpl unit :=
  match e with
  | EvSendOutputData _ buf => sendDataInternal buf
  | EvConnectComplete _ _ status response =>
      connectCompleteImpl opts (Pub_brokerConnectedImpl opts) status response
  | EvPublishComplete _ _ status => Pub_publishCompleteInternal status
  | EvBrokerDisconnectReport _ => brokerDisconnectedImpl
  | _ => mret tt
  end.

Definition Sub_react (e : Event) : M ClientImpl unit :=
  match e with
  | EvSendOutputData _ buf => sendDataInternal buf
  | EvConnectComplete _ _ status response =>
      connectCompleteImpl opts (Sub_brokerConnectedImpl opts) status response
  | EvSubscribeComplete _ _ status returnCodes =>
      _ ← Sub_subscribeCompleteInternal opts status returnCodes; mret tt
  | EvMessageReceived info => _ ← Sub_messageReceivedImpl opts info; mret tt
  | EvBrokerDisconnectReport _ => brokerDisconnectedImpl
  | _ => mret tt
  end.
End callbacks.


(** The two programs: the override of the constructor and the callbacks. *)
Inductive Program := Pub | Sub.

Definition add_options (k : Program) (has_openssl : bool) : M App.ProgramOptions unit :=
  match k with Pub => App.Pub_options has_openssl | Sub => App.Sub_options has_openssl end.

(** ** The application at a call of the client *)

Section application.
  Context `{Config} `{CommsLib} (k : Program) (opts : App.ProgramOptions).
  Context (write : list Event → bytes → IoStatus * nat).

Section call.
  Context (a : AppMembers) (n : nat) (resume_bound : nat).

(** The members, after the [n] events before the call. *)
Definition members_at (tr : list Event) : AppMembers := absorb a (drop n tr).

(** The callbacks nest to a depth, at which the model stops. *)
Fixpoint application (depth : nat) : App := {|
  app_react := λ e,
    match depth with
    | O => throw FFuel
    | S depth' =>
        let app := application depth' in
        match k with
        | Pub => Pub_react (H1 := app) members_at write opts e
        | Sub => Sub_react (H1 := app) members_at write opts e
        end
    end;
  app_elapsed := λ tr, (cancelNextTickWaitInternal (members_at tr)).2;
  app_fuel := resume_bound;
|}.
End call.

(** ** The state of a program *)

Record ProgramState := MkProgramState { p_client : ClientImpl; p_app : AppMembers }.
Abbreviation PM := (M ProgramState).

Context (depth resume_bound : nat).

(** What the callbacks see during a call from the state [p]. *)
Definition app_in (p : ProgramState) : App :=
  application (p_app p) (length (g_trace (p_client p))) resume_bound depth.

(** The members after the call, which the client leaves in [s]. *)
Definition app_after (p : ProgramState) (s : ClientImpl) : AppMembers :=
  members_at (p_app p) (length (g_trace (p_client p))) (g_trace s).

Definition call {A} (m : App → M ClientImpl A) : PM A := λ p,
  match m (app_in p) (p_client p) with
  | Ok x s => Ok x (MkProgramState s (app_after p s))
  | Fault f => Fault f
  end.

Definition on_app (f : AppMembers → AppMembers) : PM unit :=
  modify (λ p, MkProgramState (p_client p) (f (p_app p))).

(** A function of the session, whose callbacks may call the client; the flag of the
    session may also be set by a write that failed in a callback. *)
Definition on_session {A} (m : App → SessionKind → M (NetSession * ClientImpl) A) : PM A := λ p,
  match m_session (p_app p) with
  | None => Fault FNull
  | Some (kind, ses) =>
      match m (app_in p) kind (ses, p_client p) with
      | Ok x (ses', s) =>
          let a := app_after p s in
          let down := match m_session a with Some (_, x) => sn_networkDisconnected x | None => false end in
          Ok x (MkProgramState s (am_set_session
            (Some (kind, sn_set_networkDisconnected (sn_networkDisconnected ses' || down) ses')) a))
      | Fault f => Fault f
      end
  end.

(** ** The start *)

Context `{Asio} (has_openssl : bool).

Definition createSession : PM bool :=
  match Session_create has_openssl opts with
  | None => mret false
  | Some kind =>
      on_app (am_set_session (Some (kind, sn_set_callbacks true NetSession_new))) ;;
      on_session (λ app kind, match kind with
                            | KindTcp => TcpSession_startImpl opts
                            | KindTls => TlsSession_startImpl has_openssl opts
                            end)
  end.

(** [start], once [parseArgs] has returned [parsed]. *)
Definition AppClient_start (parsed : bool) : PM bool :=
  if negb parsed then mret false
  else if App.helpRequested opts then on_app am_stop ;; mret true
  else
    created ← createSession;
    if negb created then mret false else call (λ app, startImpl opts).

(** ** The event loop *)

(** The time passes; the wait of the timer expires, ends with an error; the handler of a
    wait that has expired runs, or of one that was cancelled; a read ends; a signal
    arrives; a handler that was posted runs. *)
Inductive Io :=
  | IoTime (ms : Z)
  | IoExpire
  | IoTimerError
  | IoTimer
  | IoTimerAborted
  | IoRead (ec : IoStatus) (data : bytes)
  | IoSignal (ec : IoStatus)
  | IoPosted.

(** The handler of [async_wait], with the duration that it has captured. *)
Definition timer_handler (ec : IoStatus) (duration : Z) : PM unit :=
  match ec with
  | IO_Aborted => mret tt
  | IO_Error => call (λ app, doTerminate_default)
  | IO_Success => call (λ app, api_tick true duration)
  end.

(** The handler of the signals of [main]. *)
Definition signal_handler (ec : IoStatus) : PM unit :=
  match ec with
  | IO_Aborted => mret tt
  | IO_Error => on_app (am_set_result 150) ;; on_app am_stop
  | IO_Success => on_app (am_set_result 100) ;; on_app am_stop
  end.

(** The lambdas of [createSession]. *)
Definition read_handler (ec : IoStatus) (data : bytes) : PM unit :=
  on_session (λ app kind,
    match kind with
    | KindTcp => TcpSession_handleRead (api_process_data true) networkDisconnectedReport ec data
    | KindTls => TlsSession_handleRead (api_process_data true) networkDisconnectedReport ec data
    end).

Definition io_step (io : Io) : PM unit :=
  a ← gets p_app;
  match io with
  | IoTime ms => when (0 <=? ms)%Z (on_app (am_set_now (g_now a + ms)))
  | IoExpire =>
      match m_timer a with
      | Some (expiry, duration) =>
          when (expiry <=? g_now a)%Z
            (on_app (λ a, am_set_timer None (am_set_expired (g_expired a ++ [duration]) a)))
      | None => mret tt
      end
  | IoTimerError =>
      match m_timer a with
      | Some (_, duration) => on_app (am_set_timer None) ;; timer_handler IO_Error duration
      | None => mret tt
      end
  | IoTimer =>
      match g_expired a with
      | duration :: rest => on_app (am_set_expired rest) ;; timer_handler IO_Success duration
      | [] => mret tt
      end
  | IoTimerAborted => timer_handler IO_Aborted 0
  | IoRead ec data =>
      match m_session a with
      | Some (_, ses) => when (sn_reading ses) (read_handler ec data)
      | None => mret tt
      end
  | IoSignal ec => signal_handler ec
  | IoPosted =>
      match io_posted a with
      | result :: rest => on_app (am_set_posted rest) ;; call (λ app, doTerminate result)
      | [] => mret tt
      end
  end.

(** [io.run()]: handlers run until the loop is stopped. *)
Fixpoint io_run (ios : list Io) : PM unit :=
  match ios with
  | [] => mret tt
  | io :: ios' =>
      a ← gets p_app;
      if io_stopped a then mret tt else io_step io ;; io_run ios'
  end.

End application.

(** ** [main] *)

Section main.
  Context `{Config} `{CommsLib} `{Parser} `{Asio} (k : Program) (has_openssl : bool).
  Context (write : list Event → bytes → IoStatus * nat) (depth resume_bound : nat).

(** The client with the callbacks that the constructor has set. *)
Definition constructed_client : ProgramState :=
  MkProgramState
    match AppClient_new ClientImpl_new with
    | Ok _ s => s
    | Fault _ => ClientImpl_new
    end AppMembers_new.

(** The start, and the loop if it has succeeded. *)
Definition run_program (args : list string) (ios : list Io) : result ProgramState bool :=
  match (add_options k has_openssl ;; App.parseArgs args) App.ProgramOptions_new with
  | Fault f => Fault f
  | Ok parsed opts =>
      (started ← AppClient_start k opts write depth resume_bound has_openssl parsed;
       when started (io_run k opts write depth resume_bound ios) ;;
       mret started) constructed_client
  end.
End main.

(** What the process returns, if it ends: an exception is caught, and a program that has
    not started returns -1. *)
Definition exit_status (r : result ProgramState bool) : option Z :=
  match r with
  | Ok true p => if io_stopped (p_app p) then Some (m_result (p_app p)) else None
  | Ok false _ => Some (-1)%Z
  | Fault FThrow => Some 200%Z
  | Fault _ => None
  end.
