(* ===== verification/Reactions.v ===== *)
(** * What the programs keep

    The callbacks of the programs (client/app/pub/Pub.cpp, client/app/sub/Sub.cpp,
    client/app/common/AppClient.cpp) keep what the requests of the library keep, and what
    the notes of the applications do not break. *)

From S2P Require Import Prelude SortedVec Config Protocol Topic PacketId TimerMgr State.
From S2P Require Import Lifecycle Completion Session SendOp RecvOp SubscribeOp ConnectOp.
From S2P Require Import Client Invariant Objects Termination Frame Ownership Preservation.
From S2P Require Import Scenarios Requests Ticking Api Options AppSession AppClient AppProgram.

(** ** One callback *)

Section reactions.
  Context `{Config} `{CommsLib} `{App} (C : Contract ClientImpl).
Abbreviation rkeeps := (keeps (Contract0 := C)).
  Context (Hf : ∀ f, ct_faults (Contract := C) f).
  Context (Hreq : ∀ r, rkeeps (run_request r)).
  Context (Hdown : rkeeps (act Act_NetworkDown)) (Hstop : rkeeps (act (Act_Stop 1))).

Lemma rkeeps_throw {A} f : rkeeps (throw (A := A) f).
Proof. by apply keeps_throw. Qed.

Lemma rkeeps_assert b : rkeeps (comms_assert b).
Proof. by apply keeps_comms_assert. Qed.

Lemma rkeeps_by {A} (m : M ClientImpl A) : by_requests m → rkeeps m.
Proof. by apply keeps_by_requests. Qed.

Lemma rkeeps_opt {A} (v : option A) : rkeeps (opt v).
Proof. destruct v; [apply keeps_ret | apply rkeeps_throw]. Qed.

Lemma rkeeps_toString :
  (∀ l v, rkeeps (table_toString l v)) ∧ (∀ v, rkeeps (toString_SubscribeReturnCode v)).
Proof.
  unfold table_toString, toString_SubscribeReturnCode. split; intros; cbv zeta;
    repeat first [apply rkeeps_assert | keeps_step].
Qed.

Ltac rkeeps_auto :=
  repeat first [ exact Hstop | exact Hdown | apply rkeeps_opt | apply rkeeps_assert
    | apply rkeeps_throw | apply rkeeps_toString
    | solve [apply rkeeps_by, by_application_calls] | keeps_step ].

Lemma rkeeps_networkDisconnectedReport : rkeeps networkDisconnectedReport.
Proof. unfold networkDisconnectedReport. rkeeps_auto. Qed.

(** The session keeps it on the side of the client. *)
Definition session_contract : Contract (NetSession * ClientImpl) := {|
  ct_inv := λ s, ct_inv s.2;
  ct_rel := λ s s', ct_rel s.2 s'.2;
  ct_faults := any_fault;
  ct_pre := ltac:(split; [intros s; reflexivity | intros s1 s2 s3; apply transitivity]);
|}.
Abbreviation skeeps := (keeps (Contract0 := session_contract)).

Lemma skeeps_owner {A} (m : M ClientImpl A) : rkeeps m → skeeps (owner m).
Proof.
  intros Hm [ses s] Hs. apply wp_zoom. eapply wp_faults; [|done].
  eapply wp_mono; [by apply Hm|]. done.
Qed.

Lemma skeeps_own f : skeeps (own f).
Proof. apply keeps_modify. intros [ses s] Hs. split; [done | simpl; reflexivity]. Qed.

Ltac skeeps_auto :=
  repeat first [ apply skeeps_own | by apply keeps_comms_assert | by apply keeps_throw | keeps_step ].

Lemma skeeps_reportNetworkDisconnected cb : rkeeps cb → skeeps (reportNetworkDisconnected cb).
Proof.
  intros Hcb. unfold reportNetworkDisconnected. skeeps_auto. by apply skeeps_owner.
Qed.

Lemma skeeps_sendDataImpl cb buf r : rkeeps cb → skeeps (TcpSession_sendDataImpl cb buf r).
Proof.
  intros Hcb. unfold TcpSession_sendDataImpl. skeeps_auto;
    by apply skeeps_reportNetworkDisconnected.
Qed.

Lemma skeeps_handleRead cb cb' ec data :
  (∀ buf, rkeeps (cb buf)) → rkeeps cb' → skeeps (TcpSession_handleRead cb cb' ec data).
Proof.
  intros Hcb Hcb'. unfold TcpSession_handleRead, TcpSession_doRead, reportData. cbv zeta. skeeps_auto;
    first [by apply skeeps_reportNetworkDisconnected | by apply skeeps_owner].
Qed.

(** The start of a session leaves the client alone. *)
Lemma skeeps_startImpl `{Asio} has_openssl opts (kind : SessionKind) :
  skeeps match kind with
         | KindTcp => TcpSession_startImpl opts
         | KindTls => TlsSession_startImpl has_openssl opts
         end.
Proof.
  assert (∀ A (v : option A), skeeps (option_value v)) as Hov.
  { intros A [|]; [apply keeps_ret | by apply keeps_throw]. }
  unfold TcpSession_startImpl, TlsSession_startImpl, configureSslContext, configureSslCaCert,
    configureSslKey, configureSslCert, with_ctx, assert_ctx, TcpSession_doRead, TlsSession_doRead.
  destruct kind; repeat first [ apply Hov | apply skeeps_own | by apply keeps_comms_assert
    | by apply keeps_throw | keeps_step ].
Qed.

Lemma rkeeps_startImpl opts : rkeeps (startImpl opts).
Proof. unfold startImpl, sendConnect. rkeeps_auto. Qed.

Lemma rkeeps_sendDataInternal members write buf : rkeeps (sendDataInternal members write buf).
Proof.
  intros s Hs. unfold sendDataInternal, wp.
  destruct (m_session _) as [[kind ses]|].
  - pose proof (skeeps_sendDataImpl networkDisconnectedReport buf (write (g_trace s) buf)
      rkeeps_networkDisconnectedReport (ses, s) Hs) as Hk.
    change (TlsSession_sendDataImpl networkDisconnectedReport) with
      (TcpSession_sendDataImpl (C := ClientImpl) networkDisconnectedReport).
    assert ((match kind with KindTcp | KindTls => TcpSession_sendDataImpl (C := ClientImpl)
      networkDisconnectedReport end) = TcpSession_sendDataImpl networkDisconnectedReport) as ->
      by by destruct kind.
    unfold wp in Hk. by destruct (TcpSession_sendDataImpl _ _ _ _) as [? [? ?]|].
  - assert (rkeeps (comms_assert false ;; throw (A := unit) FNull)) as Hk by rkeeps_auto. by apply Hk.
Qed.

Lemma rkeeps_prints opts :
  (∀ r, rkeeps (print_connectResponse r)) ∧ (∀ codes, rkeeps (print_subscribeResponse codes)) ∧
  (∀ info, rkeeps (Sub_messageReceivedImpl opts info)) ∧
  (∀ codes idx, rkeeps (Sub_reportFailures opts codes idx)).
Proof.
  assert (∀ codes, rkeeps (print_returnCodes codes)) as Hcodes.
  { intros codes. induction codes; simpl; unfold printSubscribeReturnCode; rkeeps_auto; done. }
  unfold print_connectResponse, print_subscribeResponse, Sub_messageReceivedImpl,
    print_messageInfo, printQos, printConnectReturnCode, toString_QoS, toString_ConnectReturnCode.
  split_and!; intros; cbv zeta; rkeeps_auto; try apply Hcodes.
  revert idx. induction codes; intros idx; simpl; rkeeps_auto; auto.
Qed.

Lemma rkeeps_brokerConnected opts :
  rkeeps (Pub_brokerConnectedImpl opts) ∧ rkeeps (Sub_brokerConnectedImpl opts).
Proof.
  assert (∀ a topics qoses, rkeeps (Sub_configTopics a topics qoses)) as Hcfg.
  { intros a topics. induction topics; intros qoses; cbn [Sub_configTopics]; cbv zeta; rkeeps_auto; auto. }
  unfold Pub_brokerConnectedImpl, Sub_brokerConnectedImpl. split; rkeeps_auto. apply Hcfg.
Qed.

Lemma rkeeps_connectComplete opts m st r :
  rkeeps m → rkeeps (connectCompleteImpl opts m st r).
Proof.
  intros Hm. unfold connectCompleteImpl. rkeeps_auto; [|done]. apply (rkeeps_prints opts).
Qed.

Lemma rkeeps_subscribeComplete opts st codes :
  rkeeps (Sub_subscribeCompleteInternal opts st codes).
Proof. unfold Sub_subscribeCompleteInternal. rkeeps_auto; apply (rkeeps_prints opts). Qed.

(** A callback, but for the end of the publish. *)
Lemma rkeeps_react members write opts e :
  (∀ a cb st, e = EvPublishComplete a cb st → rkeeps (Pub_publishCompleteInternal st)) →
  rkeeps (Pub_react members write opts e) ∧ rkeeps (Sub_react members write opts e).
Proof.
  intros Hpub. split; (destruct e; simpl; try apply keeps_ret);
    try apply rkeeps_sendDataInternal; try exact Hstop; try (by eapply Hpub);
    try (apply rkeeps_connectComplete, rkeeps_brokerConnected).
  - apply keeps_bind; [apply (rkeeps_prints opts) | intros _; apply keeps_ret].
  - apply keeps_bind; [apply rkeeps_subscribeComplete | intros _; apply keeps_ret].
Qed.
End reactions.

(** ** The applications *)

Section application.
  Context `{Config} `{CommsLib} `{!CommsLaws} (k : Program) (opts : App.ProgramOptions).
  Context (write : list Event → bytes → IoStatus * nat).
  Context (a : AppMembers) (n resume_bound : nat).
Abbreviation app depth := (application k opts write a n resume_bound depth).

(** With a contract that all notes keep. *)
Lemma keeps_application (C : Contract ClientImpl) :
  (∀ f, ct_faults (Contract := C) f) → (∀ x, keeps (Contract0 := C) (act x)) →
  (∀ depth, (∀ e, keeps (Contract0 := C) (app_react (App := app depth) e)) →
    ∀ r, keeps (Contract0 := C) (run_request (H1 := app depth) r)) →
  ∀ depth e, keeps (Contract0 := C) (app_react (App := app depth) e).
Proof.
  intros Hf Hact Hreq depth. induction depth as [|depth IH]; intros e; simpl; [by apply keeps_throw|].
  pose proof (Hreq depth IH) as Hr.
  assert (∀ st, keeps (Contract0 := C) (Pub_publishCompleteInternal st)) as Hpub.
  { intros st. unfold Pub_publishCompleteInternal. repeat case_match; apply Hact. }
  destruct k; by apply (rkeeps_react C Hf Hr).
Qed.

#[export] Instance application_contract depth : AppContract (H0 := app depth).
Proof.
  intros e. apply (keeps_application client_contract); [done | |].
  - intros x. apply keeps_modify. intros s Hs. by apply log_inv.
  - intros d Happ r. by apply (@keeps_run_request _ _ _ (app d) Happ).
Qed.

Lemma application_tick depth e :
  keeps (Contract0 := tick_contract) (app_react (App := app depth) e).
Proof.
  apply (keeps_application tick_contract); [done | |].
  - intros x. by apply nkeeps_modify.
  - intros d Happ r. by apply nkeeps_run_request.
Qed.

(** The callback that programs the tick does not call the client. *)
Lemma application_program depth ms s :
  wp any_fault (app_react (App := app depth) (EvNextTickProgram ms)) (λ _ s', s' = s) s.
Proof. destruct depth; [done|]. simpl. by destruct k; apply wp_ret. Qed.
End application.
