(* ===== verification/Programs.v ===== *)
(** * What the programs do

    A program that publishes reports success only after the publish, and the programs
    wait for the timers of the client until they end
    (client/app/pub/main.cpp, client/app/sub/main.cpp, client/app/common/AppClient.cpp). *)

From S2P Require Import Prelude SortedVec Config Protocol Topic PacketId TimerMgr State.
From S2P Require Import Lifecycle Completion Session SendOp RecvOp SubscribeOp ConnectOp.
From S2P Require Import Client Invariant Objects Termination Frame Ownership Preservation.
From S2P Require Import Scenarios Requests Ticking Api Options AppSession AppClient AppProgram.
From S2P Require Import Reactions.

(** ** The members during a call *)

Lemma absorb_app a evs evs' : absorb a (evs ++ evs') = absorb (absorb a evs) evs'.
Proof. apply foldl_app. Qed.

Lemma on_event_now a e : g_now (on_event a e) = g_now a ∧ g_expired (on_event a e) = g_expired a.
Proof. by destruct e as [| | | | | | | | |[]]. Qed.

Lemma absorb_now evs a : g_now (absorb a evs) = g_now a ∧ g_expired (absorb a evs) = g_expired a.
Proof.
  revert a. induction evs as [|e evs IH]; intros a; simpl; [done|].
  destruct (IH (on_event a e)) as [-> ->]. apply on_event_now.
Qed.

Lemma absorb_stopped evs a r :
  io_stopped a = true ∨ EvApp (Act_Stop r) ∈ evs → io_stopped (absorb a evs) = true.
Proof.
  revert a. induction evs as [|e evs IH]; intros a; simpl; [by intros [?| ?%not_elem_of_nil]|].
  intros [Ha|[He|He]%elem_of_cons]; apply IH; [left..|by right].
  - by destruct e as [| | | | | | | | |[]].
  - by rewrite <- He.
Qed.

(** ** The exit status *)

(** The publish of the program has been completed. *)
Definition completed (k : Program) (tr : list Event) : Prop :=
  k = Pub ∧ ∃ a cb, EvPublishComplete a cb AsyncOpStatus_Complete ∈ tr.

(** The loop ends with 0 only after that, and nothing is posted to it. *)
Record honest (k : Program) (tr : list Event) : Prop := {
  hn_stop : EvApp (Act_Stop 0) ∈ tr → completed k tr;
  hn_post : ∀ r, EvApp (Act_Post r) ∉ tr;
}.

Lemma completed_prefix k tr tr' : tr `prefix_of` tr' → completed k tr → completed k tr'.
Proof.
  intros [evs ->] (Hk & a & cb & Hin). split; [done|]. exists a, cb. apply elem_of_app. by left.
Qed.

Definition plain_event (k : Program) (tr : list Event) (e : Event) : Prop :=
  match e with
  | EvApp (Act_Stop 0) => completed k tr
  | EvApp (Act_Post _) => False
  | _ => True
  end.

Lemma honest_snoc k tr e : honest k tr → plain_event k tr e → honest k (tr ++ [e]).
Proof.
  intros [Hstop Hpost] He. split.
  - intros Hin. apply (completed_prefix k tr); [by apply prefix_app_r|].
    apply elem_of_app in Hin as [Hin|Hin%list_elem_of_singleton]; [by apply Hstop | by subst e].
  - intros r [Hin|Hin%list_elem_of_singleton]%elem_of_app; [by eapply Hpost | by subst e].
Qed.

Definition honest_contract (k : Program) : Contract ClientImpl := {|
  ct_inv := λ s, honest k (g_trace s);
  ct_rel := λ s s', g_trace s `prefix_of` g_trace s';
  ct_faults := any_fault;
  ct_pre := ltac:(split; [intros s; reflexivity | intros s1 s2 s3; apply transitivity]);
|}.

Section honest.
  Context `{Config} `{CommsLib} `{App} (k : Program).
Abbreviation hkeeps := (keeps (Contract0 := honest_contract k)).
  Context (Hcb : ∀ e, set_aside e = false → hkeeps (callback e)).
  Context (Hmsg : ∀ info, hkeeps (callback (EvMessageReceived info))).

Lemma hkeeps_same s s' :
  honest k (g_trace s) → g_trace s' = g_trace s →
  honest k (g_trace s') ∧ g_trace s `prefix_of` g_trace s'.
Proof. intros Hs ->. by split; [|reflexivity]. Qed.

Lemma honest_modify f : (∀ s, g_trace (f s) = g_trace s) → hkeeps (modify f).
Proof. intros Hf. apply keeps_modify. intros s Hs. by apply hkeeps_same. Qed.

Lemma hkeeps_timerMgr {A} (m : M (TimerMgr TimeoutCb) A) : hkeeps (on_timerMgr m).
Proof. intros s Hs. unfold wp, on_timerMgr, zoom. destruct (m _); [by apply hkeeps_same | done]. Qed.

Lemma hkeeps_clientState {A} (m : M ClientState A) : hkeeps (on_clientState m).
Proof. intros s Hs. unfold wp, on_clientState, zoom. destruct (m _); [by apply hkeeps_same | done]. Qed.

#[local] Instance honest_stable : Stable (honest_contract k).
Proof.
  split; try (intros; apply hkeeps_clientState); try done.
  - intros. by apply honest_modify.
  - intros A m _. apply hkeeps_timerMgr.
  - intros topic. unfold store_filter. keeps_auto. by apply honest_modify.
  - intros. by apply honest_modify.
  - by apply honest_modify.
Qed.

Lemma hkeeps_run_request r : hkeeps (run_request r).
Proof.
  assert (∀ idx, hkeeps (resumeSendOpsSince idx)) as Hresume.
  { intros idx. by apply (fkeeps_resumeSendOpsSince_bound (honest_contract k)). }
  apply (stable_run_request (honest_contract k) Hresume); [| | |by left].
  - intros a. by apply (fkeeps_resendAllUntil_bound (honest_contract k) Hresume).
  - intros info. unfold reportMsgInfo, must_callback. keeps_auto;
      first [by apply keeps_comms_assert | apply Hmsg | by apply keeps_throw].
  - intros b. apply hkeeps_clientState.
Qed.
End honest.

(** ** The applications *)

Section application.
  Context `{Config} `{CommsLib} (k : Program) (opts : App.ProgramOptions).
  Context (write : list Event → bytes → IoStatus * nat).
  Context (a : AppMembers) (n resume_bound : nat).
Abbreviation app depth := (application k opts write a n resume_bound depth).
Abbreviation hkeeps := (keeps (Contract0 := honest_contract k)).

Lemma hkeeps_act x : (∀ r, x ≠ Act_Post r) → x ≠ Act_Stop 0 → hkeeps (act x).
Proof.
  intros Hp Hz. apply keeps_modify. intros s Hs. split; [|by apply prefix_app_r].
  apply honest_snoc; [done|]. destruct x as [[]|r|]; try done. by destruct (Hp r).
Qed.

(** A callback that says that a publish of [Sub], or one that failed, has ended. *)
Lemma honest_callback depth e :
  (∀ x, e ≠ EvApp x) → hkeeps (callback (H := app depth) e).
Proof.
  revert e. induction depth as [|depth IH]; intros e He s Hs.
  { apply wp_bind, wp_modify. done. }
  assert (honest k (g_trace s ++ [e])) as Hlog.
  { apply honest_snoc; [exact Hs|]. destruct e; try done. by destruct (He act). }
  assert (∀ r, hkeeps (run_request (H1 := app depth) r)) as Hr.
  { apply (hkeeps_run_request (H1 := app depth)).
    - intros e' He'. apply IH. by destruct e'.
    - intros info. by apply IH. }
  assert (∀ e, (∀ p cb, e ≠ EvPublishComplete p cb AsyncOpStatus_Complete) →
    hkeeps (Pub_react (H1 := app depth) (members_at a n) write opts e) ∧
    hkeeps (Sub_react (H1 := app depth) (members_at a n) write opts e)) as Hreact.
  { intros e' He'. apply (rkeeps_react (honest_contract k)); [done | exact Hr |
      by apply hkeeps_act..|].
    intros p cb st ->. unfold Pub_publishCompleteInternal.
    case_bool_decide; [by subst; destruct (He' p cb) | by apply hkeeps_act]. }
  assert (∀ m : M ClientImpl (), hkeeps m →
    wp any_fault m (λ _ s', honest k (g_trace s') ∧ g_trace s `prefix_of` g_trace s') (log e s))
    as Hfrom.
  { intros m Hm. eapply wp_mono; [by apply Hm|]. intros _ s' [Hs' Hp]. split; [exact Hs'|].
    etrans; [|exact Hp]. by apply prefix_app_r. }
  assert ((∃ p cb, e = EvPublishComplete p cb AsyncOpStatus_Complete) ∨
    ∀ p cb, e ≠ EvPublishComplete p cb AsyncOpStatus_Complete) as [(p & cb & ->)|Hne].
  { destruct e as [| | | | | | | |p cb st|]; try by right.
    destruct (decide (st = AsyncOpStatus_Complete)) as [->|]; [left; eauto | right; congruence]. }
  - apply wp_bind, wp_modify. simpl. destruct k; [|by apply Hfrom, keeps_ret].
    apply wp_modify. split; [|simpl; rewrite <- app_assoc; by apply prefix_app_r].
    apply honest_snoc; [exact Hlog|]. split; [done|]. exists p, cb.
    apply elem_of_app. right. by apply list_elem_of_singleton.
  - apply wp_bind, wp_modify. cbn [app_react application]. destruct k; by apply Hfrom, Hreact.
Qed.

Lemma hkeeps_requests depth r : hkeeps (run_request (H1 := app depth) r).
Proof.
  apply (hkeeps_run_request (H1 := app depth)).
  - intros e He. apply honest_callback. by destruct e.
  - intros info. by apply honest_callback.
Qed.
End application.

(** ** The loop *)

Section exit.
  Context `{Config} `{CommsLib} (k : Program) (opts : App.ProgramOptions).
  Context (write : list Event → bytes → IoStatus * nat) (depth resume_bound : nat).
Abbreviation call := (call k opts write depth resume_bound).
Abbreviation on_session := (on_session k opts write depth resume_bound).
Abbreviation app_in := (app_in k opts write depth resume_bound).

(** The result is 0 only after the publish. *)
Record ends_honestly (p : ProgramState) : Prop := {
  eh_trace : honest k (g_trace (p_client p));
  eh_posted : io_posted (p_app p) = [];
  eh_result : io_stopped (p_app p) = true → m_result (p_app p) = 0%Z →
    completed k (g_trace (p_client p));
}.

Definition exit_contract : Contract ProgramState := {|
  ct_inv := ends_honestly;
  ct_rel := λ _ _, True;
  ct_faults := any_fault;
  ct_pre := any_step_preorder;
|}.
Abbreviation ekeeps := (keeps (Contract0 := exit_contract)).
Abbreviation hkeeps := (keeps (Contract0 := honest_contract k)).

Lemma absorb_honest tr evs a :
  honest k tr → (∀ e, e ∈ evs → e ∈ tr) → io_posted a = [] →
  (io_stopped a = true → m_result a = 0%Z → completed k tr) →
  io_posted (absorb a evs) = [] ∧
  (io_stopped (absorb a evs) = true → m_result (absorb a evs) = 0%Z → completed k tr).
Proof.
  intros Htr. revert a. induction evs as [|e evs IH]; intros a Hin Hp Hr; simpl; [done|].
  assert (e ∈ tr) as He by (apply Hin; by left).
  apply IH; [intros x Hx; apply Hin; by right|..];
    destruct e as [| | | | | | | | |[r|r|]]; try done; simpl.
  - by destruct (hn_post _ _ Htr r).
  - intros _ ->. by apply (hn_stop _ _ Htr).
Qed.

(** The members after a call that keeps the trace honest. *)
Lemma app_after_honest p s :
  ends_honestly p → honest k (g_trace s) → g_trace (p_client p) `prefix_of` g_trace s →
  ends_honestly (MkProgramState s (app_after p s)).
Proof.
  intros [Htr Hp Hr] Hs Hpre. destruct (absorb_honest (g_trace s)
    (drop (length (g_trace (p_client p))) (g_trace s)) (p_app p)) as [Hp' Hr'];
    [done | | done | | by split].
  - intros e [i Hi]%list_elem_of_lookup. rewrite lookup_drop in Hi. by eapply list_elem_of_lookup_2.
  - intros Hst Hz. by apply (completed_prefix _ _ _ Hpre), Hr.
Qed.

Lemma ekeeps_call {A} (m : App → M ClientImpl A) : (∀ p, hkeeps (m (app_in p))) → ekeeps (call m).
Proof.
  intros Hm p Hp. pose proof (Hm p (p_client p) (eh_trace p Hp)) as Hw. unfold wp, AppProgram.call in *.
  destruct (m (app_in p) (p_client p)) as [x s|]; [|done]. destruct Hw as [Hs Hpre].
  split; [by apply app_after_honest | done].
Qed.

Lemma ekeeps_session {A} (m : App → SessionKind → M (NetSession * ClientImpl) A) :
  (∀ p kind, keeps (Contract0 := session_contract (honest_contract k)) (m (app_in p) kind)) →
  ekeeps (on_session m).
Proof.
  intros Hm p Hp. unfold wp, AppProgram.on_session. destruct (m_session (p_app p)) as [[kind ses]|]; [|done].
  pose proof (Hm p kind (ses, p_client p) (eh_trace p Hp)) as Hw. unfold wp in Hw.
  destruct (m (app_in p) kind (ses, p_client p)) as [x [ses' s]|]; [|done].
  destruct Hw as [Hs Hpre]. destruct (app_after_honest p s Hp Hs Hpre) as [Htr Hpo Hr].
  by split.
Qed.

Lemma ekeeps_on_app f :
  (∀ a, io_posted (f a) = io_posted a) →
  (∀ a, io_stopped (f a) = io_stopped a ∧ m_result (f a) = m_result a) → ekeeps (on_app f).
Proof.
  intros Hpo Hf. apply keeps_modify. intros [s a] [Htr Hp Hr]. split; [|done].
  destruct (Hf a) as [Hst Hres]. split; simpl in *; [done | by rewrite Hpo | by rewrite Hst, Hres].
Qed.

Lemma hkeeps_calls p :
  (∀ r, hkeeps (run_request (H1 := app_in p) r)) ∧ hkeeps (act Act_NetworkDown) ∧ hkeeps (act (Act_Stop 1)).
Proof. split_and!; [intros r; apply hkeeps_requests | by apply hkeeps_act..]. Qed.

Lemma ekeeps_requests {A} (m : App → M ClientImpl A) :
  (∀ p, by_requests (H1 := app_in p) (m (app_in p))) → ekeeps (call m).
Proof.
  intros Hm. apply ekeeps_call. intros p.
  by apply (rkeeps_by (H1 := app_in p) (honest_contract k)), Hm; [|apply hkeeps_calls].
Qed.

Lemma ekeeps_timer_handler ec duration :
  ekeeps (timer_handler k opts write depth resume_bound ec duration).
Proof.
  destruct ec; [apply keeps_ret | apply ekeeps_call | apply ekeeps_requests]; intros p.
  - exact (proj2 (proj2 (hkeeps_calls p))).
  - exact (proj1 (proj2 (by_application_calls (H1 := app_in p))) true duration).
Qed.

Lemma ekeeps_read_handler ec data :
  ekeeps (read_handler k opts write depth resume_bound ec data).
Proof.
  apply ekeeps_session. intros p kind. destruct (hkeeps_calls p) as (Hr & Hd & Hs).
  assert (∀ buf, hkeeps (api_process_data (H1 := app_in p) true buf)) as Hdata.
  { intros buf. apply (rkeeps_by (H1 := app_in p) (honest_contract k)); [done | done|].
    apply by_application_calls. }
  pose proof (rkeeps_networkDisconnectedReport (H1 := app_in p) (honest_contract k)
    ltac:(done) Hr Hd Hs) as Hdown.
  destruct kind; by apply skeeps_handleRead.
Qed.

Lemma ekeeps_signal ec : ekeeps (signal_handler ec).
Proof.
  intros p [Htr Hp Hr]. destruct ec; [by apply wp_ret; split | |];
    apply wp_bind, wp_modify, wp_modify; by split; [split|].
Qed.

(** A handler of the loop. *)
Lemma ekeeps_io_step io : ekeeps (io_step k opts write depth resume_bound io).
Proof.
  assert (∀ b f, (∀ a, io_posted (f a) = io_posted a) →
    (∀ a, io_stopped (f a) = io_stopped a ∧ m_result (f a) = m_result a) → ekeeps (when b (on_app f)))
    as Hwhen by (intros; by apply keeps_when, ekeeps_on_app).
  assert (∀ f c d, (∀ a, io_posted (f a) = io_posted a) →
    (∀ a, io_stopped (f a) = io_stopped a ∧ m_result (f a) = m_result a) →
    ekeeps (on_app f ;; timer_handler k opts write depth resume_bound c d)) as Htimer
    by (intros; apply keeps_bind; [by apply ekeeps_on_app | intros _; apply ekeeps_timer_handler]).
  intros p Hp. apply wp_bind, wp_gets. destruct io.
  - by apply Hwhen.
  - destruct (m_timer _) as [[expiry duration]|]; [by apply Hwhen | by apply keeps_ret].
  - destruct (m_timer _) as [[expiry duration]|]; [by apply Htimer | by apply keeps_ret].
  - destruct (g_expired _) as [|duration rest]; [by apply keeps_ret | by apply Htimer].
  - by apply ekeeps_timer_handler.
  - destruct (m_session _) as [[kind ses]|]; [|by apply keeps_ret].
    by apply keeps_when; [apply ekeeps_read_handler|].
  - by apply ekeeps_signal.
  - rewrite (eh_posted _ Hp). by apply keeps_ret.
Qed.

Lemma ekeeps_io_run ios : ekeeps (io_run k opts write depth resume_bound ios).
Proof.
  induction ios as [|io ios IH]; cbn [io_run]; [apply keeps_ret|].
  apply keeps_bind; [apply keeps_gets|]. intros a. destruct (io_stopped a); [apply keeps_ret|].
  apply keeps_bind; [apply ekeeps_io_step | by intros _].
Qed.

(** The start, but for the help. *)
Lemma ekeeps_start `{Asio} has_openssl parsed :
  App.helpRequested opts = false →
  ekeeps (AppClient_start k opts write depth resume_bound has_openssl parsed).
Proof.
  intros Hhelp. unfold AppClient_start, createSession. rewrite Hhelp.
  destruct (negb parsed); [apply keeps_ret|]. apply keeps_bind.
  - destruct (Session_create _ _) as [kind|]; [|apply keeps_ret].
    apply keeps_bind; [by apply ekeeps_on_app|]. intros _. apply ekeeps_session.
    intros p kind'. apply skeeps_startImpl.
  - intros [|]; [|apply keeps_ret]. apply ekeeps_call. intros p.
    apply (rkeeps_startImpl (H1 := app_in p) (honest_contract k)); [done | apply hkeeps_calls].
Qed.
End exit.

(** The client that the constructor has set up. *)
Lemma constructed_client_fields `{Config} `{CommsLib} :
  p_client constructed_client = set_callbacks Callbacks_all ClientImpl_new.
Proof. reflexivity. Qed.

(** ** The timer *)

Definition rest_contract `{Config} : Contract ClientImpl := {|
  ct_inv := at_rest;
  ct_rel := λ s s', g_trace s `prefix_of` g_trace s';
  ct_faults := any_fault;
  ct_pre := ltac:(split; [intros s; reflexivity | intros s1 s2 s3; apply transitivity]);
|}.

Definition same_client : Contract ClientImpl := {|
  ct_inv := λ _, True;
  ct_rel := λ s s', s' = s;
  ct_faults := any_fault;
  ct_pre := ltac:(split; [done | intros s1 s2 s3; congruence]);
|}.

(** What a handler of the loop leaves of the client: the tick is programmed, the loop
    ends, or the client has not been called. *)
Definition answered `{Config} (s s' : ClientImpl) : Prop :=
  at_rest s' ∧ (programs s s' ∨ s' = s ∨
    ∃ r, EvApp (Act_Stop r) ∈ drop (length (g_trace s)) (g_trace s')).

Section rest.
  Context `{Config} `{CommsLib} `{!CommsLaws} `{App} `{!AppContract}.
  Context (Hprogram : ∀ ms s, last (g_trace s) = Some (EvNextTickProgram ms) →
    wp any_fault (app_react (EvNextTickProgram ms)) (λ _ s', s' = s) s).
  Context (Happ : ∀ e, keeps (Contract0 := tick_contract) (app_react e)).

Lemma rest_run_request r : keeps (Contract0 := rest_contract) (run_request r).
Proof.
  intros s (Hi & Ht & Hc).
  eapply wp_mono; [exact (wp_and _ _ _ _ _ _ (keeps_run_request r s Hi) (nkeeps_run_request Happ r s Ht))|].
  intros _ s' [[Hi' Hev] [Ht' _]]. split; [|apply Hev]. split; [done|]. split; [done|].
  rewrite <- Hc. apply (ev_api _ _ Hev).
Qed.

Lemma at_rest_note x s : at_rest s → at_rest (log (EvApp x) s).
Proof. intros (Hi & Ht & Hc). split; [by apply log_inv | done]. Qed.

Lemma wp_opt {A} (v : option A) (Q : A → ClientImpl → Prop) s :
  (∀ x, Q x s) → wp any_fault (opt v) Q s.
Proof. intros HQ. by destruct v; [apply wp_ret|]. Qed.

(** A start that succeeds has sent the connect message. *)
Lemma wp_startImpl_programs opts s :
  at_rest s → wp any_fault (startImpl opts) (λ ok s', ok = true → at_rest s' ∧ programs s s') s.
Proof.
  intros Hs.
  assert (∀ A (m : M ClientImpl A), by_requests m → keeps (Contract0 := rest_contract) m) as Hby
    by (intros A m; by apply (rkeeps_by rest_contract), rest_run_request).
  assert (∀ a s0, at_rest s0 → g_trace s `prefix_of` g_trace s0 →
    wp any_fault (sendConnect a) (λ ok s', ok = true → at_rest s' ∧ programs s s') s0) as Hsend.
  { intros a s0 Hs0 Hp. unfold sendConnect. apply wp_bind.
    eapply wp_mono; [by apply wp_ConnectOp_send_settles|]. intros ec s1 [Hs1 Hcase]. apply wp_ret.
    intros Hok%bool_decide_eq_true. destruct Hcase as [[]|[Hp' Hw]]; [done|]. split; [done|].
    split; [by etrans|]. intros Hz. destruct (Hw Hz) as (tr & Htr & ?). exists tr.
    split; [by etrans | done]. }
  unfold startImpl. apply wp_bind. eapply wp_mono; [apply Hby; [apply by_application_calls | exact Hs]|].
  intros [[connect|] ec] s1 [Hs1 Hp1]; [|apply wp_ret; discriminate]. do 4 (apply wp_bind, wp_opt; intros ?).
  apply wp_bind. eapply wp_mono; [apply Hby; [apply by_application_calls | exact Hs1]|].
  intros ec2 s2 [Hs2 Hp2]. destruct (negb _); [apply wp_ret; discriminate|]. apply wp_bind, wp_opt. intros willTopic.
  assert (g_trace s `prefix_of` g_trace s2) as Hp by exact (transitivity Hp1 Hp2).
  destruct (bool_decide _); [by apply Hsend|]. do 2 (apply wp_bind, wp_opt; intros ?).
  apply wp_bind. eapply wp_mono; [apply Hby; [apply by_application_calls | exact Hs2]|].
  intros ec3 s3 [Hs3 Hp3]. destruct (negb _); [apply wp_ret; discriminate|]. apply Hsend; [done|]. exact (transitivity Hp Hp3).
Qed.
End rest.

Section read.
  Context `{Config} `{CommsLib} `{!CommsLaws} `{App} `{!AppContract}.
  Context (Hprogram : ∀ ms s, last (g_trace s) = Some (EvNextTickProgram ms) →
    wp any_fault (app_react (EvNextTickProgram ms)) (λ _ s', s' = s) s).
  Context (Happ : ∀ e, keeps (Contract0 := tick_contract) (app_react e)).

Lemma answered_same s : at_rest s → answered s s.
Proof. intros Hs. split; [done|]. right. by left. Qed.

Lemma wp_asserted {A} (m : M ClientImpl A) (Q : A → ClientImpl → Prop) s :
  wp any_fault m Q s → wp any_fault (asserted_client true m) Q s.
Proof. intros Hm. by apply wp_bind, wp_comms_assert. Qed.

(** The note of a termination. *)
Lemma wp_doTerminate_answered r s s' :
  at_rest s' → g_trace s `prefix_of` g_trace s' →
  wp any_fault (doTerminate r) (λ _ s'', answered s s'') s'.
Proof.
  intros Hs' [evs Htr]. apply wp_modify. split; [by apply at_rest_note|]. right. right. exists r.
  simpl. rewrite Htr, <- app_assoc, drop_app_length. apply elem_of_app. right. by left.
Qed.

Lemma wp_down_answered s :
  at_rest s → wp any_fault networkDisconnectedReport (λ _ s', answered s s') s.
Proof.
  intros Hs. apply wp_bind, wp_modify, wp_bind. set (s1 := log _ s).
  assert (at_rest s1) as Hs1 by by apply at_rest_note.
  eapply wp_mono; [apply wp_asserted; exact (wp_notify_programs Hprogram Happ s1 Hs1)|].
  intros [] s2 [Hs2 [Hp _]]. apply wp_doTerminate_answered; [done|].
  etrans; [|exact Hp]. by apply prefix_app_r.
Qed.

(** The session reports that the connection is lost, if it has not yet. *)
Lemma wp_report_answered ses s :
  at_rest s →
  wp any_fault (reportNetworkDisconnected networkDisconnectedReport) (λ _ s', answered s s'.2) (ses, s).
Proof.
  intros Hs. unfold reportNetworkDisconnected. apply wp_bind, wp_gets.
  destruct (_ : bool); [by apply wp_ret, answered_same|].
  apply wp_bind, wp_modify, wp_bind, wp_gets, wp_bind, wp_comms_assert; [done|].
  destruct (_ : bool); [|done]. apply wp_zoom. eapply wp_mono; [by apply wp_down_answered|]. done.
Qed.

(** A read is handed to the client; what the session does then is its own. *)
Lemma wp_handleRead_answered ec data ses s :
  at_rest s →
  wp any_fault (TcpSession_handleRead (api_process_data true) networkDisconnectedReport ec data)
    (λ _ s', answered s s'.2) (ses, s).
Proof.
  intros Hs. unfold TcpSession_handleRead. apply wp_bind, wp_modify.
  destruct ec; [by apply wp_ret, answered_same | by apply wp_report_answered|].
  assert (∀ (m : M (NetSession * ClientImpl) unit) ses' s',
    keeps (Contract0 := session_contract same_client) m → answered s s' →
    wp any_fault m (λ _ s'', answered s s''.2) (ses', s')) as Hown.
  { intros m ses' s' Hm Hs'. eapply wp_mono; [by apply (Hm (ses', s'))|].
    intros _ [ses'' s''] [_ Heq]. simpl in *. by subst. }
  apply wp_bind, wp_gets. cbv zeta. unfold compose. simpl fst.
  apply wp_bind, (wp_mono _ _ (λ _ s', s'.2 = s)).
  { apply wp_when; [intros _; by apply wp_modify | done]. }
  intros [] [ses1 s1] Heq. simpl in Heq. subst s1. apply wp_bind. unfold reportData.
  apply wp_bind, wp_gets, wp_bind, wp_comms_assert; [done|]. destruct (_ : bool); [|done].
  apply wp_zoom. simpl snd.
  eapply wp_mono; [by apply wp_asserted, (wp_processData_programs Hprogram Happ _ s)|].
  intros consumed s2 [Hs2 Hp]. apply Hown; [|by split; [|left]].
  unfold TcpSession_doRead. repeat first [apply skeeps_own | by apply keeps_comms_assert | keeps_step].
Qed.
End read.

Section waits.
  Context `{Config} `{CommsLib} `{!CommsLaws} (k : Program) (opts : App.ProgramOptions).
  Context (write : list Event → bytes → IoStatus * nat) (depth resume_bound : nat).
Abbreviation call := (call k opts write depth resume_bound).
Abbreviation on_session := (on_session k opts write depth resume_bound).
Abbreviation app_in := (app_in k opts write depth resume_bound).

(** The timer runs for as long as the client needs, or its handler is in the queue. *)
Definition armed (p : ProgramState) : Prop :=
  let wait := getMinWait (m_timerMgr (p_client p)) in
  wait ≠ 0%Z →
  g_expired (p_app p) ≠ [] ∨
  m_timer (p_app p) = Some ((m_lastWaitProgram (p_app p) + wait)%Z, wait).

Definition attended (p : ProgramState) : Prop :=
  at_rest (p_client p) ∧ (io_stopped (p_app p) = false → armed p).

Definition wait_contract : Contract ProgramState := {|
  ct_inv := attended;
  ct_rel := λ _ _, True;
  ct_faults := any_fault;
  ct_pre := any_step_preorder;
|}.
Abbreviation akeeps := (keeps (Contract0 := wait_contract)).

Lemma app_after_programs p s :
  programs (p_client p) s → armed (MkProgramState s (app_after p s)).
Proof.
  intros [_ Hw] Hz. destruct (Hw Hz) as (tr & [evs ->] & Htr). right. unfold app_after, members_at. simpl in *.
  by rewrite Htr, <- app_assoc, drop_app_length, absorb_app.
Qed.

Lemma app_after_answered p s :
  answered (p_client p) s → attended p → attended (MkProgramState s (app_after p s)).
Proof.
  intros [Hs Hcase] [_ Harm]. split; [done|]. destruct Hcase as [Hp|[->|[r Hin]]].
  - intros _. by apply app_after_programs.
  - unfold app_after, members_at. rewrite drop_ge by done. by destruct p.
  - intros Hst. simpl in Hst. unfold app_after, members_at in Hst.
    by rewrite (absorb_stopped _ _ r) in Hst by by right.
Qed.

Lemma akeeps_call {A} (m : App → M ClientImpl A) :
  (∀ p, at_rest (p_client p) →
    wp any_fault (m (app_in p)) (λ _ s', answered (p_client p) s') (p_client p)) →
  akeeps (call m).
Proof.
  intros Hm p Hp. pose proof (Hm p (proj1 Hp)) as Hw. unfold wp, AppProgram.call in *.
  destruct (m (app_in p) (p_client p)) as [x s|]; [|done].
  split; [by apply app_after_answered | done].
Qed.

Lemma akeeps_session {A} (m : App → SessionKind → M (NetSession * ClientImpl) A) :
  (∀ p kind ses, at_rest (p_client p) → wp any_fault (m (app_in p) kind)
    (λ _ s', answered (p_client p) s'.2) (ses, p_client p)) →
  akeeps (on_session m).
Proof.
  intros Hm p Hp. unfold wp, AppProgram.on_session. destruct (m_session (p_app p)) as [[kind ses]|]; [|done].
  pose proof (Hm p kind ses (proj1 Hp)) as Hw. unfold wp in Hw.
  destruct (m (app_in p) kind (ses, p_client p)) as [x [ses' s]|]; [|done].
  split; [exact (app_after_answered p s Hw Hp) | done].
Qed.

(** A change of the members that leaves the timer. *)
Lemma akeeps_on_app f :
  (∀ a, m_timer (f a) = m_timer a ∧ g_expired (f a) = g_expired a ∧
    m_lastWaitProgram (f a) = m_lastWaitProgram a) →
  (∀ a, io_stopped (f a) = false → io_stopped a = false) → akeeps (on_app f).
Proof.
  intros Hf Hst. apply keeps_modify. intros [s a] [Hs Harm]. split; [|done]. split; [done|].
  intros Hno Hz. simpl in *. destruct (Hf a) as (-> & -> & ->). by apply Harm; [apply Hst|].
Qed.

(** The application in a call. *)
Lemma app_in_program p ms s : last (g_trace s) = Some (EvNextTickProgram ms) →
  wp any_fault (app_react (App := app_in p) (EvNextTickProgram ms)) (λ _ s', s' = s) s.
Proof. intros _. apply application_program. Qed.

Lemma app_in_tick p e : keeps (Contract0 := tick_contract) (app_react (App := app_in p) e).
Proof. apply application_tick. Qed.

(** A tick is a guard: the time that the client needs is programmed anew. *)
Lemma wp_tick_programs p duration s :
  at_rest s → wp any_fault (api_tick (H1 := app_in p) true duration)
    (λ _ s', at_rest s' ∧ programs s s') s.
Proof.
  intros Hs. exact (wp_ClientImpl_tick_programs (H2 := app_in p) (app_in_program p) (app_in_tick p)
    duration s Hs).
Qed.

(** The handler of the wait that has expired: nothing need be armed before it. *)
Lemma wp_timer_handler duration p :
  at_rest (p_client p) →
  wp any_fault (timer_handler k opts write depth resume_bound IO_Success duration)
    (λ _ p', attended p') p.
Proof.
  intros Hs. unfold timer_handler, wp, AppProgram.call.
  pose proof (wp_tick_programs p duration _ Hs) as Hw. unfold wp in Hw.
  destruct (api_tick true duration (p_client p)) as [[] s|]; [|done].
  destruct Hw as [Hs' Hp]. split; [done|]. intros _. by apply app_after_programs.
Qed.

Lemma akeeps_read_handler ec data : akeeps (read_handler k opts write depth resume_bound ec data).
Proof.
  apply akeeps_session. intros p kind ses Hs.
  pose proof (wp_handleRead_answered (H2 := app_in p) (app_in_program p) (app_in_tick p) ec data ses
    (p_client p) Hs) as Hw.
  by destruct kind.
Qed.

Lemma akeeps_signal ec : akeeps (signal_handler ec).
Proof.
  destruct ec; [apply keeps_ret|..];
    (apply keeps_bind; [by apply akeeps_on_app | intros _; by apply akeeps_on_app]).
Qed.
(** The end of the loop. *)
Lemma wp_call_terminate r p :
  at_rest (p_client p) → wp any_fault (call (λ _, doTerminate r)) (λ _ p', attended p') p.
Proof.
  intros Hs. split; [by apply at_rest_note|]. intros Hst. simpl in Hst.
  unfold app_after, members_at in Hst. rewrite (absorb_stopped _ _ r) in Hst; [done|]. right.
  simpl. rewrite drop_app_length. by left.
Qed.

Lemma akeeps_io_step io : akeeps (io_step k opts write depth resume_bound io).
Proof.
  intros p Hp. pose proof Hp as [Hs Harm]. apply wp_bind, wp_gets.
  assert (∀ m : M ProgramState unit, wp any_fault m (λ _ p', attended p') p →
    wp any_fault m (λ _ p', ct_inv (Contract := wait_contract) p' ∧ True) p) as Hq
    by (intros m Hm; by eapply wp_mono).
  destruct io.
  - by apply keeps_when; [apply akeeps_on_app|].
  - apply Hq. destruct (m_timer _) as [[expiry duration]|]; [|by apply wp_ret].
    apply wp_when; [|done]. intros _. apply wp_modify. split; [done|]. intros _ _. left. simpl.
    by destruct (g_expired _).
  - apply Hq. destruct (m_timer _) as [[expiry duration]|]; [|by apply wp_ret].
    apply wp_bind, wp_modify. by apply wp_call_terminate.
  - apply Hq. destruct (g_expired _) as [|duration rest]; [by apply wp_ret|].
    apply wp_bind, wp_modify. by apply wp_timer_handler.
  - by apply keeps_ret.
  - destruct (m_session _) as [[kind ses]|]; [|by apply keeps_ret].
    by apply keeps_when; [apply akeeps_read_handler|].
  - by apply akeeps_signal.
  - apply Hq. destruct (io_posted _) as [|result rest]; [by apply wp_ret|].
    apply wp_bind, wp_modify. by apply wp_call_terminate.
Qed.

Lemma akeeps_io_run ios : akeeps (io_run k opts write depth resume_bound ios).
Proof.
  induction ios as [|io ios IH]; cbn [io_run]; [apply keeps_ret|].
  apply keeps_bind; [apply keeps_gets|]. intros a. destruct (io_stopped a); [apply keeps_ret|].
  apply keeps_bind; [apply akeeps_io_step | by intros _].
Qed.

(** A start that succeeds has called the client. *)
Lemma wp_start_attended `{Asio} has_openssl parsed p :
  at_rest (p_client p) →
  wp any_fault (AppClient_start k opts write depth resume_bound has_openssl parsed)
    (λ started p', started = true → attended p') p.
Proof.
  intros Hs. unfold AppClient_start. destruct (negb parsed); [apply wp_ret; discriminate|].
  destruct (App.helpRequested opts). { by apply wp_bind, wp_modify, wp_ret. }
  apply wp_bind, (wp_mono _ _ (λ _ p', p_client p' = p_client p)).
  - unfold createSession. destruct (Session_create _ _) as [kind|]; [|by apply wp_ret].
    apply wp_bind, wp_modify. unfold wp, AppProgram.on_session. simpl.
    set (p1 := MkProgramState _ _). set (ses := sn_set_callbacks _ _).
    pose proof (skeeps_startImpl same_client has_openssl opts kind (ses, p_client p) I) as Hk.
    unfold wp in Hk. destruct kind; simpl in Hk |- *;
      match goal with H : match ?r with _ => _ end |- _ => destruct r as [x [ses' s]|] end;
      try done; exact (proj2 Hk).
  - intros [|] p' Hp'; [|apply wp_ret; discriminate].
    assert (at_rest (p_client p')) as Hs' by by rewrite Hp'.
    pose proof (wp_startImpl_programs (H2 := app_in p') (app_in_program p') (app_in_tick p') opts _ Hs')
      as Hw.
    cbn [negb]. unfold wp, AppProgram.call in *.
    destruct (startImpl opts (p_client p')) as [ok s|]; [|done].
    intros Hok. destruct (Hw Hok) as [Hs2 Hp2]. split; [done|]. intros _. by apply app_after_programs.
Qed.
End waits.

(** ** The programs *)

Section programs.
  Context `{Config} `{CommsLib} `{!CommsLaws} `{Parser} `{Asio} (k : Program) (has_openssl : bool).
  Context (write : list Event → bytes → IoStatus * nat) (depth resume_bound : nat).
Abbreviation run_program := (run_program k has_openssl write depth resume_bound).

(** C7: a process of [mqtt311_client_pub] or [mqtt311_client_sub] that returns 0,
    whatever the arguments, the network and the order of the events of its loop, has
    been asked for help, or it is [mqtt311_client_pub] and the client has reported that
    the publish is complete; [mqtt311_client_sub] never ends with success by itself. *)
Theorem exit_success args ios :
  exit_status (run_program args ios) = Some 0%Z →
  (∃ opts, (add_options k has_openssl ;; App.parseArgs args) App.ProgramOptions_new = Ok true opts ∧
    App.helpRequested opts = true) ∨
  k = Pub ∧ ∃ p op cb, run_program args ios = Ok true p ∧
    EvPublishComplete op cb AsyncOpStatus_Complete ∈ g_trace (p_client p).
Proof.
  unfold AppProgram.run_program. destruct ((add_options k has_openssl ;; App.parseArgs args) App.ProgramOptions_new) as [parsed opts|f]; [|by destruct f].
  intros Hexit. destruct (App.helpRequested opts) eqn:Hhelp.
  - left. exists opts. split; [|done]. destruct parsed; [done|]. discriminate Hexit.
  - right.
    pose proof (ekeeps_start k opts write depth resume_bound has_openssl parsed Hhelp) as Hstart.
    pose proof (ekeeps_io_run k opts write depth resume_bound ios) as Hrun.
    assert (keeps (Contract0 := exit_contract k) (started ← AppClient_start k opts write depth
      resume_bound has_openssl parsed; when started (io_run k opts write depth resume_bound ios) ;;
      mret started)) as Hk.
    { apply keeps_bind; [done|]. intros started. apply keeps_bind; [by apply keeps_when|].
      intros _. apply keeps_ret. }
    assert (ends_honestly k constructed_client) as Hnew.
    { split; [split; [by intros ?%not_elem_of_nil | by intros r ?%not_elem_of_nil] | done | done]. }
    specialize (Hk _ Hnew). unfold wp in Hk.
    match type of Hk with match ?r with _ => _ end => destruct r as [[] p|f] end;
      [|discriminate Hexit | by destruct f].
    destruct Hk as [[_ _ Hres] _]. unfold exit_status in Hexit.
    destruct (io_stopped (p_app p)); [|done]. injection Hexit as Hz.
    destruct (Hres eq_refl Hz) as (-> & op & cb & Hin). split; [done|]. by exists p, op, cb.
Qed.

(** C8: a program never sleeps through a timer of the client: whatever the arguments,
    the network, the reactions of the broker and the order of the events of the loop,
    while the loop runs and the client has a timer that runs, the handler of the timer
    of the program is in the queue, or the timer runs and expires the time of the
    client after the moment it has been started. *)
Theorem program_waits args ios p :
  run_program args ios = Ok true p →
  io_stopped (p_app p) = false →
  let wait := getMinWait (m_timerMgr (p_client p)) in
  wait ≠ 0%Z →
  g_expired (p_app p) ≠ [] ∨
  m_timer (p_app p) = Some ((m_lastWaitProgram (p_app p) + wait)%Z, wait).
Proof.
  unfold AppProgram.run_program. destruct ((add_options k has_openssl ;; App.parseArgs args) App.ProgramOptions_new) as [parsed opts|f]; [|done].
  assert (at_rest (p_client constructed_client)) as Hnew.
  { rewrite constructed_client_fields. split; [|by split].
    by apply (core_inv ClientImpl_new _); [|apply Inv_new]. }
  pose proof (wp_start_attended k opts write depth resume_bound has_openssl parsed _ Hnew) as Hstart.
  intros Hrun Hst. cut (attended p); [intros [_ Harm]; exact (Harm Hst)|]. revert Hrun.
  unfold wp in Hstart. unfold mbind, M_bind.
  destruct (AppClient_start _ _ _ _ _ _ _ _) as [started p1|]; [|done].
  destruct started; [|done]. cbn [when].
  pose proof (akeeps_io_run k opts write depth resume_bound ios p1 (Hstart eq_refl)) as Hk.
  unfold wp in Hk. destruct (io_run _ _ _ _ _ _ _) as [[] p2|]; [|done]. intros [= <-]. apply Hk.
Qed.
End programs.

(** ** Runs *)

(** The arguments, as the parser yields them. *)
Definition PubParser (qos : Z) : Parser := λ _ _, Some (list_to_map
  [("broker", OV_string "host"); ("port", OV_uint16 1883); ("client-id", OV_string "pub");
   ("username", OV_string ""); ("password", OV_string ""); ("keep-alive", OV_unsigned 60);
   ("will-topic", OV_string ""); ("pub-topic", OV_string "t");
   ("pub-msg", OV_string (String Backslash "x01!")); ("pub-qos", OV_unsigned qos);
   ("pub-retain", OV_bool false)]).

(** A network that takes all that is written, or nothing from some event on. *)
Definition network (limit : nat) (tr : list Event) (buf : bytes) : IoStatus * nat :=
  if length tr <? limit then (IO_Success, length buf) else (IO_Error, 0).

Definition pub_program (qos : Z) (limit : nat) (ios : list Io) : result ProgramState bool :=
  run_program (H := DefaultConfig) (H0 := ExampleComms) (H1 := PubParser qos) (H2 := ExampleAsio)
    Pub false (network limit) 4 0 [] ios.

Definition io_connack : Io := IoRead IO_Success [x20; x02; x00; x00]%byte.
Definition io_puback : Io := IoRead IO_Success [x40; x02; x00; x01]%byte.

Definition published (r : result ProgramState bool) : list (string * bytes * Z * bool) :=
  match r with
  | Ok _ p => omap (λ e, match e with
      | EvSendOutputData (MPublish m) _ => Some (pub_topic m, pub_payload m, pub_qos m, pub_dup m)
      | _ => None end) (g_trace (p_client p))
  | Fault _ => []
  end.

(** Two seconds without an answer, and the handler of the timer. *)
Definition io_timeout : list Io := [IoTime 2000; IoExpire; IoTimer].

(** The publish is acknowledged, the second time when it has been sent again; without an
    answer the program gives up; nothing is sent twice when QoS is 0. *)
Example pub_runs :
  (λ r, (exit_status r, published r)) <$>
    [pub_program 1 100 [io_connack; io_puback];
     pub_program 1 100 ([io_connack] ++ io_timeout ++ [io_puback]);
     pub_program 1 100 ([io_connack] ++ io_timeout ++ io_timeout);
     pub_program 0 100 [io_connack];
     pub_program 1 100 [io_connack; IoSignal IO_Success]] =
  let msg dup := ("t", [x01; x21]%byte, 1%Z, dup) in
  [(Some 0%Z, [msg false]); (Some 0%Z, [msg false; msg true]); (Some 1%Z, [msg false; msg true]);
   (Some 0%Z, [("t", [x01; x21]%byte, 0%Z, false)]); (Some 100%Z, [msg false])].
Proof. vm_compute. reflexivity. Qed.

Example exit_success_witness :
  exit_status (pub_program 1 100 [io_connack; io_puback]) = Some 0%Z ∧
  ((∃ opts, (add_options Pub false ;; App.parseArgs (H := PubParser 1) []) App.ProgramOptions_new =
      Ok true opts ∧ App.helpRequested opts = true) ∨
   Pub = Pub ∧ ∃ p op cb, pub_program 1 100 [io_connack; io_puback] = Ok true p ∧
     EvPublishComplete op cb AsyncOpStatus_Complete ∈ g_trace (p_client p)).
Proof.
  split; [vm_compute; reflexivity|].
  apply (exit_success (H := DefaultConfig) (H0 := ExampleComms) (H2 := PubParser 1) (H3 := ExampleAsio)
    Pub false (network 100) 4 0 [] [io_connack; io_puback]).
  vm_compute. reflexivity.
Defined.

(** A publish that waits. *)
Definition pub_waiting : ProgramState :=
  match pub_program 1 100 [io_connack; IoTime 500] with
  | Ok _ p => p
  | Fault _ => constructed_client (H := DefaultConfig)
  end.

Example program_waits_witness :
  getMinWait (m_timerMgr (p_client pub_waiting)) = 2000%Z ∧ g_now (p_app pub_waiting) = 500%Z ∧
  (g_expired (p_app pub_waiting) ≠ [] ∨
   m_timer (p_app pub_waiting) = Some ((m_lastWaitProgram (p_app pub_waiting) +
     getMinWait (m_timerMgr (p_client pub_waiting)))%Z, getMinWait (m_timerMgr (p_client pub_waiting)))).
Proof.
  split_and!; [vm_compute; reflexivity | vm_compute; reflexivity|].
  apply (program_waits (H := DefaultConfig) (H0 := ExampleComms) (H1 := ExampleComms_laws)
    (H2 := PubParser 1) (H3 := ExampleAsio) Pub false (network 100) 4 0 [] [io_connack; IoTime 500]
    pub_waiting).
  - vm_compute. reflexivity.
  - vm_compute. reflexivity.
  - vm_compute. discriminate.
Defined.

(** ** What goes wrong *)

(** A wait that has expired cannot be cancelled: when the handler of a read runs before
    that of the timer, [m_lastWaitProgram] and the captured duration count the time
    twice, and a publish that is resent after two seconds is given up at once. *)
Theorem expired_wait_counts_twice :
  let resp := IoRead IO_Success [xd0; x00]%byte in
  exit_status (pub_program 1 100 [io_connack; IoTime 2000; IoExpire; resp; IoTimer]) = Some 1%Z ∧
  exit_status (pub_program 1 100 [io_connack; IoTime 2000; IoExpire; IoTimer; resp]) = None.
Proof. vm_compute. done. Qed.

(** [sendDataInternal] reports a write that fails to the client at once, from its own
    callback: a CONNECT or a SUBSCRIBE that cannot be written destroys the operation,
    whose timer [send] then starts. *)
Theorem failed_write_destroys_sender :
  (λ limit, match pub_program 1 limit [io_connack] with
            | Ok _ p => inl (io_stopped (p_app p), m_result (p_app p))
            | Fault f => inr f
            end) <$> [1; 5; 6] =
  [inr FDangling; inl (true, 1%Z); inl (false, 0%Z)].
Proof. vm_compute. reflexivity. Qed.
