(* ===== verification/AflFuzz.v ===== *)
(** * The fuzzing driver

    [class AflFuzzImpl] (client/afl_fuzz/AflFuzz.cpp.templ) and [main]
    (client/afl_fuzz/main.cpp): a loop that feeds a client with what it reads from the
    standard input, or with what the generator of [Generator] answers, and callbacks
    that keep the client publishing, subscribing and reconnecting.

    As for the applications, the members that the callbacks change are a function of
    the members at a call and of the events since then.  The log is left out; the field
    of the protocol library that holds the length of a message is the class [SizeLib]. *)

From S2P Require Import Prelude SortedVec Config Protocol Topic Generator PacketId TimerMgr State.
From S2P Require Import Lifecycle Completion Session SendOp RecvOp SubscribeOp ConnectOp.
From S2P Require Import Client Scenarios Api Options.

(** ** State *)

Record SubscribeInfo := MkSubscribeInfo {
  si_topics : list string;
  si_subHandle : option addr;
  si_unsubHandle : option addr;
  si_acked : bool;
  si_unsubscribed : bool;
}.

Definition SubscribeInfo_new (topics : list string) : SubscribeInfo :=
  MkSubscribeInfo topics None None false false.

Definition si_set_subHandle (v : option addr) (i : SubscribeInfo) : SubscribeInfo :=
  MkSubscribeInfo (si_topics i) v (si_unsubHandle i) (si_acked i) (si_unsubscribed i).
Definition si_set_unsubHandle (v : option addr) (i : SubscribeInfo) : SubscribeInfo :=
  MkSubscribeInfo (si_topics i) (si_subHandle i) v (si_acked i) (si_unsubscribed i).
Definition si_set_acked (v : bool) (i : SubscribeInfo) : SubscribeInfo :=
  MkSubscribeInfo (si_topics i) (si_subHandle i) (si_unsubHandle i) v (si_unsubscribed i).
Definition si_set_unsubscribed (v : bool) (i : SubscribeInfo) : SubscribeInfo :=
  MkSubscribeInfo (si_topics i) (si_subHandle i) (si_unsubHandle i) (si_acked i) v.

(** [m_state], [m_generator] and [m_inData]. *)
Record FuzzState := MkFuzzState {
  fz_subs : list SubscribeInfo;
  fz_nextTickDuration : Z;
  fz_publishCount : Z;
  fz_reinitRequired : bool;
  fz_connectRequired : bool;
  fz_connected : bool;
  fz_firstConnect : bool;
  fz_disconnected : bool;
  fz_generator : option Generator;
  fz_inData : bytes;
}.

Definition FuzzState_new : FuzzState :=
  MkFuzzState [] 0 0 true true false true false None [].

Definition fz_set_subs (v : list SubscribeInfo) (a : FuzzState) : FuzzState :=
  MkFuzzState v (fz_nextTickDuration a) (fz_publishCount a) (fz_reinitRequired a)
    (fz_connectRequired a) (fz_connected a) (fz_firstConnect a) (fz_disconnected a)
    (fz_generator a) (fz_inData a).
Definition fz_set_nextTickDuration (v : Z) (a : FuzzState) : FuzzState :=
  MkFuzzState (fz_subs a) v (fz_publishCount a) (fz_reinitRequired a)
    (fz_connectRequired a) (fz_connected a) (fz_firstConnect a) (fz_disconnected a)
    (fz_generator a) (fz_inData a).
Definition fz_set_publishCount (v : Z) (a : FuzzState) : FuzzState :=
  MkFuzzState (fz_subs a) (fz_nextTickDuration a) v (fz_reinitRequired a)
    (fz_connectRequired a) (fz_connected a) (fz_firstConnect a) (fz_disconnected a)
    (fz_generator a) (fz_inData a).
Definition fz_set_reinitRequired (v : bool) (a : FuzzState) : FuzzState :=
  MkFuzzState (fz_subs a) (fz_nextTickDuration a) (fz_publishCount a) v
    (fz_connectRequired a) (fz_connected a) (fz_firstConnect a) (fz_disconnected a)
    (fz_generator a) (fz_inData a).
Definition fz_set_connectRequired (v : bool) (a : FuzzState) : FuzzState :=
  MkFuzzState (fz_subs a) (fz_nextTickDuration a) (fz_publishCount a) (fz_reinitRequired a)
    v (fz_connected a) (fz_firstConnect a) (fz_disconnected a)
    (fz_generator a) (fz_inData a).
Definition fz_set_connected (v : bool) (a : FuzzState) : FuzzState :=
  MkFuzzState (fz_subs a) (fz_nextTickDuration a) (fz_publishCount a) (fz_reinitRequired a)
    (fz_connectRequired a) v (fz_firstConnect a) (fz_disconnected a)
    (fz_generator a) (fz_inData a).
Definition fz_set_firstConnect (v : bool) (a : FuzzState) : FuzzState :=
  MkFuzzState (fz_subs a) (fz_nextTickDuration a) (fz_publishCount a) (fz_reinitRequired a)
    (fz_connectRequired a) (fz_connected a) v (fz_disconnected a)
    (fz_generator a) (fz_inData a).
Definition fz_set_disconnected (v : bool) (a : FuzzState) : FuzzState :=
  MkFuzzState (fz_subs a) (fz_nextTickDuration a) (fz_publishCount a) (fz_reinitRequired a)
    (fz_connectRequired a) (fz_connected a) (fz_firstConnect a) v
    (fz_generator a) (fz_inData a).
Definition fz_set_generator (v : option Generator) (a : FuzzState) : FuzzState :=
  MkFuzzState (fz_subs a) (fz_nextTickDuration a) (fz_publishCount a) (fz_reinitRequired a)
    (fz_connectRequired a) (fz_connected a) (fz_firstConnect a) (fz_disconnected a)
    v (fz_inData a).
Definition fz_set_inData (v : bytes) (a : FuzzState) : FuzzState :=
  MkFuzzState (fz_subs a) (fz_nextTickDuration a) (fz_publishCount a) (fz_reinitRequired a)
    (fz_connectRequired a) (fz_connected a) (fz_firstConnect a) (fz_disconnected a)
    (fz_generator a) v.

(** The field of the frame that holds the length: its least length, and what it reads,
    the length of the field and its value. *)
Class SizeLib := {
  size_minLength : nat;
  size_field : bytes → option (nat * nat);
}.

Abbreviation FM := (M FuzzState).

(** ** The callbacks, on the members *)

Section callbacks.
  Context `{Config} `{GeneratorLib}.

Definition fz_nextTickProgramCb (duration : Z) : FM unit :=
  modify (fz_set_nextTickDuration duration).

Definition fz_cancelNextTickWaitCb : FM Z :=
  duration ← gets fz_nextTickDuration;
  let diff := Z.min duration 1 in
  modify (fz_set_nextTickDuration (u32 (duration - diff))) ;;
  mret diff.

(** The generator hands its answers to the callback of [createGeneratorIfNeeded], which
    appends them to [m_inData]. *)
Definition sendOutputDataCb (buf : bytes) : FM unit := λ a,
  match fz_generator a with
  | None => Ok tt a
  | Some g =>
      match Generator_processData buf g with
      | Fault f => Fault f
      | Ok _ g' => Ok tt (fz_set_generator (Some g')
          (fz_set_inData (fz_inData a ++ concat (drop (length (gen_reported g)) (gen_reported g'))) a))
      end
  end.

Definition brokerDisconnectReportCb : FM unit :=
  modify (fz_set_disconnected true) ;;
  modify (fz_set_connected false) ;;
  modify (fz_set_reinitRequired true) ;;
  modify (fz_set_connectRequired true).

(** The end of the connect operation; the test of [is_connected] is that of [fuzz_react]. *)
Definition accepted_response (status : CC_Mqtt311AsyncOpStatus)
    (response : option CC_Mqtt311ConnectResponse) : bool :=
  bool_decide (status = AsyncOpStatus_Complete) &&
  match response with
  | Some r => (cr_returnCode r =? ConnectReturnCode_Accepted)%Z
  | None => false
  end.

Definition connectCompleteCb (status : CC_Mqtt311AsyncOpStatus)
    (response : option CC_Mqtt311ConnectResponse) : FM unit :=
  (if bool_decide (status = AsyncOpStatus_Complete) then
     comms_assert (bool_decide (is_Some response)) ;;
     if bool_decide (is_Some response) then mret tt else throw FNull
   else mret tt) ;;
  if accepted_response status response then
    (if cr_sessionPresent (default {| cr_returnCode := 0; cr_sessionPresent := false |} response)
     then mret tt
     else
       subs ← gets fz_subs;
       mapM_ (λ info, comms_assert (bool_decide (si_subHandle info = None)) ;;
                      comms_assert (bool_decide (si_unsubHandle info = None))) subs ;;
       modify (fz_set_subs ((λ i, si_set_acked false (si_set_unsubscribed false i)) <$> subs))) ;;
    modify (fz_set_connectRequired false) ;;
    modify (fz_set_connected true) ;;
    modify (fz_set_disconnected false) ;;
    modify (fz_set_firstConnect false)
  else
    modify (fz_set_connectRequired true) ;;
    modify (fz_set_connected false) ;;
    modify (fz_set_reinitRequired true).

Definition subscribeCompleteCb (handle : addr) (status : CC_Mqtt311AsyncOpStatus)
    (returnCodes : option (list Z)) : FM unit :=
  subs ← gets fz_subs;
  let is_it i := bool_decide (si_subHandle i = Some handle) in
  match list_find (λ i, is_it i = true) subs with
  | None => throw FExit
  | Some (idx, info) =>
      comms_assert (negb (si_acked info)) ;;
      modify (λ a, fz_set_subs (alter (si_set_subHandle None) idx (fz_subs a)) a) ;;
      if negb (bool_decide (status = AsyncOpStatus_Complete)) then mret tt
      else
        comms_assert (bool_decide (is_Some returnCodes)) ;;
        match returnCodes with
        | None => throw FNull
        | Some codes =>
            let allOk := forallb (λ c, negb (SubscribeReturnCode_SuccessQos2 <? c)%Z) codes in
            modify (λ a, fz_set_subs (alter (si_set_acked allOk) idx (fz_subs a)) a)
        end
  end.

Definition publishCompleteCb (status : CC_Mqtt311AsyncOpStatus) : FM unit :=
  if negb (bool_decide (status = AsyncOpStatus_Complete)) then mret tt
  else modify (λ a, fz_set_publishCount (u32 (fz_publishCount a + 1)) a).

Definition unsubscribeCompleteCb (handle : addr) (status : CC_Mqtt311AsyncOpStatus) : FM unit :=
  subs ← gets fz_subs;
  let is_it i := bool_decide (si_unsubHandle i = Some handle) in
  match list_find (λ i, is_it i = true) subs with
  | None => throw FExit
  | Some (idx, info) =>
      comms_assert (negb (si_unsubscribed info)) ;;
      modify (λ a, fz_set_subs (alter (si_set_unsubHandle None) idx (fz_subs a)) a) ;;
      if negb (bool_decide (status = AsyncOpStatus_Complete)) then mret tt
      else modify (λ a, fz_set_subs (alter (si_set_unsubscribed true) idx (fz_subs a)) a)
  end.

(** The callback for an event. *)
Definition fuzz_callback (e : Event) : FM unit :=
  match e with
  | EvNextTickProgram duration => fz_nextTickProgramCb duration
  | EvCancelNextTickWait => _ ← fz_cancelNextTickWaitCb; mret tt
  | EvSendOutputData _ buf => sendOutputDataCb buf
  | EvBrokerDisconnectReport _ => brokerDisconnectReportCb
  | EvMessageReceived _ => mret tt
  | EvConnectComplete _ _ status response => connectCompleteCb status response
  | EvSubscribeComplete op _ status codes => subscribeCompleteCb op status codes
  | EvUnsubscribeComplete op _ status => unsubscribeCompleteCb op status
  | EvPublishComplete _ _ status => publishCompleteCb status
  | EvApp _ => mret tt
  end.

Definition fuzz_on_event (a : FuzzState) (e : Event) : FuzzState :=
  match fuzz_callback e a with Ok _ a' => a' | Fault _ => a end.

Definition fuzz_absorb (a : FuzzState) (evs : list Event) : FuzzState := foldl fuzz_on_event a evs.
End callbacks.

(** ** The callbacks, as the reaction of the client *)

Section client.
  Context `{Config} `{CommsLib} `{GeneratorLib} `{App}.

(** A received message is published again. *)
Definition messageReceivedReportCb (info : CC_Mqtt311MessageInfo) : M ClientImpl unit :=
  p ← api_publish_prepare true;
  match p : Prepared with
  | (publish, ec) =>
      comms_assert (bool_decide (ec = ErrorCode_Success)) ;;
      match publish with
      | None => mret tt
      | Some _ =>
          ec ← api_publish_config publish (Some {|
            pc_topic := Some (mi_topic info);
            pc_data := match mi_data info with [] => None | data => Some data end;
            pc_dataLen := mi_dataLen info;
            pc_qos := mi_qos info;
            pc_retain := mi_retained info |});
          if negb (bool_decide (ec = ErrorCode_Success)) then
            _ ← api_publish_cancel publish; mret tt
          else
            _ ← api_publish_send publish (Some 0); mret tt
      end
  end.

Definition fuzz_react (members : list Event → FuzzState) (e : Event) : M ClientImpl unit := λ s,
  match fuzz_callback e (members (removelast (g_trace s))) with
  | Fault f => Fault f
  | Ok _ _ =>
      match e with
      | EvMessageReceived info => messageReceivedReportCb info s
      | EvConnectComplete _ _ status response =>
          when (accepted_response status response)
            (connected ← api_is_connected true; comms_assert connected) s
      | _ => Ok tt s
      end
  end.
End client.

Section driver.
  Context `{Config} `{CommsLib} `{GeneratorLib} `{SizeLib} (opts : Fuzz.ProgramOptions).

(** The driver in a call of the client, which starts with the members [a] after the
    first [n] events. *)
Definition fuzz_members (a : FuzzState) (n : nat) (tr : list Event) : FuzzState :=
  fuzz_absorb a (drop n tr).

Fixpoint fuzz_app (a : FuzzState) (n resume_bound depth : nat) : App := {|
  app_react := λ e,
    match depth with
    | O => throw FFuel
    | S depth' =>
        fuzz_react (H2 := fuzz_app a n resume_bound depth') (fuzz_members a n) e
    end;
  app_elapsed := λ tr,
    match fz_cancelNextTickWaitCb (fuzz_members a n (removelast tr)) with
    | Ok diff _ => diff
    | Fault _ => 0%Z
    end;
  app_fuel := resume_bound;
|}.

(** ** The state of the driver *)

(** [input] are the results of the reads to come; when there are no more, a read
    returns 0.  [fp_consumed] are the bytes that the client has consumed. *)
Record FuzzProgram := MkFuzzProgram {
  fp_client : ClientImpl;
  fp_app : FuzzState;
  fp_input : list bytes;
  fp_consumed : bytes;
}.

Abbreviation PM := (M FuzzProgram).

Context (depth resume_bound : nat).

Definition fuzz_app_in (p : FuzzProgram) : App :=
  fuzz_app (fp_app p) (length (g_trace (fp_client p))) resume_bound depth.

Definition fuzz_call {A} (m : App → M ClientImpl A) : PM A := λ p,
  match m (fuzz_app_in p) (fp_client p) with
  | Ok x s => Ok x (MkFuzzProgram s
      (fuzz_members (fp_app p) (length (g_trace (fp_client p))) (g_trace s))
      (fp_input p) (fp_consumed p))
  | Fault f => Fault f
  end.

Definition on_fuzz {A} (m : FM A) : PM A :=
  zoom fp_app (λ a p, MkFuzzProgram (fp_client p) a (fp_input p) (fp_consumed p)) m.

Definition getf {A} (f : FuzzState → A) : PM A := gets (f ∘ fp_app).
Definition setf (f : FuzzState → FuzzState) : PM unit := on_fuzz (modify f).

Definition ok_code (ec : CC_Mqtt311ErrorCode) : bool := bool_decide (ec = ErrorCode_Success).

(** A getter of the options, which may throw. *)
Definition fuzz_opt {A} (v : option A) : PM A :=
  match v with Some x => mret x | None => throw FThrow end.

(** ** Steps of the loop *)

Definition doReinit : PM unit :=
  setf (fz_set_reinitRequired false) ;;
  setf (fz_set_disconnected false) ;;
  setf (fz_set_publishCount 0) ;;
  setf (fz_set_connected false).

(** An assertion, and the test that follows it in a build without assertions. *)
Definition assert_or_exit (b : bool) : PM unit :=
  comms_assert b ;; if b then mret tt else throw FExit.

Definition doConnect : PM unit :=
  setf (fz_set_connected false) ;;
  p ← fuzz_call (λ app, api_connect_prepare true);
  let '(connect, ec) := p : Prepared in
  comms_assert (bool_decide (is_Some connect)) ;;
  comms_assert (ok_code ec) ;;
  (if bool_decide (is_Some connect) then mret tt else throw FExit) ;;
  firstConnect ← getf fz_firstConnect;
  clientId ← fuzz_opt (Fuzz.clientId opts);
  let noId := bool_decide (clientId = "") in
  ec ← fuzz_call (λ app, api_connect_config connect (Some {|
    cc_clientId := if noId then None else Some (c_str clientId);
    cc_username := None; cc_password := None; cc_passwordLen := 0;
    cc_keepAlive := DefaultKeepAlive;
    cc_cleanSession := firstConnect || noId |}));
  assert_or_exit (ok_code ec) ;;
  ec ← fuzz_call (λ app, api_connect_send connect (Some 0));
  assert_or_exit (ok_code ec) ;;
  setf (fz_set_connectRequired false).

(** Member [f] of the subscription at [idx]. *)
Definition set_sub (idx : nat) (f : SubscribeInfo → SubscribeInfo) : PM unit :=
  setf (λ a, fz_set_subs (alter f idx (fz_subs a)) a).

(** [for (auto& subInfo : m_state.m_subs)]: the members of each are read in turn. *)
Definition for_subs (body : nat → SubscribeInfo → PM unit) : PM unit :=
  n ← getf (λ a, length (fz_subs a));
  mapM_ (λ idx,
    subs ← getf fz_subs;
    match subs !! idx with
    | None => throw FRange
    | Some subInfo => body idx subInfo
    end) (seq 0 n).

(** The loop that weakens a topic until the client takes it, one unit of fuel for each
    iteration. *)
Fixpoint subscribe_config_loop (fuel : nat) (handle : option addr) (topic : string) (maxQos : Z)
    : PM unit :=
  match fuel with
  | O => throw FFuel
  | S fuel' =>
      ec ← fuzz_call (λ app, api_subscribe_config_topic handle
        (Some {| st_topic := Some topic; st_maxQos := maxQos |}));
      if ok_code ec then mret tt
      else if (QoS_AtMostOnceDelivery <? maxQos)%Z then
        subscribe_config_loop fuel' handle topic (maxQos - 1)
      else
        match find_wildcard topic with
        | Some _ => subscribe_config_loop fuel' handle "some/topic" QoS_ExactlyOnceDelivery
        | None => mret tt
        end
  end.

(** As many as the loop needs, [subscribe_config_enough]. *)
Definition subscribe_config_fuel : nat := MaxQos + 4.

Definition doSubscribe (idx : nat) (subInfo : SubscribeInfo) : PM unit :=
  if bool_decide (is_Some (si_subHandle subInfo)) || si_acked subInfo then mret tt
  else
    p ← fuzz_call (λ app, api_subscribe_prepare true);
    let '(handle, ec) := p : Prepared in
    set_sub idx (si_set_subHandle handle) ;;
    if bool_decide (handle = None) then set_sub idx (si_set_acked true)
    else
      comms_assert (ok_code ec) ;;
      mapM_ (λ t,
        comms_assert (negb (bool_decide (t = ""))) ;;
        subscribe_config_loop subscribe_config_fuel handle (c_str t)
          (st_maxQos client_subscribe_init_config_topic)) (si_topics subInfo) ;;
      ec ← fuzz_call (λ app, api_subscribe_send handle (Some 0));
      if negb (ok_code ec) then
        set_sub idx (si_set_subHandle None) ;; set_sub idx (si_set_acked true)
      else mret tt.

Definition doSubscribeIfNeeded : PM unit := for_subs doSubscribe.

(** The loop that switches the verification of topics off when the client refuses one. *)
Fixpoint unsubscribe_config_loop (fuel : nat) (handle : option addr) (topic : string) : PM unit :=
  match fuel with
  | O => throw FFuel
  | S fuel' =>
      ec ← fuzz_call (λ app, api_unsubscribe_config_topic handle (Some {| ut_topic := Some topic |}));
      if ok_code ec then mret tt
      else
        verify ← fuzz_call (λ app, api_get_verify_outgoing_topic_enabled true);
        if negb verify then
          _ ← fuzz_call (λ app, api_unsubscribe_cancel handle); mret tt
        else
          _ ← fuzz_call (λ app, api_set_verify_outgoing_topic_enabled true false);
          unsubscribe_config_loop fuel' handle topic
  end.

Definition doUnsubscribe (idx : nat) (subInfo : SubscribeInfo) : PM unit :=
  if bool_decide (is_Some (si_unsubHandle subInfo)) || si_unsubscribed subInfo then mret tt
  else
    p ← fuzz_call (λ app, api_unsubscribe_prepare true);
    let '(handle, ec) := p : Prepared in
    set_sub idx (si_set_unsubHandle handle) ;;
    if bool_decide (handle = None) then set_sub idx (si_set_unsubscribed true)
    else
      comms_assert (ok_code ec) ;;
      mapM_ (λ t,
        comms_assert (negb (bool_decide (t = ""))) ;;
        unsubscribe_config_loop 2 handle (c_str t)) (si_topics subInfo) ;;
      ec ← fuzz_call (λ app, api_unsubscribe_send handle (Some 0));
      if negb (ok_code ec) then
        set_sub idx (si_set_unsubHandle None) ;; set_sub idx (si_set_unsubscribed true)
      else mret tt.

Definition doUnsubscribeIfNeeded : PM unit :=
  count ← getf fz_publishCount;
  minCount ← fuzz_opt (Fuzz.minPubCount opts);
  if (count <? minCount)%Z then mret tt
  else
    subs ← getf fz_subs;
    if negb (forallb si_acked subs) then mret tt else for_subs doUnsubscribe.

Definition doDisconnectIfNeeded : PM unit :=
  disconnected ← getf fz_disconnected;
  if disconnected : bool then mret tt
  else
    subs ← getf fz_subs;
    if negb (forallb si_unsubscribed subs) then mret tt
    else
      setf (fz_set_disconnected true) ;;
      setf (fz_set_reinitRequired true) ;;
      setf (fz_set_connected false) ;;
      _ ← fuzz_call (λ app, api_disconnect true); mret tt.

(** What the loop does before it reads. *)
Definition drive : PM unit :=
  reinit ← getf fz_reinitRequired;
  when reinit doReinit ;;
  connectRequired ← getf fz_connectRequired;
  if connectRequired : bool then doConnect
  else
    connected ← fuzz_call (λ app, api_is_connected true);
    m_connected ← getf fz_connected;
    if negb connected then comms_assert (negb m_connected)
    else
      comms_assert m_connected ;;
      doSubscribeIfNeeded ;;
      doUnsubscribeIfNeeded ;;
      doDisconnectIfNeeded.

(** The read, unless there is a generator, and whether there is no more to read. *)
Definition read_input : PM (bytes * bool) :=
  generator ← getf fz_generator;
  match generator with
  | Some _ => mret ([], true)
  | None =>
      input ← gets fp_input;
      match input with
      | [] => mret ([], true)
      | data :: rest =>
          modify (λ p, MkFuzzProgram (fp_client p) (fp_app p) rest (fp_consumed p)) ;;
          mret (data, bool_decide (data = []))
      end
  end.

(** The bytes from the front that are too many for an [unsigned]. *)
Definition excess (n : nat) : nat := Z.to_nat (Z.of_nat n - u32_max).
Definition MinLen : nat := idAndFlags_minLength + size_minLength.

(** The bytes of the first message, or all when its length cannot be read. *)
Definition process_length (data : bytes) : nat :=
  match size_field (drop idAndFlags_minLength data) with
  | Some (fieldLength, value) => Nat.min (length data) (idAndFlags_minLength + fieldLength + value)
  | None => length data
  end.

(** The end of the input: the network is reported disconnected, the second time the
    loop ends. *)
Definition report_end : PM bool :=
  down ← fuzz_call (λ app, api_is_network_disconnected true);
  if down : bool then mret false
  else
    fuzz_call (λ app, api_notify_network_disconnected true) ;;
    on_fuzz brokerDisconnectReportCb ;;
    mret true.

Definition consume (n : nat) (data : bytes) : PM unit :=
  modify (λ p, MkFuzzProgram (fp_client p) (fp_app p) (fp_input p) (fp_consumed p ++ take n data)).

(** What is kept of [inData] and the bytes read, as [dataPtr] and [dataLen]. *)
Definition joined_data (inData buf : bytes) : bytes :=
  let joined := inData ++ buf in
  if bool_decide (inData = []) then buf else drop (excess (length joined)) joined.

(** The rest of an iteration after the read; the result is false when the loop ends. *)
Definition handle_input (buf : bytes) (noMoreRead : bool) : PM bool :=
  inData ← getf fz_inData;
  let hasPrevData := negb (bool_decide (inData = [])) in
  let data := joined_data inData buf in
  when hasPrevData (setf (fz_set_inData data)) ;;
  if length data <? MinLen then
    if negb noMoreRead then mret true else report_end
  else
    down ← fuzz_call (λ app, api_is_network_disconnected true);
    consumed ← (if negb down
      then fuzz_call (λ app, api_process_data true (take (process_length data) data))
      else mret 0);
    consume consumed data ;;
    if (consumed =? 0) && noMoreRead then report_end
    else
      (if (length data <=? consumed) && negb hasPrevData then setf (fz_set_inData [])
       else if negb hasPrevData then setf (fz_set_inData (drop consumed data))
       else setf (λ a, fz_set_inData (drop consumed (fz_inData a)) a)) ;;
      mret true.

(** One iteration. *)
Definition fuzz_iteration : PM bool :=
  down ← fuzz_call (λ app, api_is_network_disconnected true);
  if down : bool then mret false
  else
    drive ;;
    r ← read_input;
    let '(buf, noMoreRead) := r : bytes * bool in
    handle_input buf noMoreRead.

(** The loop, one unit of fuel for each iteration; the result is whether it has ended. *)
Fixpoint fuzz_loop (fuel : nat) : PM bool :=
  match fuel with
  | O => mret false
  | S fuel' =>
      continue ← fuzz_iteration;
      if continue : bool then fuzz_loop fuel' else mret true
  end.

(** ** The start *)

(** [opens]: whether the file for the output of the generator can be opened. *)
Definition createGeneratorIfNeeded (opens : bool) : PM bool :=
  inputFile ← fuzz_opt (Fuzz.genInputFile opts);
  if bool_decide (inputFile = "") then mret true
  else
    minPubCount ← fuzz_opt (Fuzz.minPubCount opts);
    if negb opens then setf (fz_set_generator (Some (Generator_new minPubCount))) ;; mret false
    else
      setf (fz_set_generator (Some (gen_set_hasDataReportCb true (Generator_new minPubCount)))) ;;
      mret true.

Definition AflFuzz_init (opens : bool) : PM bool :=
  created ← createGeneratorIfNeeded opens;
  if negb created then mret false
  else
    subTopics ← fuzz_opt (Fuzz.subTopics opts);
    setf (λ a, fz_set_subs (fz_subs a ++ (SubscribeInfo_new <$> subTopics)) a) ;;
    fuzz_call (λ app, api_set_callbacks true Callbacks_all) ;;
    mret true.

(** [run], with the destruction of the client. *)
Definition AflFuzz_run (fuel : nat) : PM bool :=
  ended ← fuzz_loop fuel;
  if ended : bool then fuzz_call (λ app, api_free) ;; mret true else mret false.

Definition AflFuzz_new (input : list bytes) : FuzzProgram :=
  MkFuzzProgram ClientImpl_new FuzzState_new input [].
End driver.

(** [main]: what the process returns; [None] while it runs. *)
Definition fuzz_main `{Config} `{CommsLib} `{GeneratorLib} `{SizeLib} `{Parser}
    (log_opens gen_opens : bool) (depth resume_bound fuel : nat) (args : list string)
    (input : list bytes) : option Z :=
  match Fuzz.parseArgs args Fuzz.ProgramOptions_new with
  | Fault _ => None
  | Ok _ opts =>
      if Fuzz.helpRequested opts then Some (-1)%Z
      else if Fuzz.hasLogFile opts && negb log_opens then Some (-1)%Z
      else
        match (ok ← AflFuzz_init opts depth resume_bound gen_opens;
               if negb ok then mret (Some (-1)%Z)
               else ended ← AflFuzz_run opts depth resume_bound fuel;
                    mret (if ended : bool then Some 0%Z else None)) (AflFuzz_new input) with
        | Ok r _ => r
        | Fault FExit => Some (-1)%Z
        | Fault _ => None
        end
  end.
