(* ===== verification/FuzzDriver.v ===== *)
(** * What the fuzzing driver does

    The loop of client/afl_fuzz/AflFuzz.cpp.templ ends when its input ends, hands the
    bytes that it reads to the client in order, and keeps the client in the states
    that the theorems on requests are about. *)

From S2P Require Import Prelude SortedVec Config Protocol Topic Generator PacketId TimerMgr State.
From S2P Require Import Lifecycle Completion Session SendOp RecvOp SubscribeOp ConnectOp.
From S2P Require Import Client Invariant Objects Termination Frame Ownership Preservation.
From S2P Require Import Scenarios Requests Safety Api Options AppSession AflFuzz.

(** ** The reaction to a callback *)

Section reaction.
  Context `{Config} `{CommsLib} `{GeneratorLib} `{App} (C : Contract ClientImpl).
Abbreviation ckeeps := (keeps (Contract0 := C)).
  Context (Hf : ∀ f, ct_faults (Contract := C) f).

(** It publishes, and does nothing else to the client. *)
Lemma ckeeps_fuzz_react members e :
  ckeeps publishPrepare → (∀ a x, ckeeps (SendOp_config a x)) →
  (∀ a cb, ckeeps (SendOp_send a cb)) → (∀ a, ckeeps (SendOp_cancel a)) →
  ckeeps (fuzz_react members e).
Proof.
  intros Hprepare Hconfig Hsend Hcancel.
  assert (∀ b, ckeeps (comms_assert b)) as Hassert by (intros b; by apply keeps_comms_assert).
  assert (∀ e', ckeeps (match e' with
    | EvMessageReceived info => messageReceivedReportCb info
    | EvConnectComplete _ _ status response =>
        when (accepted_response status response)
          (connected ← api_is_connected true; comms_assert connected)
    | _ => mret tt end)) as Hclient.
  { intros e'. unfold messageReceivedReportCb, api_publish_prepare, checked_prepare, checked_client,
      api_publish_config, checked_config, api_publish_cancel, api_publish_send, checked_op,
      api_is_connected, checked_client.
    destruct e'; repeat first [ apply Hprepare | apply Hconfig | apply Hsend | apply Hcancel
      | apply Hassert | keeps_step ]. }
  intros s Hs. unfold fuzz_react. specialize (Hclient e s Hs). unfold wp in *.
  destruct (fuzz_callback _ _) as [[] a|f]; [|by apply Hf]. by destruct e.
Qed.
End reaction.

(** ** What the steps before a read keep *)

Section driver.
  Context `{Config} `{CommsLib} `{GeneratorLib} `{SizeLib} (opts : Fuzz.ProgramOptions).
  Context (depth resume_bound : nat).
Abbreviation fuzz_call := (fuzz_call depth resume_bound).
Abbreviation app_in := (fuzz_app_in depth resume_bound).
Abbreviation drive := (drive opts depth resume_bound).
Abbreviation fuzz_loop := (fuzz_loop opts depth resume_bound).
Abbreviation fuzz_iteration := (fuzz_iteration opts depth resume_bound).

Section drive.
  Context (P : Contract FuzzProgram) (Pf : ∀ f, ct_faults (Contract := P) f).
Abbreviation pkeeps := (keeps (Contract0 := P)).
  Context (Pcall : ∀ A (m : App → M ClientImpl A),
    (∀ p, by_requests (H1 := app_in p) (m (app_in p))) → pkeeps (fuzz_call m)).
  Context (Pset : ∀ f, (∀ a, fz_generator (f a) = fz_generator a ∧ fz_inData (f a) = fz_inData a) →
    pkeeps (setf f)).

Lemma pkeeps_assert b : pkeeps (comms_assert b).
Proof. by apply keeps_comms_assert. Qed.

Lemma pkeeps_throw {A} f : pkeeps (throw (A := A) f).
Proof. by apply keeps_throw. Qed.

Lemma pkeeps_getf {A} (f : FuzzState → A) : pkeeps (getf f).
Proof. apply keeps_gets. Qed.

Lemma pkeeps_opt {A} (v : option A) : pkeeps (fuzz_opt v).
Proof. destruct v; [apply keeps_ret | apply pkeeps_throw]. Qed.

Lemma pkeeps_set_sub idx f : pkeeps (set_sub idx f).
Proof. by apply Pset. Qed.

Lemma pkeeps_for_subs body : (∀ idx i, pkeeps (body idx i)) → pkeeps (for_subs body).
Proof.
  intros Hb. apply keeps_bind; [apply pkeeps_getf|]. intros n. apply keeps_mapM_. intros idx.
  apply keeps_bind; [apply pkeeps_getf|]. intros subs. case_match; [apply Hb | apply pkeeps_throw].
Qed.

(** A call of the interface. *)
Ltac pcall := apply Pcall; intros p;
  first [apply (by_application_calls (H1 := app_in p)) | apply (by_fuzz_calls (H1 := app_in p))].

Ltac pkeeps_auto := repeat first
  [ apply pkeeps_assert | apply pkeeps_throw | apply pkeeps_getf | apply pkeeps_opt
  | apply pkeeps_set_sub | by apply Pset | solve [pcall] | assumption | keeps_step ].

Lemma pkeeps_doConnect : pkeeps (doConnect opts depth resume_bound).
Proof. unfold doConnect, assert_or_exit. pkeeps_auto. Qed.

Lemma pkeeps_subscribe_config_loop fuel handle topic maxQos :
  pkeeps (subscribe_config_loop depth resume_bound fuel handle topic maxQos).
Proof.
  revert topic maxQos. induction fuel as [|fuel IH]; intros topic maxQos;
    cbn [subscribe_config_loop]; pkeeps_auto; apply IH.
Qed.

Lemma pkeeps_unsubscribe_config_loop fuel handle topic :
  pkeeps (unsubscribe_config_loop depth resume_bound fuel handle topic).
Proof.
  induction fuel as [|fuel IH]; cbn [unsubscribe_config_loop]; pkeeps_auto.
Qed.

Lemma pkeeps_drive : pkeeps drive.
Proof.
  assert (∀ idx i, pkeeps (doSubscribe depth resume_bound idx i)) as Hsub.
  { intros idx i. unfold doSubscribe. pkeeps_auto. apply pkeeps_subscribe_config_loop. }
  assert (∀ idx i, pkeeps (doUnsubscribe depth resume_bound idx i)) as Hunsub.
  { intros idx i. unfold doUnsubscribe. pkeeps_auto. apply pkeeps_unsubscribe_config_loop. }
  pose proof pkeeps_doConnect as Hcon.
  unfold AflFuzz.drive, doReinit, doSubscribeIfNeeded, doUnsubscribeIfNeeded, doDisconnectIfNeeded.
  pkeeps_auto; by apply pkeeps_for_subs.
Qed.
End drive.

(** ** The client stays in the states of its invariant *)

Section safe.
  Context `{!CommsLaws}.

Definition fuzz_safe : Contract FuzzProgram := {|
  ct_inv := λ p, Inv (fp_client p);
  ct_rel := λ p p', evolves (fp_client p) (fp_client p');
  ct_faults := any_fault;
  ct_pre := ltac:(split; [intros p; reflexivity | intros p1 p2 p3; apply transitivity]);
|}.
Abbreviation skeeps := (keeps (Contract0 := fuzz_safe)).

#[local] Instance fuzz_app_contract a n d : AppContract (H0 := fuzz_app a n resume_bound d).
Proof.
  induction d as [|d IH]; intros e; [by apply keeps_throw|].
  set (app := fuzz_app a n resume_bound d).
  apply (ckeeps_fuzz_react (H2 := app) client_contract); [done|..].
  - apply keeps_publishPrepare.
  - apply keeps_SendOp_config.
  - apply keeps_SendOp_send.
  - apply keeps_SendOp_cancel.
Qed.

Lemma skeeps_call {A} (m : App → M ClientImpl A) :
  (∀ p, keeps (Contract0 := client_contract) (m (app_in p))) → skeeps (fuzz_call m).
Proof.
  intros Hm p Hp. specialize (Hm p (fp_client p) Hp). unfold wp, AflFuzz.fuzz_call in *.
  by destruct (m (app_in p) (fp_client p)).
Qed.

Lemma skeeps_api {A} (m : App → M ClientImpl A) :
  (∀ p, by_requests (H1 := app_in p) (m (app_in p))) → skeeps (fuzz_call m).
Proof.
  intros Hm. apply skeeps_call. intros p.
  apply (keeps_by_requests (H1 := app_in p) client_contract); [done | | apply Hm].
  intros r. apply (keeps_run_request (H2 := app_in p)).
Qed.

Lemma skeeps_on_fuzz {A} (m : M FuzzState A) : skeeps (on_fuzz m).
Proof. intros p Hp. apply wp_zoom. unfold wp.
  destruct (m (fp_app p)); [split; [exact Hp | simpl; reflexivity] | done].
Qed.

Lemma skeeps_loop fuel : skeeps (fuzz_loop fuel).
Proof.
  assert (∀ A (f : FuzzProgram → A), skeeps (gets f)) as Hgets by (intros; apply keeps_gets).
  assert (∀ m : App → M ClientImpl bool, m = (λ app, api_is_network_disconnected true) →
    skeeps (fuzz_call m)) as Hdown.
  { intros m ->. apply skeeps_api. intros p. apply (by_fuzz_calls (H1 := app_in p)). }
  assert (skeeps (report_end depth resume_bound)) as Hend.
  { apply keeps_bind; [by apply Hdown|]. intros [|]; [apply keeps_ret|].
    apply keeps_bind; [apply skeeps_api; intros p; apply (by_application_calls (H1 := app_in p))|].
    intros _. apply keeps_bind; [apply skeeps_on_fuzz | intros _; apply keeps_ret]. }
  assert (skeeps drive) as Hdrive.
  { apply pkeeps_drive; [done | apply @skeeps_api | intros; apply skeeps_on_fuzz]. }
  assert (skeeps fuzz_iteration) as Hit.
  { unfold AflFuzz.fuzz_iteration, handle_input, read_input, getf, consume, setf. cbv zeta.
    repeat first [ by apply Hdown | apply Hgets | apply Hdrive | apply Hend | apply skeeps_on_fuzz
      | solve [apply keeps_modify; intros p Hp; split; [exact Hp | simpl; reflexivity]]
      | solve [apply skeeps_api; intros p; apply (by_application_calls (H1 := app_in p))]
      | keeps_step ]. }
  induction fuel as [|fuel IH]; cbn [AflFuzz.fuzz_loop]; [apply keeps_ret|].
  apply keeps_bind; [exact Hit|]. intros [|]; [exact IH | apply keeps_ret].
Qed.
End safe.

(** ** The input, without a generator *)

(** The callbacks leave the pending bytes alone. *)
Definition pending_contract : Contract FuzzState := {|
  ct_inv := λ a, fz_generator a = None;
  ct_rel := λ a a', fz_inData a' = fz_inData a;
  ct_faults := any_fault;
  ct_pre := ltac:(split; [done | intros a1 a2 a3; congruence]);
|}.
Abbreviation dkeeps := (keeps (Contract0 := pending_contract)).

Lemma dkeeps_modify f :
  (∀ a, fz_generator (f a) = fz_generator a) → (∀ a, fz_inData (f a) = fz_inData a) →
  dkeeps (modify f).
Proof. intros Hg Hd. apply keeps_modify. intros a Ha. simpl in *. by rewrite Hg, Hd. Qed.

Lemma dkeeps_callback e : dkeeps (fuzz_callback e).
Proof.
  assert (∀ b, dkeeps (comms_assert b)) as Hassert by (intros b; by apply keeps_comms_assert).
  assert (∀ f, dkeeps (throw (A := unit) f)) as Hthrow by (intros f; by apply keeps_throw).
  assert (∀ buf, dkeeps (sendOutputDataCb buf)) as Hsend.
  { intros buf a Ha. unfold sendOutputDataCb, wp. simpl in Ha. by rewrite Ha. }
  unfold fuzz_callback, fz_nextTickProgramCb, fz_cancelNextTickWaitCb, brokerDisconnectReportCb,
    connectCompleteCb, subscribeCompleteCb, unsubscribeCompleteCb, publishCompleteCb.
  destruct e; cbv zeta; repeat first [apply Hassert | apply Hthrow | apply Hsend
    | by apply dkeeps_modify | keeps_step].
Qed.

Lemma fuzz_members_pending a n tr :
  fz_generator a = None →
  fz_generator (fuzz_members a n tr) = None ∧ fz_inData (fuzz_members a n tr) = fz_inData a.
Proof.
  unfold fuzz_members, fuzz_absorb. generalize (drop n tr). intros evs. revert a.
  induction evs as [|e evs IH]; intros a Ha; simpl; [done|].
  assert (fz_generator (fuzz_on_event a e) = None ∧ fz_inData (fuzz_on_event a e) = fz_inData a)
    as [Hg Hd].
  { unfold fuzz_on_event. pose proof (dkeeps_callback e a Ha) as Hk. unfold wp in Hk.
    by destruct (fuzz_callback e a) as [[] a'|]. }
  destruct (IH _ Hg) as [-> ->]. by rewrite Hd.
Qed.

(** A step that neither reads nor consumes. *)
Definition same_input (p p' : FuzzProgram) : Prop :=
  fz_inData (fp_app p') = fz_inData (fp_app p) ∧ fp_input p' = fp_input p ∧
  fp_consumed p' = fp_consumed p.

Lemma same_input_preorder : PreOrder same_input.
Proof.
  split; [by intros p|]. intros p1 p2 p3 (Ha & Hb & Hc) (Ha' & Hb' & Hc').
  split_and!; congruence.
Qed.

Definition input_contract : Contract FuzzProgram := {|
  ct_inv := λ p, fz_generator (fp_app p) = None;
  ct_rel := same_input;
  ct_faults := any_fault;
  ct_pre := same_input_preorder;
|}.
Abbreviation ikeeps := (keeps (Contract0 := input_contract)).

Lemma ikeeps_call {A} (m : App → M ClientImpl A) : ikeeps (fuzz_call m).
Proof.
  intros p Hp. unfold wp, AflFuzz.fuzz_call. destruct (m (app_in p) (fp_client p)) as [x s|]; [|done].
  destruct (fuzz_members_pending (fp_app p) (length (g_trace (fp_client p))) (g_trace s) Hp) as [Hg Hd].
  split; [exact Hg | by split].
Qed.

Lemma ikeeps_on_fuzz {A} (m : M FuzzState A) : dkeeps m → ikeeps (on_fuzz m).
Proof.
  intros Hm p Hp. apply wp_zoom. eapply wp_mono; [by apply Hm|]. intros x a [Ha Hd].
  split; [exact Ha | by split].
Qed.

Lemma ikeeps_drive : ikeeps drive.
Proof.
  apply pkeeps_drive; [done | intros; apply ikeeps_call|].
  intros f Hf. apply ikeeps_on_fuzz, dkeeps_modify; intros a; apply Hf.
Qed.

Lemma ikeeps_report_end : ikeeps (report_end depth resume_bound).
Proof.
  unfold report_end, brokerDisconnectReportCb.
  repeat first [apply ikeeps_call | apply ikeeps_on_fuzz | by apply dkeeps_modify | keeps_step].
Qed.

(** *** The end of the input *)

Definition is_down (p : FuzzProgram) : Prop := m_networkDisconnected (m_clientState (fp_client p)) = true.

Section down.
  Context (a : FuzzState) (n d : nat).
Abbreviation app := (fuzz_app a n resume_bound d).
Abbreviation nkeeps := (keeps (Contract0 := network_contract true)).

(** Nothing that the driver does in a callback connects the network again. *)
Lemma nkeeps_react e : nkeeps (app_react (App := app) e).
Proof.
  induction d as [|d' IH] in e |- *; [by apply keeps_throw|].
  set (app' := fuzz_app a n resume_bound d').
  assert (Stable (network_contract true)) as Hst.
  { apply network_stable. intros e' _. apply keeps_bind; [by apply keeps_modify | intros _; apply IH]. }
  assert (∀ idx, nkeeps (resumeSendOpsSince idx)) as Hresume.
  { intros idx. by apply (fkeeps_resumeSendOpsSince_bound (network_contract true)). }
  apply (ckeeps_fuzz_react (network_contract true)); [done|..]; intros;
    first [ apply (fkeeps_prepare_ops (network_contract true))
      | by apply (fkeeps_SendOp_requests (network_contract true) Hresume) ].
Qed.

(** The notification sets the flag, and what follows leaves it. *)
Lemma wp_notify_down s :
  wp any_fault (api_notify_network_disconnected (H1 := app) true)
    (λ _ s', m_networkDisconnected (m_clientState s') = true) s.
Proof.
  assert (Stable (H0 := app) (network_contract true)) as Hst.
  { apply (network_stable (H0 := app)). intros e _.
    apply keeps_bind; [by apply keeps_modify | intros _; apply nkeeps_react]. }
  assert (∀ idx, nkeeps (resumeSendOpsSince (H1 := app) idx)) as Hresume.
  { intros idx. by apply (fkeeps_resumeSendOpsSince_bound (network_contract true)). }
  unfold api_notify_network_disconnected, asserted_client, deref_client.
  apply wp_bind, wp_comms_assert; [done|]. unfold notifyNetworkDisconnected, with_guard.
  apply wp_bind. unfold wp at 1. destruct (doApiEnter s) as [[] s1|]; [|done].
  apply wp_bind, wp_bind, wp_zoom, wp_modify.
  match goal with |- wp _ ?m _ ?s0 => assert (nkeeps m) as Hm; [|eapply wp_mono; [by apply (Hm s0)|]] end.
  - apply keeps_bind; [apply keeps_gets|]. intros [|]; [apply keeps_ret|].
    by apply (fkeeps_brokerDisconnected (network_contract true) Hresume).
  - intros x s2 [Hs2 _]. apply wp_bind.
    eapply wp_mono; [exact (fkeeps_doApiExit (network_contract true) s2 Hs2)|].
    intros [] s3 [Hs3 _]. by apply wp_ret.
Qed.
End down.

Lemma wp_report_end p :
  fz_generator (fp_app p) = None →
  wp any_fault (report_end depth resume_bound) (λ continue p',
    fz_generator (fp_app p') = None ∧ same_input p p' ∧ (continue = true → is_down p')) p.
Proof.
  intros Hp.
  assert (wp any_fault (report_end depth resume_bound) (λ continue p', continue = true → is_down p') p)
    as Hdown.
  { unfold report_end. apply wp_bind. unfold wp at 1.
    destruct (AflFuzz.fuzz_call _ _ _ p) as [[] p1|]; [by apply wp_ret | | done].
    apply wp_bind. pose proof (wp_notify_down (fp_app p1) (length (g_trace (fp_client p1))) depth
      (fp_client p1)) as Hn.
    unfold wp, AflFuzz.fuzz_call in *. unfold fuzz_app_in.
    destruct (api_notify_network_disconnected true (fp_client p1)) as [[] s|]; [|done].
    apply wp_bind, wp_zoom. unfold wp. destruct (brokerDisconnectReportCb _); [|done]. exact (λ _, Hn). }
  eapply wp_mono; [exact (wp_and _ _ _ _ _ _ (ikeeps_report_end p Hp) Hdown)|].
  intros c p' [[Hg Hs] Hd]. by split_and!.
Qed.

(** *** One iteration *)

(** What is pending after a read, before the client is called. *)
Definition kept_data (inData buf : bytes) : bytes :=
  if bool_decide (inData = []) then [] else joined_data inData buf.

(** A read of fewer bytes than a header is lost when nothing is pending, and so are the
    bytes that are too many for an [unsigned]. *)
Definition no_loss (inData buf : bytes) : Prop :=
  (inData = [] → buf = [] ∨ MinLen ≤ length buf) ∧ (Z.of_nat (length (inData ++ buf)) ≤ u32_max)%Z.

Lemma excess_small n : (Z.of_nat n ≤ u32_max)%Z → excess n = 0.
Proof. unfold excess. lia. Qed.

Lemma joined_no_loss inData buf : no_loss inData buf → joined_data inData buf = inData ++ buf.
Proof.
  intros [_ Hl]. unfold joined_data. case_bool_decide; [by subst|]. by rewrite excess_small.
Qed.

Lemma joined_length inData buf : length (joined_data inData buf) ≤ length inData + length buf.
Proof.
  unfold joined_data. case_bool_decide; [lia|]. rewrite length_drop, length_app. lia.
Qed.

Lemma kept_no_loss inData buf :
  no_loss inData buf → buf = [] ∨ length (joined_data inData buf) < MinLen →
  kept_data inData buf = inData ++ buf.
Proof.
  intros Hn Hb. unfold kept_data. case_bool_decide as Hin; [|by apply joined_no_loss].
  subst inData. destruct Hb as [->|Hb]; [done|]. destruct Hn as [Hn _].
  destruct (Hn eq_refl) as [->|?]; [done|]. unfold joined_data in Hb.
  rewrite bool_decide_eq_true_2 in Hb by done. lia.
Qed.

Lemma kept_length inData buf : length (kept_data inData buf) ≤ length inData + length buf.
Proof. unfold kept_data. case_bool_decide; [simpl; lia | apply joined_length]. Qed.

(** After the read: the bytes that the client consumes and those that are kept are the
    ones that were there, and without more input they get fewer. *)
Definition handled (buf : bytes) (noMoreRead : bool) (p : FuzzProgram) (continue : bool)
    (p' : FuzzProgram) : Prop :=
  let inData := fz_inData (fp_app p) in
  fz_generator (fp_app p') = None ∧ fp_input p' = fp_input p ∧
  (no_loss inData buf →
    fp_consumed p' ++ fz_inData (fp_app p') = fp_consumed p ++ inData ++ buf) ∧
  (continue = true → is_down p' ∨
    length (fz_inData (fp_app p')) + (if noMoreRead then 1 else 0) ≤ length inData + length buf).

Lemma handled_kept buf noMoreRead p p1 continue p' :
  fz_generator (fp_app p') = None → same_input p1 p' → fp_input p1 = fp_input p →
  fp_consumed p1 = fp_consumed p → fz_inData (fp_app p1) = kept_data (fz_inData (fp_app p)) buf →
  buf = [] ∨ length (joined_data (fz_inData (fp_app p)) buf) < MinLen →
  (continue = true → is_down p' ∨ noMoreRead = false) →
  handled buf noMoreRead p continue p'.
Proof.
  intros Hg (Hd & Hi & Hc) Hi1 Hc1 Hd1 Hb Hend. split; [done|]. split; [congruence|]. split.
  - intros Hn. by rewrite Hc, Hd, Hc1, Hd1, kept_no_loss.
  - intros Ht. destruct (Hend Ht) as [?| ->]; [by left | right].
    rewrite Hd, Hd1. pose proof (kept_length (fz_inData (fp_app p)) buf). lia.
Qed.

Lemma wp_handle_input buf noMoreRead p :
  0 < MinLen → fz_generator (fp_app p) = None → (noMoreRead = true → buf = []) →
  wp any_fault (handle_input depth resume_bound buf noMoreRead) (handled buf noMoreRead p) p.
Proof.
  intros Hmin Hp Hmore. unfold handle_input. apply wp_bind, wp_gets. cbv zeta. unfold compose.
  set (inData := fz_inData (fp_app p)). set (data := joined_data inData buf).
  apply wp_bind, (wp_mono _ _ (λ _ p1, fz_generator (fp_app p1) = None ∧ fp_input p1 = fp_input p ∧
    fp_consumed p1 = fp_consumed p ∧ fz_inData (fp_app p1) = kept_data inData buf)).
  { unfold kept_data. case_bool_decide as Hin; cbn [negb when]; [by apply wp_ret|].
    by apply wp_zoom, wp_modify. }
  intros _ p1 (Hg1 & Hi1 & Hc1 & Hd1).
  destruct (Nat.ltb_spec (length data) MinLen) as [Hlt|Hge].
  - destruct noMoreRead; cbn [negb].
    + eapply wp_mono; [by apply wp_report_end|]. intros c p' (Hg & Hs & Hdown).
      apply (handled_kept _ _ _ p1); auto.
    + apply wp_ret. apply (handled_kept _ _ _ p1); auto. apply same_input_preorder.
  - apply wp_bind. eapply wp_mono; [by apply ikeeps_call|]. intros down p2 [Hg2 Hs2].
    apply wp_bind. eapply (wp_mono _ _ (λ _ p3, fz_generator (fp_app p3) = None ∧ same_input p2 p3)).
    { destruct down; cbn [negb]; [apply wp_ret; split; [done | apply same_input_preorder]|].
      by apply ikeeps_call. }
    intros n p3 [Hg3 Hs3]. assert (same_input p1 p3) as (Hd & Hi & Hc)
      by (eapply same_input_preorder; eassumption).
    apply wp_bind, wp_modify. set (p4 := MkFuzzProgram _ _ _ _).
    destruct ((n =? 0) && noMoreRead) eqn:Hnone.
    + apply andb_true_iff in Hnone as [->%Nat.eqb_eq Hnm].
      eapply wp_mono; [by apply wp_report_end|]. intros c p' (Hg & (Hd' & Hi' & Hc') & Hdown).
      apply (handled_kept _ _ _ p1); try done; [|by left; apply Hmore | by left; apply Hdown].
      split_and!; [by rewrite Hd' | by rewrite Hi' | rewrite Hc'; simpl; by rewrite app_nil_r].
    + apply wp_bind, (wp_mono _ _ (λ _ p5, fz_generator (fp_app p5) = None ∧
        fp_input p5 = fp_input p4 ∧ fp_consumed p5 = fp_consumed p4 ∧
        fz_inData (fp_app p5) = drop n data)).
      { destruct ((length data <=? n) && _) eqn:Hall; [|destruct (negb _) eqn:Hprev].
        - apply andb_true_iff in Hall as [Hall%Nat.leb_le _]. apply wp_zoom, wp_modify.
          split_and!; try done. by rewrite drop_ge.
        - by apply wp_zoom, wp_modify.
        - apply wp_zoom, wp_modify. split_and!; try done. simpl. rewrite Hd, Hd1.
          unfold kept_data. apply negb_false_iff, negb_true_iff in Hprev. by rewrite Hprev. }
      intros _ p5 (Hg5 & Hi5 & Hc5 & Hd5). apply wp_ret. split; [done|].
      split; [rewrite Hi5; simpl; congruence|]. split.
      * intros Hn. rewrite Hd5, Hc5. simpl. rewrite Hc, Hc1, <- app_assoc, take_drop.
        f_equal. by apply joined_no_loss.
      * intros _. right. fold inData. rewrite Hd5, length_drop.
        assert (length data ≤ length inData + length buf) by apply joined_length.
        destruct noMoreRead; [|lia]. rewrite (Hmore eq_refl) in *. rewrite andb_true_r in Hnone. apply Nat.eqb_neq in Hnone. lia.
Qed.

(** What the client has consumed, what is pending, and what is still to be read. *)
Definition stream (p : FuzzProgram) : bytes :=
  fp_consumed p ++ fz_inData (fp_app p) ++ concat (fp_input p).

(** Reads have at least the bytes of a header, or none; an [unsigned] counts them all. *)
Record good_input (p : FuzzProgram) : Prop := {
  gi_reads : Forall (λ d, d = [] ∨ MinLen ≤ length d) (fp_input p);
  gi_length : (Z.of_nat (length (stream p)) ≤ u32_max)%Z;
}.

(** The iterations that can follow. *)
Definition measure (p : FuzzProgram) : nat :=
  length (fp_input p) + length (concat (fp_input p)) + length (fz_inData (fp_app p)).

Lemma wp_read_input p :
  fz_generator (fp_app p) = None →
  wp any_fault read_input (λ r p', fz_generator (fp_app p') = None ∧
    fz_inData (fp_app p') = fz_inData (fp_app p) ∧ fp_consumed p' = fp_consumed p ∧
    concat (fp_input p) = r.1 ++ concat (fp_input p') ∧ (r.2 = true → r.1 = []) ∧
    length (fp_input p') + (if r.2 then 0 else 1) ≤ length (fp_input p) ∧
    (Forall (λ d, d = [] ∨ MinLen ≤ length d) (fp_input p) →
      (r.1 = [] ∨ MinLen ≤ length r.1) ∧ Forall (λ d, d = [] ∨ MinLen ≤ length d) (fp_input p'))) p.
Proof.
  intros Hp. unfold read_input, getf. apply wp_bind, wp_gets. unfold compose. rewrite Hp.
  apply wp_bind, wp_gets. destruct (fp_input p) as [|d rest] eqn:Hi.
  - apply wp_ret. rewrite Hi. split_and!; auto.
  - apply wp_bind, wp_modify, wp_ret. simpl. split_and!; try done.
    + by intros Hd%bool_decide_eq_true.
    + case_bool_decide; lia.
    + by intros [? ?]%Forall_cons.
Qed.

(** An iteration of a driver without generator. *)
Definition iterated (p : FuzzProgram) (continue : bool) (p' : FuzzProgram) : Prop :=
  fz_generator (fp_app p') = None ∧
  (good_input p → stream p' = stream p ∧ good_input p') ∧
  (continue = true → is_down p' ∨ measure p' < measure p) ∧
  (is_down p → continue = false).

Lemma same_input_stream p p' :
  same_input p p' → stream p' = stream p ∧ measure p' = measure p ∧ (good_input p → good_input p').
Proof.
  intros (Hd & Hi & Hc). unfold stream, measure. rewrite Hd, Hi, Hc. split_and!; try done.
  intros [Hr Hl]. split; unfold stream; by rewrite ?Hd, ?Hi, ?Hc.
Qed.

Lemma wp_is_down p :
  fz_generator (fp_app p) = None →
  wp any_fault (fuzz_call (λ app, api_is_network_disconnected true)) (λ down p',
    fz_generator (fp_app p') = None ∧ same_input p p' ∧ (is_down p → down = true)) p.
Proof.
  intros Hp.
  assert (wp any_fault (fuzz_call (λ app, api_is_network_disconnected true))
    (λ down _, is_down p → down = true) p) as Hdown.
  { unfold wp, AflFuzz.fuzz_call, api_is_network_disconnected, asserted_client, mbind, M_bind,
      comms_assert. by destruct Asserts; simpl. }
  eapply wp_mono; [exact (wp_and _ _ _ _ _ _ (ikeeps_call _ p Hp) Hdown)|].
  intros c p' [[Hg Hs] Hd]. by split_and!.
Qed.

Lemma wp_fuzz_iteration p :
  0 < MinLen → fz_generator (fp_app p) = None → wp any_fault fuzz_iteration (iterated p) p.
Proof.
  intros Hmin Hp. unfold AflFuzz.fuzz_iteration. apply wp_bind.
  eapply wp_mono; [by apply wp_is_down|]. intros down p1 (Hg1 & Hs1 & Hd1).
  destruct down.
  { destruct (same_input_stream _ _ Hs1) as (Hst & _ & Hgood). apply wp_ret. split; [done|]. split; [auto | done]. }
  assert (¬ is_down p) as Hup by (intros Hd; by specialize (Hd1 Hd)).
  apply wp_bind. eapply wp_mono; [by apply ikeeps_drive|]. intros _ p2 [Hg2 Hs2].
  assert (same_input p p2) as Hs by (eapply same_input_preorder; eassumption).
  apply wp_bind. eapply wp_mono; [by apply wp_read_input|].
  intros [buf noMore] p3 (Hg3 & Hd3 & Hc3 & Hcat & Hmore & Hlen & Hreads). simpl in *.
  eapply wp_mono; [by apply wp_handle_input|]. intros c p4 (Hg4 & Hi4 & Hst4 & Hm4). simpl in Hst4.
  destruct Hs as (Hd & Hi & Hc). rewrite Hi in *. rewrite Hd3, Hc3, Hd, Hc in *.
  split; [done|]. split; [|split; [|done]].
  - intros [Hr Hl]. specialize (Hreads Hr) as [Hb Hr'].
    assert (stream p = fp_consumed p ++ (fz_inData (fp_app p) ++ buf) ++ concat (fp_input p3)) as Hst.
    { unfold stream. by rewrite Hcat, <- !app_assoc. }
    assert (no_loss (fz_inData (fp_app p)) buf) as Hn.
    { split; [done|]. rewrite Hst, !length_app in Hl. rewrite length_app. lia. }
    assert (stream p4 = stream p) as Heq.
    { rewrite Hst. unfold stream. rewrite Hi4, app_assoc, (Hst4 Hn). by rewrite <- !app_assoc. }
    split; [done|]. split; [by rewrite Hi4 | by rewrite Heq].
  - intros Ht. destruct (Hm4 Ht) as [?|Hm]; [by left | right].
    unfold measure. rewrite Hi4. apply (f_equal length) in Hcat. rewrite length_app in Hcat.
    destruct noMore; lia.
Qed.

(** ** The loop *)

Lemma wp_fuzz_loop fuel p :
  0 < MinLen → fz_generator (fp_app p) = None →
  wp any_fault (fuzz_loop fuel) (λ ended p',
    (good_input p → stream p' = stream p) ∧
    (measure p + 2 ≤ fuel ∨ is_down p ∧ 1 ≤ fuel → ended = true)) p.
Proof.
  intros Hmin. revert p. induction fuel as [|fuel IH]; intros p Hp; cbn [AflFuzz.fuzz_loop].
  { apply wp_ret. split; [done | lia]. }
  apply wp_bind. eapply wp_mono; [by apply wp_fuzz_iteration|].
  intros [|] p1 (Hg1 & Hst1 & Hm1 & Hd1); [|by apply wp_ret; split; [intros Hgi; apply Hst1|]].
  eapply wp_mono; [by apply IH|]. intros ended p2 [Hst2 Hend2]. split.
  - intros Hgi. destruct (Hst1 Hgi) as [<- Hgi1]. by apply Hst2.
  - intros Hfuel. apply Hend2. destruct Hfuel as [Hf|[Hd _]]; [|by specialize (Hd1 Hd)].
    destruct (Hm1 eq_refl) as [Hd|Hlt]; [right; split; [done | lia] | left; lia].
Qed.

(** ** The start *)

Lemma ikeeps_init opens :
  Fuzz.genInputFile opts = Some "" → ikeeps (AflFuzz_init opts depth resume_bound opens).
Proof.
  intros Hgen.
  assert (ikeeps (createGeneratorIfNeeded opts opens)) as Hcreate.
  { intros p Hp. unfold createGeneratorIfNeeded. rewrite Hgen. apply wp_bind, wp_ret.
    rewrite bool_decide_eq_true_2 by done. by apply keeps_ret. }
  unfold AflFuzz_init. repeat first [apply Hcreate | apply ikeeps_call | apply ikeeps_on_fuzz
    | by apply dkeeps_modify | by apply pkeeps_opt | keeps_step].
Qed.

Lemma skeeps_init `{!CommsLaws} opens :
  keeps (Contract0 := fuzz_safe) (AflFuzz_init opts depth resume_bound opens).
Proof.
  unfold AflFuzz_init, createGeneratorIfNeeded, setf.
  repeat first [ by apply pkeeps_opt | apply skeeps_on_fuzz
    | solve [apply skeeps_api; intros p; apply (by_application_calls (H1 := app_in p))]
    | keeps_step ].
Qed.
End driver.

(** ** The loops over a topic *)

Section config_loops.
  Context `{Config} `{CommsLib} `{GeneratorLib} (depth resume_bound : nat).
Abbreviation fuzz_call := (fuzz_call depth resume_bound).
Abbreviation sub_loop := (subscribe_config_loop depth resume_bound).
Abbreviation unsub_loop := (unsubscribe_config_loop depth resume_bound).

(** A topic without wildcard is tried once for each QoS. *)
Lemma sub_loop_plain n fuel handle topic maxQos p :
  find_wildcard topic = None → Z.to_nat maxQos < fuel →
  sub_loop (fuel + n) handle topic maxQos p = sub_loop fuel handle topic maxQos p.
Proof.
  intros Hw. revert fuel maxQos p. induction fuel as [|fuel IH]; intros maxQos p Hf; [lia|].
  cbn [Nat.add subscribe_config_loop]. apply bind_ext. intros ec p' _.
  destruct (ok_code ec); [done|]. destruct (Z.ltb_spec QoS_AtMostOnceDelivery maxQos) as [Hq|].
  - apply IH. unfold QoS_AtMostOnceDelivery in Hq. lia.
  - by rewrite Hw.
Qed.

Lemma sub_loop_enough n fuel handle topic maxQos p :
  Z.to_nat maxQos + 4 ≤ fuel →
  sub_loop (fuel + n) handle topic maxQos p = sub_loop fuel handle topic maxQos p.
Proof.
  revert fuel maxQos p. induction fuel as [|fuel IH]; intros maxQos p Hf; [lia|].
  cbn [Nat.add subscribe_config_loop]. apply bind_ext. intros ec p' _.
  destruct (ok_code ec); [done|]. destruct (Z.ltb_spec QoS_AtMostOnceDelivery maxQos) as [Hq|].
  - apply IH. unfold QoS_AtMostOnceDelivery in Hq. lia.
  - destruct (find_wildcard topic); [|done]. apply sub_loop_plain; [done|].
    unfold QoS_ExactlyOnceDelivery. lia.
Qed.

(** The configuration of a topic leaves that of the client. *)
Definition config_contract : Contract ClientImpl := {|
  ct_inv := λ _, True;
  ct_rel := λ s s', m_configState s' = m_configState s;
  ct_faults := any_fault;
  ct_pre := ltac:(split; [done | intros s1 s2 s3; congruence]);
|}.

Lemma configTopic_config `{App} a x :
  keeps (Contract0 := config_contract) (UnsubscribeOp_configTopic a x).
Proof.
  assert (∀ f, (∀ s, m_configState (f s) = m_configState s) →
    keeps (Contract0 := config_contract) (modify f)) as Hmod.
  { intros f Hf. apply keeps_modify. by split; [|apply Hf]. }
  assert (∀ A f, keeps (Contract0 := config_contract) (throw (A := A) f)) as Hthrow
    by (intros; by apply keeps_throw).
  unfold UnsubscribeOp_configTopic, modify_op, get_op, get_base.
  repeat first [by apply Hmod | apply Hthrow | keeps_step].
Qed.

Lemma fuzz_call_ok {A} (m : App → M ClientImpl A) p x p' :
  fuzz_call m p = Ok x p' →
  m (fuzz_app_in depth resume_bound p) (fp_client p) = Ok x (fp_client p').
Proof. unfold AflFuzz.fuzz_call. destruct (m _ _); [by intros [= -> <-] | done]. Qed.

Definition verifies (s : ClientImpl) : bool := cfg_verifyOutgoingTopic (m_configState s).

Lemma get_verify_ok p verify p' :
  fuzz_call (λ app, api_get_verify_outgoing_topic_enabled true) p = Ok verify p' →
  verify = HasTopicFormatVerification && verifies (fp_client p).
Proof.
  intros Hg%fuzz_call_ok. unfold api_get_verify_outgoing_topic_enabled, asserted_client, mbind,
    M_bind, comms_assert in Hg. destruct HasTopicFormatVerification; [|by injection Hg].
  destruct Asserts; by injection Hg.
Qed.

(** With the verification off a topic that is refused is given up at once. *)
Lemma unsub_loop_off n handle topic p :
  HasTopicFormatVerification && verifies (fp_client p) = false →
  unsub_loop (1 + n) handle topic p = unsub_loop 1 handle topic p.
Proof.
  intros Hoff. cbn [Nat.add unsubscribe_config_loop]. apply bind_ext. intros ec p1 Hc%fuzz_call_ok.
  destruct (ok_code ec); [done|]. apply bind_ext. intros verify p2 Hg%get_verify_ok.
  assert (verifies (fp_client p1) = verifies (fp_client p)) as Hv.
  { unfold api_unsubscribe_config_topic, checked_config in Hc. destruct handle as [a|]; [|by injection Hc as _ <-].
    pose proof (configTopic_config (H2 := fuzz_app_in depth resume_bound p) a
      {| ut_topic := Some topic |} (fp_client p) I) as Hk.
    unfold wp in Hk. rewrite Hc in Hk. unfold verifies. by destruct Hk as [_ ->]. }
  rewrite Hv, Hoff in Hg. by subst verify.
Qed.

Lemma unsub_loop_enough n handle topic p :
  unsub_loop (2 + n) handle topic p = unsub_loop 2 handle topic p.
Proof.
  cbn [Nat.add unsubscribe_config_loop]. apply bind_ext. intros ec p1 _.
  destruct (ok_code ec); [done|]. apply bind_ext. intros verify p2 Hg%get_verify_ok.
  destruct verify; [|done]. cbn [negb]. apply bind_ext. intros ec' p3 Hs%fuzz_call_ok.
  apply (unsub_loop_off n). destruct HasTopicFormatVerification eqn:Hh; [|done].
  unfold api_set_verify_outgoing_topic_enabled, checked_client, client_set_verify_outgoing_topic_enabled in Hs.
  rewrite Hh in Hs. injection Hs as _ <-. done.
Qed.
End config_loops.

(** ** The driver *)

Section AflFuzz.
  Context `{Config} `{CommsLib} `{GeneratorLib} `{SizeLib} (opts : Fuzz.ProgramOptions).
  Context (depth resume_bound : nat).

Definition fuzz (opens : bool) (fuel : nat) : M FuzzProgram bool :=
  ok ← AflFuzz_init opts depth resume_bound opens;
  if negb ok then mret true else fuzz_loop opts depth resume_bound fuel.

(** The loops that try a topic until the client takes it need no more iterations than the
    model gives them: with more fuel they do the same. *)
Theorem fuzz_config_enough n handle topic p :
  let maxQos := st_maxQos client_subscribe_init_config_topic in
  subscribe_config_loop depth resume_bound (subscribe_config_fuel + n) handle topic maxQos p =
    subscribe_config_loop depth resume_bound subscribe_config_fuel handle topic maxQos p ∧
  unsubscribe_config_loop depth resume_bound (2 + n) handle topic p =
    unsubscribe_config_loop depth resume_bound 2 handle topic p.
Proof.
  split; [|apply unsub_loop_enough]. apply sub_loop_enough. simpl. rewrite Nat2Z.id. reflexivity.
Qed.


(** C11: It loses and repeats no byte: what the client has consumed, what is pending and
    what is not yet read is at any time the input, as long as no read yields less than
    a header. *)
Theorem fuzz_stream opens fuel input ended p :
  0 < MinLen → Fuzz.genInputFile opts = Some "" →
  Forall (λ d, d = [] ∨ MinLen ≤ length d) input →
  (Z.of_nat (length (concat input)) ≤ u32_max)%Z →
  fuzz opens fuel (AflFuzz_new input) = Ok ended p →
  fp_consumed p ++ fz_inData (fp_app p) ++ concat (fp_input p) = concat input.
Proof.
  intros Hmin Hgen Hreads Hlen. pose proof (ikeeps_init opts depth resume_bound opens Hgen
    (AflFuzz_new input) eq_refl) as Hinit.
  unfold fuzz, mbind, M_bind. unfold wp in Hinit.
  destruct (AflFuzz_init _ _ _ _ _) as [ok p1|]; [|done]. destruct Hinit as [Hg Hs].
  destruct (same_input_stream _ _ Hs) as (Hst & _ & Hgood).
  destruct ok; cbn [negb]; [|intros [= _ <-]; exact Hst].
  pose proof (wp_fuzz_loop opts depth resume_bound fuel p1 Hmin Hg) as Hl. unfold wp in Hl.
  destruct (fuzz_loop _ _ _ _ _) as [b p2|]; [|done]. intros [= _ <-].
  change (stream p2 = stream (AflFuzz_new input)). rewrite <- Hst. apply Hl, Hgood. by split.
Qed.

End AflFuzz.

(** ** Runs *)

(** A codec for the driver: the frames that the client writes hold a header, a length
    and what the generator needs of the message, those of the generator are MQTT. *)
Definition Z_byte (z : Z) : byte := default x00 (Byte.of_N (Z.to_N z)).

Definition fuzz_frame (header : Z) (body : bytes) : bytes :=
  Z_byte header :: Z_byte (Z.of_nat (length body)) :: body.

Definition fuzz_string (s : string) : bytes :=
  Z_byte (Z.of_nat (String.length s)) :: String.list_byte_of_string s.

Definition fuzz_write (m : ProtMessage) : option bytes := Some
  match m with
  | MConnect _ => fuzz_frame 16 []
  | MPublish m => fuzz_frame (48 + 2 * pub_qos m) [Z_byte (pub_packetId m)]
  | MPuback id => fuzz_frame 64 [Z_byte id]
  | MPubrec id => fuzz_frame 80 [Z_byte id]
  | MPubrel id _ => fuzz_frame 98 [Z_byte id]
  | MPubcomp id => fuzz_frame 112 [Z_byte id]
  | MSubscribe id subs => fuzz_frame 130 (Z_byte id :: concat (fuzz_string ∘ fst <$> subs))
  | MUnsubscribe id _ => fuzz_frame 162 [Z_byte id]
  | _ => []
  end.

Definition FuzzComms : CommsLib := {|
  idAndFlags_minLength := 1;
  size_read := λ buf, match buf with [] => ES_NotEnoughData | _ => ES_Success end;
  frame_read := example_frame_read;
  frame_length := λ _, 2;
  frame_write := fuzz_write;
  connect_doRefresh := λ m, m;
  publish_doRefresh := λ m, pub_set_packetIdExists (0 <? pub_qos m)%Z m;
  pubrel_doValid := λ flags, (flags =? 2)%Z;
  pubrel_flags := 2;
  alloc_succeeds := λ limit live, (limit =? 0) || (live <? limit);
  assign_string := λ s, s;
  assign_bytes := λ l, l;
  subscribe_list_max := None;
  unsubscribe_list_max := None;
  suback_list_max := None;
|}.

Lemma FuzzComms_laws : CommsLaws (H := FuzzComms).
Proof. destruct ExampleComms_laws as [Hread Hassign]. by split. Qed.

Fixpoint fuzz_topics (fuel : nat) (l : bytes) : list (string * Z) :=
  match fuel, l with
  | S fuel', n :: l' =>
      let n := Z.to_nat (byte_Z n) in
      (String.string_of_list_byte (take n l'), 2%Z) :: fuzz_topics fuel' (drop n l')
  | _, _ => []
  end.

Definition fuzz_read (buf : bytes) : list ProtMessage :=
  match buf with
  | h :: _ :: body =>
      match (byte_Z h / 16)%Z, body with
      | 1%Z, _ => [MConnect ConnectMsg_new]
      | 3%Z, id :: _ => [MPublish (pub_set_packetId (byte_Z id)
          (pub_set_qos (byte_Z h mod 16 / 2) PublishMsg_new))]
      | 5%Z, id :: _ => [MPubrec (byte_Z id)]
      | 6%Z, id :: _ => [MPubrel (byte_Z id) 2]
      | 8%Z, id :: topics => [MSubscribe (byte_Z id) (fuzz_topics 10 topics)]
      | 10%Z, id :: _ => [MUnsubscribe (byte_Z id) []]
      | _, _ => []
      end
  | _ => []
  end.

Definition broker_id (id : Z) : bytes := [x00; Z_byte id]%byte.

Definition broker_write (m : ProtMessage) : bytes :=
  match m with
  | MConnack _ => fuzz_frame 32 [x00; x00]%byte
  | MPublish m => fuzz_frame (48 + 2 * pub_qos m) ((x00%byte :: fuzz_string (pub_topic m)) ++
      (if (0 <? pub_qos m)%Z then broker_id (pub_packetId m) else []) ++ pub_payload m)
  | MPuback id => fuzz_frame 64 (broker_id id)
  | MPubrec id => fuzz_frame 80 (broker_id id)
  | MPubrel id _ => fuzz_frame 98 (broker_id id)
  | MPubcomp id => fuzz_frame 112 (broker_id id)
  | MSuback id codes => fuzz_frame 144 (broker_id id ++ (Z_byte <$> codes))
  | MUnsuback id => fuzz_frame 176 (broker_id id)
  | _ => []
  end.

Definition FuzzGeneratorLib : GeneratorLib := {|
  gl_connack := {| cak_sp := false; cak_returnCode := 0 |};
  gl_pubrel_flags := 2;
  gl_refresh := λ m, m;
  gl_write := λ m, (ES_Success, broker_write m);
  gl_processAll := λ buf, (fuzz_read buf, length buf);
|}.

Definition FuzzSizeLib : SizeLib := {|
  size_minLength := 1;
  size_field := λ buf, match buf with [] => None | b :: _ => Some (1, Z.to_nat (byte_Z b)) end;
|}.

(** The options, as the parser yields them. *)
Definition fuzz_options (gen : string) (subs : list string) : Fuzz.ProgramOptions :=
  Fuzz.MkProgramOptions [] (list_to_map [("gen-input", OV_string gen);
    ("client-id", OV_string "afl"); ("min-pub-count", OV_unsigned 3); ("sub-topic", OV_strings subs)]).

Definition fuzz_example (gen : string) (subs : list string) (fuel : nat) (input : list bytes)
    : result FuzzProgram bool :=
  fuzz (H := DefaultConfig) (H0 := FuzzComms) (H1 := FuzzGeneratorLib) (H2 := FuzzSizeLib)
    (fuzz_options gen subs) 4 3 true fuel (AflFuzz_new (H := DefaultConfig) input).

(** Whether the loop has ended, the publishes that have been completed, the subscriptions
    that are acknowledged and ended, and the number of bytes that the client has consumed
    and of those that are pending; or the fault. *)
Definition fuzz_outcome (r : result FuzzProgram bool)
    : bool * Z * list (bool * bool) * nat * nat + fault :=
  match r with
  | Ok ended p => inl (ended, fz_publishCount (fp_app p),
      (λ i, (si_acked i, si_unsubscribed i)) <$> fz_subs (fp_app p),
      length (fp_consumed p), length (fz_inData (fp_app p)))
  | Fault f => inr f
  end.

(** The driver subscribes, the generator publishes with each QoS, the driver publishes
    what it receives, and unsubscribes and ends after three publishes; a stream is read
    in pieces. *)
Example fuzz_runs :
  fuzz_outcome <$> [fuzz_example "g" [] 30 []; fuzz_example "g" ["a/+,b"; "c"] 60 [];
    fuzz_example "" [] 30 [[x20; x02]; [x00]; [x00; x90; x03; x00]; [x01; x02]]%byte] =
  [inl (true, 3%Z, [(true, true)], 69, 0); inl (true, 3%Z, [(true, true); (true, true)], 71, 0);
   inl (true, 0%Z, [(true, false)], 9, 0)].
Proof. vm_compute. reflexivity. Qed.

Definition fuzz_input : list bytes := [[x20; x02]; [x00; x00; x90]; [x03; x00; x01; x02]]%byte.

Definition fuzz_end : FuzzProgram :=
  match fuzz_example "" [] 12 fuzz_input with
  | Ok _ p => p
  | Fault _ => AflFuzz_new (H := DefaultConfig) []
  end.


Example fuzz_stream_witness :
  fp_consumed fuzz_end = concat fuzz_input ∧
  fp_consumed fuzz_end ++ fz_inData (fp_app fuzz_end) ++ concat (fp_input fuzz_end) = concat fuzz_input.
Proof.
  split; [vm_compute; reflexivity|].
  apply (fuzz_stream (H := DefaultConfig) (H0 := FuzzComms) (H1 := FuzzGeneratorLib)
    (H2 := FuzzSizeLib) (fuzz_options "" []) 4 3 true 12 fuzz_input true fuzz_end).
  - vm_compute. lia.
  - vm_compute. reflexivity.
  - repeat constructor; right; vm_compute; lia.
  - vm_compute. discriminate.
  - vm_compute. reflexivity.
Defined.

(** The generator in the middle of its publishes. *)
Definition fuzz_middle : FuzzProgram :=
  match fuzz_example "g" [] 4 [] with
  | Ok _ p => p
  | Fault _ => AflFuzz_new (H := DefaultConfig) []
  end.


(** ** What goes wrong *)

(** A read of a single byte is shorter than a header; when nothing is pending the loop
    continues without keeping it. *)
Theorem single_byte_read_lost :
  let r input := fuzz_outcome (fuzz_example "" [] 30 input) in
  r [[x20; x02; x00; x00]; [x90; x03; x00; x01; x02]]%byte = inl (true, 0%Z, [(true, false)], 9, 0) ∧
  r [[x20]; [x02; x00; x00]; [x90; x03; x00; x01; x02]]%byte = inl (true, 0%Z, [(false, false)], 2, 6).
Proof. vm_compute. done. Qed.

(** A filter that the client refuses is replaced in the subscription, but not when it is
    removed: the client refuses it again, the loop over the topics cancels the operation
    and goes on to send it. *)
Theorem cancelled_unsubscribe_is_sent :
  fuzz_outcome (fuzz_example "g" ["a/b"] 60 []) = inl (true, 3%Z, [(true, true)], 63, 0) ∧
  fuzz_outcome (fuzz_example "g" ["a#"] 60 []) = inr FAssert.
Proof. vm_compute. done. Qed.
