(* ===== verification/Memory.v ===== *)
(** * No operation is used after its destruction

    For an application that does not call the client from its callbacks, that
    passes handles of live operations of the right type, and that ticks in time,
    the requests use no destroyed operation, no null pointer, no element past the
    end of a vector and no invalidated iterator.  The judgement [moves] follows the
    functions of the library: it carries the addresses that the caller still holds
    ([pinned]), and a function that destroys an operation gives its address up. *)

From S2P Require Import Prelude SortedVec Config Protocol Topic PacketId TimerMgr State.
From S2P Require Import Lifecycle Completion Session SendOp RecvOp SubscribeOp ConnectOp.
From S2P Require Import Client Invariant Objects Termination Ownership Preservation Requests.
From S2P Require Import Disconnect.

(** ** The judgement *)

(** The faults that are not an access to memory: a failed assertion of a build with
    assertions, the bounds of the static vectors, and those of the model. *)
Definition safe_fault (f : fault) : Prop := f = FAssert ∨ f = FCapacity ∨ f = FFuel.

(** The addresses held by a caller are those of live operations of their type. *)
Definition pins : Type := list (addr * OpType).

Definition pinned (L : pins) (s : ClientImpl) : Prop :=
  ∀ a T, (a, T) ∈ L → ∃ o, g_store s !! a = Some o ∧ Op_type o = T.

(** The callbacks that [initInternal] requires. *)
Definition callbacks_ready (s : ClientImpl) : Prop :=
  has_sendOutputDataCb (m_callbacks s) = true ∧
  has_brokerDisconnectReportCb (m_callbacks s) = true ∧
  has_messageReceivedReportCb (m_callbacks s) = true.

Record Good `{Config} (L : pins) (s : ClientImpl) : Prop := {
  gd_inv : Inv s;
  gd_pins : pinned L s;
  gd_cbs : callbacks_ready s;
}.

(** What the loops over [m_ops] and [m_sendOps] rely on. *)
Definition steady (s s' : ClientImpl) : Prop :=
  length (m_ops s') = length (m_ops s) ∧ g_opsChanges s' = g_opsChanges s ∧
  g_sendOpsPushes s' = g_sendOpsPushes s.

Definition moves `{Config} (L L' : pins) {A} (m : M ClientImpl A) : Prop :=
  ∀ s, Good L s → wp safe_fault m (λ _ s', Good L' s' ∧ steady s s') s.

#[export] Instance steady_preorder : PreOrder steady.
Proof.
  split; [done|]. intros s1 s2 s3 (? & ? & ?) (? & ? & ?). repeat split; congruence.
Qed.

Create HintDb mem.

Section rules.
  Context `{Config}.

Lemma pinned_mono L L' s : L' ⊆ L → pinned L s → pinned L' s.
Proof. intros HL Hp a T Ha. apply Hp. by apply HL. Qed.

Lemma Good_mono L L' s : L' ⊆ L → Good L s → Good L' s.
Proof. intros HL [? ? ?]. split; [done | by eapply pinned_mono | done]. Qed.

Lemma moves_ret {A} L L' (x : A) : L' ⊆ L → moves L L' (mret x).
Proof. intros HL s Hs. apply wp_ret. split; [by eapply Good_mono | done]. Qed.

Lemma moves_gets {A} L L' (f : ClientImpl → A) : L' ⊆ L → moves L L' (gets f).
Proof. intros HL s Hs. apply wp_gets. split; [by eapply Good_mono | done]. Qed.

Lemma moves_throw {A} L L' f : safe_fault f → moves L L' (throw (A := A) f).
Proof. intros Hf s _. by apply wp_throw. Qed.

Lemma moves_comms_assert L L' b : L' ⊆ L → moves L L' (comms_assert b).
Proof.
  intros HL s Hs. apply wp_comms_assert; [by left|]. split; [by eapply Good_mono | done].
Qed.

Lemma moves_bind {A B} L1 L2 L3 (m : M ClientImpl A) (k : A → M ClientImpl B) :
  moves L1 L2 m → (∀ x, moves L2 L3 (k x)) → moves L1 L3 (m ≫= k).
Proof.
  intros Hm Hk s Hs. apply wp_bind. eapply wp_mono; [by apply Hm|].
  intros x s1 [Hs1 Hst]. eapply wp_mono; [by apply Hk|]. intros y s2 [Hs2 Hst'].
  split; [done | by etrans].
Qed.

Lemma moves_mono {A} L L' L1 L1' (m : M ClientImpl A) :
  L1 ⊆ L → L' ⊆ L1' → moves L1 L1' m → moves L L' m.
Proof.
  intros HL HL' Hm s Hs. eapply wp_mono; [apply Hm; by eapply Good_mono|].
  intros x s' [Hs' Hst]. split; [by eapply Good_mono | done].
Qed.

Lemma moves_when L L' b (m : M ClientImpl unit) :
  L' ⊆ L → (b = true → moves L L' m) → moves L L' (when b m).
Proof. intros HL Hm. destruct b; simpl; [by apply Hm | by apply moves_ret]. Qed.

Lemma moves_mapM_ {A} L (f : A → M ClientImpl unit) l :
  (∀ x, x ∈ l → moves L L (f x)) → moves L L (mapM_ f l).
Proof.
  induction l as [|x l IH]; intros Hf; simpl; [by apply moves_ret|].
  apply (moves_bind L L L); [apply Hf; by left|]. intros _. apply IH. intros y Hy. apply Hf.
  by right.
Qed.

(** What is read is known to the continuation. *)
Lemma moves_gets_bind {A B} L L' (f : ClientImpl → A) (k : A → M ClientImpl B) :
  (∀ s, Good L s →
    wp safe_fault (k (f s)) (λ _ s', Good L' s' ∧ steady s s') s) → moves L L' (gets f ≫= k).
Proof. intros Hk s Hs. apply wp_bind, wp_gets. by apply Hk. Qed.

(** Further addresses that are known to be live. *)
Lemma wp_with_pins {A} L L1 L' (m : M ClientImpl A) s :
  moves L1 L' m → Good L s → pinned L1 s →
  wp safe_fault m (λ _ s', Good L' s' ∧ steady s s') s.
Proof. intros Hm [? ? ?] Hp. apply Hm. by split. Qed.

(** The step from the preservation of the invariant, which tolerates any fault. *)
Lemma moves_of {A} L L' (m : M ClientImpl A) :
  keeps m →
  (∀ s, Good L s → wp safe_fault m (λ _ s', pinned L' s' ∧ callbacks_ready s' ∧ steady s s') s) →
  moves L L' m.
Proof.
  intros Hk Hm s Hs. eapply wp_mono; [eapply wp_and; [apply Hm; done | apply Hk, Hs]|].
  intros x s' [(? & ? & ?) [? _]]. split; [by split | done].
Qed.

(** Nothing is destroyed, and the vectors stay as they are. *)
Definition same (s s' : ClientImpl) : Prop :=
  g_store s' = g_store s ∧ m_callbacks s' = m_callbacks s ∧ m_ops s' = m_ops s ∧
  g_opsChanges s' = g_opsChanges s ∧ g_sendOpsPushes s' = g_sendOpsPushes s.

Lemma moves_same {A} L L' (m : M ClientImpl A) :
  L' ⊆ L → keeps m → (∀ s, Good L s → wp safe_fault m (λ _ s', same s s') s) → moves L L' m.
Proof.
  intros HL Hk Hm. apply moves_of; [done|]. intros s Hs. eapply wp_mono; [by apply Hm|].
  intros x s' (Est & Ecb & Eops & Ech & Ep). destruct (Good_mono L L' s HL Hs) as [_ Hp Hc].
  split; [intros a T; rewrite Est; apply Hp|]. split; [by unfold callbacks_ready; rewrite Ecb|].
  split; [by rewrite Eops | by split].
Qed.

Lemma moves_modify L L' f :
  L' ⊆ L → keeps (modify f) → (∀ s, same s (f s)) → moves L L' (modify f).
Proof. intros HL Hk Hf. apply moves_same; [done | done|]. intros s _. by apply wp_modify. Qed.

Lemma moves_zoom {T A} L L' (g : ClientImpl → T) p (m : M T A) :
  L' ⊆ L → keeps (zoom g p m) → (∀ t s, same s (p t s)) →
  (∀ s, Inv s → wp safe_fault m (λ _ _, True) (g s)) → moves L L' (zoom g p m).
Proof.
  intros HL Hk Hp Hm. apply moves_same; [done | done|]. intros s Hs. apply wp_zoom.
  eapply wp_mono; [apply Hm, Hs|]. done.
Qed.
End rules.

(** ** Reading and assigning the members of live operations *)

(** The type of the operations of a subclass. *)
Class OpClass (T : Type) `{Subclass T} := {
  op_class : OpType;
  op_class_spec : ∀ d, typeImpl d = op_class → ∃ o : T, d = upcast o;
}.

Local Ltac solve_class := intros []; simpl; intros; try done; eauto.

#[export, refine] Instance ConnectOp_class : OpClass ConnectOp := {| op_class := Type_Connect |}.
Proof. solve_class. Defined.
#[export, refine] Instance KeepAliveOp_class : OpClass KeepAliveOp :=
  {| op_class := Type_KeepAlive |}.
Proof. solve_class. Defined.
#[export, refine] Instance SubscribeOp_class : OpClass SubscribeOp :=
  {| op_class := Type_Subscribe |}.
Proof. solve_class. Defined.
#[export, refine] Instance UnsubscribeOp_class : OpClass UnsubscribeOp :=
  {| op_class := Type_Unsubscribe |}.
Proof. solve_class. Defined.
#[export, refine] Instance RecvOp_class : OpClass RecvOp := {| op_class := Type_Recv |}.
Proof. solve_class. Defined.
#[export, refine] Instance SendOp_class : OpClass SendOp := {| op_class := Type_Send |}.
Proof. solve_class. Defined.

Lemma class_typed `{OpClass T} (o : T) d : typeImpl d = op_class → downcast d = Some o →
  d = upcast o.
Proof. intros _. apply upcast_downcast. Qed.

(** An application that does not call the client from its callbacks. *)
Class Quiet `{App} : Prop := app_quiet : ∀ e s, app_react e s = Ok tt s.

Section members.
  Context `{Config} `{CommsLib} `{!CommsLaws} `{App} {Hquiet : Quiet}.

#[export] Instance quiet_contract : AppContract.
Proof. intros e s Hs. unfold wp. rewrite app_quiet. by split. Qed.

Lemma pinned_op `{OpClass T} L a s :
  (a, op_class) ∈ L → pinned L s → ∃ t (o : T), g_store s !! a = Some (MkOp t (upcast o)).
Proof.
  intros Ha Hp. destruct (Hp _ _ Ha) as ([t d] & Ho & Hty).
  destruct (op_class_spec d Hty) as [o ->]. eauto.
Qed.

Lemma moves_get_base L L' a T : (a, T) ∈ L → L' ⊆ L → moves L L' (get_base a).
Proof.
  intros Ha HL s Hs. destruct (gd_pins _ _ Hs _ _ Ha) as (o & Ho & _).
  eapply wp_get_base_live; [done|]. split; [by eapply Good_mono | done].
Qed.

Lemma moves_get_op `{OpClass T} L L' a :
  (a, op_class) ∈ L → L' ⊆ L → moves L L' (get_op (T := T) a).
Proof.
  intros Ha HL s Hs. destruct (pinned_op L a s Ha (gd_pins _ _ Hs)) as (t & o & Ho).
  eapply wp_get_op_live; [done|]. split; [by eapply Good_mono | done].
Qed.

(** Assignments to the members do not change the types. *)
Lemma pinned_put L a d s t d0 :
  g_store s !! a = Some (MkOp t d0) → typeImpl d = typeImpl d0 → pinned L s →
  pinned L (put_derived a d s).
Proof.
  intros Ha Hd Hp b T Hb. destruct (Hp _ _ Hb) as (o & Ho & HT). unfold put_derived. simpl.
  rewrite lookup_alter. case_decide as Hab; [|eauto]. subst b. rewrite Ha in Ho. simplify_eq.
  rewrite Ha. simpl. eauto.
Qed.

Lemma typeImpl_upcast `{OpClass T} (o : T) d t s a :
  g_store s !! a = Some (MkOp t d) → typeImpl d = op_class → downcast d = Some o →
  typeImpl (upcast o) = op_class.
Proof. intros _ Hd Ho. by rewrite <- (class_typed o d Hd Ho). Qed.

Lemma wp_modify_op `{OpClass T} L L' a (f : T → T) s :
  (a, op_class) ∈ L → L' ⊆ L → (∀ o, typeImpl (upcast (f o)) = typeImpl (upcast o)) →
  pinned L s → callbacks_ready s →
  wp safe_fault (modify_op a f) (λ _ s', pinned L' s' ∧ callbacks_ready s' ∧ steady s s') s.
Proof.
  intros Ha HL Hf Hp Hc. destruct (pinned_op L a s Ha Hp) as (t & o & Ho).
  unfold modify_op. apply wp_bind. eapply wp_get_op_live; [done|]. apply wp_modify.
  split; [|done]. eapply pinned_put; [done | apply Hf|]. by eapply pinned_mono.
Qed.

Lemma moves_modify_op `{OpClass T} L L' a (f : T → T) :
  (a, op_class) ∈ L → L' ⊆ L → keeps (modify_op a f) →
  (∀ o, typeImpl (upcast (f o)) = typeImpl (upcast o)) → moves L L' (modify_op a f).
Proof.
  intros Ha HL Hk Hf. apply moves_of; [done|]. intros s [? ? ?]. by apply (wp_modify_op L).
Qed.

(** ** Timers, identifiers, callbacks *)

Lemma moves_timerCancel L L' t : L' ⊆ L → moves L L' (on_timerMgr (timerCancel t)).
Proof.
  intros HL. apply moves_zoom; [done | apply keeps_timerCancel | done|]. intros s _.
  unfold timerCancel. apply wp_bind, wp_gets. apply wp_bind, wp_comms_assert; [by left|].
  destruct (timer_at _ t) as [[i info]|]; [|by apply wp_ret].
  apply wp_bind, wp_comms_assert; [by left|]. by apply wp_modify.
Qed.

Lemma moves_timerIsActive L L' t : L' ⊆ L → moves L L' (on_timerMgr (timerIsActive t)).
Proof.
  intros HL. apply moves_zoom; [done | apply keeps_timerIsActive | done|]. intros s _.
  eapply wp_mono; [apply wp_timerIsActive; by left|]. done.
Qed.

Lemma moves_setSuspended L L' t b : L' ⊆ L → moves L L' (on_timerMgr (Timer_setSuspended t b)).
Proof.
  intros HL. apply moves_zoom; [done | apply keeps_Timer_setSuspended | done|]. intros s Hs.
  pose proof (ti_ok _ _ (oi_timers _ (inv_obj _ Hs))) as Hok.
  unfold Timer_setSuspended. apply wp_bind.
  eapply wp_mono; [apply wp_timerIsActive; by left|]. intros act mgr [-> Hact].
  destruct act; [|by apply wp_ret]. destruct (Hact eq_refl) as (i & info & -> & Hi & Hcb).
  simpl. unfold wp. rewrite timerSetSuspended_eq; [done|]. exists info. split; [done|].
  destruct (m_allocated info) eqn:Hal; [done|]. by rewrite (ok_free _ Hok _ _ Hi Hal) in Hcb.
Qed.

(** A timeout function is given to the timer of an operation that is held. *)
Lemma moves_wait `{OpClass T} L L' (tm : T → Timer) a ms cb :
  (a, op_class) ∈ L → L' ⊆ L →
  (∀ o, tm o ∈ held_timers (upcast o)) → (∀ o, typeImpl (upcast o) = TimeoutCb_type cb) →
  moves L L' (o ← get_op (T := T) a; on_timerMgr (timerWait (tm o) ms cb a)).
Proof.
  intros Ha HL Htm Hty. apply moves_of; [by apply keeps_wait|]. intros s Hs.
  destruct (pinned_op L a s Ha (gd_pins _ _ Hs)) as (t & o & Ho).
  apply wp_bind. eapply wp_get_op_live; [done|].
  eapply wp_mono; [eapply wp_timerWait; [by left | apply Hs | done | apply Htm | apply Hty]|].
  intros _ s' (mgr & -> & _). split; [|split; [apply Hs | done]].
  eapply pinned_mono; [done|]. apply Hs.
Qed.

Lemma moves_clientState_modify L L' f :
  L' ⊆ L → (∀ cs, m_allocatedPacketIds (f cs) = m_allocatedPacketIds cs) →
  moves L L' (on_clientState (modify f)).
Proof.
  intros HL Hf. apply moves_zoom; [done | by apply keeps_on_clientState_modify | done|].
  intros s _. by apply wp_modify.
Qed.

Lemma moves_callback L L' e :
  L' ⊆ L → completion_of e = None → moves L L' (callback e).
Proof.
  intros HL He. apply moves_same; [done | by apply keeps_callback|]. intros s _.
  by apply wp_quiet_callback.
Qed.

Lemma moves_must_callback L L' b e :
  L' ⊆ L → b = true → completion_of e = None → moves L L' (must_callback b e).
Proof.
  intros HL -> He. unfold must_callback. apply (moves_bind _ L); [by apply moves_comms_assert|].
  intros _. by apply moves_callback.
Qed.
(** ** Output *)

Lemma pinned_cons a T L s o :
  g_store s !! a = Some o → Op_type o = T → pinned L s → pinned ((a, T) :: L) s.
Proof. intros Ho HT Hp b T' [[= -> ->]|Hb]%elem_of_cons; eauto. Qed.

(** The operations of a list. *)
Lemma listed_live T a s :
  Inv s → a ∈ ops_of T s → ∃ o, g_store s !! a = Some o ∧ Op_type o = T.
Proof.
  intros Hs (x & Hx & HT)%(li_lists _ _ (inv_lists _ Hs)).
  apply shapes_live in Hx as (o & Ho & ->). eauto.
Qed.

Lemma Good_listed L T a s : Good L s → a ∈ ops_of T s → Good ((a, T) :: L) s.
Proof.
  intros [Hi Hp Hc] Ha. destruct (listed_live T a s Hi Ha) as (o & Ho & HT).
  split; [done | by eapply pinned_cons | done].
Qed.

Lemma wp_for_each L T (f : addr → M ClientImpl unit) s :
  (∀ L1 a, (a, T) ∈ L1 → moves L1 L1 (f a)) → Good L s →
  wp safe_fault (mapM_ f (ops_of T s)) (λ _ s', Good L s' ∧ steady s s') s.
Proof.
  intros Hf Hs. set (L1 := ((λ a, (a, T)) <$> ops_of T s) ++ L).
  assert (pinned L1 s) as Hp.
  { intros a T' [(b & [= -> ->] & Hb)%list_elem_of_fmap|Ha]%elem_of_app.
    - by apply (listed_live T b s (gd_inv _ _ Hs)).
    - by apply (gd_pins _ _ Hs). }
  eapply wp_mono; [eapply (wp_with_pins L L1 L1); [|done|done]|].
  - apply moves_mapM_. intros a Ha. apply Hf. apply elem_of_app. left.
    by apply (list_elem_of_fmap_2 (λ a, (a, T))).
  - intros _ s' [Hs' Hst]. split; [|done]. eapply Good_mono; [|done]. set_solver.
Qed.

Lemma moves_restartPingTimer L L' a :
  (a, Type_KeepAlive) ∈ L → L' ⊆ L → moves L L' (KeepAliveOp_restartPingTimer a).
Proof.
  intros Ha HL. unfold KeepAliveOp_restartPingTimer.
  apply (moves_bind _ L); [by apply moves_gets|]. intros ms.
  destruct (ms =? 0)%Z; [by apply moves_ret|].
  by apply (moves_wait (T := KeepAliveOp)); [| |intros []; simpl; set_solver|].
Qed.

Lemma moves_sendMessage L L' msg : L' ⊆ L → moves L L' (sendMessage msg).
Proof.
  intros HL. unfold sendMessage. cbv zeta. case_match; [by apply moves_ret|].
  destruct (frame_write msg) as [buf|].
  2:{ apply (moves_bind _ L); [by apply moves_comms_assert | intros _; by apply moves_ret]. }
  apply moves_gets_bind. intros s Hs. destruct (gd_cbs _ _ Hs) as (Hcb & _).
  apply wp_bind. eapply wp_mono; [by apply (moves_must_callback L L)|].
  intros _ s1 [Hs1 Hst1]. apply wp_bind, wp_gets. apply wp_bind.
  eapply wp_mono; [apply (wp_for_each L Type_KeepAlive); [|done]|].
  { intros L1 a Ha. by apply moves_restartPingTimer. }
  intros _ s2 [Hs2 Hst2]. apply wp_ret. split; [by eapply Good_mono | by etrans].
Qed.

(** ** The order of publishes *)

Lemma wp_get_listed `{OpClass T} a s (Q : T → ClientImpl → Prop) :
  Inv s → a ∈ ops_of op_class s → (∀ o, Q o s) → wp safe_fault (get_op (T := T) a) Q s.
Proof.
  intros Hs Ha HQ. destruct (listed_live _ _ _ Hs Ha) as ([t d] & Ho & HT).
  destruct (op_class_spec d HT) as [o ->]. by eapply wp_get_op_live.
Qed.

Lemma wp_canSend_safe a s :
  Inv s → pinned [(a, Type_Send)] s → wp safe_fault (SendOp_canSend a) (λ _ s', s' = s) s.
Proof.
  intros Hs Hp.
  destruct (pinned_op (T := SendOp) _ a s ltac:(by left) Hp) as (t & o & Ho).
  assert (safe_fault FAssert) as HF by by left.
  unfold SendOp_canSend, hasPausedSendsBefore, hasHigherQosSendsBefore.
  apply wp_bind. eapply wp_get_op_live; [done|]. apply wp_bind, wp_gets.
  case_bool_decide; [by apply wp_ret|]. apply wp_bind, wp_comms_assert; [done|]. apply wp_bind.
  eapply (wp_mono _ _ (λ _ s', s' = s)).
  { apply wp_bind, wp_gets. destruct (list_find _ _) as [[r x]|] eqn:Hf;
      apply wp_bind, wp_comms_assert; try done.
    apply list_find_Some in Hf as (Hr%lookup_lt_Some & _). rewrite length_reverse in Hr.
    destruct (Nat.eqb_spec (length (ops_of Type_Send s) - 1 - r) 0); [by apply wp_ret|].
    destruct (lookup_lt_is_Some_2 (ops_of Type_Send s)
      (length (ops_of Type_Send s) - 1 - r - 1) ltac:(lia)) as [b Hb].
    rewrite Hb. apply wp_bind. apply (wp_get_listed (T := SendOp)); [done | by eapply list_elem_of_lookup_2|].
    intros p. by apply wp_ret. }
  intros paused ? ->. destruct paused; [by apply wp_ret|].
  apply wp_bind, wp_bind, wp_gets. eapply (wp_mono _ _ (λ _ s', s' = s)).
  { assert (∀ b, b ∈ ops_of Type_Send s → b ∈ ops_of Type_Send s) as Hin by done.
    revert Hin. generalize (ops_of Type_Send s) at 1 3 as l.
    induction l as [|b l IH]; intros Hin; simpl; [by apply wp_bind, wp_comms_assert|].
    destruct (b =? a); [by apply wp_ret|]. apply wp_bind.
    apply (wp_get_listed (T := SendOp)); [done | apply Hin; by left|]. intros p.
    case_match; [by apply wp_ret|]. apply IH. intros c Hc. apply Hin. by right. }
  intros higher ? ->. by apply wp_ret.
Qed.

Lemma moves_canSend L L' a :
  (a, Type_Send) ∈ L → L' ⊆ L → moves L L' (SendOp_canSend a).
Proof.
  intros Ha HL s Hs. eapply wp_mono; [apply wp_canSend_safe; [apply Hs|]|].
  - eapply pinned_mono; [|apply Hs]. set_solver.
  - intros b s' ->. split; [by eapply Good_mono | done].
Qed.

Lemma moves_restartResponseTimer L L' a :
  (a, Type_Send) ∈ L → L' ⊆ L → moves L L' (SendOp_restartResponseTimer a).
Proof.
  intros Ha HL. unfold SendOp_restartResponseTimer.
  apply (moves_bind _ L); [by apply moves_gets|]. intros ms.
  by apply (moves_wait (T := SendOp)); [| |intros []; simpl; set_solver|].
Qed.

(** ** Completion *)

(** The callers do not hold the address. *)
Definition unheld (a : addr) (L : pins) : Prop := a ∉ L.*1.

Lemma pinned_delete L a s s' :
  g_store s' = delete a (g_store s) → unheld a L → pinned L s → pinned L s'.
Proof.
  intros Est Ha Hp b T Hb. destruct (Hp _ _ Hb) as (o & Ho & HT). exists o. split; [|done].
  rewrite Est, lookup_delete_ne; [done|]. intros ->. apply Ha.
  apply list_elem_of_fmap. by exists (b, T).
Qed.

Section with_resume.
  Context (resume : nat → M ClientImpl unit).

Lemma moves_opComplete_with L a T :
  unheld a L → (T = Type_Send → ∀ idx, moves L L (resume idx)) →
  moves ((a, T) :: L) L (opComplete_with resume a).
Proof.
  intros Ha Hresume s Hs. pose proof (gd_inv _ _ Hs) as [Hl Hops [Hp Ht Hd] Hapi].
  destruct (gd_pins _ _ Hs a T ltac:(by left)) as (o & Ho & HT).
  assert (Good L s) as HsL by (eapply Good_mono; [|done]; set_solver).
  unfold opComplete_with. apply wp_bind, wp_gets.
  destruct (list_find _ _) as [[i p]|] eqn:Hf.
  2:{ apply wp_comms_assert; [by left|]. done. }
  apply list_find_Some in Hf as (Hi & -> & _).
  apply wp_bind, wp_modify. apply wp_bind, wp_modify. set (s1 := set_opsDeleted true _).
  apply wp_bind. eapply (wp_get_base_live _ a o); [done|].
  pose proof (shapes_lookup s1 a o Ho) as Hsh.
  assert (Unlinking a s1) as Hul by (split; [done | by eapply OpsInv_null | by split | done]).
  assert (∀ T' (k : nat → M ClientImpl unit), Op_type o = T' → (∀ n, moves L L (k n)) →
    wp safe_fault (eraseFromList a T' ≫= k) (λ _ s', Good L s' ∧ steady s s') s1) as Herase.
  { intros T' k HT' Hk. apply wp_bind. eapply wp_mono.
    { eapply wp_and; [eapply (wp_eraseFromList safe_fault); [by left | done | exact Hsh | done]|].
      by apply framed_erase. }
    intros n s2 [(Hinv & _ & Est & _) [_ Hfr]]. simpl in Hfr.
    injection Hfr. intros _ _ _ Epush Ech _ Eops _ _ _ Ecb.
    assert (Good L s2) as Hs2.
    { split; [done | | unfold callbacks_ready; rewrite Ecb; apply Hs].
      eapply pinned_delete; [exact Est | done | apply HsL]. }
    eapply wp_mono; [by apply Hk|]. intros _ s3 [Hs3 Hst]. split; [done|].
    etrans; [|exact Hst]. split; [by rewrite Eops; simpl; rewrite length_insert | by split]. }
  destruct (Op_type o) eqn:Hty; try (apply (Herase _ (λ _, mret tt)); [done|]; intros;
    by apply moves_ret). subst T.
  unfold opComplete_Send_with. apply Herase; [done|]. intros n.
  apply (moves_bind _ L); [by apply moves_gets|]. intros disc.
  destruct disc; [by apply moves_ret | by apply Hresume].
Qed.

(** Completion followed by the report. *)
Lemma wp_complete_report_mem L a T (cb : UserCb) (e : nat → Event) s :
  moves ((a, T) :: L) L (opComplete_with resume a) → Good ((a, T) :: L) s →
  wp safe_fault (opComplete_with resume a ;;
      match cb with None => mret tt | Some n => callback (e n) end)
    (λ _ s', pinned L s' ∧ callbacks_ready s' ∧ steady s s') s.
Proof.
  intros Hm Hs. apply wp_bind. eapply wp_mono; [by apply Hm|]. intros _ s1 [Hs1 Hst].
  assert (pinned L s1 ∧ callbacks_ready s1 ∧ steady s s1) as Hend
    by (split; [apply Hs1 | split; [apply Hs1 | done]]).
  destruct cb as [n|]; [by apply wp_quiet_callback | by apply wp_ret].
Qed.

Context (L : pins) (Hkeeps : ∀ idx, keeps (resume idx)) (Hresume : ∀ idx, moves L L (resume idx)).

Lemma moves_completeWithCb_with a st :
  unheld a L → moves ((a, Type_Send) :: L) L (SendOp_completeWithCb_with resume a st).
Proof.
  intros Ha. apply moves_of; [by apply keeps_SendOp_completeWithCb_with|]. intros s Hs.
  destruct (pinned_op (T := SendOp) _ a s ltac:(by left) (gd_pins _ _ Hs)) as (t & o & Ho).
  unfold SendOp_completeWithCb_with. apply wp_bind. eapply wp_get_op_live; [done|].
  apply (wp_complete_report_mem L a Type_Send _ (λ n, EvPublishComplete a n st)); [|done].
  by apply moves_opComplete_with.
Qed.

(** A publish that goes out is kept, unless it is of QoS 0; one that fails is kept. *)
Lemma wp_doSendInternal_with a s :
  unheld a L → Good ((a, Type_Send) :: L) s →
  wp safe_fault (SendOp_doSendInternal_with resume a)
    (λ ec s', Good L s' ∧ (ec ≠ ErrorCode_Success → Good ((a, Type_Send) :: L) s') ∧
      steady s s') s.
Proof.
  intros Ha Hs. set (L1 := (a, Type_Send) :: L) in *.
  assert ((a, Type_Send) ∈ L1) as Hin by by left. assert (L ⊆ L1) as HL by set_solver.
  assert (∀ f : SendOp → SendOp, keeps (modify_op a f) → moves L1 L1 (modify_op a f)) as Hmod.
  { intros f Hf. by apply (moves_modify_op (T := SendOp)). }
  unfold SendOp_doSendInternal_with. apply wp_bind.
  eapply wp_mono; [apply Hmod; [by apply keeps_modify_op; intros []|exact Hs]|].
  intros _ s1 [Hs1 Hst1]. apply wp_bind.
  eapply wp_mono; [by apply (moves_get_op L1 L1)|]. intros o1 s2 [Hs2 Hst2]. apply wp_bind.
  eapply wp_mono; [by apply (moves_sendMessage L1 L1)|]. intros r s3 [Hs3 Hst3].
  assert (steady s s3) as Hst by (etrans; [exact Hst1|]; by etrans).
  destruct (negb _); [apply wp_ret; split; [by eapply Good_mono | done]|].
  apply wp_bind. eapply wp_mono;
    [apply Hmod; [apply keeps_modify_op; intros o; by destruct (so_published o)|exact Hs3]|].
  intros _ s4 [Hs4 Hst4]. apply wp_bind.
  eapply wp_mono; [apply Hmod; [by apply keeps_modify_op; intros []|exact Hs4]|].
  intros _ s5 [Hs5 Hst5]. apply wp_bind.
  eapply wp_mono; [by apply (moves_get_op L1 L1)|]. intros o2 s6 [Hs6 Hst6].
  assert (steady s s6) as Hst' by (do 3 (etrans; [|eassumption]); done).
  case_match; apply wp_bind.
  - eapply wp_mono; [by apply moves_completeWithCb_with|]. intros _ s7 [Hs7 Hst7]. apply wp_ret.
    split; [done|]. split; [done | by etrans].
  - eapply wp_mono; [by apply (moves_restartResponseTimer L1 L1)|]. intros _ s7 [Hs7 Hst7].
    apply wp_ret. split; [by eapply Good_mono|]. split; [done | by etrans].
Qed.

Lemma moves_resume_with a :
  unheld a L → moves ((a, Type_Send) :: L) L (SendOp_resume_with resume a).
Proof.
  intros Ha. set (L1 := (a, Type_Send) :: L).
  assert ((a, Type_Send) ∈ L1) as Hin by by left. assert (L ⊆ L1) as HL by set_solver.
  unfold SendOp_resume_with. apply (moves_bind _ L1); [by apply (moves_get_op (T := SendOp))|].
  intros o. destruct (negb _); [by apply moves_ret|].
  apply (moves_bind _ L1); [by apply moves_canSend|]. intros can.
  destruct (negb _); [by apply moves_ret|].
  apply (moves_bind _ L1).
  { apply (moves_modify_op (T := SendOp)); try done. by apply keeps_modify_op; intros []. }
  intros _ s Hs. apply wp_bind. eapply wp_mono; [by apply wp_doSendInternal_with|].
  intros ec s1 (Hs1 & Hfail & Hst). case_bool_decide as Hec; [by apply wp_ret|].
  apply wp_bind. eapply wp_mono; [by apply moves_completeWithCb_with, Hfail|].
  intros _ s2 [Hs2 Hst2]. apply wp_ret. split; [done | by etrans].
Qed.
End with_resume.

(** No publish is held by the callers of a resumption. *)
Definition no_sends (L : pins) : Prop := ∀ a, (a, Type_Send) ∉ L.

Lemma unheld_send L a s :
  no_sends L → pinned L s → (∃ o, g_store s !! a = Some o ∧ Op_type o = Type_Send) →
  unheld a L.
Proof.
  intros HL Hp (o & Ho & HT) ([b T] & Eb & Hb)%list_elem_of_fmap. simpl in Eb. subst b.
  destruct (Hp _ _ Hb) as (o' & Ho' & HT'). simplify_eq. rewrite HT in Hb. by apply (HL a).
Qed.

Lemma moves_resumeSendOps_loop L fuel idx :
  no_sends L → moves L L (resumeSendOps_loop fuel idx).
Proof.
  intros HL. revert idx. induction fuel as [|fuel IH]; intros idx; simpl.
  { apply moves_throw. right. by right. }
  apply moves_gets_bind. intros s Hs. destruct (_ !! idx) as [a|] eqn:Hi; [|by apply wp_ret].
  assert (a ∈ ops_of Type_Send s) as Hin by by eapply list_elem_of_lookup_2.
  pose proof (Good_listed L _ a s Hs Hin) as Hs'.
  assert (unheld a L) as Ha by (by apply (unheld_send L a s HL (gd_pins _ _ Hs)), listed_live; [apply Hs|]).
  assert (L ⊆ (a, Type_Send) :: L) as Hsub by set_solver.
  revert s Hs' Hs Hin Hi. cut (moves ((a, Type_Send) :: L) L
    (o ← get_op (T := SendOp) a;
     if negb (so_paused o) then resumeSendOps_loop fuel (S idx)
     else resumed ← SendOp_resume_with (resumeSendOps_loop fuel) a;
          if negb resumed then mret tt else resumeSendOps_loop fuel idx)).
  { intros Hm s Hs' _ _ _. by apply Hm. }
  apply (moves_bind _ ((a, Type_Send) :: L)); [by apply (moves_get_op (T := SendOp)); [left|]|].
  intros o. destruct (negb _); [by apply (moves_mono _ _ L L)|].
  apply (moves_bind _ L); [|intros r; destruct (negb r); [by apply moves_ret | apply IH]].
  apply moves_resume_with; [intros; apply keeps_resumeSendOps_loop | done | done].
Qed.

Lemma moves_resumeSendOpsSince L idx : no_sends L → moves L L (resumeSendOpsSince idx).
Proof.
  intros HL. apply (moves_bind _ L); [by apply moves_gets|]. intros fuel.
  by apply moves_resumeSendOps_loop.
Qed.

(** ** The functions that complete an operation *)

(** What the completion of an operation of type [T] needs of the addresses held:
    not this one, and no publish if the operation is one. *)
Definition releases (a : addr) (T : OpType) (L : pins) : Prop :=
  unheld a L ∧ (T = Type_Send → no_sends L).

Lemma moves_opComplete L a T : releases a T L → moves ((a, T) :: L) L (opComplete a).
Proof.
  intros [Ha HT]. apply moves_opComplete_with; [done|]. intros HTs idx.
  by apply moves_resumeSendOpsSince, HT.
Qed.

Lemma moves_completeWithCb L a st :
  releases a Type_Send L → moves ((a, Type_Send) :: L) L (SendOp_completeWithCb a st).
Proof.
  intros [Ha HT]. apply moves_completeWithCb_with; [|by intros; apply moves_resumeSendOpsSince, HT|done].
  intros idx. apply keeps_resumeSendOpsSince.
Qed.

Local Ltac solve_completes T :=
  intros Ha; apply moves_of; [first [apply keeps_ConnectOp_completeOpInternal |
    apply keeps_SubscribeOp_completeOpInternal | apply keeps_UnsubscribeOp_completeOpInternal]|];
  intros s Hs; destruct (pinned_op (T := T) _ _ s ltac:(by left) (gd_pins _ _ Hs)) as (t & o & Ho);
  apply wp_bind; eapply wp_get_op_live; [done|]; cbn beta.

Lemma moves_ConnectOp_complete L a st r :
  unheld a L → moves ((a, Type_Connect) :: L) L (ConnectOp_completeOpInternal a st r).
Proof.
  solve_completes ConnectOp.
  by apply (wp_complete_report_mem _ L a Type_Connect (co_cb o)
    (λ n, EvConnectComplete a n st r)); [apply moves_opComplete; split|].
Qed.

Lemma moves_SubscribeOp_complete L a st r :
  unheld a L → moves ((a, Type_Subscribe) :: L) L (SubscribeOp_completeOpInternal a st r).
Proof.
  solve_completes SubscribeOp.
  by apply (wp_complete_report_mem _ L a Type_Subscribe (su_cb o)
    (λ n, EvSubscribeComplete a n st r)); [apply moves_opComplete; split|].
Qed.

Lemma moves_UnsubscribeOp_complete L a st :
  unheld a L → moves ((a, Type_Unsubscribe) :: L) L (UnsubscribeOp_completeOpInternal a st).
Proof.
  solve_completes UnsubscribeOp.
  by apply (wp_complete_report_mem _ L a Type_Unsubscribe (un_cb o)
    (λ n, EvUnsubscribeComplete a n st)); [apply moves_opComplete; split|].
Qed.

Lemma moves_terminateOp L a T st :
  releases a T L → moves ((a, T) :: L) L (Op_terminateOp a st).
Proof.
  intros Hr s Hs. pose proof Hr as [Ha _].
  destruct (gd_pins _ _ Hs a T ltac:(by left)) as (o & Ho & HT).
  unfold Op_terminateOp. apply wp_bind. eapply (wp_get_base_live _ a o); [done|]. rewrite HT.
  destruct T; [apply moves_ConnectOp_complete | | | apply moves_SubscribeOp_complete
    | apply moves_UnsubscribeOp_complete | | by apply moves_completeWithCb]; try done;
    by eapply moves_opComplete.
Qed.

(** ** Loops over the operations *)

(** A range-for over [m_ops] whose body handles a null entry or a live operation. *)
Lemma moves_range_ops L (body : option addr → M ClientImpl unit) :
  moves L L (body None) → (∀ a T, moves ((a, T) :: L) L (body (Some a))) →
  moves L L (range_for m_ops g_opsChanges body).
Proof.
  intros Hnone Hsome s Hs.
  eapply wp_mono; [apply (wp_range_for safe_fault m_ops g_opsChanges body
    (λ _ s1, Good L s1 ∧ steady s s1))|].
  - intros i s1 p [Hs1 Hst] Hp.
    assert (wp safe_fault (body p) (λ _ s2, Good L s2 ∧ steady s1 s2) s1) as Hbody.
    { destruct p as [a|]; [|by apply Hnone].
      destruct (entry_live s1 i a (gd_inv _ _ Hs1) Hp) as [o Ho].
      apply (Hsome a (Op_type o)). destruct Hs1 as [? ? ?]. split; [done | | done].
      by eapply pinned_cons. }
    eapply wp_mono; [exact Hbody|]. intros _ s2 [Hs2 Hst2]. split; [|apply Hst2].
    split; [done | by etrans].
  - intros i s1 [_ Hst]. apply Hst.
  - done.
  - done.
Qed.

Lemma moves_terminateOps status mode : moves [] [] (terminateOps status mode).
Proof.
  apply moves_range_ops; [by destruct mode; apply moves_ret|]. intros a T.
  assert (releases a T []) as Hr by (split; [by apply not_elem_of_nil | by intros _ ? ?%not_elem_of_nil]).
  destruct mode; [|by apply moves_terminateOp].
  apply (moves_bind _ [(a, T)]); [by apply (moves_get_base _ _ a T); [left|]|]. intros o.
  destruct (is_send_or_recv _); [apply moves_ret; set_solver | by apply moves_terminateOp].
Qed.

(** A disconnection keeps the publishes and the receptions. *)
Definition only_exchanges (L : pins) : Prop := ∀ a T, (a, T) ∈ L → is_send_or_recv T = true.

Lemma moves_brokerDisconnected L L' reason status :
  only_exchanges L' → L' ⊆ L → moves L L' (brokerDisconnected reason status).
Proof.
  intros HL' HL. apply moves_of; [apply keeps_brokerDisconnected|]. intros s Hs.
  eapply wp_mono.
  { eapply (wp_faults only_assert); [|by intros f ->; left].
    apply wp_brokerDisconnected_quiet; [done | apply Hs | apply Hs]. }
  intros _ s' (_ & _ & _ & _ & Hst & _ & _ & Hlen & Hch & Hpush & Hcb).
  split; [|split; [unfold callbacks_ready; rewrite Hcb; apply Hs | by split]].
  intros a T Ha. destruct (gd_pins _ _ Hs a T (HL _ Ha)) as (o & Ho & HT).
  exists o. split; [|done]. apply Hst. split; [done|]. rewrite HT. by apply (HL' a).
Qed.

End members.

(** ** Automation along the syntax *)

Ltac held := first [eassumption | by apply list_elem_of_here | set_solver].
Ltac sub := first [reflexivity | set_solver].

Ltac moves_leaf :=
  lazymatch goal with
  | |- moves _ _ (gets _) => apply moves_gets; sub
  | |- moves _ _ (comms_assert _) => apply moves_comms_assert; sub
  | |- moves _ _ (get_base _) => eapply moves_get_base; [held | sub]
  | |- moves _ _ (get_op _) => apply moves_get_op; [held | sub]
  | |- moves _ _ (modify_op _ _) => apply moves_modify_op; [held | sub | keeps_auto | by intros []]
  | |- moves _ _ (modify _) => apply moves_modify; [sub | keeps_auto | by intros ?; split_and!]
  | |- moves _ _ (set_session _) => apply moves_modify; [sub | keeps_auto | by intros ?; split_and!]
  | |- moves _ _ (on_timerMgr (timerCancel _)) => apply moves_timerCancel; sub
  | |- moves _ _ (on_timerMgr (timerIsActive _)) => apply moves_timerIsActive; sub
  | |- moves _ _ (on_timerMgr (Timer_setSuspended _ _)) => apply moves_setSuspended; sub
  | |- moves _ _ (on_clientState (modify _)) => apply moves_clientState_modify; [sub | done]
  | |- moves _ _ (callback _) => apply moves_callback; [sub | done]
  | |- moves _ _ (sendMessage _) => apply moves_sendMessage; sub
  | |- _ => solve [eauto with mem]
  end.

Ltac moves_step :=
  lazymatch goal with
  | |- moves _ _ (mret _) => apply moves_ret; sub
  | |- moves _ _ (mbind _ (get_op _)) =>
      first
        [ eapply moves_wait; [held | sub | intros []; simpl; set_solver | by intros []]
        | eapply moves_bind; [moves_leaf | intros ?] ]
  | |- moves ?L _ (mbind _ _) =>
      first [ eapply moves_bind; [moves_leaf | intros ?] | apply (moves_bind _ L); [|intros ?] ]
  | |- moves _ _ (when _ _) => apply moves_when; [sub | intros ?]
  | |- moves _ _ (match ?x with _ => _ end) => destruct x eqn:?
  | |- moves _ _ (if ?x then _ else _) => destruct x eqn:?
  | |- _ => moves_leaf
  end.

Ltac moves_auto := cbv zeta; repeat moves_step.

