(* ===== verification/Survival.v ===== *)
(** * What the functions of the library leave alone

    A publish that has gone out is not paused, and only the completion of the
    publish itself destroys it: the completion of other operations resumes paused
    publishes only.  [held] says that a publish that is not paused, and its timer,
    are as they were; the functions of the library keep it, except those that are
    called for this publish and, for the timer, a disconnection. *)

From S2P Require Import Prelude SortedVec Config Protocol Topic PacketId TimerMgr State.
From S2P Require Import Lifecycle Completion Session SendOp RecvOp SubscribeOp ConnectOp.
From S2P Require Import Client Invariant Objects Ownership Preservation Disconnect Memory.

(** A timer, its state, and the configuration by which it is restarted. *)
Definition Watch : Type := nat * TimerInfo TimeoutCb * ConfigState.

(** The timer has this state, and no operation but [b] has it. *)
Definition holds_timer (b : addr) (p : Watch) (s : ClientImpl) : Prop :=
  let '(i, info, cfg) := p in
  m_timers (m_timerMgr s) !! i = Some info ∧ m_configState s = cfg ∧
  ∀ c oc, g_store s !! c = Some oc → Some i ∈ held_timers (op_derived oc) → c = b.

(** The publish at [b], and the timer [k] if one is followed. *)
Definition held (b : addr) (o : Op) (k : option Watch)
    (s : ClientImpl) : Prop :=
  g_store s !! b = Some o ∧ match k with Some p => holds_timer b p s | None => True end.

Definition held_contract b o k : Contract ClientImpl := {|
  ct_inv := held b o k;
  ct_rel := λ _ _, True;
  ct_faults := any_fault;
  ct_pre := any_step_preorder;
|}.

Create HintDb surv.

Section survival.
  Context `{Config} `{CommsLib} `{App} {Hquiet : Quiet}.
  Context (b : addr) (t : Z) (d : SendOp) (k : option Watch).
  Context (Hunpaused : so_paused d = false).

Let bo := MkOp t (DSend d).

#[local] Instance held_ct : Contract ClientImpl := held_contract b bo k.

Lemma hkeeps_modify f :
  (∀ s, g_store (f s) = g_store s) → (∀ s, m_timerMgr (f s) = m_timerMgr s) →
  (∀ s, m_configState (f s) = m_configState s) → keeps (modify f).
Proof.
  intros Hs Ht Hc. apply keeps_modify. intros s Hb. split; [|done].
  destruct Hb as [Hb Hk]. split; [by rewrite Hs|]. destruct k as [[[i info] cfg]|]; [|done].
  destruct Hk as (Hp & Hcfg & Ho). split; [by rewrite Ht|]. split; [by rewrite Hc|].
  intros c oc. rewrite Hs. apply Ho.
Qed.

Lemma hkeeps_throw {A} f : keeps (throw (A := A) f).
Proof. by apply keeps_throw. Qed.

Lemma hkeeps_comms_assert b' : keeps (comms_assert b').
Proof. by apply keeps_comms_assert. Qed.

Lemma hkeeps_callback e : keeps (callback e).
Proof.
  intros s Hs. apply wp_quiet_callback; [exact app_quiet|]. split; [exact Hs | done].
Qed.

Lemma hkeeps_on_clientState {A} (m : M ClientState A) : keeps (on_clientState m).
Proof.
  intros s Hs. unfold wp, on_clientState, zoom. destruct (m _); [|done]. split; [exact Hs | done].
Qed.

Hint Resolve hkeeps_throw hkeeps_comms_assert hkeeps_callback hkeeps_on_clientState : surv.
Hint Extern 1 (keeps (modify _)) => apply hkeeps_modify; intros; reflexivity : surv.
Hint Extern 1 (keeps (set_session _)) => apply hkeeps_modify; intros; reflexivity : surv.

Ltac hauto := repeat first [ solve [eauto 2 with surv nocore] | keeps_step ].

Lemma hkeeps_get_base a : keeps (get_base a).
Proof. unfold get_base. hauto. Qed.
Hint Resolve hkeeps_get_base : surv.

Lemma hkeeps_get_op {T} `{Subclass T} a : keeps (get_op (T := T) a).
Proof. unfold get_op. hauto. Qed.
Hint Resolve hkeeps_get_op : surv.

(** ** Timers *)

(** The timer manager changes, but not the timer that is followed. *)
Lemma held_set_timerMgr mgr s :
  (∀ i info cfg, k = Some (i, info, cfg) → m_timers (m_timerMgr s) !! i = Some info →
    m_timers mgr !! i = Some info) →
  held b bo k s → held b bo k (set_timerMgr mgr s).
Proof.
  intros Hm [Hb Hk]. split; [done|]. destruct k as [[[i info] cfg]|]; [|done].
  destruct Hk as [Hi Ho]. split; [by eapply Hm | exact Ho].
Qed.

(** A handle of another timer. *)
Definition other_timer (tm : Timer) : Prop :=
  ∀ i info cfg, k = Some (i, info, cfg) → tm ≠ Some i.

Lemma keeps_upd (m : M (TimerMgr TimeoutCb) unit) tm f :
  other_timer tm →
  (∀ mgr, wp any_fault m (λ _ mgr', mgr' = mgr ∨ ∃ j, tm = Some j ∧
    m_timers mgr' = m_timers (upd_timer j f mgr)) mgr) →
  keeps (on_timerMgr m).
Proof.
  intros Ht Hm s Hs. apply wp_zoom. eapply wp_mono; [apply Hm|]. intros [] mgr Hmgr.
  split; [|done]. apply held_set_timerMgr; [|done]. intros i info cfg Hk Hi.
  destruct Hmgr as [->|(j & Hj & Em)]; [done|]. rewrite Em, lookup_upd.
  case_decide as Hij; [|done]. subst j. by destruct (Ht i info cfg Hk).
Qed.

Lemma wp_timer_at (tm : Timer) (mgr : TimerMgr TimeoutCb) i info :
  timer_at mgr tm = Some (i, info) → tm = Some i.
Proof.
  unfold timer_at. destruct tm as [j|]; [|done]. simpl. destruct (_ !! j); [|done].
  by intros [= <- _].
Qed.

Lemma hkeeps_timerWait tm ms cb a : other_timer tm → keeps (on_timerMgr (timerWait tm ms cb a)).
Proof.
  intros Ht. eapply keeps_upd; [done|]. intros mgr. unfold timerWait.
  apply wp_bind, wp_gets. apply wp_bind, wp_comms_assert; [done|].
  destruct (timer_at mgr tm) as [[i info]|] eqn:Hat; [|by apply wp_ret; left].
  apply wp_bind, wp_comms_assert; [done|]. apply wp_modify. right. exists i.
  split; [by eapply wp_timer_at | done].
Qed.

Lemma hkeeps_timerCancel tm : other_timer tm → keeps (on_timerMgr (timerCancel tm)).
Proof.
  intros Ht. eapply keeps_upd; [done|]. intros mgr. unfold timerCancel.
  apply wp_bind, wp_gets. apply wp_bind, wp_comms_assert; [done|].
  destruct (timer_at mgr tm) as [[i info]|] eqn:Hat; [|by apply wp_ret; left].
  apply wp_bind, wp_comms_assert; [done|]. apply wp_modify. right. exists i.
  split; [by eapply wp_timer_at | done].
Qed.

Lemma hkeeps_timerIsActive tm : keeps (on_timerMgr (timerIsActive tm)).
Proof.
  intros s Hs. apply wp_zoom. eapply wp_mono; [by apply wp_timerIsActive|].
  intros x mgr [-> _]. split; [|done]. by apply held_set_timerMgr.
Qed.
Hint Resolve hkeeps_timerIsActive : surv.

Lemma hkeeps_destroy_timers l :
  (∀ tm, tm ∈ l → other_timer tm) → keeps (on_timerMgr (mapM_ Timer_destroy l)).
Proof.
  intros Hl s Hs. apply wp_zoom.
  set (I (mgr : TimerMgr TimeoutCb) := ∀ i info cfg, k = Some (i, info, cfg) →
    m_timers (m_timerMgr s) !! i = Some info → m_timers mgr !! i = Some info).
  eapply (wp_mono _ _ (λ _ mgr, I mgr)); [|intros [] mgr HI; split; [by apply held_set_timerMgr | done]].
  assert (I (m_timerMgr s)) as HI by (by intros i info cfg). revert HI. generalize (m_timerMgr s) at 1 2 as mgr.
  induction l as [|tm l IH]; intros mgr HI; simpl; [by apply wp_ret|]. apply wp_bind.
  eapply (wp_mono _ _ (λ _ mgr', I mgr')); [|intros [] mgr'; apply IH; intros; apply Hl; by right].
  unfold Timer_destroy, freeTimer. apply wp_when; [|intros _; exact HI]. intros _.
  apply wp_bind, wp_gets. apply wp_bind, wp_comms_assert; [done|].
  destruct (timer_at mgr tm) as [[j info]|] eqn:Hat; [|by apply wp_ret].
  apply wp_bind, wp_comms_assert; [done|]. apply wp_bind, wp_comms_assert; [done|].
  apply wp_bind, wp_modify, wp_modify. intros i info' cfg Hk Hi.
  change (m_timers (upd_timer j (λ _, TimerInfo_new) mgr) !! i = Some info').
  rewrite lookup_upd. case_decide as Hij; [|by eapply HI]. subst j.
  destruct (Hl tm ltac:(by left) i info' cfg Hk). by eapply wp_timer_at.
Qed.

(** The timers of the other operations are others. *)
Lemma held_other a o tm s :
  held b bo k s → g_store s !! a = Some o → a ≠ b → tm ∈ held_timers (op_derived o) →
  other_timer tm.
Proof.
  intros [_ Hk] Ha Hab Htm i info cfg Hi ->. rewrite Hi in Hk. destruct Hk as (_ & _ & Ho).
  by apply Hab, (Ho a o).
Qed.

(** ** Other operations *)

(** An access to an operation of another class is one to another operation. *)
Class OtherClass (T : Type) `{Subclass T} : Prop := other_class : ∀ o : T, upcast o ≠ DSend d.

#[local] Instance other_ConnectOp : OtherClass ConnectOp. Proof. by intros o. Qed.
#[local] Instance other_KeepAliveOp : OtherClass KeepAliveOp. Proof. by intros o. Qed.
#[local] Instance other_SubscribeOp : OtherClass SubscribeOp. Proof. by intros o. Qed.
#[local] Instance other_UnsubscribeOp : OtherClass UnsubscribeOp. Proof. by intros o. Qed.
#[local] Instance other_RecvOp : OtherClass RecvOp. Proof. by intros o. Qed.

Lemma hkeeps_get_op_bind {A} `{Subclass T} a (f : T → M ClientImpl A) :
  (∀ s o t', held b bo k s → g_store s !! a = Some (MkOp t' (upcast o)) →
    wp any_fault (f o) (λ _ s', held b bo k s' ∧ True) s) →
  keeps (o ← get_op (T := T) a; f o).
Proof. intros Hf s Hs. apply wp_bind, wp_get_op; [done|]. intros t' o Ha. by eapply Hf. Qed.

Lemma other_addr `{OtherClass T} a (o : T) t' s :
  held b bo k s → g_store s !! a = Some (MkOp t' (upcast o)) → a ≠ b.
Proof.
  intros [Hb _] Ha ->. rewrite Hb in Ha. injection Ha as _ Ho. by apply (other_class o).
Qed.

Lemma hkeeps_other `{OtherClass T} {A} a (f : T → M ClientImpl A) :
  (a ≠ b → ∀ o, keeps (f o)) → keeps (o ← get_op (T := T) a; f o).
Proof.
  intros Hf. apply hkeeps_get_op_bind. intros s o t' Hs Ha.
  apply Hf; [by eapply other_addr | done].
Qed.

Lemma hkeeps_wait `{Subclass T} (tm : T → Timer) a ms cb :
  a ≠ b → (∀ o, tm o ∈ held_timers (upcast o)) →
  keeps (o ← get_op (T := T) a; on_timerMgr (timerWait (tm o) ms cb a)).
Proof.
  intros Hab Htm. apply hkeeps_get_op_bind. intros s o t' Hs Ha.
  apply hkeeps_timerWait; [|done]. by eapply held_other.
Qed.

Lemma hkeeps_modify_op `{Subclass T} a (f : T → T) :
  a ≠ b → (∀ o, held_timers (upcast (f o)) = held_timers (upcast o)) → keeps (modify_op a f).
Proof.
  intros Hab Hf. apply hkeeps_get_op_bind. intros s o t' [Hb Hk] Ha. apply wp_modify.
  split; [|done]. unfold put_derived. split; simpl; [by rewrite lookup_alter_ne|].
  destruct k as [[[i info] cfg]|]; [|done]. destruct Hk as (Hp & Hc & Ho).
  split; [done|]. split; [done|]. simpl. intros c oc. rewrite lookup_alter. case_decide as Hac; [|apply Ho]. subst c.
  rewrite Ha. simpl. intros [= <-]. simpl. rewrite Hf. by apply (Ho a (MkOp t' (upcast o))).
Qed.

Lemma hkeeps_Op_destroy a : a ≠ b → keeps (Op_destroy a).
Proof.
  intros Hab s Hs. unfold Op_destroy. apply wp_bind, wp_get_base; [done|]. intros o Ha.
  apply wp_bind. eapply wp_mono.
  { eapply wp_and; [by apply hkeeps_on_clientState|].
    instantiate (1 := λ _ s', g_store s' = g_store s). instantiate (1 := any_fault).
    unfold wp, on_clientState, zoom. by destruct (releasePacketId _ _). }
  intros [] s1 [[Hs1 _] Est]. apply wp_bind. eapply wp_mono.
  { apply hkeeps_destroy_timers; [|done]. intros tm Htm. eapply held_other; [exact Hs1 | | done | done].
    by rewrite Est. }
  intros [] s2 [[Hb Hk] _]. apply wp_modify. split; [|done]. split; simpl.
  - by rewrite lookup_delete_ne.
  - destruct k as [[[i info] cfg]|]; [|done]. destruct Hk as (Hp & Hc & Ho).
    split; [done|]. split; [done|]. intros c oc. simpl. rewrite lookup_delete. case_decide; [done | apply Ho].
Qed.

Lemma hkeeps_erase a T : a ≠ b → keeps (eraseFromList a T).
Proof.
  intros Hab. pose proof (hkeeps_Op_destroy a Hab). unfold eraseFromList, set_ops_of. hauto.
Qed.

(** The timers of operations of other classes. *)
Lemma hkeeps_wait_other `{OtherClass T} (tm : T → Timer) a ms cb :
  (∀ o, tm o ∈ held_timers (upcast o)) →
  keeps (o ← get_op (T := T) a; on_timerMgr (timerWait (tm o) ms cb a)).
Proof.
  intros Htm. apply hkeeps_get_op_bind. intros s o t' Hs Ha.
  apply hkeeps_timerWait; [|done]. eapply held_other; [done..| |by apply Htm].
  by eapply other_addr.
Qed.
Hint Extern 0 (keeps (mbind _ (get_op _))) =>
  apply hkeeps_wait_other; intros []; simpl; set_solver : surv.
Hint Extern 0 (keeps (mbind _ (get_op _))) =>
  apply hkeeps_wait; [assumption | intros []; simpl; set_solver] : surv.
Hint Extern 1 (keeps (modify_op _ _)) =>
  apply hkeeps_modify_op; [assumption | by intros []] : surv.
Hint Extern 1 (keeps (eraseFromList _ _)) => apply hkeeps_erase; assumption : surv.

Lemma hkeeps_sendMessage msg : keeps (sendMessage msg).
Proof.
  unfold sendMessage, must_callback, KeepAliveOp_messageSent, KeepAliveOp_restartPingTimer.
  cbv zeta. hauto.
Qed.
Hint Resolve hkeeps_sendMessage : surv.

Lemma hkeeps_canSend a : keeps (SendOp_canSend a).
Proof.
  unfold SendOp_canSend, hasPausedSendsBefore, hasHigherQosSendsBefore. hauto.
  match goal with |- keeps (hasHigherQos_loop ?l _ _) => induction l end; simpl; hauto.
Qed.
Hint Resolve hkeeps_canSend : surv.

Lemma hkeeps_restartResponseTimer a : a ≠ b → keeps (SendOp_restartResponseTimer a).
Proof. intros Hab. unfold SendOp_restartResponseTimer. hauto. Qed.
Hint Extern 1 (keeps (SendOp_restartResponseTimer _)) =>
  apply hkeeps_restartResponseTimer; assumption : surv.

(** ** Completion and resumption *)

Section with_resume.
  Context (resume : nat → M ClientImpl unit) (Hresume : ∀ idx, keeps (resume idx)).
Hint Resolve Hresume : surv.

Lemma hkeeps_complete_with a st :
  a ≠ b → keeps (opComplete_with resume a) ∧ keeps (SendOp_completeWithCb_with resume a st).
Proof.
  intros Hab. unfold SendOp_completeWithCb_with, opComplete_with, opComplete_Send_with.
  split; hauto.
Qed.

(** A publish that is paused is not the one that is followed. *)
Lemma hkeeps_resume_with a : keeps (SendOp_resume_with resume a).
Proof.
  unfold SendOp_resume_with. apply hkeeps_get_op_bind. intros s o t' Hs Ha.
  destruct (so_paused o) eqn:Hp; [|by apply wp_ret]. cbn [negb].
  assert (a ≠ b) as Hab.
  { intros ->. destruct Hs as [Hb _]. rewrite Hb in Ha. injection Ha as _ Ho. congruence. }
  pose proof (λ st, proj2 (hkeeps_complete_with a st Hab)). revert s Hs Ha.
  match goal with |- ∀ s, _ → _ → wp _ ?m _ s => enough (keeps m) as Hk by (intros s Hs _; by apply Hk) end.
  unfold SendOp_doSendInternal_with. hauto; cbv zeta; hauto.
  apply hkeeps_modify_op; [done|]. intros o'. by destruct (so_published o').
Qed.
End with_resume.

Lemma hkeeps_resumeSendOps_loop fuel idx : keeps (resumeSendOps_loop fuel idx).
Proof.
  revert idx. induction fuel as [|fuel IH]; intros idx; simpl; [apply hkeeps_throw|].
  hauto. by apply hkeeps_resume_with.
Qed.

Lemma hkeeps_resumeSendOpsSince idx : keeps (resumeSendOpsSince idx).
Proof. apply keeps_bind; [apply keeps_gets | intros; apply hkeeps_resumeSendOps_loop]. Qed.

Lemma hkeeps_opComplete a : a ≠ b → keeps (opComplete a).
Proof.
  intros Hab. by apply (hkeeps_complete_with _ hkeeps_resumeSendOpsSince a AsyncOpStatus_Complete).
Qed.

Lemma hkeeps_completeWithCb a st : a ≠ b → keeps (SendOp_completeWithCb a st).
Proof. intros Hab. by apply (hkeeps_complete_with _ hkeeps_resumeSendOpsSince). Qed.
Hint Extern 1 (keeps (opComplete _)) => apply hkeeps_opComplete; assumption : surv.
Hint Extern 1 (keeps (SendOp_completeWithCb _ _)) =>
  apply hkeeps_completeWithCb; assumption : surv.

Lemma hkeeps_ConnectOp_complete a st r : keeps (ConnectOp_completeOpInternal a st r).
Proof. apply hkeeps_other. intros Hab o. hauto. Qed.

Lemma hkeeps_SubscribeOp_complete a st r : keeps (SubscribeOp_completeOpInternal a st r).
Proof. apply hkeeps_other. intros Hab o. hauto. Qed.

Lemma hkeeps_UnsubscribeOp_complete a st : keeps (UnsubscribeOp_completeOpInternal a st).
Proof. apply hkeeps_other. intros Hab o. hauto. Qed.
Hint Resolve hkeeps_ConnectOp_complete hkeeps_SubscribeOp_complete
  hkeeps_UnsubscribeOp_complete : surv.

(** ** Timeouts *)

Lemma hkeeps_resendDupMsg a : a ≠ b → keeps (SendOp_resendDupMsg a).
Proof. intros Hab. unfold SendOp_resendDupMsg. hauto. Qed.
Hint Extern 1 (keeps (SendOp_resendDupMsg _)) => apply hkeeps_resendDupMsg; assumption : surv.

Lemma hkeeps_forceDupResend a : a ≠ b → keeps (SendOp_forceDupResend a).
Proof. intros Hab. unfold SendOp_forceDupResend. hauto. Qed.

(** The operation and timer that are followed are not those of the timeout. *)
Lemma hkeeps_run_TimeoutCb p :
  p.1 ≠ KeepAliveOp_pingTimeoutCb → p ≠ (SendOp_recvTimeoutCb, b) → keeps (run_TimeoutCb p).
Proof.
  destruct p as [cb a]. intros Hp Hb. destruct cb; try done; cbn [run_TimeoutCb];
    unfold KeepAliveOp_sendPing; hauto.
  - unfold RecvOp_responseTimeoutInternal. apply keeps_when, hkeeps_other. intros Hab o. hauto.
  - assert (a ≠ b) by congruence. unfold SendOp_responseTimeoutInternal. hauto.
Qed.

Lemma hkeeps_doApiExit : keeps doApiExit.
Proof. unfold doApiExit, cleanOps. hauto. Qed.

End survival.

(** ** Publishes that are not paused *)

Definition unpaused (a : addr) (s : ClientImpl) : Prop :=
  ∃ t d, g_store s !! a = Some (MkOp t (DSend d)) ∧ so_paused d = false.

(** What a publish that is not paused survives. *)
Lemma survives `{App} {A} a (m : M ClientImpl A) s :
  (∀ t d, so_paused d = false →
    keeps (Contract0 := held_contract a (MkOp t (DSend d)) None) m) →
  unpaused a s → wp any_fault m (λ _ s', unpaused a s') s.
Proof.
  intros Hm (t & d & Ha & Hd). eapply wp_mono; [by apply (Hm t d Hd s)|].
  intros x s' [[Ha' _] _]. by exists t, d.
Qed.

(** ** The front of the list of publishes

    The completion of a publish erases it, and the resumption that follows erases
    publishes behind it. *)
Definition starts (pre : list addr) (s : ClientImpl) : Prop :=
  NoDup (ops_of Type_Send s) ∧ pre `prefix_of` ops_of Type_Send s.

Definition front_contract pre : Contract ClientImpl := {|
  ct_inv := starts pre;
  ct_rel := λ _ _, True;
  ct_faults := any_fault;
  ct_pre := any_step_preorder;
|}.

Create HintDb front.

Section front.
  Context `{Config} `{CommsLib} `{App} {Hquiet : Quiet} (pre : list addr).

#[local] Instance front_ct : Contract ClientImpl := front_contract pre.

Lemma pkeeps_sends {A} (m : M ClientImpl A) :
  (∀ s, wp any_fault m (λ _ s', ops_of Type_Send s' = ops_of Type_Send s) s) → keeps m.
Proof.
  intros Hm s Hs. eapply wp_mono; [apply Hm|]. intros x s' E. split; [|done].
  unfold ct_inv; simpl. unfold starts. by rewrite E.
Qed.

Lemma front_modify f :
  (∀ s, ops_of Type_Send (f s) = ops_of Type_Send s) → keeps (modify f).
Proof. intros Hf. apply pkeeps_sends. intros s. by apply wp_modify. Qed.

Lemma front_throw {A} f : keeps (throw (A := A) f).
Proof. by apply keeps_throw. Qed.

Lemma front_comms_assert b : keeps (comms_assert b).
Proof. by apply keeps_comms_assert. Qed.

Lemma front_callback e : keeps (callback e).
Proof. apply pkeeps_sends. intros s. by apply wp_quiet_callback; [exact app_quiet|]. Qed.

Lemma front_on_timerMgr {A} (m : M (TimerMgr TimeoutCb) A) : keeps (on_timerMgr m).
Proof. apply pkeeps_sends. intros s. unfold wp, on_timerMgr, zoom. by destruct (m _). Qed.

Lemma front_on_clientState {A} (m : M ClientState A) : keeps (on_clientState m).
Proof. apply pkeeps_sends. intros s. unfold wp, on_clientState, zoom. by destruct (m _). Qed.

Hint Resolve front_throw front_comms_assert front_callback front_on_timerMgr
  front_on_clientState : front.
Hint Extern 1 (keeps (modify _)) => apply front_modify; intros; reflexivity : front.

Ltac fauto := repeat first [ solve [eauto 2 with front nocore] | keeps_step ].

Lemma front_get_op {T} `{Subclass T} a : keeps (get_op (T := T) a).
Proof. unfold get_op, get_base. fauto. Qed.
Hint Resolve front_get_op : front.

Lemma front_modify_op {T} `{Subclass T} a (f : T → T) : keeps (modify_op a f).
Proof. unfold modify_op. fauto. Qed.
Hint Resolve front_modify_op : front.

Lemma front_destroy a : keeps (Op_destroy a).
Proof. unfold Op_destroy, get_base. fauto. Qed.
Hint Resolve front_destroy : front.

Lemma front_sendMessage msg : keeps (sendMessage msg).
Proof.
  unfold sendMessage, must_callback, KeepAliveOp_messageSent, KeepAliveOp_restartPingTimer.
  cbv zeta. fauto.
Qed.

Lemma front_canSend a : keeps (SendOp_canSend a).
Proof.
  unfold SendOp_canSend, hasPausedSendsBefore, hasHigherQosSendsBefore. fauto.
  match goal with |- keeps (hasHigherQos_loop ?l _ _) => induction l end; simpl; fauto.
Qed.

Lemma front_restartResponseTimer a : keeps (SendOp_restartResponseTimer a).
Proof. unfold SendOp_restartResponseTimer. fauto. Qed.
Hint Resolve front_sendMessage front_canSend front_restartResponseTimer : front.

(** The erased element is behind the front, and so is what is resumed next. *)
Lemma wp_front_erase a T s :
  (T = Type_Send → a ∉ pre) → starts pre s →
  wp any_fault (eraseFromList a T)
    (λ idx s', starts pre s' ∧ (T = Type_Send → length pre ≤ idx)) s.
Proof.
  intros Ha Hs. unfold eraseFromList, set_ops_of. apply wp_bind, wp_gets.
  destruct (list_find _ _) as [[i x]|] eqn:Hf.
  2:{ apply wp_bind, wp_comms_assert; [done|]. apply wp_ret. split; [done|]. intros ->.
      by apply prefix_length, Hs. }
  apply wp_bind, wp_modify. set (s1 := set_lists _ s).
  assert (keeps (when (bool_decide (T = Type_Send))
    (modify (λ s, set_sendOpsErases (S (g_sendOpsErases s)) s)) ;; Op_destroy a)) as Hk by fauto.
  enough (starts pre s1 ∧ (T = Type_Send → length pre ≤ i)) as [Hs1 Hi].
  { specialize (Hk s1 Hs1). unfold wp, mbind, M_bind in *.
    destruct (when _ _ s1) as [[] s2|]; [|done].
    destruct (Op_destroy a s2) as [[] s3|]; [|done]. split; [apply Hk | done]. }
  destruct Hs as [Hnd [rest Hrest]]. unfold starts, ops_of, s1. simpl m_lists.
  rewrite list_of_set_list. destruct (decide (T = Type_Send)) as [->|HT]; [|by split_and!; [|by eexists|]].
  specialize (Ha eq_refl). apply list_find_Some in Hf as (Hi & -> & _).
  assert (length pre ≤ i) as Hle.
  { unfold ops_of in *. rewrite Hrest in Hi. destruct (decide (i < length pre)) as [Hlt|]; [|lia].
    rewrite lookup_app_l in Hi by done. destruct Ha. by eapply list_elem_of_lookup_2. }
  split_and!; [by eapply erase_at_spec | | done]. fold (ops_of Type_Send s). rewrite Hrest.
  unfold erase_at. rewrite take_app_ge by done. rewrite <- app_assoc. by eexists.
Qed.

(** A resumption from an index behind the front. *)
Section with_resume.
  Context (resume : nat → M ClientImpl unit).
  Context (Hresume : ∀ idx, length pre ≤ idx → keeps (resume idx)).

Lemma front_complete_with a st :
  a ∉ pre → keeps (opComplete_with resume a) ∧ keeps (SendOp_completeWithCb_with resume a st).
Proof.
  intros Ha.
  assert (∀ T, keeps (eraseFromList a T)) as Her.
  { intros T s Hs. eapply wp_mono; [by apply wp_front_erase|]. by intros idx s' [? _]. }
  assert (keeps (opComplete_Send_with resume a)) as Hsend.
  { intros s Hs. unfold opComplete_Send_with. apply wp_bind.
    eapply wp_mono; [by apply wp_front_erase|]. intros idx s' [Hs' Hidx].
    specialize (Hresume idx (Hidx eq_refl)).
    assert (keeps (disconnecting ← gets (ses_disconnecting ∘ m_sessionState);
      if disconnecting : bool then mret tt else resume idx)) as Hk by fauto. exact (Hk s' Hs'). }
  assert (keeps (opComplete_with resume a)) as Hc by (unfold opComplete_with, get_base; fauto).
  split; [done|]. unfold SendOp_completeWithCb_with. fauto.
Qed.

Lemma front_resume_with a : a ∉ pre → keeps (SendOp_resume_with resume a).
Proof.
  intros Ha. pose proof (λ st, proj2 (front_complete_with a st Ha)).
  unfold SendOp_resume_with, SendOp_doSendInternal_with. fauto; cbv zeta; fauto.
Qed.
End with_resume.

Lemma front_resumeSendOps_loop fuel idx :
  length pre ≤ idx → keeps (resumeSendOps_loop fuel idx).
Proof.
  revert idx. induction fuel as [|fuel IH]; intros idx Hidx; simpl; [apply front_throw|].
  intros s Hs. apply wp_bind, wp_gets. destruct (_ !! idx) as [a|] eqn:Hi; [|by apply wp_ret].
  assert (a ∉ pre) as Ha.
  { intros (j & Hj)%list_elem_of_lookup. destruct Hs as [Hnd [rest Hrest]].
    pose proof (lookup_lt_Some _ _ _ Hj). unfold ops_of in *. rewrite Hrest in *.
    assert (idx = j) by (eapply NoDup_lookup; [done..|]; by apply lookup_app_l_Some). lia. }
  assert (keeps (o ← get_op (T := SendOp) a;
    if negb (so_paused o) then resumeSendOps_loop fuel (S idx)
    else resumed ← SendOp_resume_with (resumeSendOps_loop fuel) a;
         if negb resumed then mret tt else resumeSendOps_loop fuel idx)) as Hk.
  { fauto; first [apply IH; lia | by apply front_resume_with]. }
  exact (Hk s Hs).
Qed.

Lemma front_resumeSendOpsSince idx : length pre ≤ idx → keeps (resumeSendOpsSince idx).
Proof.
  intros Hidx. apply keeps_bind; [apply keeps_gets|]. intros. by apply front_resumeSendOps_loop.
Qed.

Lemma front_forceDupResend a : a ∉ pre → keeps (SendOp_forceDupResend a).
Proof.
  intros Ha.
  pose proof (λ st, proj2 (front_complete_with _ front_resumeSendOpsSince a st Ha)) as Hc.
  change (∀ st, keeps (SendOp_completeWithCb a st)) in Hc.
  unfold SendOp_forceDupResend, SendOp_resendDupMsg. fauto.
Qed.

End front.
