(* ===== verification/Timeouts.v ===== *)
(** * Timeouts use no destroyed operation

    The judgement of [Memory] for the timeout functions and for
    [ClientImpl::tick] (client/lib/src/ClientImpl.cpp, client/lib/src/op/). *)

From S2P Require Import Prelude SortedVec Config Protocol Topic PacketId TimerMgr State.
From S2P Require Import Lifecycle Completion Session SendOp RecvOp SubscribeOp ConnectOp.
From S2P Require Import Client Invariant Objects Termination Ownership Preservation Requests.
From S2P Require Import Disconnect Memory Survival.

Section timeouts.
  Context `{Config} `{CommsLib} `{!CommsLaws} `{App} {Hquiet : Quiet}.

Lemma moves_allowNextPrepare L L' : L' ⊆ L → moves L L' allowNextPrepare.
Proof. intros HL. unfold allowNextPrepare. moves_auto. Qed.

(** ** Keep alive, timeouts *)

Lemma moves_restartRecvTimer L L' a :
  (a, Type_KeepAlive) ∈ L → L' ⊆ L → moves L L' (KeepAliveOp_restartRecvTimer a).
Proof. intros Ha HL. unfold KeepAliveOp_restartRecvTimer. moves_auto. Qed.

Lemma moves_sendPing L L' a :
  (a, Type_KeepAlive) ∈ L → L' ⊆ L → moves L L' (KeepAliveOp_sendPing a).
Proof. intros Ha HL. unfold KeepAliveOp_sendPing. moves_auto. Qed.

Lemma moves_pingTimeout L L' a :
  (a, Type_KeepAlive) ∈ L → only_exchanges L' → L' ⊆ L →
  moves L L' (KeepAliveOp_pingTimeoutInternal a).
Proof.
  intros Ha HL' HL. unfold KeepAliveOp_pingTimeoutInternal. moves_auto.
  by apply moves_brokerDisconnected.
Qed.

Lemma moves_resendDupMsg L a :
  releases a Type_Send L → moves ((a, Type_Send) :: L) L (SendOp_resendDupMsg a).
Proof.
  intros Hr. pose proof (moves_completeWithCb L a) as Hc. unfold SendOp_resendDupMsg.
  moves_auto; first [by apply Hc | apply moves_restartResponseTimer; [held | sub]].
Qed.

Lemma moves_SendOp_timeout L a :
  releases a Type_Send L → moves ((a, Type_Send) :: L) L (SendOp_responseTimeoutInternal a).
Proof.
  intros Hr. unfold SendOp_responseTimeoutInternal. moves_auto. by apply moves_resendDupMsg.
Qed.

Lemma moves_RecvOp_timeout L a :
  releases a Type_Recv L → moves ((a, Type_Recv) :: L) L (RecvOp_responseTimeoutInternal a).
Proof.
  intros Hr. unfold RecvOp_responseTimeoutInternal. moves_auto. by apply moves_opComplete.
Qed.

(** ** Ticks *)

(** The addresses that expired timeout functions have as data. *)
Definition pins_of (l : list (TimeoutCb * addr)) : pins :=
  (λ p, (p.2, TimeoutCb_type p.1)) <$> l.

(** Timeout functions that may expire in the same tick: what one destroys is not
    the data of a later one.  The completion of a publish resumes paused ones and may
    destroy them; those that have gone out it leaves alone. *)
Definition spares (p : TimeoutCb * addr) (l : list (TimeoutCb * addr)) : bool :=
  match p.1 with
  | KeepAliveOp_sendPingCb | KeepAliveOp_recvTimeoutCb => true
  | KeepAliveOp_pingTimeoutCb => forallb (λ q, is_send_or_recv (TimeoutCb_type q.1)) l
  | _ => forallb (λ q, negb (q.2 =? p.2)) l
  end.

Fixpoint compatible (l : list (TimeoutCb * addr)) : bool :=
  match l with
  | [] => true
  | p :: l' => spares p l' && compatible l'
  end.

(** The publishes among the data are not paused. *)
Definition unpaused_at (a : addr) (s : ClientImpl) : bool :=
  match g_store s !! a with Some (MkOp _ (DSend d)) => negb (so_paused d) | _ => false end.

Definition is_send (T : OpType) : bool := bool_decide (T = Type_Send).

Definition gone_out (l : list (TimeoutCb * addr)) (s : ClientImpl) : bool :=
  forallb (λ q, negb (is_send (TimeoutCb_type q.1)) || unpaused_at q.2 s) l.

Lemma unpaused_at_spec a s : unpaused_at a s = true ↔ unpaused a s.
Proof.
  unfold unpaused_at, unpaused. split.
  - destruct (_ !! a) as [[t [| | | | | |d]]|]; try done. intros Hd%negb_true_iff. eauto.
  - by intros (t & d & -> & ->).
Qed.

Lemma gone_out_spec l s :
  gone_out l s = true ↔ ∀ q, q ∈ l → TimeoutCb_type q.1 = Type_Send → unpaused q.2 s.
Proof.
  unfold gone_out, is_send. rewrite forallb_forall. split.
  - intros Hl q Hq%list_elem_of_In HT. specialize (Hl q Hq).
    rewrite bool_decide_eq_true_2 in Hl by done. by apply unpaused_at_spec.
  - intros Hl q Hq%list_elem_of_In. case_bool_decide; [|done]. by apply unpaused_at_spec, Hl.
Qed.

Lemma spares_others p l q :
  spares p l = true → p.1 = SendOp_recvTimeoutCb → q ∈ l → q.2 ≠ p.2.
Proof.
  unfold spares. intros Hl Hp Hq. rewrite Hp, forallb_forall in Hl.
  apply list_elem_of_In, Hl in Hq. by apply negb_true_iff, Nat.eqb_neq in Hq.
Qed.

Lemma unheld_pins_of a l :
  forallb (λ q : TimeoutCb * addr, negb (q.2 =? a)) l = true → unheld a (pins_of l).
Proof.
  intros Hl. unfold unheld, pins_of. rewrite <- list_fmap_compose.
  intros (q & -> & Hq)%list_elem_of_fmap. rewrite forallb_forall in Hl.
  specialize (Hl q (proj1 (list_elem_of_In _ _) Hq)). simpl in Hl.
  by rewrite Nat.eqb_refl in Hl.
Qed.

(** A disconnection leaves the publishes alone. *)
Lemma survives_pingTimeout a b s :
  Inv s → has_brokerDisconnectReportCb (m_callbacks s) = true → unpaused b s →
  wp any_fault (KeepAliveOp_pingTimeoutInternal a) (λ _ s', unpaused b s') s.
Proof.
  intros Hs Hcb Hb. unfold KeepAliveOp_pingTimeoutInternal.
  apply wp_bind, wp_get_op; [done|]. intros t o _. apply wp_bind, wp_zoom.
  eapply wp_mono; [by apply wp_timerIsActive|]. intros active mgr [-> _].
  apply wp_bind, wp_comms_assert; [done|].
  assert (set_timerMgr (m_timerMgr s) s = s) as -> by by destruct s.
  eapply wp_faults; [|done]. eapply wp_mono; [by apply wp_brokerDisconnected_quiet|].
  intros _ s' (_ & _ & _ & _ & Hst & _). destruct Hb as (t' & d & Hb & Hd).
  exists t', d. split; [|done]. by apply Hst.
Qed.

(** What a timeout function leaves alone. *)
Lemma survives_run_TimeoutCb p l s :
  Inv s → has_brokerDisconnectReportCb (m_callbacks s) = true →
  spares p l = true → gone_out l s = true →
  wp any_fault (run_TimeoutCb p) (λ _ s', gone_out l s' = true) s.
Proof.
  intros Hs Hcb Hsp Hl. pose proof (proj1 (gone_out_spec l s) Hl) as Hout.
  assert (∀ q, q ∈ l → TimeoutCb_type q.1 = Type_Send →
    wp any_fault (run_TimeoutCb p) (λ _ s', unpaused q.2 s') s) as Hq.
  { intros q Hq HT. specialize (Hout q Hq HT).
    destruct (decide (p.1 = KeepAliveOp_pingTimeoutCb)) as [Hp|Hp].
    - destruct p as [cb a]. simpl in Hp. subst cb. by apply survives_pingTimeout.
    - apply survives; [|done]. intros t d Hd. apply hkeeps_run_TimeoutCb; [done|done|].
      intros ->. by destruct (spares_others _ l q Hsp eq_refl Hq). }
  unfold wp in *. destruct (run_TimeoutCb p s) as [u s'|f]; [|done].
  apply gone_out_spec. auto.
Qed.

(** The operations that are held other than publishes. *)
Definition nonsends (L : pins) : pins := filter (λ q, is_send q.2 = false) L.

Lemma nonsends_spec L a T : (a, T) ∈ nonsends L ↔ (a, T) ∈ L ∧ T ≠ Type_Send.
Proof.
  unfold nonsends, is_send. rewrite list_elem_of_filter. simpl. case_bool_decide; naive_solver.
Qed.

Lemma moves_run_TimeoutCb p l :
  spares p l = true → p.1 ≠ SendOp_recvTimeoutCb →
  moves (pins_of (p :: l)) (pins_of l) (run_TimeoutCb p).
Proof.
  destruct p as [cb a]. intros Hsp Hns. unfold pins_of at 1. simpl. fold (pins_of l).
  destruct cb; unfold spares in Hsp; cbn [fst snd TimeoutCb_type run_TimeoutCb] in *; try done.
  - apply moves_ConnectOp_complete. by apply unheld_pins_of.
  - apply moves_sendPing; [held | sub].
  - apply moves_sendPing; [held | sub].
  - apply moves_pingTimeout; [held | | sub]. intros b T Hb.
    apply list_elem_of_fmap in Hb as (q & [= -> ->] & Hq). rewrite forallb_forall in Hsp.
    apply Hsp. by apply list_elem_of_In.
  - apply moves_SubscribeOp_complete. by apply unheld_pins_of.
  - apply moves_UnsubscribeOp_complete. by apply unheld_pins_of.
  - apply moves_RecvOp_timeout. split; [by apply unheld_pins_of | done].
Qed.

Lemma wp_run_TimeoutCb p l s :
  Good (pins_of (p :: l)) s → spares p l = true → gone_out l s = true →
  wp safe_fault (run_TimeoutCb p) (λ _ s', Good (pins_of l) s' ∧ gone_out l s' = true) s.
Proof.
  intros Hs Hsp Hl. eapply wp_mono; [eapply (wp_and _ any_fault _
    (λ _ s', gone_out l s' = true → Good (pins_of l) s'))|].
  2:{ apply survives_run_TimeoutCb; [apply Hs | apply Hs | done | done]. }
  2:{ intros [] s' [HG Hout]. split; [exact (HG Hout) | exact Hout]. }
  destruct (decide (p.1 = SendOp_recvTimeoutCb)) as [Hp|Hp].
  2:{ eapply wp_mono; [by apply (moves_run_TimeoutCb p l)|]. by intros [] s' [? _]. }
  destruct p as [cb a]. simpl in Hp. subst cb. unfold spares in Hsp. simpl in Hsp.
  eapply wp_mono; [apply (moves_SendOp_timeout (nonsends (pins_of l)))|].
  - split; [|by intros _ c [_ []]%nonsends_spec].
    pose proof (unheld_pins_of a l Hsp) as Ha. intros ([c T] & -> & Hc)%list_elem_of_fmap.
    apply Ha. apply nonsends_spec in Hc as [Hc _]. apply list_elem_of_fmap. by exists (c, T).
  - eapply Good_mono; [|exact Hs]. intros [c T] [[= -> ->]|Hc]%elem_of_cons; [by left|].
    apply nonsends_spec in Hc as [Hc _]. by right.
  - intros [] s' [[Hi Hpin Hc] _] Hout. split; [done | | done]. intros c T Hin.
    destruct (decide (T = Type_Send)) as [->|HT]; [|by apply Hpin, nonsends_spec].
    apply list_elem_of_fmap in Hin as (q & [= -> HT] & Hq).
    destruct (proj1 (gone_out_spec l s') Hout q Hq (eq_sym HT)) as (t & d & Hst & _). by eexists.
Qed.

Lemma wp_run_all l s :
  Good (pins_of l) s → compatible l = true → gone_out l s = true →
  wp safe_fault (mapM_ run_TimeoutCb l) (λ _ s', Good [] s') s.
Proof.
  revert s. induction l as [|p l IH]; intros s Hs; simpl; [intros; by apply wp_ret|].
  intros [Hp Hl]%andb_true_iff [_ Hout]%andb_true_iff. apply wp_bind.
  eapply wp_mono; [by apply wp_run_TimeoutCb|]. intros [] s' [Hs' Hout']. by apply IH.
Qed.

(** The timeout functions that a tick calls. *)
Definition expired (ms : Z) (s : ClientImpl) : list (TimeoutCb * addr) :=
  omap (fires ms) (m_timers (m_timerMgr s)).

(** They have live operations as data. *)
Lemma pinned_expired ms s s' :
  Inv s → g_store s' = g_store s → pinned (pins_of (expired ms s)) s'.
Proof.
  intros Hs Est a T (q & [= -> ->] & Hq)%list_elem_of_fmap.
  apply list_elem_of_omap in Hq as (info & Hin & Hf). apply list_elem_of_lookup in Hin as [i Hi].
  unfold fires in Hf. destruct (expires ms info); [|done]. destruct q as [cb a].
  assert (m_timeoutCb info = Some cb ∧ m_timeoutData info = a) as [Hcb <-].
  { destruct (m_timeoutCb info); simplify_eq/=; done. }
  destruct (ti_active _ _ (oi_timers _ (inv_obj _ Hs)) i info cb Hi Hcb) as (x & Hx & HT & _).
  apply shapes_live in Hx as (o & Ho & ->). exists o. rewrite Est. done.
Qed.

(** The timeout functions of this tick may be called one after the other. *)
Definition tick_ok (ms : Z) (s : ClientImpl) : bool :=
  compatible (expired ms s) && gone_out (expired ms s) s.

Lemma gone_out_store l s s' : g_store s' = g_store s → gone_out l s' = gone_out l s.
Proof. intros E. unfold gone_out, unpaused_at. by rewrite E. Qed.

Lemma wp_tick_mem ms s :
  Good [] s → tick_ok ms s = true →
  wp safe_fault (TimerMgr_tick ms) (λ _ s', Good [] s') s.
Proof.
  intros Hs [Hc Hout]%andb_true_iff. unfold TimerMgr_tick. apply wp_bind.
  eapply wp_mono; [eapply (wp_and _ any_fault _ _ _ _); [|apply keeps_tick_collect, Hs]|].
  - apply wp_zoom. unfold wp. rewrite tick_collect_eq.
    instantiate (1 := λ l s', l = expired ms s ∧ g_store s' = g_store s ∧
      m_callbacks s' = m_callbacks s). done.
  - intros l s1 [(-> & Est & Ecb) [Hs1 _]].
    apply wp_run_all; [|done|by rewrite (gone_out_store _ s)].
    split; [done | by apply pinned_expired; [apply Hs|]|]. unfold callbacks_ready.
    rewrite Ecb. apply Hs.
Qed.

End timeouts.
