(* ===== verification/Reconnection.v ===== *)
(** * The broker accepts a connection

    What an allocation adds to the client, and the handler of CONNACK with
    [brokerConnected] (client/lib/src/ClientImpl.cpp, client/lib/src/op/ConnectOp.cpp):
    publishes and receptions of the previous connection are resumed or terminated. *)

From S2P Require Import Prelude SortedVec Config Protocol Topic PacketId TimerMgr State.
From S2P Require Import Lifecycle Completion Session SendOp RecvOp SubscribeOp ConnectOp.
From S2P Require Import Client Invariant Objects Termination Ownership Preservation Requests.
From S2P Require Import Safety Disconnect Memory Survival Timeouts.

Lemma releases_nil a T : releases a T [].
Proof. split; [by apply not_elem_of_nil | by intros _ ? ?%not_elem_of_nil]. Qed.

Lemma only_exchanges_nil : only_exchanges [].
Proof. by intros a T ?%not_elem_of_nil. Qed.

#[export] Hint Resolve releases_nil only_exchanges_nil : mem.

#[export] Hint Extern 1 (moves _ _ (opComplete _)) =>
  apply moves_opComplete; apply releases_nil : mem.
#[export] Hint Extern 1 (moves _ _ (SendOp_completeWithCb _ _)) =>
  apply moves_completeWithCb; apply releases_nil : mem.
#[export] Hint Extern 1 (moves _ _ (SubscribeOp_completeOpInternal _ _ _)) =>
  apply moves_SubscribeOp_complete; apply releases_nil; exact Type_Send : mem.
#[export] Hint Extern 1 (moves _ _ (UnsubscribeOp_completeOpInternal _ _)) =>
  apply moves_UnsubscribeOp_complete; apply releases_nil; exact Type_Send : mem.
#[export] Hint Extern 1 (moves _ [] (brokerDisconnected _ _)) =>
  apply moves_brokerDisconnected; [apply only_exchanges_nil | set_solver] : mem.
#[export] Hint Extern 1 (moves _ [] brokerDisconnected_protocolError) =>
  apply moves_brokerDisconnected; [apply only_exchanges_nil | set_solver] : mem.
#[export] Hint Extern 1 (moves _ _ (SendOp_restartResponseTimer _)) =>
  apply moves_restartResponseTimer; [held | sub] : mem.
#[export] Hint Extern 1 (moves _ _ (KeepAliveOp_restartRecvTimer _)) =>
  apply moves_restartRecvTimer; [held | sub] : mem.

Section connection.
  Context `{Config} `{CommsLib} `{!CommsLaws} `{App} {Hquiet : Quiet}.

(** ** New operations *)

(** Nothing is destroyed, entries are added to [m_ops] only. *)
Definition grows (s s' : ClientImpl) : Prop :=
  (∀ a o, g_store s !! a = Some o → ∃ o', g_store s' !! a = Some o' ∧ Op_type o' = Op_type o) ∧
  m_callbacks s' = m_callbacks s ∧ length (m_ops s) ≤ length (m_ops s').

Lemma grows_preorder : PreOrder grows.
Proof.
  split; [intros s; split; [eauto | done]|].
  intros s1 s2 s3 (Hg & Hcb & Hl) (Hg' & Hcb' & Hl'). split; [|split; [congruence | lia]].
  intros a o (o' & Ho' & HT)%Hg. destruct (Hg' _ _ Ho') as (o'' & ? & ?). exists o''.
  split; [done | congruence].
Qed.

Definition grow_contract : Contract ClientImpl := {|
  ct_inv := λ s, ∀ a, is_Some (g_store s !! a) → a < g_next s;
  ct_rel := grows;
  ct_faults := any_fault;
  ct_pre := grows_preorder;
|}.

Abbreviation gkeeps := (keeps (Contract0 := grow_contract)).

Lemma gkeeps_modify f :
  (∀ s, g_store (f s) = g_store s) → (∀ s, g_next (f s) = g_next s) →
  (∀ s, m_callbacks (f s) = m_callbacks s) →
  (∀ s, length (m_ops s) ≤ length (m_ops (f s))) → gkeeps (modify f).
Proof.
  intros Hs Hn Hc Hl. apply keeps_modify. intros s Hi. split.
  - intros a. rewrite Hs, Hn. apply Hi.
  - split; [rewrite Hs; eauto | done].
Qed.

Lemma gkeeps_new_object d : gkeeps (new_object d).
Proof.
  intros s Hs. unfold new_object. apply wp_bind, wp_gets. apply wp_bind, wp_gets.
  apply wp_bind, wp_modify. apply wp_bind, wp_modify. apply wp_ret. simpl. split.
  - intros a. rewrite lookup_insert. case_decide; [intros _; lia|]. intros Ha%Hs. lia.
  - split; [|done]. intros a o Ho. exists o. split; [|done]. simpl.
    rewrite lookup_insert_ne; [done|]. pose proof (Hs a ltac:(eauto)). lia.
Qed.

Lemma gkeeps_alloc_push T :
  gkeeps (ObjAllocator_alloc T) ∧ ∀ a, gkeeps (push_op T a).
Proof.
  assert (∀ A (m : M (TimerMgr TimeoutCb) A), gkeeps (on_timerMgr m)) as Htm.
  { intros A m s Hs. unfold wp, on_timerMgr, zoom. destruct (m _); [|done].
    split; [done|]. split; [eauto | done]. }
  assert (∀ b, gkeeps (comms_assert b)) as Has by (intros; by apply keeps_comms_assert).
  assert (∀ a, gkeeps (get_op (T := KeepAliveOp) a)) as Hget.
  { intros a. unfold get_op, get_base. by repeat first [keeps_step | apply keeps_throw]. }
  split.
  - unfold ObjAllocator_alloc, Op_new, ConnectOp_new, KeepAliveOp_new, DisconnectOp_new,
      SubscribeOp_new, UnsubscribeOp_new, RecvOp_new, SendOp_new, KeepAliveOp_restartPingTimer.
    repeat first [apply Htm | apply Has | apply Hget | apply gkeeps_new_object | keeps_step].
  - intros a s Hs. unfold push_op, push_back_check, set_ops_of.
    apply wp_bind, wp_gets. apply wp_bind, wp_when; intros _; [by apply wp_throw|].
    apply wp_bind, wp_modify. apply wp_bind, wp_modify. apply wp_bind, wp_gets.
    apply wp_bind, wp_when; intros _; [by apply wp_throw|]. apply wp_bind, wp_modify.
    apply wp_when; intros _; [apply wp_modify|]; simpl;
      (split; [done|]; split; [eauto | split; [done | simpl; rewrite length_app; simpl; lia]]).
Qed.

Lemma Inv_grow s : Inv s → ct_inv (Contract := grow_contract) s.
Proof.
  intros Hs a [o Ho]. apply (di_next _ _ _ (oi_done _ (inv_obj _ Hs))).
  by rewrite (shapes_lookup _ _ _ Ho).
Qed.

Lemma Good_grows L s s' : grows s s' → Inv s' → Good L s → Good L s'.
Proof.
  intros (Hst & Hcb & _) Hi [_ Hp Hc]. split; [done | | unfold callbacks_ready; by rewrite Hcb].
  intros a T Ha. destruct (Hp _ _ Ha) as (o & Ho & HT). destruct (Hst _ _ Ho) as (o' & ? & ?).
  exists o'. split; [done | congruence].
Qed.

(** What an allocation gives: nothing, or an operation that is not linked yet. *)
Definition allocated (T : OpType) (s : ClientImpl) (r : option addr) (s' : ClientImpl) : Prop :=
  match r with
  | None => s' = s
  | Some a => constructed T s a s' ∧ grows s s'
  end.

Lemma wp_alloc_mem T s :
  Inv s → wp safe_fault (ObjAllocator_alloc T) (λ r s', allocated T s r s') s.
Proof.
  intros Hs. eapply wp_mono.
  - eapply wp_and; [|apply (proj1 (gkeeps_alloc_push T)); by apply Inv_grow].
    unfold ObjAllocator_alloc. apply wp_bind, wp_gets.
    destruct (alloc_succeeds _ _); [|by apply wp_ret; instantiate (1 := λ r s',
      match r with Some a => constructed T s a s' | None => s' = s end)].
    apply wp_bind. eapply wp_mono; [by apply wp_Op_new; [left|]|]. intros a s' Hc.
    by apply wp_ret.
  - intros [a|] s' [Hr [_ Hg]]; by simpl in *.
Qed.

Lemma wp_push_mem T s0 a s :
  constructed T s0 a s → (is_single T = true → ops_of T s0 = []) →
  wp safe_fault (push_op T a) (λ _ s', Inv s' ∧ grows s s' ∧
    ∃ o, g_store s' !! a = Some o ∧ Op_type o = T) s.
Proof.
  intros (Hpd & _ & _ & Hls & x & Hx & HT) Hone.
  destruct (shapes_live _ _ _ Hx) as (o & Ho & ->).
  assert (ct_inv (Contract := grow_contract) s) as Hi.
  { intros b Hb. apply (di_next _ _ _ (oi_done _ (pd_obj _ _ Hpd))). by apply shapes_Some. }
  eapply wp_mono.
  - eapply wp_and; [|by apply (proj2 (gkeeps_alloc_push T))].
    eapply (wp_push_op safe_fault); [done..| |by right; left].
    intros Hs. unfold ops_of. rewrite Hls. by apply Hone.
  - intros _ s' [[Hinv _] [_ Hg]]. split; [done|]. split; [done|].
    destruct (proj1 Hg _ _ Ho) as (o' & ? & ET). exists o'. split; [done | by etrans].
Qed.

Lemma moves_RecvOp_restartResponseTimer L L' a :
  (a, Type_Recv) ∈ L → L' ⊆ L → moves L L' (RecvOp_restartResponseTimer a).
Proof. intros Ha HL. unfold RecvOp_restartResponseTimer. moves_auto. Qed.

(** ** A connection that resumes a session *)

(** The message fits into the output, and the codec writes it. *)
Definition sendable (msg : ProtMessage) : bool :=
  match ObjListType_capacity MaxOutputPacketSize true with
  | Some max_size => negb (max_size <? frame_length msg)
  | None => true
  end && bool_decide (is_Some (frame_write msg)).

Definition resent_msg (d : SendOp) : ProtMessage :=
  if so_acked d then MPubrel (pub_packetId (so_pubMsg d)) pubrel_flags
  else MPublish (pub_set_dup true (so_pubMsg d)).

(** The publish has an attempt left for the one that was cut off, and its message goes
    out: it is not completed. *)
Definition resendable (a : addr) (s : ClientImpl) : bool :=
  match g_store s !! a with
  | Some (MkOp _ (DSend d)) =>
      so_paused d ||
      (negb (so_totalSendAttempts d <=? u32 (so_sendAttempts d - 1))%Z && sendable (resent_msg d))
  | _ => false
  end.

(** Only timers are restarted and messages sent. *)
Definition silent (s s' : ClientImpl) : Prop :=
  g_store s' = g_store s ∧ m_lists s' = m_lists s ∧ g_sendOpsErases s' = g_sendOpsErases s ∧
  m_opsDeleted s' = m_opsDeleted s.

Lemma silent_preorder : PreOrder silent.
Proof.
  split; [done|]. intros s1 s2 s3 (? & ? & ? & ?) (? & ? & ? & ?). split_and!; congruence.
Qed.

Definition silent_contract : Contract ClientImpl := {|
  ct_inv := λ _, True;
  ct_rel := silent;
  ct_faults := any_fault;
  ct_pre := silent_preorder;
|}.

Abbreviation skeeps := (keeps (Contract0 := silent_contract)).

Lemma silent_timers {A} (m : M (TimerMgr TimeoutCb) A) : skeeps (on_timerMgr m).
Proof. intros s _. unfold wp, on_timerMgr, zoom. by destruct (m _). Qed.

Lemma silent_callback e : skeeps (callback e).
Proof. intros s _. by apply wp_quiet_callback; [exact app_quiet|]. Qed.

Lemma silent_get_op {T} `{Subclass T} a : skeeps (get_op (T := T) a).
Proof. unfold get_op, get_base. by repeat first [by apply keeps_throw | keeps_step]. Qed.

Ltac silent_auto := repeat first
  [ apply silent_timers | apply silent_callback | apply silent_get_op
  | by apply keeps_comms_assert | by apply keeps_throw | keeps_step ].

Lemma silent_sendMessage msg : skeeps (sendMessage msg).
Proof.
  unfold sendMessage, must_callback, KeepAliveOp_messageSent, KeepAliveOp_restartPingTimer.
  cbv zeta. silent_auto.
Qed.

Lemma wp_sendMessage_sendable msg s :
  sendable msg = true →
  wp any_fault (sendMessage msg) (λ r s', r = ErrorCode_Success ∧ silent s s') s.
Proof.
  intros [Hlen Hw]%andb_true_iff. apply bool_decide_eq_true in Hw.
  pose proof (silent_sendMessage msg s I) as Hsil.
  eapply wp_mono; [eapply (wp_and any_fault any_fault _ _ (λ r _, r = ErrorCode_Success));
    [exact Hsil|]|by intros r s' [[_ ?] ?]].
  unfold sendMessage. destruct Hw as [buf ->]. cbv zeta.
  assert (match ObjListType_capacity MaxOutputPacketSize true with
    | Some max_size => max_size <? frame_length msg | None => false end = false) as ->.
  { destruct (ObjListType_capacity _ _); [by apply negb_true_iff | done]. }
  apply wp_bind, wp_gets. unfold wp, mbind, M_bind, gets.
  destruct (must_callback _ _ _) as [[] s1|]; [|done]. by destruct (mapM_ _ _ s1) as [[] s2|].
Qed.

(** What [postReconnectionResend] changes besides the timers and the output. *)
Definition resent (a : addr) (s s' : ClientImpl) : Prop :=
  m_lists s' = m_lists s ∧ g_sendOpsErases s' = g_sendOpsErases s ∧
  m_opsDeleted s' = m_opsDeleted s ∧
  (∀ b, b ≠ a → g_store s' !! b = g_store s !! b) ∧
  ∃ t d, g_store s' !! a = Some (MkOp t (DSend d)).

Lemma resent_put a d t s : g_store s !! a = Some (MkOp t (DSend d)) → ∀ d',
  resent a s (put_derived a (DSend d') s) ∧
  g_store (put_derived a (DSend d') s) !! a = Some (MkOp t (DSend d')).
Proof.
  intros Ha d'. assert (g_store (put_derived a (DSend d') s) !! a = Some (MkOp t (DSend d'))) as E
    by (unfold put_derived; simpl; by rewrite lookup_alter_eq, Ha).
  split; [|exact E]. split_and!; [done..| |by exists t, d'].
  intros b Hb. unfold put_derived. simpl. by rewrite lookup_alter_ne.
Qed.

Lemma resent_trans a s1 s2 s3 : resent a s1 s2 → resent a s2 s3 → resent a s1 s3.
Proof.
  intros (? & ? & ? & Hs & _) (? & ? & ? & Hs' & ?). split_and!; [congruence..| |done].
  intros b Hb. by rewrite Hs', Hs.
Qed.

Lemma silent_resent a t d s s' :
  g_store s !! a = Some (MkOp t (DSend d)) → silent s s' →
  resent a s s' ∧ g_store s' !! a = Some (MkOp t (DSend d)).
Proof.
  intros Ha (Est & ? & ? & ?). split; [|by rewrite Est].
  split_and!; [done..| |exists t, d; by rewrite Est]. intros b _. by rewrite Est.
Qed.

(** A step that assigns a member of the publish, or that is silent. *)
Lemma wp_resent_modify {B} a t d f (k : unit → M ClientImpl B) s0 s Q :
  resent a s0 s → g_store s !! a = Some (MkOp t (DSend d)) →
  (∀ s', resent a s0 s' → g_store s' !! a = Some (MkOp t (DSend (f d))) →
    wp any_fault (k tt) Q s') →
  wp any_fault (modify_op a f ≫= k) Q s.
Proof.
  intros Hr Ha Hk. apply wp_bind, wp_bind. eapply (wp_get_op_live _ a t d); [done|].
  apply wp_modify. destruct (resent_put a d t s Ha (f d)) as [Hr' Ha'].
  apply Hk; [by eapply resent_trans | exact Ha'].
Qed.

Lemma wp_resent_silent {A B} a t d (m : M ClientImpl A) (k : A → M ClientImpl B) s0 s Q :
  resent a s0 s → g_store s !! a = Some (MkOp t (DSend d)) → skeeps m →
  (∀ x s', resent a s0 s' → g_store s' !! a = Some (MkOp t (DSend d)) →
    wp any_fault (k x) Q s') →
  wp any_fault (m ≫= k) Q s.
Proof.
  intros Hr Ha Hm Hk. apply wp_bind. eapply wp_mono; [by apply (Hm s)|].
  intros x s' [_ Hsil]. destruct (silent_resent a t d s s' Ha Hsil) as [Hr' Ha'].
  apply Hk; [by eapply resent_trans | exact Ha'].
Qed.

Lemma wp_postReconnectionResend a s :
  resendable a s = true →
  wp any_fault (SendOp_postReconnectionResend a) (λ _ s', resent a s s') s.
Proof.
  unfold resendable. destruct (g_store s !! a) as [[t [| | | | | |d]]|] eqn:Ha; try done. intros Hd.
  assert (resent a s s) as Hr by (split_and!; [done..|by exists t, d]).
  unfold SendOp_postReconnectionResend, SendOp_cancelTimer.
  apply wp_bind. eapply (wp_get_op_live _ a t d); [done|].
  destruct (so_paused d) eqn:Hp; [by apply wp_ret|]. simpl in Hd.
  apply andb_true_iff in Hd as [Hatt%negb_true_iff Hsend].
  apply wp_bind, wp_comms_assert; [done|].
  eapply (wp_resent_modify a t d _ _ s); [exact Hr | exact Ha|]. intros s1 Hr1 Ha1.
  set (d1 := so_set_sendAttempts (u32 (so_sendAttempts d - 1)) d) in *.
  eapply (wp_resent_silent a t d1); [exact Hr1 | exact Ha1 | silent_auto|]. intros _ s2 Hr2 Ha2.
  unfold SendOp_resendDupMsg. apply wp_bind. eapply (wp_get_op_live _ a t d1); [done|].
  simpl so_totalSendAttempts. simpl so_sendAttempts. rewrite Hatt.
  apply wp_bind, wp_comms_assert; [done|]. simpl so_acked.
  assert (∀ d2 s3, resent a s s3 → g_store s3 !! a = Some (MkOp t (DSend d2)) →
    wp any_fault (result ← sendMessage (resent_msg d);
      if negb (bool_decide (result = ErrorCode_Success)) then
        SendOp_completeWithCb a AsyncOpStatus_InternalError
      else
        modify_op a (λ o, so_set_sendAttempts (u32 (so_sendAttempts o + 1)) o) ;;
        SendOp_restartResponseTimer a) (λ _ s', resent a s s') s3) as Hend.
  { intros d2 s3 Hr3 Ha3. apply wp_bind. eapply wp_mono; [by apply wp_sendMessage_sendable|].
    intros r s4 [-> Hsil]. destruct (silent_resent a t d2 s3 s4 Ha3 Hsil) as [Hr4 Ha4].
    cbn [bool_decide negb]. rewrite bool_decide_eq_true_2 by done. cbn [negb].
    eapply (wp_resent_modify a t d2 _ _ s); [by eapply resent_trans | exact Ha4|]. intros s5 Hr5 Ha5.
    assert (skeeps (SendOp_restartResponseTimer a)) as Hk
      by (unfold SendOp_restartResponseTimer; silent_auto).
    eapply wp_mono; [by apply (Hk s5)|]. intros [] s6 [_ Hsil6].
    eapply resent_trans; [exact Hr5|]. by eapply silent_resent. }
  unfold resent_msg in Hend. destruct (so_acked d) eqn:Hacked; cbn [negb].
  - apply wp_bind, wp_bind, wp_comms_assert; [done|]. apply wp_ret. by eapply Hend.
  - apply wp_bind. eapply (wp_resent_modify a t d1 _ _ s); [exact Hr2 | exact Ha2|].
    intros s3 Hr3 Ha3. apply wp_bind. eapply (wp_get_op_live _ a t); [exact Ha3|].
    apply wp_ret. by eapply Hend.
Qed.

(** The publishes of the session are resent, none is completed. *)
Lemma wp_resend_sends L s :
  Good L s → no_sends L → forallb (λ a, resendable a s) (ops_of Type_Send s) = true →
  wp safe_fault (range_for (ops_of Type_Send) (λ s, g_sendOpsPushes s + g_sendOpsErases s)
    SendOp_postReconnectionResend) (λ _ s', Good L s' ∧ steady s s') s.
Proof.
  intros Hs HL Hall. rewrite forallb_forall in Hall.
  set (I (i : nat) (s1 : ClientImpl) := Good L s1 ∧ steady s s1 ∧
    ops_of Type_Send s1 = ops_of Type_Send s ∧
    ∀ j a, i ≤ j → ops_of Type_Send s !! j = Some a → resendable a s1 = true).
  eapply wp_mono; [apply (wp_range_for safe_fault _ _ _ I)|].
  - intros i s1 a (Hs1 & Hst & Esends & Hres) Ha. rewrite Esends in Ha.
    assert (a ∈ ops_of Type_Send s1) as Hin by (rewrite Esends; by eapply list_elem_of_lookup_2).
    pose proof (unheld_send L a s1 HL (gd_pins _ _ Hs1) (listed_live _ _ _ (gd_inv _ _ Hs1) Hin)) as Hun.
    assert (moves ((a, Type_Send) :: L) L (SendOp_postReconnectionResend a)) as Hm.
    { unfold SendOp_postReconnectionResend, SendOp_cancelTimer.
      pose proof (moves_resendDupMsg L a (conj Hun (λ _, HL))). moves_auto. }
    pose proof (Hm s1 (Good_listed L _ a s1 Hs1 Hin)) as Hstep.
    pose proof (wp_postReconnectionResend a s1 (Hres i a ltac:(lia) Ha)) as Hdo.
    eapply wp_mono; [exact (wp_and _ _ _ _ _ _ Hstep Hdo)|].
    intros [] s2 [[Hs2 Hst2] (Els & Eer & _ & Hother & _)].
    split; [|destruct Hst2 as (_ & _ & ->); by rewrite Eer].
    split; [done|]. split; [by etrans|]. split; [unfold ops_of in *; by rewrite Els|].
    intros j b Hj Hb. unfold resendable. rewrite Hother.
    + apply (Hres j b); [lia | done].
    + intros ->. assert (i = j); [|lia]. eapply NoDup_lookup; [|exact Ha|exact Hb].
      apply (li_nodup _ _ (inv_lists _ (gd_inv _ _ Hs))).
  - intros i s1 (_ & _ & E & _). by rewrite E.
  - split; [done|]. split; [done|]. split; [done|]. intros j a _ Ha. apply Hall.
    apply list_elem_of_In. by eapply list_elem_of_lookup_2.
  - intros [] s' (? & ? & _). done.
Qed.

(** The search of the paused publishes at the end. *)
Lemma wp_resumeFrom_loop count i s :
  Inv s → count ≤ length (ops_of Type_Send s) →
  wp safe_fault (resumeFrom_loop count i) (λ _ s', s' = s) s.
Proof.
  intros Hs. revert i. induction count as [|n IH]; intros i Hn; simpl; [by apply wp_ret|].
  apply wp_bind, wp_gets.
  destruct (lookup_lt_is_Some_2 (ops_of Type_Send s) n ltac:(lia)) as [a Ha]. rewrite Ha.
  apply wp_bind, (wp_get_listed (T := SendOp)); [done | by eapply list_elem_of_lookup_2|].
  intros o. destruct (negb _); [by apply wp_ret|]. apply IH. lia.
Qed.

(** ** A connection without a session *)

(** The loop that terminates the exchanges of the previous session, when no entry of
    [m_ops] is null and no publish is paused. *)
Lemma wp_terminate_exchanges L s :
  Good L s → (∀ a T, (a, T) ∈ L → is_send_or_recv T = false) →
  None ∉ m_ops s → no_paused s →
  wp safe_fault (range_for m_ops g_opsChanges (λ op,
      p ← type_of_ptr op;
      let '(a, opType) := (p : addr * OpType) in
      if is_send_or_recv opType then Op_terminateOp a AsyncOpStatus_Aborted else mret tt))
    (λ _ s', Good L s' ∧ steady s s') s.
Proof.
  intros Hs HL Hnone Hnp.
  set (I (i : nat) (s1 : ClientImpl) := Good L s1 ∧ steady s s1 ∧ no_paused s1 ∧
    ∀ j, i ≤ j → m_ops s1 !! j = m_ops s !! j).
  eapply wp_mono; [apply (wp_range_for safe_fault _ _ _ I)|].
  - intros i s1 p (Hs1 & Hst & Hp1 & Hops) Hp.
    destruct p as [a|].
    2:{ destruct Hnone. rewrite Hops in Hp by done. by eapply list_elem_of_lookup_2. }
    destruct (entry_live s1 i a (gd_inv _ _ Hs1) Hp) as [o Ho]. apply wp_bind, wp_bind.
    eapply wp_get_base_live; [done|]. apply wp_ret. cbn beta iota.
    destruct (is_send_or_recv (Op_type o)) eqn:HT.
    2:{ apply wp_ret. split; [|done]. do 3 (split; [done|]). intros j Hj. apply Hops. lia. }
    assert (∀ evs s2, terminated i a s1 evs s2 → I (S i) s2 ∧ g_opsChanges s2 = g_opsChanges s1) as Hend.
    { intros evs s2 (Hi2 & Est & _ & _ & Hby). injection Hby.
      intros _ _ _ Epush Ech _ Eops _ _ _ Ecb. simpl in Epush, Ech, Eops, Ecb.
      split; [|done]. split; [|split; [|split]].
      - split; [done | | unfold callbacks_ready; rewrite Ecb; apply Hs1].
        eapply pinned_delete; [exact Est | | apply Hs1].
        intros ([b T] & -> & Hb)%list_elem_of_fmap. simpl in *.
        destruct (gd_pins _ _ Hs1 _ _ Hb) as (o' & Ho' & HT'). simplify_eq.
        by rewrite (HL _ _ Hb) in HT.
      - etrans; [exact Hst|]. split; [by rewrite Eops, length_insert | by split].
      - intros b t d. rewrite Est. intros [_ Hb]%lookup_delete_Some. by eapply Hp1.
      - intros j Hj. rewrite Eops, list_lookup_insert_ne by lia. apply Hops. lia. }
    destruct o as [t d]. destruct d as [| | | | |r|d]; try done.
    + eapply wp_mono; [eapply (wp_faults only_assert);
        [eapply (wp_terminateOp_quiet app_quiet i a); [apply Hs1 | done..]|by intros f ->; left]|].
      intros [] s2. apply Hend.
    + eapply wp_mono; [eapply (wp_faults only_assert);
        [eapply (wp_terminate_send_quiet app_quiet i a t d); [apply Hs1 | done..]|by intros f ->; left]|].
      intros [] s2. apply Hend.
  - intros i s1 (_ & (E & _) & _). exact E.
  - by split_and!.
  - intros [] s' (? & ? & _). done.
Qed.

(** ** [brokerConnected] *)

(** What CONNACK asks of the exchanges in flight. *)
Definition link_ok (m : ConnackMsg) (s : ClientImpl) : bool :=
  negb (cak_returnCode m =? ConnectReturnCode_Accepted)%Z ||
  if cak_sp m then forallb (λ a, resendable a s) (ops_of Type_Send s)
  else negb (m_opsDeleted s) && forallb (λ a, unpaused_at a s) (ops_of Type_Send s).

Lemma link_ok_same m s s' :
  g_store s' = g_store s → m_lists s' = m_lists s → m_opsDeleted s' = m_opsDeleted s →
  link_ok m s' = link_ok m s.
Proof.
  intros Est Els Edel. unfold link_ok, ops_of, resendable, unpaused_at. by rewrite Est, Els, Edel.
Qed.

Lemma listed_no_paused s :
  Inv s → forallb (λ a, unpaused_at a s) (ops_of Type_Send s) = true → no_paused s.
Proof.
  intros Hs Hall b t d Hb. rewrite forallb_forall in Hall.
  assert (b ∈ ops_of Type_Send s) as Hin.
  { apply (li_lists _ _ (inv_lists _ Hs)). exists (shape_of (DSend d)).
    split; [exact (shapes_lookup _ _ _ Hb) | done]. }
  apply list_elem_of_In, Hall, unpaused_at_spec in Hin as (t' & d' & Hb' & Hd). by simplify_eq.
Qed.

Lemma wp_createKeepAlive L s :
  Good L s →
  wp safe_fault createKeepAliveOpIfNeeded (λ _ s', Good L s' ∧ grows s s') s.
Proof.
  intros Hs. destruct grows_preorder. unfold createKeepAliveOpIfNeeded.
  apply wp_bind, wp_gets. case_bool_decide as Hl; [|by apply wp_ret].
  apply wp_bind. eapply wp_mono; [by apply wp_alloc_mem, Hs|].
  intros [a|] s1; simpl; [|intros ->; by apply wp_comms_assert; [left|]]. intros [Hc Hg].
  eapply wp_mono; [by eapply wp_push_mem|]. intros _ s2 (Hi & Hg' & _).
  assert (grows s s2) by by etrans. split; [by eapply Good_grows | done].
Qed.

(** A step that leaves the exchanges alone. *)
Lemma wp_linked {A} L c (m : M ClientImpl A) s (Q : A → ClientImpl → Prop) :
  Good L s → link_ok c s = true → moves L L m →
  wp any_fault m (λ _ s', link_ok c s' = link_ok c s) s →
  (∀ x s', Good L s' → link_ok c s' = true → length (m_ops s') = length (m_ops s) → Q x s') →
  wp safe_fault m Q s.
Proof.
  intros Hs Hf Hm Hl HQ. eapply wp_mono; [eapply wp_and; [by apply Hm | exact Hl]|].
  intros x s' [[? [? _]] Hf']. apply HQ; [done | by rewrite Hf' | done].
Qed.

(** The connect operation is held. *)
Definition only_connects (L : pins) : Prop := ∀ a T, (a, T) ∈ L → T = Type_Connect.

Lemma wp_brokerConnected L c s :
  Good L s → only_connects L → cak_returnCode c = ConnectReturnCode_Accepted →
  link_ok c s = true →
  wp safe_fault (brokerConnected (cak_sp c))
    (λ _ s', Good L s' ∧ length (m_ops s) ≤ length (m_ops s')) s.
Proof.
  intros Hs HL Hrc Hf. unfold brokerConnected.
  assert (no_sends L) as Hns by by intros a ?%HL.
  apply wp_bind, (wp_linked L c); [done | done | by apply moves_clientState_modify | by apply wp_zoom|].
  intros _ s1 Hs1 Hf1 Hl1.
  apply wp_bind, (wp_linked L c); [done | done | | done |].
  { by apply moves_modify; [|apply keeps_set_session|]. }
  intros _ s2 Hs2 Hf2 Hl2. apply wp_bind.
  eapply (wp_mono _ _ (λ _ s', Good L s' ∧ steady s2 s')).
  2:{ intros _ s3 [Hs3 [Hl3 _]]. eapply wp_mono; [by apply wp_createKeepAlive|].
      intros _ s4 (Hs4 & _ & _ & Hlen). split; [done|]. lia. }
  unfold link_ok in Hf2. rewrite Hrc, Z.eqb_refl in Hf2. simpl in Hf2.
  destruct (cak_sp c).
  - apply wp_bind. eapply wp_mono; [by apply wp_resend_sends|]. intros [] s3 [Hs3 Hst3].
    apply wp_bind, wp_gets. apply wp_bind.
    eapply wp_mono; [apply (wp_for_each L Type_Recv); [|done]|].
    { intros L1 a Ha. unfold RecvOp_postReconnectionResume, RecvOp_connectivityChangedImpl.
      pose proof (moves_RecvOp_restartResponseTimer L1 L1 a Ha ltac:(done)). moves_auto. }
    intros [] s4 [Hs4 Hst4]. apply wp_bind, wp_gets. apply wp_bind.
    eapply wp_mono; [by apply wp_resumeFrom_loop; [apply Hs4|]|]. intros n s5 ->.
    assert (steady s2 s4) by by etrans. apply wp_when; [|done]. intros _.
    eapply wp_mono; [by apply moves_resumeSendOpsSince|]. intros [] s6 [Hs6 Hst6].
    split; [done | by etrans].
  - apply andb_true_iff in Hf2 as [Hd%negb_true_iff Hun].
    apply wp_terminate_exchanges; [done | | |by apply listed_no_paused; [apply Hs2|]].
    + by intros a T ->%HL.
    + by apply (li_deleted _ _ _ (inv_ops _ (gd_inv _ _ Hs2))).
Qed.

(** The connect operation is the only one, and gone when it completes. *)
Lemma wp_ConnectOp_complete a st r s :
  Good [(a, Type_Connect)] s →
  wp safe_fault (ConnectOp_completeOpInternal a st r)
    (λ _ s', Good [] s' ∧ steady s s' ∧ ops_of Type_Connect s' = []) s.
Proof.
  intros Hs. destruct (gd_pins _ _ Hs a Type_Connect ltac:(by left)) as ([t d] & Ho & HT).
  destruct d as [c| | | | | |]; try done.
  assert (a ∈ ops_of Type_Connect s) as Ha.
  { apply (li_lists _ _ (inv_lists _ (gd_inv _ _ Hs))). exists (shape_of (DConnect c)).
    split; [exact (shapes_lookup _ _ _ Ho) | done]. }
  pose proof (proj2 (li_ops _ _ _ (inv_ops _ (gd_inv _ _ Hs)) a)) as Hentry.
  rewrite (shapes_lookup _ _ _ Ho) in Hentry. specialize (Hentry ltac:(eauto)).
  apply list_elem_of_lookup in Hentry as [i Hi].
  eapply wp_mono; [eapply wp_and; [by apply (moves_ConnectOp_complete []); [apply not_elem_of_nil|]|]|].
  { instantiate (1 := λ _ s', g_store s' = delete a (g_store s)). instantiate (1 := only_assert).
    unfold ConnectOp_completeOpInternal. apply wp_bind. eapply (wp_get_op_live (T := ConnectOp)); [done|].
    eapply wp_mono; [eapply (wp_complete_quiet app_quiet i a _ s (co_cb c)
      (λ n, EvConnectComplete a n st r)); [apply Hs | done | done | by left | done]|].
    intros _ s' (_ & Est & _). exact Est. }
  intros _ s' [[Hs' Hst] Est]. split; [done|]. split; [done|].
  destruct (ops_of Type_Connect s') as [|b l] eqn:Hl; [done|].
  destruct (listed_live Type_Connect b s') as (o & Hb & HTb); [apply Hs' | rewrite Hl; by left|].
  rewrite Est, lookup_delete in Hb. case_decide; [done|].
  assert (b ∈ ops_of Type_Connect s) as Hb'.
  { apply (li_lists _ _ (inv_lists _ (gd_inv _ _ Hs))). exists (shape_of (op_derived o)).
    split; [exact (shapes_lookup _ _ _ Hb) | done]. }
  pose proof (li_single _ _ (inv_lists _ (gd_inv _ _ Hs)) Type_Connect eq_refl) as Hone.
  unfold ops_of in *. destruct (list_of Type_Connect (m_lists s)) as [|x [|]]; simpl in *;
    [by apply elem_of_nil in Hb' | set_solver | lia].
Qed.

Lemma wp_handle_Connack a m s :
  Good [(a, Type_Connect)] s → link_ok m s = true →
  wp safe_fault (ConnectOp_handle_Connack a m)
    (λ _ s', Good [] s' ∧ length (m_ops s) ≤ length (m_ops s') ∧ ops_of Type_Connect s' = []) s.
Proof.
  intros Hs Hf. set (L := [(a, Type_Connect)]) in *.
  assert (∀ st r s1, Good L s1 → length (m_ops s) ≤ length (m_ops s1) →
    wp safe_fault (ConnectOp_completeOpInternal a st r) (λ _ s', Good [] s' ∧
      length (m_ops s) ≤ length (m_ops s') ∧ ops_of Type_Connect s' = []) s1) as Hend.
  { intros st r s1 Hs1 Hl. eapply wp_mono; [by apply wp_ConnectOp_complete|].
    intros _ s2 (? & [Hl2 _] & ?). by rewrite Hl2. }
  assert (∀ f, moves L L (set_session f)) as Hset
    by (intros; by apply moves_modify; [|apply keeps_set_session|]).
  unfold ConnectOp_handle_Connack.
  apply wp_bind, (wp_linked L m); [done | done | by apply (moves_get_op (T := ConnectOp)); [left|] | |].
  { unfold wp, get_op, get_base, mbind, M_bind, gets. destruct (_ !! _) as [[t d]|]; [|done].
    simpl. by destruct d. }
  intros o s0 Hs0 Hf0 Hl0.
  apply wp_bind, (wp_linked L m); [done | done | by apply moves_timerCancel | |].
  { unfold wp, on_timerMgr, zoom. by destruct (timerCancel _ _). }
  intros _ s1 Hs1 Hf1 Hl1. rewrite Hl0 in Hl1.
  destruct (_ <=? _)%Z; [apply Hend; [done | lia]|].
  destruct (cak_sp m && _); [apply Hend; [done | lia]|]. apply wp_bind.
  eapply (wp_mono _ _ (λ _ s', Good L s' ∧ length (m_ops s) ≤ length (m_ops s')));
    [|intros _ s2 [? ?]; by apply Hend].
  destruct (Z.eqb_spec (cak_returnCode m) ConnectReturnCode_Accepted) as [Hrc|]; cbn [negb].
  2:{ apply (wp_linked L m); [done | done | apply Hset | done|]. intros _ s2 ? _ ?. split; [done | lia]. }
  apply wp_bind, (wp_linked L m); [done | done | | by destruct (cak_sp m)|].
  { by apply moves_when; [|intros _; apply moves_modify; [|keeps_auto|]]. }
  intros _ s2 Hs2 Hf2 Hl2. apply wp_bind, (wp_linked L m); [done | done | apply Hset | done|].
  intros _ s3 Hs3 Hf3 Hl3. eapply wp_mono; [apply (wp_brokerConnected L); [done | | done..]|].
  { by intros b T [= -> ->]%list_elem_of_singleton. }
  intros _ s4 [? ?]. split; [done | lia].
Qed.

End connection.
