(* ===== verification/Reception.v ===== *)
(** * The reception of data uses no destroyed operation

    The judgement of [Memory] for the handlers of the messages of the broker
    (client/lib/src/op/SendOp.cpp, RecvOp.cpp, SubscribeOp.cpp, UnsubscribeOp.cpp,
    KeepAliveOp.cpp), the dispatch of [ClientImpl] and [processData]. *)

From S2P Require Import Prelude SortedVec Config Protocol Topic PacketId TimerMgr State.
From S2P Require Import Lifecycle Completion Session SendOp RecvOp SubscribeOp ConnectOp.
From S2P Require Import Client Invariant Objects Termination Ownership Preservation Requests.
From S2P Require Import Safety Disconnect Receiving Memory Survival Timeouts Reconnection.

Section handlers.
  Context `{Config} `{CommsLib} `{!CommsLaws} `{App} {Hquiet : Quiet}.

(** ** Outgoing publishes *)

Lemma moves_cancelTimer L L' a :
  (a, Type_Send) ∈ L → L' ⊆ L → moves L L' (SendOp_cancelTimer a).
Proof. intros Ha HL. unfold SendOp_cancelTimer. moves_auto. Qed.
Hint Extern 1 (moves _ _ (SendOp_cancelTimer _)) => apply moves_cancelTimer; [held | sub] : mem.

Lemma moves_SendOp_protocolError a : moves [(a, Type_Send)] [] (SendOp_protocolError a).
Proof. unfold SendOp_protocolError. moves_auto. Qed.
Hint Resolve moves_SendOp_protocolError : mem.

Lemma moves_SendOp_handle a msg : moves [(a, Type_Send)] [] (SendOp_handle a msg).
Proof.
  unfold SendOp_handle, SendOp_handle_Puback, SendOp_handle_Pubrec, SendOp_handle_Pubcomp.
  moves_auto.
Qed.

(** ** Incoming publishes *)

Lemma moves_RecvOp_resetTimer L L' a :
  (a, Type_Recv) ∈ L → L' ⊆ L → moves L L' (RecvOp_resetTimer a).
Proof. intros Ha HL. unfold RecvOp_resetTimer. moves_auto. Qed.
Hint Extern 1 (moves _ _ (RecvOp_restartResponseTimer _)) =>
  apply moves_RecvOp_restartResponseTimer; [held | sub] : mem.
Hint Extern 1 (moves _ _ (RecvOp_resetTimer _)) =>
  apply moves_RecvOp_resetTimer; [held | sub] : mem.

Lemma moves_reportMsgInfo L L' info : L' ⊆ L → moves L L' (reportMsgInfo info).
Proof.
  intros HL. unfold reportMsgInfo. apply moves_gets_bind. intros s Hs.
  destruct (gd_cbs _ _ Hs) as (_ & _ & Hcb). by apply (moves_must_callback L L').
Qed.
Hint Extern 1 (moves _ _ (reportMsgInfo _)) => apply moves_reportMsgInfo; sub : mem.

Lemma moves_RecvOp_accept a msg : moves [(a, Type_Recv)] [] (RecvOp_accept a msg).
Proof. unfold RecvOp_accept. moves_auto. Qed.
Hint Resolve moves_RecvOp_accept : mem.

Lemma moves_RecvOp_handle_Publish a msg : moves [(a, Type_Recv)] [] (RecvOp_handle_Publish a msg).
Proof. unfold RecvOp_handle_Publish. moves_auto. Qed.

Lemma moves_RecvOp_handle_Pubrel a id fl : moves [(a, Type_Recv)] [] (RecvOp_handle_Pubrel a id fl).
Proof. unfold RecvOp_handle_Pubrel. moves_auto. Qed.

(** ** Subscriptions *)

Lemma moves_store_filter L topic : moves L L (store_filter topic).
Proof. unfold store_filter. moves_auto. Qed.
Hint Resolve moves_store_filter : mem.

Lemma moves_suback_loop L topics codes acc : moves L L (suback_loop topics codes acc).
Proof.
  revert topics acc. induction codes as [|rc codes IH]; intros [|[t q] topics] acc; simpl;
    moves_auto; apply IH.
Qed.
Hint Resolve moves_suback_loop : mem.

Lemma moves_handle_Suback a id l :
  moves [(a, Type_Subscribe)] [] (SubscribeOp_handle_Suback a id l).
Proof. unfold SubscribeOp_handle_Suback. moves_auto. Qed.

Lemma moves_handle_Unsuback a id :
  moves [(a, Type_Unsubscribe)] [] (UnsubscribeOp_handle_Unsuback a id).
Proof. unfold UnsubscribeOp_handle_Unsuback. moves_auto. Qed.

Lemma moves_handle_Pingresp L L' a :
  (a, Type_KeepAlive) ∈ L → L' ⊆ L → moves L L' (KeepAliveOp_handle_Pingresp a).
Proof. intros Ha HL. unfold KeepAliveOp_handle_Pingresp. moves_auto. Qed.

(** ** The search of the operation of a message *)

Lemma wp_findSendOp_loop l id s :
  Inv s → l ⊆ ops_of Type_Send s →
  wp safe_fault (findSendOp_loop l id) (λ r s', s' = s ∧ ∀ a, r = Some a → a ∈ l) s.
Proof.
  intros Hs. induction l as [|a l IH]; intros Hl; simpl; [by apply wp_ret|].
  apply wp_bind, (wp_get_listed (T := SendOp)); [done | set_solver|]. intros o.
  case_match; [apply wp_ret; split; [done | intros b [= <-]; by left]|].
  eapply wp_mono; [apply IH; set_solver|]. intros r s' [-> Hr]. split; [done|].
  intros b Hb. right. by apply Hr.
Qed.

Lemma wp_findRecvOp_loop l id s :
  Inv s → l ⊆ ops_of Type_Recv s →
  wp safe_fault (findRecvOp_loop l id) (λ r s', s' = s ∧ ∀ a, r = Some a → a ∈ l) s.
Proof.
  intros Hs. induction l as [|a l IH]; intros Hl; simpl; [by apply wp_ret|].
  apply wp_bind, (wp_get_listed (T := RecvOp)); [done | set_solver|]. intros o.
  case_match; [apply wp_ret; split; [done | intros b [= <-]; by left]|].
  eapply wp_mono; [apply IH; set_solver|]. intros r s' [-> Hr]. split; [done|].
  intros b Hb. right. by apply Hr.
Qed.

Lemma wp_isLegitSendAck a b s :
  Inv s → a ∈ ops_of Type_Send s →
  wp safe_fault (isLegitSendAck a b) (λ _ s', s' = s) s.
Proof.
  intros Hs Ha. unfold isLegitSendAck.
  apply wp_bind, (wp_get_listed (T := SendOp)); [done..|]. intros o.
  destruct (negb _); [by apply wp_ret|]. apply wp_bind, wp_gets.
  assert (ops_of Type_Send s ⊆ ops_of Type_Send s) as Hl by done. revert Hl.
  generalize (head (ops_of Type_Send s)) as fr.
  generalize (ops_of Type_Send s) at 1 3 as l. intros l fr.
  induction l as [|c l IH]; intros Hl; simpl.
  { by apply wp_bind, wp_comms_assert; [left|]. }
  case_match; [by apply wp_ret|].
  apply wp_bind, (wp_get_listed (T := SendOp)); [done | set_solver|]. intros p.
  case_match; [by apply wp_ret|]. case_match; [by apply wp_ret|]. apply IH. set_solver.
Qed.

(** ** Dispatch *)

Definition is_connack (msg : ProtMessage) : bool :=
  match msg with MConnack _ => true | _ => false end.

(** The handler of a live operation. *)
Lemma moves_dispatch_op a T msg :
  is_connack msg = false ∨ T ≠ Type_Connect → moves [(a, T)] [] (dispatch_op msg a).
Proof.
  intros Hmsg s Hs. destruct (gd_pins _ _ Hs a T ltac:(by left)) as (o & Ho & HT).
  unfold dispatch_op. apply wp_bind. eapply wp_get_base_live; [done|]. rewrite HT.
  assert (moves [(a, T)] [] (mret ())) as Hret by (by apply moves_ret; set_solver).
  revert s Hs Ho.
  enough (moves [(a, T)] [] (match T, msg with
    | Type_Connect, MConnack m => ConnectOp_handle_Connack a m
    | Type_KeepAlive, MPingresp => KeepAliveOp_handle_Pingresp a
    | Type_KeepAlive, _ => KeepAliveOp_handle_ProtMessage a
    | Type_Subscribe, MSuback id list => SubscribeOp_handle_Suback a id list
    | Type_Unsubscribe, MUnsuback id => UnsubscribeOp_handle_Unsuback a id
    | Type_Recv, MPublish m => RecvOp_handle_Publish a m
    | Type_Recv, MPubrel id flags => when (2 <=? MaxQos) (RecvOp_handle_Pubrel a id flags)
    | Type_Send, _ => SendOp_handle a msg
    | _, _ => mret tt
    end)) as Hm by (intros s Hs _; by apply Hm).
  destruct T; [| |done| | | |apply moves_SendOp_handle]; destruct msg; try done;
    try (apply moves_restartRecvTimer; set_solver).
  - by destruct Hmsg.
  - apply moves_handle_Pingresp; set_solver.
  - apply moves_handle_Suback.
  - apply moves_handle_Unsuback.
  - apply moves_RecvOp_handle_Publish.
  - apply moves_when; [set_solver|]. intros _. apply moves_RecvOp_handle_Pubrel.
Qed.

(** The loop of [handle(ProtMessage&)] does not run past the end of [m_ops]. *)
Lemma moves_handle_loop idxs msg s :
  is_connack msg = false → Good [] s → (∀ i, i ∈ idxs → i < length (m_ops s)) →
  wp safe_fault (handle_loop idxs msg) (λ _ s', Good [] s') s.
Proof.
  intros Hmsg. revert s. induction idxs as [|i idxs IH]; intros s Hs Hi; simpl; [by apply wp_ret|].
  apply wp_bind, wp_gets.
  destruct (lookup_lt_is_Some_2 (m_ops s) i) as [p Hp]; [apply Hi; by left|]. rewrite Hp.
  destruct p as [a|]; [|apply IH; [done | intros j Hj; apply Hi; by right]].
  destruct (entry_live s i a (gd_inv _ _ Hs) Hp) as [o Ho]. apply wp_bind.
  eapply wp_mono; [apply (moves_dispatch_op a (Op_type o)); [by left|]|].
  { destruct Hs. split; [done | by eapply pinned_cons | done]. }
  intros _ s' [Hs' [Hl _]]. apply wp_bind, wp_gets. unfold compose. destruct (ses_disconnecting _); [by apply wp_ret|].
  apply IH; [done|]. intros j Hj. rewrite Hl. apply Hi. by right.
Qed.

(** The loop for CONNACK: the connect operation is the only one that is changed. *)
Lemma wp_handle_loop_Connack idxs m s :
  Good [] s → link_ok m s = true ∨ ops_of Type_Connect s = [] →
  (∀ i, i ∈ idxs → i < length (m_ops s)) →
  wp safe_fault (handle_loop idxs (MConnack m)) (λ _ s', Good [] s') s.
Proof.
  revert s. induction idxs as [|i idxs IH]; intros s Hs Hf Hi; simpl; [by apply wp_ret|].
  apply wp_bind, wp_gets.
  destruct (lookup_lt_is_Some_2 (m_ops s) i) as [p Hp]; [apply Hi; by left|]. rewrite Hp.
  destruct p as [a|]; [|apply IH; [done | done | intros j Hj; apply Hi; by right]].
  destruct (entry_live s i a (gd_inv _ _ Hs) Hp) as [o Ho]. apply wp_bind.
  assert (Good [(a, Op_type o)] s) as Ha.
  { destruct Hs. split; [done | by eapply pinned_cons | done]. }
  assert (∀ s', Good [] s' → length (m_ops s) ≤ length (m_ops s') →
    link_ok m s' = true ∨ ops_of Type_Connect s' = [] →
    wp safe_fault (disconnecting ← gets (ses_disconnecting ∘ m_sessionState);
      if disconnecting : bool then mret tt else handle_loop idxs (MConnack m))
      (λ _ s', Good [] s') s') as Hnext.
  { intros s' Hs' Hl Hf'. apply wp_bind, wp_gets. unfold compose. destruct (ses_disconnecting _); [by apply wp_ret|].
    apply IH; [done | done|]. intros j Hj. specialize (Hi j ltac:(by right)). lia. }
  unfold dispatch_op. apply wp_bind. eapply wp_get_base_live; [done|].
  destruct (Op_type o) eqn:HT; try by apply wp_ret, Hnext.
  - destruct Hf as [Hf|Hnone].
    + eapply wp_mono; [by apply wp_handle_Connack|]. intros _ s' (? & ? & ?). apply Hnext; auto.
    + assert (a ∈ ops_of Type_Connect s) as Hin.
      { apply (li_lists _ _ (inv_lists _ (gd_inv _ _ Hs))). exists (shape_of (op_derived o)).
        split; [by apply shapes_lookup | exact HT]. }
      rewrite Hnone in Hin. by apply elem_of_nil in Hin.
  - eapply wp_mono; [eapply (wp_and _ any_fault);
      [by apply (moves_restartRecvTimer [(a, Type_KeepAlive)] []); [left | set_solver |]|]|].
    { instantiate (1 := λ _ s', g_store s' = g_store s ∧ m_lists s' = m_lists s ∧
        m_opsDeleted s' = m_opsDeleted s).
      apply (wp_bind any_fault). apply wp_gets. destruct (_ =? 0)%Z; [done|].
      apply wp_bind, wp_get_op; [done|]. intros t k _. unfold wp, on_timerMgr, zoom.
      by destruct (timerWait _ _ _ _ _). }
    intros _ s' [[Hs' [Hl _]] (Est & Els & Edel)]. apply Hnext; [done | lia|].
    rewrite (link_ok_same m s) by done. unfold ops_of. by rewrite Els.
Qed.

(** ** Messages *)

(** Whether the publishes that an acknowledgement makes the client resend end with
    one that is not destroyed before its turn.  An acknowledgement that is not the
    next one, as [isLegitSendAck] decides in [processPublishAckMsg], makes the client
    resend the publishes up to the acknowledged one; that one is not paused when it
    has been sent. *)
Definition ack_known (packetId : Z) (pubcompAck : bool) : M ClientImpl bool :=
  keepAliveOps ← gets (ops_of Type_KeepAlive);
  mapM_ KeepAliveOp_handle_ProtMessage keepAliveOps ;;
  sendOp ← findSendOp packetId;
  match sendOp with
  | None => mret true
  | Some sendOp =>
      legit ← isLegitSendAck sendOp pubcompAck;
      if legit : bool then mret true else gets (unpaused_at sendOp)
  end.

Definition answers (r : result ClientImpl bool) : bool :=
  match r with Ok b _ => b | Fault _ => true end.

(** The broker accepts a connection when the exchanges in flight can be resumed or
    terminated, and acknowledges publishes that it may have received. *)
Definition message_ok (msg : ProtMessage) (s : ClientImpl) : bool :=
  match msg with
  | MConnack m => link_ok m s
  | MPuback id | MPubrec id => answers (ack_known id false s)
  | MPubcomp id => answers (ack_known id true s)
  | _ => true
  end.

Lemma wp_restartRecvTimers s :
  Good [] s →
  wp safe_fault (mapM_ KeepAliveOp_handle_ProtMessage (ops_of Type_KeepAlive s))
    (λ _ s', Good [] s') s.
Proof.
  intros Hs. eapply wp_mono; [apply (wp_for_each [] Type_KeepAlive); [|done]|by intros _ s' [? _]].
  intros L a Ha. by apply moves_restartRecvTimer.
Qed.

Lemma wp_handle_ProtMessage msg s :
  Good [] s → (∀ m, msg = MConnack m → link_ok m s = true) →
  wp safe_fault (ClientImpl_handle_ProtMessage msg) (λ _ s', Good [] s') s.
Proof.
  intros Hs Hf. unfold ClientImpl_handle_ProtMessage. apply wp_bind, wp_gets.
  unfold compose at 1. destruct (ses_disconnecting _); [by apply wp_ret|]. apply wp_bind, wp_gets.
  assert (∀ i, i ∈ seq 0 (length (m_ops s)) → i < length (m_ops s)) as Hi
    by (intros i ?%elem_of_seq; lia).
  destruct (is_connack msg) eqn:Hmsg; [|by apply moves_handle_loop].
  destruct msg; try done. apply wp_handle_loop_Connack; [done | left; by apply Hf | done].
Qed.

(** The loop that resends the publishes before an acknowledged one, which it keeps;
    what it erases is not before the index. *)
Lemma wp_resendAllUntil_steps fuel idx a s :
  Good [] s → unpaused a s → a ∈ drop idx (ops_of Type_Send s) →
  wp safe_fault (resendAllUntil_loop fuel idx a) (λ _ s', Good [] s') s.
Proof.
  revert idx s. induction fuel as [|fuel IH]; intros idx s Hs Ha Hin; simpl.
  { apply wp_throw. right. by right. }
  apply wp_bind, wp_gets. destruct (ops_of Type_Send s !! idx) as [c|] eqn:Hc; [|by apply wp_ret].
  assert (c ∈ ops_of Type_Send s) as Hcin by by eapply list_elem_of_lookup_2.
  apply wp_bind, wp_gets. apply wp_bind.
  assert (moves [(c, Type_Send)] [] (SendOp_forceDupResend c)) as Hm.
  { pose proof (moves_resendDupMsg [] c (releases_nil _ _)). unfold SendOp_forceDupResend.
    apply (moves_bind _ [(c, Type_Send)]); [apply (moves_get_op (T := SendOp)); [by left | done]|].
    intros o. destruct (so_paused o); [apply moves_ret; set_solver | done]. }
  pose proof (Hm s (Good_listed [] Type_Send c s Hs Hcin)) as Hstep.
  destruct (Nat.eqb_spec c a) as [->|Hca].
  { eapply wp_mono; [exact Hstep|]. intros [] s1 [Hs1 _]. by apply wp_ret. }
  assert (NoDup (ops_of Type_Send s)) as Hnd by apply (li_nodup _ _ (inv_lists _ (gd_inv _ _ Hs))).
  set (pre := take idx (ops_of Type_Send s)).
  assert ((c ∉ pre) ∧ (a ∉ pre)) as [Hcp Hap].
  { unfold pre. rewrite <- (take_drop idx (ops_of Type_Send s)) in Hnd.
    apply NoDup_app in Hnd as (_ & Hdis & _). split; intros Hx; apply (Hdis _ Hx); [|done].
    apply list_elem_of_lookup. exists 0. by rewrite lookup_drop, Nat.add_0_r. }
  assert (wp any_fault (SendOp_forceDupResend c) (λ _ s', starts pre s') s) as Hfront.
  { eapply wp_mono; [apply (front_forceDupResend pre c Hcp s)|by intros [] s' [? _]].
    split; [done|]. apply prefix_take. }
  assert (wp any_fault (SendOp_forceDupResend c) (λ _ s', unpaused a s') s) as Hsurv.
  { apply survives; [|done]. intros. by apply hkeeps_forceDupResend. }
  pose proof (wp_and _ _ _ _ _ _ Hstep (wp_and _ _ _ _ _ _ Hfront Hsurv)) as Hall.
  eapply wp_mono; [exact Hall|]. intros [] s1 ([Hs1 (_ & _ & Hpush)] & [_ [rest Hrest]] & Ha1).
  apply wp_bind, wp_gets. rewrite Hpush, Nat.eqb_refl. cbn [negb when].
  apply wp_bind, wp_ret. apply wp_bind, wp_gets.
  assert (a ∈ drop idx (ops_of Type_Send s1)) as Hin1.
  { destruct Ha1 as (t & d & Hst & _).
    assert (a ∈ ops_of Type_Send s1) as Hl.
    { apply (li_lists _ _ (inv_lists _ (gd_inv _ _ Hs1))). exists (shape_of (DSend d)).
      split; [exact (shapes_lookup _ _ _ Hst) | done]. }
    rewrite Hrest in Hl |- *. apply elem_of_app in Hl as [Hl|Hl]; [done|].
    rewrite drop_app_ge; [|unfold pre; rewrite length_take; lia].
    by replace (idx - length pre) with 0 by
      (unfold pre; rewrite length_take; apply lookup_lt_Some in Hc; lia). }
  destruct (ops_of Type_Send s1 !! idx) as [e|] eqn:He.
  2:{ apply lookup_ge_None in He. rewrite drop_ge in Hin1 by done. by apply elem_of_nil in Hin1. }
  destruct (Nat.eqb_spec c e) as [<-|Hce]; cbn [negb]; [|by apply IH].
  apply IH; [done..|]. rewrite (drop_S _ _ _ He) in Hin1. by apply elem_of_cons in Hin1 as [->|].
Qed.

Lemma wp_processPublishAckMsg msg id b s :
  Good [] s → answers (ack_known id b s) = true →
  wp safe_fault (processPublishAckMsg msg id b) (λ _ s', Good [] s') s.
Proof.
  intros Hs. pose proof (wp_restartRecvTimers s Hs) as Hka.
  unfold answers, wp, ack_known, processPublishAckMsg, findSendOp, mbind, M_bind, gets in *.
  destruct (mapM_ _ _ s) as [u s1|f]; [|done].
  pose proof (wp_findSendOp_loop (ops_of Type_Send s1) id s1 (gd_inv _ _ Hka) ltac:(done)) as Hfind.
  unfold wp in Hfind. destruct (findSendOp_loop _ _ _) as [r s2|]; [|done].
  destruct Hfind as [-> Hr]. destruct r as [a|]; [|done]. specialize (Hr a eq_refl).
  pose proof (wp_isLegitSendAck a b s1 (gd_inv _ _ Hka) Hr) as Hleg. unfold wp in Hleg.
  destruct (isLegitSendAck a b s1) as [l s3|]; [|done]. subst s3. destruct l; intros Hun.
  - pose proof (moves_SendOp_handle a msg s1 (Good_listed [] Type_Send a s1 Hka Hr)) as Hh.
    unfold wp in Hh. destruct (SendOp_handle a msg s1) as [v s4|]; [|done]. apply Hh.
  - apply unpaused_at_spec in Hun.
    pose proof (wp_resendAllUntil_steps (S (length (ops_of Type_Send s1))) 0 a s1 Hka Hun Hr) as Hl.
    unfold wp in Hl. unfold resendAllUntil, mbind, M_bind, gets.
    change ((length ∘ ops_of Type_Send) s1) with (length (ops_of Type_Send s1)).
    destruct (resendAllUntil_loop _ _ _ s1) as [v s4|]; [|done]. exact Hl.
Qed.

Lemma wp_createRecvOp msg s :
  Good [] s → wp safe_fault (createRecvOp msg) (λ _ s', Good [] s') s.
Proof.
  intros Hs. unfold createRecvOp. apply wp_bind.
  eapply wp_mono; [by apply wp_alloc_mem, Hs|]. intros [a|] s1; simpl; [|intros ->; by apply wp_ret].
  intros [Hc Hg]. apply wp_bind. eapply wp_mono; [by eapply wp_push_mem|].
  intros _ s2 (Hi & Hg' & o & Ho & HT).
  eapply wp_mono; [apply (moves_RecvOp_handle_Publish a msg)|by intros _ s3 [? _]].
  assert (Good [] s2) as [? ? ?].
  { apply (Good_grows [] s); [|done|done]. destruct grows_preorder. by etrans. }
  split; [done | by eapply pinned_cons | done].
Qed.

(** The messages of a publish from the broker. *)
Lemma wp_findRecvOp_mem {A} id s (k : option addr → M ClientImpl A) :
  Good [] s → wp safe_fault (k None) (λ _ s', Good [] s') s →
  (∀ a, Good [(a, Type_Recv)] s → wp safe_fault (k (Some a)) (λ _ s', Good [] s') s) →
  wp safe_fault (findRecvOp id ≫= k) (λ _ s', Good [] s') s.
Proof.
  intros Hs Hnone Hsome. apply wp_bind, wp_bind, wp_gets.
  eapply wp_mono; [apply wp_findRecvOp_loop; [apply Hs | done]|]. intros [a|] s' [-> Ha]; [|done].
  apply Hsome. apply Good_listed; [done | by apply Ha].
Qed.

Lemma wp_handle_Publish msg s :
  Good [] s → wp safe_fault (ClientImpl_handle_Publish msg) (λ _ s', Good [] s') s.
Proof.
  intros Hs. unfold ClientImpl_handle_Publish. apply wp_bind, wp_gets. unfold compose.
  destruct (ses_disconnecting _); [by apply wp_ret|]. apply wp_bind, wp_gets.
  apply wp_bind. eapply wp_mono; [by apply wp_restartRecvTimers|]. intros [] s1 Hs1. cbv zeta.
  destruct (_ || _); [by apply wp_createRecvOp|].
  destruct (2 <=? MaxQos); [|by apply wp_createRecvOp].
  apply wp_findRecvOp_mem; [done | by apply wp_createRecvOp|]. intros a Ha.
  enough (moves [(a, Type_Recv)] [] (if negb (pub_dup msg) then brokerDisconnected_protocolError
    else RecvOp_resetTimer a ;; _ ← sendMessage (MPubrec (pub_packetId msg)); mret tt)) as Hm
    by (eapply wp_mono; [by apply Hm | by intros _ s2 [? _]]).
  destruct (negb _); [apply moves_brokerDisconnected; [by apply only_exchanges_nil | set_solver]|].
  apply (moves_bind _ [(a, Type_Recv)]); [apply moves_RecvOp_resetTimer; set_solver|]. intros _.
  apply (moves_bind _ [(a, Type_Recv)]); [by apply moves_sendMessage|]. intros _.
  apply moves_ret. set_solver.
Qed.

Lemma wp_handle_Pubrel id fl s :
  Good [] s → wp safe_fault (ClientImpl_handle_Pubrel id fl) (λ _ s', Good [] s') s.
Proof.
  intros Hs. unfold ClientImpl_handle_Pubrel. apply wp_bind, wp_gets.
  apply wp_bind. eapply wp_mono; [by apply wp_restartRecvTimers|]. intros [] s1 Hs1.
  apply wp_findRecvOp_mem; [done | by apply wp_ret|]. intros a Ha.
  eapply wp_mono; [by apply moves_RecvOp_handle_Pubrel | by intros _ s2 [? _]].
Qed.

Lemma wp_dispatch msg s :
  Good [] s → message_ok msg s = true →
  wp safe_fault (ClientImpl_dispatch msg) (λ _ s', Good [] s') s.
Proof.
  intros Hs Hok.
  assert (wp safe_fault (ClientImpl_handle_ProtMessage msg) (λ _ s', Good [] s') s) as Hdef
    by (apply wp_handle_ProtMessage; [done|]; by intros m ->).
  destruct msg; simpl in Hok; try exact Hdef; cbn [ClientImpl_dispatch].
  - by apply wp_handle_Publish.
  - destruct (1 <=? MaxQos); [|exact Hdef]. apply wp_bind.
    eapply wp_mono; [by apply wp_processPublishAckMsg|]. done.
  - destruct (2 <=? MaxQos); [|exact Hdef]. apply wp_bind.
    eapply wp_mono; [by apply wp_processPublishAckMsg|]. done.
  - destruct (2 <=? MaxQos); [|exact Hdef]. by apply wp_handle_Pubrel.
  - destruct (2 <=? MaxQos); [|exact Hdef]. apply wp_bind.
    eapply wp_mono; [by apply wp_processPublishAckMsg|]. done.
Qed.

(** ** Streams *)

(** Every message is in order in the state in which it is dispatched. *)
Fixpoint stream_ok (msgs : list ProtMessage) (s : ClientImpl) : bool :=
  match msgs with
  | [] => true
  | msg :: msgs' =>
      message_ok msg s &&
      match ClientImpl_dispatch msg s with
      | Ok _ s' => stream_ok msgs' s'
      | Fault _ => true
      end
  end.

Lemma wp_dispatch_all msgs s :
  Good [] s → stream_ok msgs s = true →
  wp safe_fault (mapM_ ClientImpl_dispatch msgs) (λ _ s', Good [] s') s.
Proof.
  revert s. induction msgs as [|msg msgs IH]; intros s Hs; simpl; [intros _; by apply wp_ret|].
  intros [Hok Hrest]%andb_true_iff. pose proof (wp_dispatch msg s Hs Hok) as Hd.
  unfold wp, mbind, M_bind in *. destruct (ClientImpl_dispatch msg s) as [u s1|f]; [|done].
  by apply IH.
Qed.

(** What [processData] does between the guard. *)
Lemma wp_processData_body buf s :
  Good [] s →
  (m_networkDisconnected (m_clientState s) = false → stream_ok (ps_messages (parse buf)) s = true) →
  wp safe_fault
    (networkDisconnected ← gets (m_networkDisconnected ∘ m_clientState);
     comms_assert (negb networkDisconnected) ;;
     if networkDisconnected : bool then mret 0
     else
       mapM_ ClientImpl_dispatch (ps_messages (parse buf)) ;;
       if ps_error (parse buf) then
         brokerDisconnected BrokerDisconnectReason_ProtocolError AsyncOpStatus_ProtocolError ;;
         mret (length buf)
       else mret (ps_consumed (parse buf)))
    (λ _ s', Good [] s') s.
Proof.
  intros Hs Hok. apply wp_bind, wp_gets. unfold compose.
  apply wp_bind, wp_comms_assert; [by left|].
  destruct (m_networkDisconnected _); [by apply wp_ret|]. apply wp_bind.
  eapply wp_mono; [apply wp_dispatch_all; [done | by apply Hok]|]. intros [] s1 Hs1.
  destruct (ps_error _); [|by apply wp_ret]. apply wp_bind.
  eapply wp_mono; [apply (moves_brokerDisconnected [] []); [by apply only_exchanges_nil | done | done]|].
  intros _ s2 [Hs2 _]. by apply wp_ret.
Qed.

End handlers.
