(* ===== verification/MemoryApi.v ===== *)
(** * No request uses a destroyed operation

    The functions of the API that enter the scope of an [ApiEnterGuard]
    (client/lib/src/ClientImpl.cpp, client/lib/src/op/): the tick of the guard, the
    preparations, configurations, [send] and [cancel]; then the theorem over all
    the requests. *)

From S2P Require Import Prelude SortedVec Config Protocol Topic PacketId TimerMgr State.
From S2P Require Import Lifecycle Completion Session SendOp RecvOp SubscribeOp ConnectOp.
From S2P Require Import Client Invariant Objects Termination Frame Ownership Preservation.
From S2P Require Import Scenarios Requests Safety Disconnect Receiving Memory Survival Timeouts Reconnection Reception.

(** ** Time *)

(** If the client has its wait cancelled, no timer has expired by the time that the
    application then reports: it ticks in time. *)
Definition in_time `{App} (s : ClientImpl) : Prop :=
  has_cancelNextTickWaitCb (m_callbacks s) = true →
  ∀ tr, g_trace s `prefix_of` tr →
    expired (u32 (app_elapsed tr)) s = [] ∧
    (ses_keepAliveMs (m_sessionState s) = 0 ∨
     u32 (app_elapsed tr) < ses_keepAliveMs (m_sessionState s))%Z.

Definition time_contract `{App} : Contract ClientImpl := {|
  ct_inv := in_time;
  ct_rel := λ _ _, True;
  ct_faults := any_fault;
  ct_pre := any_step_preorder;
|}.

Abbreviation pkeeps := (keeps (Contract0 := time_contract)).

Section api.
  Context `{Config} `{CommsLib} `{!CommsLaws} `{App} {Hquiet : Quiet}.

Lemma in_time_same s s' :
  m_callbacks s' = m_callbacks s → m_timerMgr s' = m_timerMgr s →
  m_sessionState s' = m_sessionState s → g_trace s `prefix_of` g_trace s' →
  in_time s → in_time s'.
Proof.
  intros Ecb Etm Ess Htr Ht. unfold in_time, expired. rewrite Ecb, Etm, Ess. intros Hc tr Hp.
  apply Ht; [done|]. by etrans.
Qed.

Lemma pkeeps_modify f :
  (∀ s, m_callbacks (f s) = m_callbacks s) → (∀ s, m_timerMgr (f s) = m_timerMgr s) →
  (∀ s, m_sessionState (f s) = m_sessionState s) → (∀ s, g_trace (f s) = g_trace s) →
  pkeeps (modify f).
Proof.
  intros Hcb Htm Hss Htr. apply keeps_modify. intros s Hs. split; [|done].
  eapply in_time_same; [apply Hcb | apply Htm | apply Hss | by rewrite Htr | done].
Qed.

Lemma pkeeps_on_clientState {A} (m : M ClientState A) : pkeeps (on_clientState m).
Proof.
  intros s Hs. unfold wp, on_clientState, zoom. destruct (m _) as [a t|]; [|done].
  split; [|done]. by apply (in_time_same s).
Qed.

Lemma pkeeps_get_base a : pkeeps (get_base a).
Proof. unfold get_base. by repeat first [keeps_step | apply keeps_throw]. Qed.

Lemma pkeeps_get_op {T} `{Subclass T} a : pkeeps (get_op (T := T) a).
Proof.
  unfold get_op. by repeat first [apply pkeeps_get_base | keeps_step | apply keeps_throw].
Qed.

Lemma pkeeps_modify_op {T} `{Subclass T} a (f : T → T) : pkeeps (modify_op a f).
Proof.
  apply keeps_bind; [apply pkeeps_get_op|]. intros o. by apply pkeeps_modify.
Qed.

Lemma pkeeps_callback e : pkeeps (callback e).
Proof.
  intros s Hs. apply wp_quiet_callback; [exact app_quiet|]. split; [|done].
  apply (in_time_same s); try done. by apply prefix_app_r.
Qed.

Lemma pkeeps_comms_assert b : pkeeps (comms_assert b).
Proof. by apply keeps_comms_assert. Qed.

(** The timer of the next ping is restarted with the keep alive period. *)
Lemma pkeeps_restartPingTimer a : pkeeps (KeepAliveOp_restartPingTimer a).
Proof.
  intros s Hs. unfold KeepAliveOp_restartPingTimer. apply wp_bind, wp_gets.
  unfold compose. destruct (Z.eqb_spec (ses_keepAliveMs (m_sessionState s)) 0) as [|Hms]; [done|].
  apply wp_bind, wp_get_op; [done|]. intros t o _. apply wp_zoom. unfold timerWait.
  apply wp_bind, wp_gets. apply wp_bind, wp_comms_assert; [done|].
  destruct (timer_at _ _) as [[i info]|]; [|split; [by apply (in_time_same s) | done]].
  apply wp_bind, wp_comms_assert; [done|]. apply wp_modify. split; [|done].
  intros Hc tr Htr. destruct (Hs Hc tr Htr) as [He [|Hlt]]; [done|]. split; [|by right].
  set (e := u32 (app_elapsed tr)) in *. unfold expired in *. cbn [m_timerMgr set_timerMgr].
  apply elem_of_nil_inv. intros p (x & Hx & Hf)%list_elem_of_omap.
  apply list_elem_of_lookup in Hx as [j Hj]. rewrite lookup_upd in Hj.
  destruct (m_timers (m_timerMgr s) !! j) as [y|] eqn:Hy; [|by destruct (decide _)].
  assert (fires e y = None) as Hnone.
  { apply eq_None_not_Some. intros [q Hq].
    assert (q ∈ omap (fires e) (m_timers (m_timerMgr s))) as Hin.
    { apply list_elem_of_omap. exists y. split; [by eapply list_elem_of_lookup_2 | done]. }
    rewrite He in Hin. by apply elem_of_nil in Hin. }
  destruct (decide _) in Hj; simpl in Hj; simplify_eq.
  unfold fires, expires in Hf. simpl in Hf.
  destruct (Z.leb_spec (ses_keepAliveMs (m_sessionState s)) e); [lia|].
  by rewrite andb_false_r in Hf.
Qed.

Ltac pkeeps_auto := repeat first
  [ apply pkeeps_get_base | apply pkeeps_get_op | apply pkeeps_modify_op | apply pkeeps_callback
  | apply pkeeps_comms_assert | apply pkeeps_on_clientState | apply pkeeps_restartPingTimer
  | by apply pkeeps_modify | by apply keeps_throw | assumption | keeps_step ].

Lemma pkeeps_sendMessage msg : pkeeps (sendMessage msg).
Proof.
  unfold sendMessage, must_callback, KeepAliveOp_messageSent. cbv zeta. pkeeps_auto.
Qed.

Lemma pkeeps_canSend a : pkeeps (SendOp_canSend a).
Proof.
  unfold SendOp_canSend, hasPausedSendsBefore, hasHigherQosSendsBefore. pkeeps_auto.
  match goal with |- keeps (hasHigherQos_loop ?l _ _) => induction l end; simpl; pkeeps_auto.
Qed.

Lemma pkeeps_allowNextPrepare : pkeeps allowNextPrepare.
Proof. unfold allowNextPrepare. pkeeps_auto. Qed.

(** A step before the guard. *)
Lemma wp_before {A} L L' (m : M ClientImpl A) s (Q : A → ClientImpl → Prop) :
  Good L s → in_time s → moves L L' m → pkeeps m →
  (∀ x s', Good L' s' → in_time s' → Q x s') → wp safe_fault m Q s.
Proof.
  intros Hs Ht Hm Hk HQ. eapply wp_mono; [eapply wp_and; [by apply Hm | by apply Hk]|].
  intros x s' [[? _] [? _]]. by apply HQ.
Qed.

(** ** The guard *)

Lemma wp_doApiEnter_mem L s :
  Good L s → in_time s → wp safe_fault doApiEnter (λ _ s', Good L s') s.
Proof.
  intros [Hi Hp Hcb] Ht.
  eapply wp_mono; [eapply (wp_and _ any_fault); [|by apply wp_doApiEnter]|].
  - instantiate (1 := λ _ s', g_store s' = g_store s ∧ m_callbacks s' = m_callbacks s).
    apply wp_bind, wp_modify. apply wp_bind, wp_gets. apply wp_bind, wp_gets.
    destruct (_ || _) eqn:Hc; [done|]. apply wp_bind, wp_gets. destruct (_ =? 0)%Z; [done|].
    apply wp_bind, wp_quiet_callback; [exact app_quiet|]. apply wp_bind, wp_gets.
    apply orb_false_iff in Hc as [_ Hc%negb_false_iff].
    unfold TimerMgr_tick. apply wp_bind, wp_zoom. unfold wp at 1. rewrite tick_collect_eq.
    unfold compose. set (s1 := log _ _).
    assert (expired (u32 (app_elapsed (g_trace s1))) s = []) as He.
    { apply (Ht Hc (g_trace s1)). by apply prefix_app_r. }
    change (omap _ _) with (expired (u32 (app_elapsed (g_trace s1))) s). rewrite He. done.
  - intros _ s' [[Est Ecb] [Hi' _]]. split; [done | | unfold callbacks_ready; by rewrite Ecb].
    intros a T Ha. rewrite Est. by apply Hp.
Qed.

Lemma wp_doApiExit_mem L s : Good L s → wp safe_fault doApiExit (λ _ s', Good L s') s.
Proof.
  intros [Hi Hp Hcb].
  eapply wp_mono; [eapply (wp_and _ any_fault); [|by apply wp_doApiExit]|].
  - instantiate (1 := λ _ s', g_store s' = g_store s ∧ m_callbacks s' = m_callbacks s).
    apply wp_bind, wp_gets. apply wp_bind, wp_comms_assert; [by left|].
    apply wp_bind, wp_modify. apply wp_bind, wp_gets. destruct (_ <? _)%Z; [done|].
    apply wp_bind.
    eapply (wp_mono _ _ (λ _ s', g_store s' = g_store s ∧ m_callbacks s' = m_callbacks s)).
    { apply wp_bind, wp_gets. destruct (negb _); [by apply wp_ret|].
      do 2 apply wp_bind, wp_modify. by apply wp_modify. }
    intros _ s1 [Est Ecb]. apply wp_bind, wp_gets. destruct (negb _); [done|].
    apply wp_bind, wp_gets. destruct (_ =? 0)%Z; [done|].
    by apply wp_quiet_callback; [exact app_quiet|].
  - intros _ s' [[Est Ecb] [Hi' _]]. split; [done | | unfold callbacks_ready; by rewrite Ecb].
    intros a T Ha. rewrite Est. by apply Hp.
Qed.

(** A body between the two, whose result says what is held afterwards. *)
Lemma wp_with_guard_mem {A} L (L' : A → pins) (m : M ClientImpl A) s :
  Good L s → in_time s →
  (∀ s1, doApiEnter s = Ok tt s1 → Good L s1 → wp safe_fault m (λ x s2, Good (L' x) s2) s1) →
  wp safe_fault (with_guard m) (λ x s', Good (L' x) s') s.
Proof.
  intros Hs Ht Hm. pose proof (wp_doApiEnter_mem L s Hs Ht) as He.
  unfold with_guard. apply wp_bind. unfold wp in He |- *.
  destruct (doApiEnter s) as [[] s1|f]; [|done]. specialize (Hm s1 eq_refl He).
  change (wp safe_fault (x ← m; doApiExit ;; mret x) (λ x s', Good (L' x) s') s1).
  apply wp_bind. eapply wp_mono; [exact Hm|]. intros x s2 Hs2. apply wp_bind.
  eapply wp_mono; [exact (wp_doApiExit_mem (L' x) s2 Hs2)|]. intros [] s3 Hs3. by apply wp_ret.
Qed.

(** The scope of a guard. *)
Lemma wp_guarded {A} L (m : M ClientImpl A) s :
  Good L s → in_time s → moves L [] m →
  wp safe_fault (with_guard m) (λ _ s', Good [] s') s.
Proof.
  intros Hs Ht Hm. apply (wp_with_guard_mem L (λ _, [])); [done..|]. intros s1 _ Hs1.
  eapply wp_mono; [by apply Hm|]. by intros x s2 [? _].
Qed.

(** The last step of a request. *)
Lemma wp_guarded_end {A B} L (m : M ClientImpl A) (x : B) s :
  Good L s → in_time s → moves L [] m →
  wp safe_fault (with_guard m ;; mret x) (λ _ s', Good [] s') s.
Proof.
  intros Hs Ht Hm. apply wp_bind. eapply wp_mono; [by apply (wp_guarded L)|].
  intros y s' ?. by apply wp_ret.
Qed.

(** ** Sending *)

Lemma moves_allocPacketId `{OpClass T} L a (f : Z → T → T) :
  (a, op_class) ∈ L → keeps (id ← on_clientState allocPacketId; modify_op a (f id)) →
  (∀ id o, typeImpl (upcast (f id o)) = typeImpl (upcast o)) →
  moves L L (id ← on_clientState allocPacketId; modify_op a (f id)).
Proof.
  intros Ha Hk Hf. apply moves_of; [done|]. intros s [Hi Hp Hc].
  destruct Hi as [_ _ [[Hids _ _] _ _] _].
  destruct (allocPacketId_cases _ Hids) as [[_ E] | (_ & ids & id & k & E & _)];
    (apply wp_bind, wp_zoom; unfold wp at 1; rewrite E;
     eapply wp_mono; [by apply (wp_modify_op (T := T) L L a (f _) (set_clientState _ s))|];
     intros [] s' (? & ? & Hst); split; [done|]; split; [done|]; exact Hst).
Qed.

(** A branch that ends the request. *)
Lemma wp_ending {A} L (m : M ClientImpl A) s :
  Good L s → moves L [] m → wp safe_fault m (λ _ s', Good [] s') s.
Proof. intros Hs Hm. eapply wp_mono; [by apply Hm|]. by intros x s' [? _]. Qed.

Hint Extern 1 (moves _ _ allowNextPrepare) => apply moves_allowNextPrepare; sub : mem.
Hint Extern 1 (moves _ _ (SendOp_canSend _)) => apply moves_canSend; [held | sub] : mem.

Lemma moves_ids a :
  moves [(a, Type_Subscribe)] [(a, Type_Subscribe)] (SubscribeOp_allocPacketId a) ∧
  moves [(a, Type_Unsubscribe)] [(a, Type_Unsubscribe)] (UnsubscribeOp_allocPacketId a) ∧
  moves [(a, Type_Send)] [(a, Type_Send)] (SendOp_allocPacketId a).
Proof.
  split_and!; (apply moves_allocPacketId;
    [by left | first [apply keeps_SubscribeOp_allocPacketId | apply keeps_UnsubscribeOp_allocPacketId
      | apply keeps_SendOp_allocPacketId] | by intros ? []]).
Qed.

Lemma moves_refresh a :
  moves [(a, Type_Send)] [(a, Type_Send)]
    (modify_op a (λ o, so_set_pubMsg (publish_doRefresh (so_pubMsg o)) o)).
Proof.
  apply (moves_modify_op (T := SendOp)); [by left | done | apply keeps_SendOp_refresh | done].
Qed.

Lemma pkeeps_ids a :
  pkeeps (SubscribeOp_allocPacketId a) ∧ pkeeps (UnsubscribeOp_allocPacketId a) ∧
  pkeeps (SendOp_allocPacketId a).
Proof.
  unfold SubscribeOp_allocPacketId, UnsubscribeOp_allocPacketId, SendOp_allocPacketId.
  split_and!; pkeeps_auto.
Qed.

Hint Extern 1 (moves _ _ (SendOp_allocPacketId _)) => apply moves_ids : mem.

Ltac before_step T a :=
  eapply (wp_before [(a, T)] [(a, T)]);
    [eassumption | eassumption
    | first [apply moves_ids | apply moves_refresh | by moves_auto]
    | repeat first [apply pkeeps_ids | apply pkeeps_allowNextPrepare | apply pkeeps_sendMessage
        | apply pkeeps_canSend | apply pkeeps_get_op | apply pkeeps_modify_op | keeps_step]
    | intros ? ? ? ?; cbv beta zeta].

(** The steps of [send] in turn, the branches that give up, and the guard. *)
Ltac guarded_send T a :=
  repeat lazymatch goal with
  | |- wp _ (if ?b then _ else _) _ _ =>
      destruct b eqn:?; [eapply wp_ending; [eassumption | by moves_auto]|]
  | |- wp _ (_ ≫= _) _ _ => apply wp_bind; before_step T a
  end.

Lemma wp_ConnectOp_send a cb s :
  Good [(a, Type_Connect)] s → in_time s →
  wp safe_fault (ConnectOp_send a cb) (λ _ s', Good [] s') s.
Proof.
  intros Hs Ht. unfold ConnectOp_send, ConnectOp_modifyMsg. guarded_send Type_Connect a.
  eapply wp_guarded_end; [eassumption..|]. unfold ConnectOp_restartTimer. moves_auto.
Qed.

Lemma wp_SubscribeOp_send a cb s :
  Good [(a, Type_Subscribe)] s → in_time s →
  wp safe_fault (SubscribeOp_send a cb) (λ _ s', Good [] s') s.
Proof.
  intros Hs Ht. unfold SubscribeOp_send. guarded_send Type_Subscribe a.
  eapply wp_guarded_end; [eassumption..|]. unfold SubscribeOp_restartTimer. moves_auto.
Qed.

Lemma wp_UnsubscribeOp_send a cb s :
  Good [(a, Type_Unsubscribe)] s → in_time s →
  wp safe_fault (UnsubscribeOp_send a cb) (λ _ s', Good [] s') s.
Proof.
  intros Hs Ht. unfold UnsubscribeOp_send. guarded_send Type_Unsubscribe a.
  eapply wp_guarded_end; [eassumption..|]. unfold UnsubscribeOp_restartTimer. moves_auto.
Qed.

Lemma wp_DisconnectOp_send a s :
  Good [(a, Type_Disconnect)] s → in_time s →
  wp safe_fault (DisconnectOp_send a) (λ _ s', Good [] s') s.
Proof.
  intros Hs Ht. unfold DisconnectOp_send, brokerDisconnected_default.
  guarded_send Type_Disconnect a. eapply wp_guarded_end; [eassumption..|]. moves_auto.
Qed.

(** The body of the guard in [SendOp::send]: the publish is held if it failed. *)
Lemma wp_doSendInternal a s :
  Good [(a, Type_Send)] s →
  wp safe_fault (SendOp_doSendInternal a) (λ ec s', Good
    (if bool_decide (ec = ErrorCode_Success) then [] else [(a, Type_Send)]) s') s.
Proof.
  intros Hs. eapply wp_mono; [apply (wp_doSendInternal_with resumeSendOpsSince [])|].
  - apply keeps_resumeSendOpsSince.
  - intros idx. apply moves_resumeSendOpsSince. by intros b ?%not_elem_of_nil.
  - by apply not_elem_of_nil.
  - done.
  - intros ec s' (Hs' & Hfail & _). case_bool_decide; [done | by apply Hfail].
Qed.

Lemma wp_SendOp_send a cb s :
  Good [(a, Type_Send)] s → in_time s →
  wp safe_fault (SendOp_send a cb) (λ _ s', Good [] s') s.
Proof.
  intros Hs Ht. unfold SendOp_send. guarded_send Type_Send a. apply wp_bind.
  eapply wp_mono; [eapply (wp_with_guard_mem [(a, Type_Send)]); [eassumption..|]|].
  { intros s1 _ ?. by apply wp_doSendInternal. }
  intros ec s2 Hs2. simpl in Hs2. case_bool_decide.
  - by apply wp_bind, wp_ret, wp_ret.
  - eapply wp_ending; [exact Hs2|]. simpl. moves_auto.
Qed.

(** ** Preparations *)

Lemma wp_finish_mem T s :
  Good [] s → (is_single T = true → ops_of T s = []) →
  wp safe_fault (finish_prepare T) (λ _ s', Good [] s') s.
Proof.
  intros Hs Hone. destruct grows_preorder. unfold finish_prepare, refuse. apply wp_bind.
  eapply wp_mono; [by apply wp_alloc_mem, Hs|]. intros [a|] s1; simpl; [|intros ->; by apply wp_ret].
  intros [Hc Hg]. apply wp_bind, wp_modify. apply wp_bind.
  eapply wp_mono; [eapply wp_push_mem; [by apply constructed_lock | done]|].
  intros [] s2 (Hi & Hg' & _). apply wp_ret. apply (Good_grows [] s); [|done|done].
  etrans; [exact Hg|]. exact Hg'.
Qed.

(** The guards of the preparations read a single state. *)
Lemma wp_refusals (b : bool) (m : M ClientImpl Prepared) ec s :
  Good [] s → (b = false → wp safe_fault m (λ _ s', Good [] s') s) →
  wp safe_fault (if b then refuse ec else m) (λ _ s', Good [] s') s.
Proof. intros Hs Hm. destruct b; [by apply wp_ret | by apply Hm]. Qed.

Lemma wp_connectPrepare s :
  Good [] s → in_time s → wp safe_fault connectPrepare (λ _ s', Good [] s') s.
Proof.
  intros Hs Ht. unfold connectPrepare, ops_full.
  apply wp_bind. eapply (wp_before [] []); [done | done | |apply pkeeps_on_clientState|].
  { by apply moves_clientState_modify. }
  intros _ s1 Hs1 Ht1. apply wp_bind. eapply (wp_mono _ _ (λ _ s', Good [] s')).
  - unfold connectPrepare_init. apply wp_bind, wp_gets. unfold compose.
    destruct (m_initialized _); [by apply wp_ret|]. apply wp_bind, wp_gets.
    destruct (_ <? _)%Z; [by apply wp_ret|]. apply (wp_guarded []); [done | done|].
    apply (moves_bind _ []); [by apply moves_gets|]. intros cbs.
    destruct (_ || _); [by apply moves_ret|]. destruct (_ && _); [by apply moves_ret|].
    apply (moves_bind _ []); [apply moves_terminateOps|]. intros _. moves_auto.
  - intros ec s2 Hs2. destruct (negb _); [by apply wp_ret|].
    apply wp_bind, wp_gets. apply wp_bind, wp_gets.
    case_bool_decide as Hl; [|by apply wp_ret]. simpl.
    do 4 (apply wp_refusals; [done | intros _]). by apply wp_finish_mem.
Qed.

Lemma wp_disconnectPrepare s :
  Good [] s → wp safe_fault disconnectPrepare (λ _ s', Good [] s') s.
Proof.
  intros Hs. unfold disconnectPrepare, ops_full. apply wp_bind, wp_gets. apply wp_bind, wp_gets.
  apply wp_refusals; [done | intros _]. case_bool_decide as Hl; [|by apply wp_ret]. simpl.
  do 4 (apply wp_refusals; [done | intros _]). by apply wp_finish_mem.
Qed.

Lemma wp_subscribePrepare_of T s :
  is_single T = false → Good [] s →
  wp safe_fault (subscribePrepare_of T) (λ _ s', Good [] s') s.
Proof.
  intros HT Hs. unfold subscribePrepare_of, ops_full. apply wp_bind, wp_gets. apply wp_bind, wp_gets.
  do 5 (apply wp_refusals; [done | intros _]). apply wp_finish_mem; [done | congruence].
Qed.

Lemma wp_publishPrepare s :
  Good [] s → wp safe_fault publishPrepare (λ _ s', Good [] s') s.
Proof.
  intros Hs. destruct grows_preorder. unfold publishPrepare, ops_full.
  apply wp_bind, wp_gets. apply wp_bind, wp_gets.
  do 4 (apply wp_refusals; [done | intros _]). apply wp_bind.
  eapply wp_mono; [by apply wp_alloc_mem, Hs|]. intros [a|] s1; simpl; [|intros ->; by apply wp_ret].
  intros [Hc Hg]. destruct (m_preparationLocked s).
  - apply wp_bind. eapply wp_mono; [eapply (wp_and _ any_fault);
      [apply (wp_Op_destroy safe_fault); [by left | apply Hc] | by apply framed_destroy]|].
    intros [] s2 [(Hi & _) [_ Hby]]. apply wp_ret. split; [done | by intros ? ? ?%elem_of_nil|].
    simpl in Hby. injection Hby. intros _ _ _ _ _ _ _ _ _ _ Ecb. destruct Hg as (_ & Ecb' & _).
    unfold callbacks_ready. rewrite Ecb, Ecb'. apply Hs.
  - apply wp_bind, wp_modify. apply wp_bind.
    eapply wp_mono; [eapply wp_push_mem; [by apply constructed_lock | done]|].
    intros [] s2 (Hi & Hg' & _). apply wp_ret. apply (Good_grows [] s); [|done|done].
    etrans; [exact Hg|]. exact Hg'.
Qed.

(** ** The other functions on handles *)

Lemma moves_configs a :
  (∀ c, moves [(a, Type_Connect)] [] (ConnectOp_config a c)) ∧
  (∀ c, moves [(a, Type_Connect)] [] (ConnectOp_configWill a c)) ∧
  (∀ c, moves [(a, Type_Subscribe)] [] (SubscribeOp_configTopic a c)) ∧
  (∀ c, moves [(a, Type_Unsubscribe)] [] (UnsubscribeOp_configTopic a c)) ∧
  (∀ c, moves [(a, Type_Send)] [] (SendOp_config a c)) ∧
  (∀ n, moves [(a, Type_Send)] [] (SendOp_setResendAttempts a n)).
Proof.
  split_and!; intros c; unfold ConnectOp_config, ConnectOp_configWill, ConnectOp_modifyMsg,
    SubscribeOp_configTopic, UnsubscribeOp_configTopic, SendOp_config, SendOp_setResendAttempts;
    moves_auto.
Qed.

Lemma moves_cancels a :
  moves [(a, Type_Connect)] [] (ConnectOp_cancel a) ∧
  moves [(a, Type_Disconnect)] [] (DisconnectOp_cancel a) ∧
  moves [(a, Type_Subscribe)] [] (SubscribeOp_cancel a) ∧
  moves [(a, Type_Unsubscribe)] [] (UnsubscribeOp_cancel a) ∧
  moves [(a, Type_Send)] [] (SendOp_cancel a).
Proof.
  split_and!; unfold ConnectOp_cancel, DisconnectOp_cancel, SubscribeOp_cancel,
    UnsubscribeOp_cancel, SendOp_cancel; moves_auto.
Qed.

Lemma moves_setters :
  (∀ ms, moves [] [] (client_set_default_response_timeout ms)) ∧
  (∀ b, moves [] [] (client_set_verify_outgoing_topic_enabled b)) ∧
  (∀ b, moves [] [] (client_set_verify_incoming_topic_enabled b)) ∧
  (∀ b, moves [] [] (client_set_verify_incoming_msg_subscribed b)) ∧
  (∀ o, moves [] [] (setPublishOrdering o)).
Proof.
  split_and!; intros x; unfold client_set_default_response_timeout,
    client_set_verify_outgoing_topic_enabled, client_set_verify_incoming_topic_enabled,
    client_set_verify_incoming_msg_subscribed, setPublishOrdering; moves_auto.
Qed.

Lemma wp_setResponseTimeout a ms s :
  Good [] s → is_Some (g_store s !! a) →
  wp safe_fault (Op_setResponseTimeout a ms) (λ _ s', Good [] s') s.
Proof.
  intros Hs [o Ho]. eapply wp_mono; [eapply (wp_and _ any_fault);
    [|by apply keeps_Op_setResponseTimeout, Hs]|].
  - apply wp_bind. eapply wp_get_base_live; [done|].
    instantiate (1 := λ _ s', m_callbacks s' = m_callbacks s). by apply wp_modify.
  - intros [] s' [Ecb [Hi _]]. split; [done | by intros ? ? ?%elem_of_nil|].
    unfold callbacks_ready. rewrite Ecb. apply Hs.
Qed.

Lemma wp_set_client_callbacks cbs s :
  Good [] s → wp safe_fault (set_client_callbacks cbs) (λ _ s', Good [] s') s.
Proof.
  intros Hs. destruct keeps_setters as (_ & _ & _ & _ & _ & Hk).
  eapply wp_mono; [eapply (wp_and _ any_fault); [|by apply Hk, Hs]|].
  - apply wp_modify. instantiate (1 := λ _ s', callbacks_ready s').
    destruct (gd_cbs _ _ Hs) as (E1 & E2 & E3). unfold callbacks_ready. simpl.
    by rewrite E1, E2, E3.
  - intros [] s' [Hc [Hi _]]. by split; [| intros ? ? ?%elem_of_nil|].
Qed.

Lemma wp_ClientImpl_tick ms s :
  Good [] s → tick_ok ms s = true →
  wp safe_fault (ClientImpl_tick ms) (λ _ s', Good [] s') s.
Proof.
  intros [Hi Hp Hc] He. unfold ClientImpl_tick. apply wp_bind, wp_gets.
  apply wp_bind, wp_comms_assert; [by left|]. apply wp_bind, wp_modify. apply wp_bind.
  eapply wp_mono; [apply wp_tick_mem; [|done]|].
  - split; [apply Inv_set_api; [apply u32_range | done] | done | done].
  - intros [] s1 Hs1. by apply wp_doApiExit_mem.
Qed.

Lemma wp_notifyNetworkDisconnected s :
  Good [] s → in_time s → wp safe_fault notifyNetworkDisconnected (λ _ s', Good [] s') s.
Proof.
  intros Hs Ht. apply (wp_guarded []); [done | done|]. unfold brokerDisconnected_default.
  moves_auto.
Qed.

(** ** Requests *)

(** The handle that a request passes, with its type. *)
Definition handle_of (r : Request) : option (addr * OpType) :=
  match r with
  | RqConnectConfig op _ | RqConnectConfigWill op _ | RqConnectSend op _ | RqConnectCancel op =>
      Some (op, Type_Connect)
  | RqDisconnectSend op | RqDisconnectCancel op => Some (op, Type_Disconnect)
  | RqSubscribeConfigTopic op _ | RqSubscribeSend op _ | RqSubscribeCancel op =>
      Some (op, Type_Subscribe)
  | RqUnsubscribeConfigTopic op _ | RqUnsubscribeSend op _ | RqUnsubscribeCancel op =>
      Some (op, Type_Unsubscribe)
  | RqPublishConfig op _ | RqPublishSetResendAttempts op _ | RqPublishSend op _
  | RqPublishCancel op => Some (op, Type_Send)
  | _ => None
  end.

(** The handle is that of a live operation of its type. *)
Definition handle_ok (r : Request) (s : ClientImpl) : bool :=
  match r, handle_of r with
  | RqSetResponseTimeout op _, _ => bool_decide (is_Some (g_store s !! op))
  | _, Some (op, T) => bool_decide (Op_type <$> g_store s !! op = Some T)
  | _, None => true
  end.

(** The requests that enter the guard, whose tick has to find no expired timer. *)
Definition enters_guard (r : Request) : bool :=
  match r with
  | RqProcessData _ | RqNotifyNetworkDisconnected | RqConnectPrepare | RqConnectSend _ _
  | RqDisconnectSend _ | RqSubscribeSend _ _ | RqUnsubscribeSend _ _ | RqPublishSend _ _ => true
  | _ => false
  end.

(** The messages are in order in the states that follow the entry into the guard. *)
Definition data_ok (buf : bytes) (s : ClientImpl) : bool :=
  match doApiEnter s with
  | Ok _ s1 => m_networkDisconnected (m_clientState s1) || stream_ok (ps_messages (parse buf)) s1
  | Fault _ => true
  end.

(** What an application and a broker do that keep to the rules: live handles, ticks
    in time, timers that may expire together ([tick_ok]), connections that the
    exchanges in flight survive ([link_ok]) and acknowledgements of publishes that
    have gone out ([ack_known]). *)
Definition admissible (r : Request) (s : ClientImpl) : Prop :=
  handle_ok r s = true ∧ (enters_guard r = true → in_time s) ∧
  match r with
  | RqTick ms => tick_ok ms s = true
  | RqProcessData buf => data_ok buf s = true
  | _ => True
  end.

Lemma wp_processData buf s :
  Good [] s → in_time s → data_ok buf s = true →
  wp safe_fault (processData buf) (λ _ s', Good [] s') s.
Proof.
  intros Hs Ht Hok. unfold wp. rewrite processData_eq.
  apply (wp_with_guard_mem [] (λ _, [])); [done | done|]. intros s1 He Hs1.
  apply wp_processData_body; [done|]. unfold data_ok in Hok. rewrite He in Hok.
  intros Hn. by rewrite Hn in Hok.
Qed.

Lemma handle_pinned r s a T :
  Good [] s → handle_ok r s = true → handle_of r = Some (a, T) → Good [(a, T)] s.
Proof.
  intros [Hi Hp Hc] Hok Hh. assert (Op_type <$> g_store s !! a = Some T) as Ha.
  { destruct r; simplify_eq/=; by apply bool_decide_eq_true in Hok. }
  apply fmap_Some in Ha as (o & Ho & ->). split; [done | by eapply pinned_cons | done].
Qed.

Lemma wp_ignore {A} (m : M ClientImpl A) s :
  wp safe_fault m (λ _ s', Good [] s') s → wp safe_fault (ignore m) (λ _ s', Good [] s') s.
Proof.
  intros Hm. apply wp_bind. eapply wp_mono; [exact Hm|]. intros x s' Hs'. by apply wp_ret.
Qed.

Lemma wp_run_request r s :
  Good [] s → admissible r s → wp safe_fault (run_request r) (λ _ s', Good [] s') s.
Proof.
  intros Hs (Hh & Ht & Hr).
  pose proof (λ a T, handle_pinned r s a T Hs Hh) as Hpin.
  destruct moves_setters as (? & ? & ? & ? & ?).
  destruct r; simpl in Ht, Hpin |- *; try apply wp_ignore;
    try (specialize (Hpin _ _ eq_refl)); try (specialize (Ht eq_refl)).
  all: try (eapply wp_ending; [exact Hs | solve [auto]]).
  all: try (eapply wp_ending; [exact Hpin | first [apply moves_configs | apply moves_cancels]]).
  - by apply wp_set_client_callbacks.
  - by apply wp_ClientImpl_tick.
  - by apply wp_processData.
  - by apply wp_notifyNetworkDisconnected.
  - apply wp_setResponseTimeout; [done|]. by apply bool_decide_eq_true in Hh.
  - by apply wp_connectPrepare.
  - by apply wp_ConnectOp_send.
  - by apply wp_disconnectPrepare.
  - by apply wp_DisconnectOp_send.
  - by apply wp_subscribePrepare_of.
  - by apply wp_SubscribeOp_send.
  - by apply wp_subscribePrepare_of.
  - by apply wp_UnsubscribeOp_send.
  - by apply wp_publishPrepare.
  - by apply wp_SendOp_send.
  - unfold ClientImpl_destroy. apply wp_bind, wp_gets. apply wp_bind, wp_comms_assert; [by left|].
    eapply wp_ending; [exact Hs | apply moves_terminateOps].
Qed.

(** Every request is admissible in the state in which it is made. *)
Fixpoint admissible_run (rs : list Request) (s : ClientImpl) : Prop :=
  match rs with
  | [] => True
  | r :: rs' =>
      admissible r s ∧
      match run_request r s with Ok _ s' => admissible_run rs' s' | Fault _ => True end
  end.

(** The faults that are left: a failed assertion of a build with assertions, and an
    operation more than a static vector of the configuration can hold. *)
Definition no_access_fault (f : fault) : Prop := f = FAssert ∨ f = FCapacity.

Lemma wp_run_requests rs s :
  Good [] s → vectors_ok s → admissible_run rs s →
  wp no_access_fault (run_requests rs) (λ _ s', Good [] s') s.
Proof.
  unfold run_requests. revert s. induction rs as [|r rs IH]; intros s Hs Hv; simpl;
    [intros _; by apply wp_ret|]. intros [Hr Hrest].
  pose proof (wp_run_request r s Hs Hr) as Hsafe.
  pose proof (run_request_returns app_quiet r s Hv) as Hret.
  unfold wp, mbind, M_bind in *. destruct (run_request r s) as [[] s1|f].
  - apply IH; [done | apply Hret | done].
  - destruct Hsafe as [|[|]]; [by left | by right | done].
Qed.

(** What the states that requests lead to satisfy. *)
Lemma run_requests_reach rs s :
  run_requests rs ClientImpl_new = Ok tt s → Inv s ∧ vectors_ok s.
Proof.
  intros Hrs. split.
  - assert (keeps (run_requests rs)) as Hk by (apply keeps_mapM_; intros; apply keeps_run_request).
    specialize (Hk _ Inv_new). unfold wp in Hk. rewrite Hrs in Hk. apply Hk.
  - assert (keeps (Contract0 := vectors_contract not_fuel) (run_requests rs)) as Hk.
    { apply keeps_mapM_. intros r. apply run_request_returns, app_quiet. }
    specialize (Hk _ vectors_ok_new). unfold wp in Hk. rewrite Hrs in Hk. apply Hk.
Qed.

(** C3: for an application that does not call the client from its
    callbacks, from any state that any requests lead to and in which the required
    callbacks are set, admissible requests never use a destroyed operation, a null
    pointer, an element past the end of a vector or an invalidated iterator, and
    exceed no bound: they return, in a state of the invariant, unless an assertion
    fails or a static vector is full.  Admissible are requests on live handles of
    their type, from an application that ticks in time, and ticks in which what one
    expired timer destroys is not the data of a later one; a broker may acknowledge
    out of order any publish that has gone out, may resume a session whose publishes
    have attempts left, and may drop a session in which no publish is paused. *)
Theorem admissible_runs_memory_safe rs0 rs s :
  run_requests rs0 ClientImpl_new = Ok tt s → callbacks_ready s → admissible_run rs s →
  match run_requests rs s with
  | Ok _ s' => Inv s' ∧ callbacks_ready s'
  | Fault f => f = FAssert ∨ f = FCapacity
  end.
Proof.
  intros Hrs0 Hc Hrs. destruct (run_requests_reach rs0 s Hrs0) as [Hi Hv].
  assert (Good [] s) as Hs by (split; [done | by intros ? ? ?%elem_of_nil | done]).
  pose proof (wp_run_requests rs s Hs Hv Hrs) as Hw. unfold wp in Hw.
  destruct (run_requests rs s) as [[] s'|f]; [|exact Hw]. by destruct Hw.
Qed.

End api.

(** ** Witness *)

(** For the application of the examples, which reports 10 ms, time can be decided. *)
Definition in_time10 (s : ClientImpl) : bool :=
  bool_decide (expired 10 s = []) &&
  ((ses_keepAliveMs (m_sessionState s) =? 0) || (10 <? ses_keepAliveMs (m_sessionState s)))%Z.

Section decided.
  Context (C : Config).

Definition admissible10 (r : Request) (s : ClientImpl) : bool :=
  handle_ok r s && (negb (enters_guard r) || in_time10 s) &&
  match r with
  | RqTick ms => tick_ok ms s
  | RqProcessData buf => data_ok (H := C) (H0 := ExampleComms) (H2 := QuietApp) buf s
  | _ => true
  end.

Fixpoint admissible_run10 (rs : list Request) (s : ClientImpl) : bool :=
  match rs with
  | [] => true
  | r :: rs' =>
      admissible10 r s &&
      match run_request (H := C) (H0 := ExampleComms) (H1 := QuietApp) r s with
      | Ok _ s' => admissible_run10 rs' s'
      | Fault _ => true
      end
  end.

Lemma admissible10_spec r s :
  admissible10 r s = true → admissible (H := C) (H0 := ExampleComms) (H2 := QuietApp) r s.
Proof.
  unfold admissible10. intros [[Hh Ht]%andb_true_iff Hr]%andb_true_iff.
  split; [exact Hh|]. split.
  - intros Hg. rewrite Hg in Ht. apply andb_true_iff in Ht as [He Hk].
    apply bool_decide_eq_true in He. intros _ tr _.
    change (u32 (app_elapsed (App := QuietApp) tr)) with 10%Z. split; [done|].
    apply orb_true_iff in Hk as [Hk|Hk]; [left | right]; lia.
  - by destruct r.
Qed.

Lemma admissible_run10_spec rs s :
  admissible_run10 rs s = true →
  admissible_run (H := C) (H0 := ExampleComms) (H2 := QuietApp) rs s.
Proof.
  revert s. induction rs as [|r rs IH]; intros s; [done|]. simpl.
  intros [Hr Hrest]%andb_true_iff. split; [by apply admissible10_spec|].
  destruct (run_request _ _) as [[] s'|]; [by apply IH | done].
Qed.
End decided.

(** A publish with attempts to spare. *)
Definition rq_publish_patiently (op : addr) (qos : Z) : list Request :=
  [RqPublishPrepare; RqPublishConfig op (publish_config qos); RqPublishSetResendAttempts op 9;
   RqPublishSend op (Some op)].

(** Paused publishes are resumed by the completion of the one before them, a filter
    is confirmed, a publish of QoS 2 is received, a publish is resent and times out and
    the keep alive gives up the connection; the session is resumed, the second of two
    publishes is acknowledged first, both are resent in one tick and after the next
    connection, a connection without a session terminates them, and the client is
    freed. *)
Definition admissible_requests : list Request :=
  rq_connect 1 connect_config ++ [rq_connack false] ++
  rq_publish 3 2 ++ rq_publish 4 0 ++ rq_publish 5 1 ++
  [RqProcessData [x50; x02; x00; x01]%byte; RqProcessData [x70; x02; x00; x01]%byte;
   RqSubscribePrepare; RqSubscribeConfigTopic 6 (sub_config "t"); RqSubscribeSend 6 (Some 6);
   RqProcessData [x90; x03; x00; x03; x00;
                  x34; x05; x00; x01; x74; x00; x07; x62; x02; x00; x07]%byte;
   RqTick 2000; RqTick 2000; RqTick 60000; RqTick 2000] ++
  rq_connect 8 reconnect_config ++ [rq_connack true] ++
  rq_publish_patiently 10 1 ++ rq_publish_patiently 11 1 ++
  [RqProcessData [x40; x02; x00; x05]%byte; RqTick 2000; RqNotifyNetworkDisconnected] ++
  rq_connect 12 reconnect_config ++ [rq_connack true; RqTick 2000; RqNotifyNetworkDisconnected] ++
  rq_connect 14 reconnect_config ++ [rq_connack false; RqFree].

Definition ready_state : ClientImpl :=
  state_of DefaultConfig (run_new DefaultConfig
    [RqSetCallbacks Callbacks_all; RqSetPublishOrdering PublishOrdering_Full]).

Definition admissible_end : result ClientImpl unit :=
  run_requests (H := DefaultConfig) (H0 := ExampleComms) (H1 := QuietApp) admissible_requests
    ready_state.

Example admissible_runs_memory_safe_witness :
  admissible_run10 DefaultConfig admissible_requests ready_state = true ∧
  fault_of admissible_end = None ∧
  match admissible_end with
  | Ok _ s' => Inv (H := DefaultConfig) s' ∧ callbacks_ready s'
  | Fault f => f = FAssert ∨ f = FCapacity
  end.
Proof.
  split; [vm_compute; reflexivity|]. split; [vm_compute; reflexivity|].
  apply (admissible_runs_memory_safe (H := DefaultConfig) (H0 := ExampleComms)
    (H1 := ExampleComms_laws) (H2 := QuietApp) (Hquiet := λ e s, eq_refl)
    [RqSetCallbacks Callbacks_all; RqSetPublishOrdering PublishOrdering_Full]).
  - vm_compute. reflexivity.
  - by vm_compute.
  - apply admissible_run10_spec. vm_compute. reflexivity.
Defined.
