(* ===== verification/Liveness.v ===== *)
(** * An operation whose time has come is completed

    [ClientImpl::tick] (client/lib/src/ClientImpl.cpp) of an application that does
    not call the client from its callbacks: the tick returns, and a connect,
    subscribe or unsubscribe operation whose timer has expired is gone, its
    callback called with the status of a timeout; a reception that has waited for its
    PUBREL too long is gone. *)

From S2P Require Import Prelude SortedVec Config Protocol Topic PacketId TimerMgr State.
From S2P Require Import Lifecycle Completion Session SendOp RecvOp SubscribeOp ConnectOp.
From S2P Require Import Client Invariant Objects Termination Frame Ownership Preservation.
From S2P Require Import Scenarios Requests Safety Disconnect Memory Survival Timeouts Reconnection Reception MemoryApi.

(** ** What the timeouts leave alone *)

(** Operations other than publishes are destroyed or stay as they are. *)
Definition untouched (s s' : ClientImpl) : Prop :=
  ∀ a o, g_store s' !! a = Some o → Op_type o ≠ Type_Send → g_store s !! a = Some o.

Lemma untouched_preorder : PreOrder untouched.
Proof. split; [by intros s a o | intros s1 s2 s3 H12 H23 a o Ha Ho; auto]. Qed.

(** Nothing is allocated, and assertions fail only in a build that has them. *)
Definition assertion_fault `{Config} (f : fault) : Prop :=
  f ≠ FCapacity ∧ (f = FAssert → Asserts = true).

Definition timeout_contract `{Config} : Contract ClientImpl := {|
  ct_inv := λ _, True;
  ct_rel := untouched;
  ct_faults := assertion_fault;
  ct_pre := untouched_preorder;
|}.

Abbreviation okeeps := (keeps (Contract0 := timeout_contract)).

Create HintDb live.

Section untouched.
  Context `{Config} `{CommsLib} `{App} {Hquiet : Quiet}.

Lemma keeps_assertion {S} `{!Contract S} b :
  (Asserts = true → ct_faults FAssert) → keeps (comms_assert (S := S) b).
Proof.
  intros HF s Hs. unfold comms_assert, wp. destruct Asserts eqn:HA, b; simpl; auto;
    split; done.
Qed.

Lemma assertion_FAssert : Asserts = true → assertion_fault FAssert.
Proof. by intros HA. Qed.

Lemma okeeps_comms_assert b : okeeps (comms_assert b).
Proof. apply keeps_assertion, assertion_FAssert. Qed.

Lemma okeeps_modify f : (∀ s, g_store (f s) = g_store s) → okeeps (modify f).
Proof. intros Hf. apply keeps_modify. intros s _. split; [done|]. intros a o. by rewrite Hf. Qed.

Lemma okeeps_throw {A} f : assertion_fault f → okeeps (throw (A := A) f).
Proof. intros Hf. by apply keeps_throw. Qed.

Lemma okeeps_zoom {T A} (g : ClientImpl → T) p (m : M T A) :
  (∀ t s, g_store (p t s) = g_store s) →
  keeps (Contract0 := plain_contract T assertion_fault) m → okeeps (zoom g p m).
Proof.
  intros Hp Hm. apply plain_zoom; [done|]. intros t s _. split; [done|]. intros a o.
  by rewrite Hp.
Qed.

Ltac plain_auto := repeat first
  [ apply keeps_assertion, assertion_FAssert | by apply keeps_modify
  | by apply keeps_throw | keeps_step ].

Lemma okeeps_timers :
  (∀ t ms cb d, okeeps (on_timerMgr (timerWait t ms cb d))) ∧
  (∀ t, okeeps (on_timerMgr (timerCancel t))) ∧
  (∀ t, okeeps (on_timerMgr (timerIsActive t))) ∧
  (∀ t b, okeeps (on_timerMgr (Timer_setSuspended t b))) ∧
  (∀ l, okeeps (on_timerMgr (mapM_ Timer_destroy l))) ∧
  (∀ id, okeeps (on_clientState (releasePacketId id))) ∧
  (∀ f, okeeps (on_clientState (modify f))).
Proof.
  split_and!; intros; (apply okeeps_zoom; [done|]); unfold timerWait, timerCancel,
    timerIsActive, Timer_setSuspended, timerSetSuspended, timerIsActive, Timer_destroy,
    freeTimer, releasePacketId; plain_auto.
Qed.

Hint Extern 1 (keeps (modify _)) => apply okeeps_modify; intros; reflexivity : live.
Hint Extern 1 (keeps (throw _)) => apply okeeps_throw; by split : live.
Hint Extern 1 (keeps (on_timerMgr _)) => apply okeeps_timers : live.
Hint Extern 1 (keeps (on_clientState _)) => apply okeeps_timers : live.
Hint Resolve okeeps_comms_assert : live.

Ltac oauto := repeat first [ solve [eauto 2 with live nocore] | keeps_step ].

Lemma okeeps_get_base a : okeeps (get_base a).
Proof. unfold get_base. oauto. Qed.
Hint Resolve okeeps_get_base : live.

Lemma okeeps_get_op {T} `{Subclass T} a : okeeps (get_op (T := T) a).
Proof. unfold get_op. oauto. Qed.
Hint Resolve okeeps_get_op : live.

Lemma okeeps_modify_op a (f : SendOp → SendOp) : okeeps (modify_op a f).
Proof.
  unfold modify_op. apply keeps_bind; [apply okeeps_get_op|]. intros p. apply keeps_modify.
  intros s _. split; [done|]. intros b o. unfold put_derived. simpl. rewrite lookup_alter.
  case_decide; [|done]. intros (x & _ & ->)%fmap_Some HT. by destruct HT.
Qed.
Hint Resolve okeeps_modify_op : live.

Lemma okeeps_callback e : okeeps (callback e).
Proof.
  intros s _. apply wp_quiet_callback; [exact app_quiet|]. split; [done|]. by intros a o.
Qed.
Hint Resolve okeeps_callback : live.

Lemma okeeps_Op_destroy a : okeeps (Op_destroy a).
Proof.
  unfold Op_destroy. oauto. apply keeps_modify. intros s _. split; [done|]. intros b o.
  simpl. rewrite lookup_delete. by case_decide.
Qed.
Hint Resolve okeeps_Op_destroy : live.

Lemma okeeps_erase a T : okeeps (eraseFromList a T).
Proof. unfold eraseFromList, set_ops_of. oauto. Qed.
Hint Resolve okeeps_erase : live.

Lemma okeeps_sendMessage msg : okeeps (sendMessage msg).
Proof.
  unfold sendMessage, must_callback, KeepAliveOp_messageSent, KeepAliveOp_restartPingTimer.
  cbv zeta. oauto.
Qed.
Hint Resolve okeeps_sendMessage : live.

Lemma okeeps_restartResponseTimer a : okeeps (SendOp_restartResponseTimer a).
Proof. unfold SendOp_restartResponseTimer. oauto. Qed.
Hint Resolve okeeps_restartResponseTimer : live.

Lemma okeeps_canSend a : okeeps (SendOp_canSend a).
Proof.
  unfold SendOp_canSend, hasPausedSendsBefore, hasHigherQosSendsBefore. oauto.
  match goal with |- keeps (hasHigherQos_loop ?l _ _) => induction l end; simpl; oauto.
Qed.
Hint Resolve okeeps_canSend : live.

Section with_resume.
  Context (resume : nat → M ClientImpl unit) (Hresume : ∀ idx, okeeps (resume idx)).
Hint Resolve Hresume : live.

Lemma okeeps_completeWithCb_with a st :
  okeeps (opComplete_with resume a) ∧ okeeps (SendOp_completeWithCb_with resume a st).
Proof.
  split; unfold SendOp_completeWithCb_with, opComplete_with, opComplete_Send_with; oauto.
Qed.

Lemma okeeps_resume_with a : okeeps (SendOp_resume_with resume a).
Proof.
  pose proof (λ st, proj2 (okeeps_completeWithCb_with a st)).
  unfold SendOp_resume_with, SendOp_doSendInternal_with. oauto; cbv zeta; oauto.
Qed.
End with_resume.

Lemma okeeps_resumeSendOps_loop fuel idx : okeeps (resumeSendOps_loop fuel idx).
Proof.
  revert idx. induction fuel as [|fuel IH]; intros idx; simpl; [by apply okeeps_throw|].
  oauto. by apply okeeps_resume_with.
Qed.

Lemma okeeps_resumeSendOpsSince idx : okeeps (resumeSendOpsSince idx).
Proof. apply keeps_bind; [apply keeps_gets | intros; apply okeeps_resumeSendOps_loop]. Qed.

Lemma okeeps_opComplete a : okeeps (opComplete a).
Proof.
  apply (okeeps_completeWithCb_with _ okeeps_resumeSendOpsSince a AsyncOpStatus_Complete).
Qed.

Lemma okeeps_completeWithCb a st : okeeps (SendOp_completeWithCb a st).
Proof. apply (okeeps_completeWithCb_with _ okeeps_resumeSendOpsSince). Qed.
Hint Resolve okeeps_opComplete okeeps_completeWithCb : live.

Lemma okeeps_range_for {A} vec ch (body : A → M ClientImpl unit) :
  (∀ x, okeeps (body x)) → okeeps (range_for vec ch body).
Proof. intros Hb. unfold range_for. oauto. Qed.

Lemma okeeps_run_TimeoutCb p : okeeps (run_TimeoutCb p).
Proof.
  assert (∀ r st, okeeps (brokerDisconnected r st)) as Hdisc.
  { intros r st. unfold brokerDisconnected, set_session, terminateOps, must_callback.
    oauto; apply okeeps_range_for; intros x; unfold Op_terminateOp, Op_connectivityChanged,
      ConnectOp_completeOpInternal, SubscribeOp_completeOpInternal,
      UnsubscribeOp_completeOpInternal, ConnectOp_connectivityChangedImpl,
      RecvOp_connectivityChangedImpl, SendOp_connectivityChangedImpl,
      ConnectOp_completeOpInternal; oauto. }
  destruct p as [[] a]; simpl; unfold KeepAliveOp_sendPing, KeepAliveOp_pingTimeoutInternal,
    ConnectOp_completeOpInternal, SubscribeOp_completeOpInternal,
    UnsubscribeOp_completeOpInternal, RecvOp_responseTimeoutInternal,
    SendOp_responseTimeoutInternal, SendOp_resendDupMsg; oauto.
Qed.

Lemma okeeps_ClientImpl_tick ms : okeeps (ClientImpl_tick ms).
Proof.
  pose proof okeeps_run_TimeoutCb. unfold ClientImpl_tick, TimerMgr_tick, doApiExit, cleanOps.
  assert (okeeps (on_timerMgr (tick_collect ms))).
  { intros s _. apply wp_zoom. unfold wp. rewrite tick_collect_eq.
    split; [done | by intros b o]. }
  oauto.
Qed.

End untouched.

(** ** The operations that a timeout completes *)

Section live.
  Context `{Config} `{CommsLib} `{!CommsLaws} `{App} {Hquiet : Quiet}.

(** The timeout functions that complete their operation. *)
Definition completes (cb : TimeoutCb) : bool :=
  match cb with
  | ConnectOp_opTimeoutCb | SubscribeOp_opTimeoutCb | UnsubscribeOp_opTimeoutCb => true
  | RecvOp_recvTimeoutCb => 2 <=? MaxQos
  | _ => false
  end.

(** The operation at [a] is gone, and its callback [e] called after the events [tr]. *)
Definition gone_with (tr : list Event) (a : addr) (e : option Event) (s : ClientImpl) : Prop :=
  shapes s !! a = None ∧ ∃ evs, g_trace s = tr ++ evs ∧ ∀ ev, e = Some ev → ev ∈ evs.

Definition timed_out (tr : list Event) (a : addr) (o : Op) : ClientImpl → Prop :=
  gone_with tr a (termination_event AsyncOpStatus_Timeout a o).

Lemma gone_with_evolves tr a e s s' :
  a < g_next s → gone_with tr a e s → evolves s s' → gone_with tr a e s'.
Proof.
  intros Ha (Hn & evs & Etr & He) Hev. split; [by apply (ev_dead _ _ Hev a Ha Hn)|].
  destruct (ev_trace _ _ Hev) as [more Em]. exists (evs ++ more).
  split; [by rewrite Em, Etr, app_assoc|]. intros ev ?%He. set_solver.
Qed.

(** A completion with its report. *)
Lemma wp_complete_gone tr a o (cb : UserCb) (ev : nat → Event) s :
  Inv s → g_store s !! a = Some o → tr `prefix_of` g_trace s →
  wp any_fault (opComplete a ;; match cb with None => mret tt | Some n => callback (ev n) end)
    (λ _ s', gone_with tr a (ev <$> cb) s') s.
Proof.
  intros Hs Ho Htr. apply wp_bind. eapply wp_mono.
  { apply wp_opComplete_with; [apply keeps_resumeSendOpsSince | done]. }
  intros [] s1 (_ & Hevol & Hdead). destruct Hdead as [Hn _].
  { rewrite (shapes_lookup _ _ _ Ho). eauto. }
  assert (tr `prefix_of` g_trace s1) as [evs Etr] by (etrans; [done | apply Hevol]).
  destruct cb as [n|].
  - apply wp_quiet_callback; [exact app_quiet|]. split; [done|]. exists (evs ++ [ev n]).
    split; [simpl; by rewrite Etr, app_assoc|]. intros e [= <-]. set_solver.
  - apply wp_ret. split; [done|]. by exists evs.
Qed.

Lemma wp_complete_timed_out tr a o (cb : UserCb) (ev : nat → Event) s :
  Inv s → g_store s !! a = Some o → tr `prefix_of` g_trace s →
  termination_event AsyncOpStatus_Timeout a o = ev <$> cb →
  wp any_fault (opComplete a ;; match cb with None => mret tt | Some n => callback (ev n) end)
    (λ _ s', timed_out tr a o s') s.
Proof. intros Hs Ho Htr Hev. unfold timed_out. rewrite Hev. by eapply wp_complete_gone. Qed.

Lemma wp_run_completes tr cb a o s :
  Inv s → g_store s !! a = Some o → Op_type o = TimeoutCb_type cb → completes cb = true →
  tr `prefix_of` g_trace s → wp any_fault (run_TimeoutCb (cb, a)) (λ _ s', timed_out tr a o s') s.
Proof.
  intros Hs Ho HT Hcb Htr. destruct o as [t d]. destruct cb; try done; destruct d as [| | | | |r|]; try done;
    cbn [run_TimeoutCb].
  - apply wp_bind. eapply (wp_get_op_live (T := ConnectOp)); [done|].
    by apply (wp_complete_timed_out tr a _ (co_cb _)
      (λ n, EvConnectComplete a n AsyncOpStatus_Timeout None)).
  - apply wp_bind. eapply (wp_get_op_live (T := SubscribeOp)); [done|].
    by apply (wp_complete_timed_out tr a _ (su_cb _)
      (λ n, EvSubscribeComplete a n AsyncOpStatus_Timeout None)).
  - apply wp_bind. eapply (wp_get_op_live (T := UnsubscribeOp)); [done|].
    by apply (wp_complete_timed_out tr a _ (un_cb _)
      (λ n, EvUnsubscribeComplete a n AsyncOpStatus_Timeout)).
  - unfold completes in Hcb. unfold RecvOp_responseTimeoutInternal. rewrite Hcb. cbn [when].
    apply wp_bind. eapply (wp_get_op_live (T := RecvOp)); [done|].
    apply wp_bind, wp_zoom. eapply wp_mono; [by apply wp_timerIsActive|].
    intros active mgr [-> _]. apply wp_bind, wp_comms_assert; [done|].
    assert (set_timerMgr (m_timerMgr s) s = s) as -> by by destruct s.
    pose proof (wp_complete_timed_out tr a (MkOp t (DRecv r)) None
      (λ _, EvNextTickProgram 0) s) as Hc.
    unfold wp, mbind, M_bind in *. destruct (opComplete a s) as [[] s'|]; [|done]. by apply Hc.
Qed.

(** The state before the timeout function of the operation is called. *)
Definition awaited (tr : list Event) (a : addr) (o : Op) (s : ClientImpl) : Prop :=
  Inv s ∧ a < g_next s ∧ tr `prefix_of` g_trace s ∧ ∀ o', g_store s !! a = Some o' → o' = o.

Lemma awaited_step tr a o p s :
  Op_type o ≠ Type_Send → awaited tr a o s →
  wp any_fault (run_TimeoutCb p) (λ _ s', awaited tr a o s') s.
Proof.
  intros HT (Hs & Ha & Htr & Ho). eapply wp_mono.
  { eapply (wp_and _ any_fault); [by apply keeps_run_TimeoutCb|].
    eapply wp_faults; [by apply (okeeps_run_TimeoutCb p s I) | done]. }
  intros [] s' [[Hs' Hev] [_ Hun]]. split; [done|].
  split; [pose proof (ev_next _ _ Hev); lia|]. split; [etrans; [done | apply Hev]|].
  intros o' Ho'. apply Ho. apply (Hun _ _ Ho').
  destruct (g_store s !! a) as [o0|] eqn:E.
  - rewrite (Ho o0 eq_refl) in E. intros HT'. apply HT. rewrite <- HT'.
    apply (ev_same _ _ Hev a _ _ Ha (shapes_lookup _ _ _ E) (shapes_lookup _ _ _ Ho')).
  - destruct (ev_dead _ _ Hev a Ha) as [Hn _].
    + unfold shapes. by rewrite lookup_fmap, E.
    + by rewrite (shapes_lookup _ _ _ Ho') in Hn.
Qed.

Lemma wp_run_all_completes tr cb a o l s :
  awaited tr a o s → Op_type o = TimeoutCb_type cb → completes cb = true → (cb, a) ∈ l →
  wp any_fault (mapM_ run_TimeoutCb l) (λ _ s', Inv s' ∧ a < g_next s' ∧ timed_out tr a o s') s.
Proof.
  intros Haw HT Hcb. revert s Haw. induction l as [|p l IH]; intros s Haw Hin;
    [by apply elem_of_nil in Hin|]. simpl. apply wp_bind.
  assert (Op_type o ≠ Type_Send) as Hns by (rewrite HT; by destruct cb).
  apply elem_of_cons in Hin as [<-|Hin].
  - destruct Haw as (Hs & Ha & Htr & Ho). destruct (g_store s !! a) as [o'|] eqn:E.
    2:{ unfold wp. cbn [run_TimeoutCb].
        destruct cb; try done; unfold completes in Hcb;
          unfold ConnectOp_completeOpInternal, SubscribeOp_completeOpInternal,
            UnsubscribeOp_completeOpInternal, RecvOp_responseTimeoutInternal;
          try rewrite Hcb; unfold get_op, get_base, when, mbind, M_bind, gets; by rewrite E. }
    rewrite (Ho o' eq_refl) in E.
    eapply wp_mono; [eapply (wp_and _ any_fault);
      [by apply (wp_run_completes tr cb a o s) | by apply keeps_run_TimeoutCb]|].
    intros [] s1 [Hout [Hs1 Hev]]. pose proof (ev_next _ _ Hev).
    eapply wp_mono; [apply (keeps_mapM_ run_TimeoutCb l keeps_run_TimeoutCb s1 Hs1)|].
    intros [] s2 [Hs2 Hev2]. pose proof (ev_next _ _ Hev2). split; [done|]. split; [lia|].
    eapply gone_with_evolves; [|done|done]. lia.
  - eapply wp_mono; [by apply awaited_step|]. intros [] s1 Haw1. by apply IH.
Qed.

Lemma wp_tick_completes ms cb a o s :
  Inv s → g_store s !! a = Some o → Op_type o = TimeoutCb_type cb → completes cb = true →
  (cb, a) ∈ expired ms s →
  wp any_fault (ClientImpl_tick ms) (λ _ s', timed_out (g_trace s) a o s') s.
Proof.
  intros Hs Ho HT Hcb Hin. unfold ClientImpl_tick, TimerMgr_tick.
  apply wp_bind, wp_gets. apply wp_bind, wp_comms_assert; [done|]. apply wp_bind, wp_modify.
  set (s1 := set_apiEnterCount _ s). assert (Inv s1) as Hs1 by (apply Inv_set_api; [apply u32_range | done]).
  apply wp_bind, wp_bind. eapply wp_mono; [eapply (wp_and _ any_fault); [|by apply keeps_tick_collect]|].
  { apply wp_zoom. unfold wp. rewrite tick_collect_eq.
    instantiate (1 := λ l s', l = expired ms s ∧ g_store s' = g_store s ∧ g_trace s' = g_trace s ∧
      g_next s' = g_next s). done. }
  intros l s2 [(-> & Est & Etr & En) [Hs2 _]].
  eapply wp_mono; [apply (wp_run_all_completes (g_trace s) cb a o); [|done..]|].
  - split; [done|]. split; [|split; [by rewrite Etr | intros o'; rewrite Est; congruence]].
    rewrite En. apply (di_next _ _ _ (oi_done _ (inv_obj _ Hs))).
    rewrite (shapes_lookup _ _ _ Ho). eauto.
  - intros [] s3 (Hs3 & Ha & Hout). eapply wp_mono; [by apply wp_doApiExit|].
    intros [] s4 (_ & Hsh & _). destruct s4. by apply (gone_with_evolves _ _ _ _ _ Ha Hout Hsh).
Qed.


End live.

(** ** Witness *)

(** A subscribe operation whose SUBACK does not come, and the publish before it. *)
Definition silent_requests : list Request :=
  rq_session ++ rq_publish 3 1 ++
  [RqSubscribePrepare; RqSubscribeConfigTopic 4 (sub_config "t"); RqSubscribeSend 4 (Some 9)].

Definition silent_state : ClientImpl := state_of DefaultConfig (run_new DefaultConfig silent_requests).

Definition silent_tick : result ClientImpl unit :=
  ClientImpl_tick (H := DefaultConfig) (H0 := ExampleComms) (H1 := QuietApp) 2000 silent_state.


(** The callback of the subscribe operation, and the publish that is sent again. *)
Example silent_tick_events :
  match silent_tick with
  | Ok _ s' => drop (length (g_trace silent_state)) (g_trace s')
  | Fault _ => []
  end = [EvSendOutputData (MPublish {| pub_dup := true; pub_qos := 1; pub_retain := false;
           pub_topic := "t"; pub_packetIdExists := true; pub_packetId := 1; pub_payload := [] |}) [];
         EvSubscribeComplete 4 9 AsyncOpStatus_Timeout None; EvNextTickProgram 2000].
Proof. vm_compute. reflexivity. Qed.
