(* ===== verification/Resending.v ===== *)
(** * A publish that is not acknowledged is resent and given up

    [SendOp::responseTimeoutInternal] and [SendOp::resendDupMsg]
    (client/lib/src/op/SendOp.cpp) in the ticks of an application that does not call
    the client from its callbacks: each timeout sends the publish again, or its PUBREL,
    and restarts the timer, until the attempts are used up; then the publish is
    destroyed and its callback called. *)

From S2P Require Import Prelude SortedVec Config Protocol Topic PacketId TimerMgr State.
From S2P Require Import Lifecycle Completion Session SendOp RecvOp SubscribeOp ConnectOp.
From S2P Require Import Client Invariant Objects Termination Frame Ownership Preservation.
From S2P Require Import Scenarios Requests Safety Disconnect Memory Survival Timeouts.
From S2P Require Import Reconnection Reception MemoryApi Liveness.

(** ** One timeout *)

(** The members after a resend. *)
Definition next_attempt (d : SendOp) : SendOp :=
  so_set_sendAttempts (u32 (so_sendAttempts d + 1))
    (if so_acked d then d else so_set_pubMsg (pub_set_dup true (so_pubMsg d)) d).

(** The timer that is running for the publish at [b]. *)
Definition running (b : addr) (ms : Z) (info : TimerInfo TimeoutCb) : TimerInfo TimeoutCb :=
  MkTimerInfo ms (Some SendOp_recvTimeoutCb) b (m_allocated info) (m_suspended info).

Definition given_up (tr : list Event) (b : addr) (d : SendOp) (s : ClientImpl) : Prop :=
  ∃ st, (st = AsyncOpStatus_Timeout ∨ st = AsyncOpStatus_InternalError) ∧
    gone_with tr b ((λ cb, EvPublishComplete b cb st) <$> so_cb d) s.

Section resending.
  Context `{Config} `{CommsLib} `{!CommsLaws} `{App} {Hquiet : Quiet}.
  Context (tr : list Event) (b : addr) (t : Z) (i : nat) (cfg : ConfigState).

(** The publish [d] at [b], whose timer [i] has the state [info]. *)
Record watched (d : SendOp) (info : TimerInfo TimeoutCb) (s : ClientImpl) : Prop := {
  wa_inv : Inv s;
  wa_held : held b (MkOp t (DSend d)) (Some (i, info, cfg)) s;
  wa_trace : tr `prefix_of` g_trace s;
}.

(** It was sent again, and waits for as long as the configuration says. *)
Definition sent_again (d : SendOp) (info : TimerInfo TimeoutCb) (s : ClientImpl) : Prop :=
  (so_sendAttempts d < so_totalSendAttempts d)%Z ∧
  watched (next_attempt d) (running b (cfg_responseTimeoutMs cfg) info) s.

(** A step of the library that leaves the publish alone. *)
Lemma wp_watched {A} d info (m : M ClientImpl A) s :
  keeps m → keeps (Contract0 := held_contract b (MkOp t (DSend d)) (Some (i, info, cfg))) m →
  watched d info s → wp any_fault m (λ _ s', watched d info s') s.
Proof.
  intros Hm Hh [Hi Hs Ht]. eapply wp_mono; [exact (wp_and _ _ _ _ _ _ (Hm s Hi) (Hh s Hs))|].
  intros x s' [[Hi' Hev] [Hs' _]]. split; [done | exact Hs' | etrans; [done | apply Hev]].
Qed.

(** An assignment to a member of the publish. *)
Lemma wp_watched_modify d info (f : SendOp → SendOp) s :
  keeps (modify_op b f) → so_responseTimer (f d) = so_responseTimer d →
  watched d info s → wp any_fault (modify_op b f) (λ _ s', watched (f d) info s') s.
Proof.
  intros Hm Hf [Hi [Hb Hk] Ht].
  eapply wp_mono; [eapply (wp_and any_fault any_fault _ _ (λ _ s',
    held b (MkOp t (DSend (f d))) (Some (i, info, cfg)) s')); [exact (Hm s Hi)|]|].
  - apply wp_bind. eapply (wp_get_op_live _ b t d); [done|]. apply wp_modify.
    destruct Hk as (Hp & Hc & Ho). unfold put_derived. split; simpl.
    + by rewrite lookup_alter_eq, Hb.
    + split; [done|]. split; [done|]. intros c oc. simpl. rewrite lookup_alter.
      case_decide as Hcb; [done | apply Ho].
  - intros [] s' [[Hi' Hev] Hs']. split; [done | exact Hs' | etrans; [done | apply Hev]].
Qed.

(** The publish is given up. *)
Lemma wp_abandon d info st s :
  st = AsyncOpStatus_Timeout ∨ st = AsyncOpStatus_InternalError → watched d info s →
  wp any_fault (SendOp_completeWithCb b st) (λ _ s', given_up tr b d s') s.
Proof.
  intros Hst [Hi [Hb _] Ht]. apply wp_bind. eapply (wp_get_op_live _ b t d); [done|].
  eapply wp_mono; [by eapply (wp_complete_gone tr b _ (so_cb d) (λ cb, EvPublishComplete b cb st))|].
  intros [] s' Hgone. by exists st.
Qed.

(** The timer is restarted. *)
Lemma wp_restart d info s :
  so_responseTimer d = Some i → watched d info s →
  wp any_fault (SendOp_restartResponseTimer b)
    (λ _ s', watched d (running b (cfg_responseTimeoutMs cfg) info) s') s.
Proof.
  intros Htm [Hi [Hb (Hp & Hc & Ho)] Ht].
  assert (keeps (SendOp_restartResponseTimer b)) as Hk
    by (unfold SendOp_restartResponseTimer; keeps_auto).
  eapply wp_mono; [eapply (wp_and any_fault any_fault _ _ (λ _ s', held b (MkOp t (DSend d))
    (Some (i, running b (cfg_responseTimeoutMs cfg) info, cfg)) s'));
    [exact (Hk s Hi)|]|].
  - unfold SendOp_restartResponseTimer. apply wp_bind, wp_gets. unfold compose. rewrite Hc.
    apply wp_bind. eapply (wp_get_op_live _ b t d); [done|]. rewrite Htm. apply wp_zoom.
    unfold timerWait. apply wp_bind, wp_gets. apply wp_bind, wp_comms_assert; [done|].
    assert (timer_at (m_timerMgr s) (Some i) = Some (i, info)) as -> by (simpl; by rewrite Hp).
    apply wp_bind, wp_comms_assert; [done|]. apply wp_modify. split; [done|].
    split; [|by split]. cbn [m_timerMgr set_timerMgr]. rewrite lookup_upd, decide_True by done.
    by rewrite Hp.
  - intros [] s' [[Hi' Hev] Hs']. split; [done | exact Hs' | etrans; [done | apply Hev]].
Qed.

Lemma hkeeps_send d info msg :
  so_paused d = false →
  keeps (Contract0 := held_contract b (MkOp t (DSend d)) (Some (i, info, cfg))) (sendMessage msg).
Proof. intros Hp. by apply hkeeps_sendMessage. Qed.

(** The message goes out, and the attempt is counted. *)
Lemma wp_send_again d d' info msg s :
  so_paused d = false → so_responseTimer d = Some i →
  d' = so_set_sendAttempts (u32 (so_sendAttempts d + 1)) d → watched d info s →
  wp any_fault
    (result ← sendMessage msg;
     if negb (bool_decide (result = ErrorCode_Success)) then
       SendOp_completeWithCb b AsyncOpStatus_InternalError
     else
       modify_op b (λ o, so_set_sendAttempts (u32 (so_sendAttempts o + 1)) o) ;;
       SendOp_restartResponseTimer b)
    (λ _ s', given_up tr b d s' ∨ watched d' (running b (cfg_responseTimeoutMs cfg) info) s') s.
Proof.
  intros Hp Htm -> Hw. apply wp_bind.
  eapply wp_mono; [apply wp_watched; [apply keeps_sendMessage | by apply hkeeps_send | exact Hw]|].
  intros r s1 Hw1. destruct (negb _).
  { eapply wp_mono; [by apply (wp_abandon d info); [right|]|]. intros [] s2 ?. by left. }
  apply wp_bind. eapply wp_mono; [apply wp_watched_modify; [apply keeps_modify_op; by intros [] | done | exact Hw1]|].
  intros [] s2 Hw2.
  eapply wp_mono; [apply (wp_restart (so_set_sendAttempts (u32 (so_sendAttempts d + 1)) d) info);
    [exact Htm | exact Hw2]|].
  intros [] s3 ?. by right.
Qed.

(** The timeout of the publish. *)
Lemma wp_timeout d info s :
  so_paused d = false → so_responseTimer d = Some i → watched d info s →
  wp any_fault (SendOp_responseTimeoutInternal b)
    (λ _ s', given_up tr b d s' ∨ sent_again d info s') s.
Proof.
  intros Hp Htm Hw. pose proof Hw as [_ [Hb _] _].
  unfold SendOp_responseTimeoutInternal, SendOp_resendDupMsg.
  apply wp_bind. eapply (wp_get_op_live _ b t d); [done|]. apply wp_bind.
  eapply wp_mono; [apply (wp_watched d info); [apply keeps_timerIsActive | by apply hkeeps_timerIsActive | done]|].
  intros active s1 Hw1. apply wp_bind, wp_comms_assert; [done|].
  apply wp_bind. pose proof Hw1 as [_ [Hb1 _] _]. eapply (wp_get_op_live _ b t d); [done|].
  destruct (Z.leb_spec (so_totalSendAttempts d) (so_sendAttempts d)) as [|Hlt].
  { eapply wp_mono; [by apply (wp_abandon d info); [left|]|]. intros [] s2 ?. by left. }
  apply wp_bind, wp_comms_assert; [done|].
  unfold sent_again, next_attempt. destruct (so_acked d) eqn:Hack; cbn [negb]; apply wp_bind.
  - apply wp_bind, wp_comms_assert; [done|]. apply wp_ret.
    eapply wp_mono; [apply (wp_send_again d); [exact Hp | exact Htm | reflexivity | exact Hw1]|].
    intros [] s2 [?|?]; [by left | by right].
  - apply wp_bind. set (d1 := so_set_pubMsg (pub_set_dup true (so_pubMsg d)) d).
    eapply wp_mono; [apply (wp_watched_modify d); [apply keeps_modify_op; by intros [] | done | exact Hw1]|].
    intros [] s2 Hw2. pose proof Hw2 as [_ [Hb2 _] _].
    apply wp_bind. eapply (wp_get_op_live _ b t d1); [done|]. apply wp_ret.
    eapply wp_mono; [apply (wp_send_again d1); [exact Hp | exact Htm | reflexivity | exact Hw2]|].
    intros [] s3 [?|?]; [by left | by right].
Qed.

(** ** One tick *)

Definition own_timeout : TimeoutCb * addr := (SendOp_recvTimeoutCb, b).

(** No ping has gone without a response: the connection stays. *)
Definition no_ping_timeout (l : list (TimeoutCb * addr)) : bool :=
  forallb (λ q, negb (bool_decide (q.1 = KeepAliveOp_pingTimeoutCb))) l.

Lemma next_attempt_unpaused d : so_paused d = false → so_paused (next_attempt d) = false.
Proof. unfold next_attempt. by destruct (so_acked d). Qed.

Lemma wp_run_others l d info s :
  so_paused d = false → no_ping_timeout l = true → own_timeout ∉ l → watched d info s →
  wp any_fault (mapM_ run_TimeoutCb l) (λ _ s', watched d info s') s.
Proof.
  intros Hp. revert s. induction l as [|p l IH]; intros s Hping Hown Hw; simpl; [by apply wp_ret|].
  apply andb_true_iff in Hping as [Hpp%negb_true_iff%bool_decide_eq_false Hping].
  apply not_elem_of_cons in Hown as [Hown Hl]. apply wp_bind.
  eapply wp_mono; [apply (wp_watched d info); [apply keeps_run_TimeoutCb | | done]|].
  { apply hkeeps_run_TimeoutCb; [done | done | by intros ->]. }
  intros [] s' Hw'. by apply IH.
Qed.

(** The timeout functions of a tick, one of which is that of the publish. *)
Lemma wp_run_all_own l d info s :
  so_paused d = false → so_responseTimer d = Some i → b < g_next s →
  compatible l = true → no_ping_timeout l = true → own_timeout ∈ l → watched d info s →
  wp any_fault (mapM_ run_TimeoutCb l)
    (λ _ s', Inv s' ∧ b < g_next s' ∧ (given_up tr b d s' ∨ sent_again d info s')) s.
Proof.
  intros Hp Htm. revert s. induction l as [|p l IH]; intros s Hb; [by intros _ _ ?%elem_of_nil|].
  simpl. intros [Hsp Hc]%andb_true_iff [Hpp Hping]%andb_true_iff Hin Hw. apply wp_bind.
  destruct (decide (p = own_timeout)) as [->|Hne].
  - eapply wp_mono; [exact (wp_and _ _ _ _ _ _ (wp_timeout d info s Hp Htm Hw)
      (keeps_run_TimeoutCb own_timeout s (wa_inv _ _ _ Hw)))|].
    intros [] s1 [Hout [Hs1 Hev1]]. pose proof (ev_next _ _ Hev1).
    destruct Hout as [(st & Hst & Hgone)|[Hlt Hag]].
    + eapply wp_mono; [apply (keeps_mapM_ run_TimeoutCb l keeps_run_TimeoutCb s1 Hs1)|].
      intros [] s2 [Hs2 Hev2]. pose proof (ev_next _ _ Hev2). split; [done|]. split; [lia|].
      left. exists st. split; [done|]. eapply gone_with_evolves; [|done|done]. lia.
    + eapply wp_mono; [eapply (wp_and _ any_fault);
        [apply (wp_run_others l); [by apply next_attempt_unpaused | done | | exact Hag]|]|].
      * intros Hin'. by destruct (spares_others _ _ _ Hsp eq_refl Hin').
      * apply (keeps_mapM_ run_TimeoutCb l keeps_run_TimeoutCb s1 Hs1).
      * intros [] s2 [Hw2 [Hs2 Hev2]]. pose proof (ev_next _ _ Hev2).
        split; [done|]. split; [lia|]. by right.
  - apply elem_of_cons in Hin as [Hin|Hin]; [by symmetry in Hin|].
    eapply wp_mono; [eapply (wp_and _ any_fault);
      [apply (wp_watched d info); [apply keeps_run_TimeoutCb | | done]|
       apply keeps_run_TimeoutCb, Hw]|].
    { apply hkeeps_run_TimeoutCb; [done | | done].
      by apply negb_true_iff, bool_decide_eq_false in Hpp. }
    intros [] s1 [Hw1 [_ Hev1]]. pose proof (ev_next _ _ Hev1). apply IH; [lia | done..].
Qed.

(** The publish waits for an acknowledgement, for [ms] at most. *)
Record awaits (ms : Z) (d : SendOp) (info : TimerInfo TimeoutCb) (s : ClientImpl) : Prop := {
  aw_watched : watched d info s;
  aw_unpaused : so_paused d = false;
  aw_timer : so_responseTimer d = Some i;
  aw_running : info = running b (m_timeoutMs info) info;
  aw_due : (m_timeoutMs info ≤ ms)%Z;
  aw_on : m_suspended info = false;
}.

Lemma awaits_expired ms d info s : awaits ms d info s → own_timeout ∈ expired ms s.
Proof.
  intros [[Hi [Hb (Hl & _)] _] _ Htm Hrun Hdue Hon]. apply list_elem_of_omap. exists info.
  split; [by eapply list_elem_of_lookup_2|].
  assert (m_allocated info = true) as Hal.
  { destruct (m_allocated info) eqn:E; [done|].
    rewrite (ok_free _ (ti_ok _ _ (oi_timers _ (inv_obj _ Hi))) _ _ Hl E) in Hrun. done. }
  unfold fires, expires, timer_skipped. rewrite Hrun. simpl. rewrite Hal, Hon.
  by destruct (Z.leb_spec (m_timeoutMs info) ms); [|lia].
Qed.

(** After the tick the publish is given up, or it waits again. *)
Lemma wp_tick_own ms d info s :
  tick_ok ms s = true → no_ping_timeout (expired ms s) = true →
  (cfg_responseTimeoutMs cfg ≤ ms)%Z → awaits ms d info s →
  wp any_fault (ClientImpl_tick ms) (λ _ s', Inv s' ∧ b < g_next s' ∧ (given_up tr b d s' ∨
    ((so_sendAttempts d < so_totalSendAttempts d)%Z ∧
     ∃ info', awaits ms (next_attempt d) info' s'))) s.
Proof.
  intros [Hc _]%andb_true_iff Hping Hms Haw. pose proof (awaits_expired _ _ _ _ Haw) as Hin.
  destruct Haw as [[Hs [Hb (Hl & Hcfg & Hown)] Htr] Hp Htm Hrun Hdue Hon].
  unfold ClientImpl_tick, TimerMgr_tick.
  apply wp_bind, wp_gets. apply wp_bind, wp_comms_assert; [done|]. apply wp_bind, wp_modify.
  set (s1 := set_apiEnterCount _ s).
  assert (Inv s1) as Hs1 by (apply Inv_set_api; [apply u32_range | done]).
  apply wp_bind, wp_bind.
  eapply wp_mono; [eapply (wp_and any_fault any_fault _ (λ l s', l = expired ms s ∧
    s' = set_timerMgr (m_timerMgr s') s1 ∧
    m_timers (m_timerMgr s') !! i = tick_info ms <$> m_timers (m_timerMgr s) !! i));
    [|by apply keeps_tick_collect]|].
  { apply wp_zoom. unfold wp. rewrite tick_collect_eq. split; [done|]. split; [done|].
    simpl. by rewrite list_lookup_fmap. }
  intros l s2 [(-> & E2 & Hl2) [Hs2 _]]. rewrite Hl in Hl2. simpl in Hl2.
  assert (b < g_next s2) as Hb2.
  { rewrite E2. apply (di_next _ _ _ (oi_done _ (inv_obj _ Hs))).
    rewrite (shapes_lookup _ _ _ Hb). eauto. }
  assert (watched d (tick_info ms info) s2) as Hw2.
  { split; [done | | by rewrite E2]. split; [by rewrite E2|]. split; [done|]. rewrite E2.
    by split. }
  assert (m_suspended (tick_info ms info) = false) as Hon'.
  { unfold tick_info. by repeat case_match. }
  eapply wp_mono; [by apply (wp_run_all_own _ d (tick_info ms info))|].
  intros [] s3 (Hs3 & Hb3 & Hout). 
  destruct Hout as [(st & Hst & Hgone)|[Hlt Hag]].
  - eapply wp_mono; [by apply wp_doApiExit|]. intros [] s4 (Hs4 & Hsh & _).
    split; [done|]. destruct s4. pose proof (gone_with_evolves _ _ _ _ _ Hb3 Hgone Hsh) as Hg.
    split; [pose proof (ev_next _ _ Hsh); simpl in *; lia|]. left. by exists st.
  - eapply wp_mono; [exact (wp_and _ _ _ _ _ _ (wp_doApiExit s3 Hs3)
      (hkeeps_doApiExit _ _ _ _ _ (wa_held _ _ _ Hag)))|].
    intros [] s4 [(Hs4 & Hsh & _) [Hh4 _]]. split; [done|]. destruct s4.
    split; [pose proof (ev_next _ _ Hsh); simpl in *; lia|]. right. split; [done|].
    exists (running b (cfg_responseTimeoutMs cfg) (tick_info ms info)). split.
    + split; [done | exact Hh4 | etrans; [apply (wa_trace _ _ _ Hag) | apply (ev_trace _ _ Hsh)]].
    + by apply next_attempt_unpaused.
    + unfold next_attempt. by destruct (so_acked d).
    + done.
    + done.
    + done.
Qed.

End resending.

(** ** Ticks until the publish is given up *)

Section abandon.
  Context `{Config} `{CommsLib} `{!CommsLaws} `{App} {Hquiet : Quiet}.

(** Every tick is one whose timeout functions may be called together, and in which no
    ping has gone without a response. *)
Fixpoint ticks_ok (n : nat) (ms : Z) (s : ClientImpl) : bool :=
  match n with
  | O => true
  | S n' =>
      tick_ok ms s && no_ping_timeout (expired ms s) &&
      match ClientImpl_tick ms s with
      | Ok _ s' => ticks_ok n' ms s'
      | Fault _ => true
      end
  end.

Definition ticks (n : nat) (ms : Z) : M ClientImpl unit := run_requests (replicate n (RqTick ms)).

Lemma given_up_next tr b d s : given_up tr b (next_attempt d) s ↔ given_up tr b d s.
Proof. unfold given_up, next_attempt. by destruct (so_acked d). Qed.

Lemma wp_ticks tr b t i cfg n ms d info s :
  awaits tr b t i cfg ms d info s → (cfg_responseTimeoutMs cfg ≤ ms)%Z →
  (0 ≤ so_sendAttempts d)%Z → (so_totalSendAttempts d ≤ u32_max)%Z →
  0 < n → (so_totalSendAttempts d - so_sendAttempts d < Z.of_nat n)%Z → ticks_ok n ms s = true →
  wp any_fault (ticks n ms) (λ _ s', given_up tr b d s') s.
Proof.
  intros Haw Hms. revert d info s Haw.
  induction n as [|n IH]; intros d info s Haw Hpos Hmax Hn Hatt Hok; [lia|].
  simpl in Hok. apply andb_true_iff in Hok as [[Htick Hping]%andb_true_iff Hrest].
  pose proof (wp_tick_own tr b t i cfg ms d info s Htick Hping Hms Haw) as Ht.
  unfold ticks, run_requests. simpl. unfold wp in Ht |- *. unfold mbind, M_bind.
  destruct (ClientImpl_tick ms s) as [[] s1|f]; [|done]. simpl in Hrest.
  destruct Ht as (Hs1 & Hb & [(st & Hst & Hgone)|(Hlt & info' & Haw')]).
  - assert (keeps (ticks n ms)) as Hk by (apply keeps_mapM_; intros; apply keeps_run_request).
    specialize (Hk s1 Hs1). unfold wp, ticks, run_requests in Hk.
    destruct (mapM_ _ _ s1) as [[] s2|]; [|done]. destruct Hk as [_ Hev]. exists st.
    split; [done|]. by eapply gone_with_evolves.
  - assert (so_sendAttempts (next_attempt d) = (so_sendAttempts d + 1)%Z) as Ea.
    { unfold next_attempt. simpl. apply u32_small. lia. }
    assert (so_totalSendAttempts (next_attempt d) = so_totalSendAttempts d) as Et
      by (unfold next_attempt; by destruct (so_acked d)).
    specialize (IH _ _ _ Haw' ltac:(lia) ltac:(lia) ltac:(lia) ltac:(lia) Hrest).
    unfold wp, ticks, run_requests in IH. destruct (mapM_ _ _ s1) as [[] s2|]; [|done].
    by apply given_up_next.
Qed.

Lemma admissible_ticks n ms s : ticks_ok n ms s = true → admissible_run (replicate n (RqTick ms)) s.
Proof.
  revert s. induction n as [|n IH]; intros s; [done|]. simpl.
  intros [[Htick _]%andb_true_iff Hrest]%andb_true_iff. split; [by split|].
  destruct (ClientImpl_tick ms s); [by apply IH | done].
Qed.

Lemma okeeps_ticks n ms : okeeps (ticks n ms).
Proof.
  unfold ticks, run_requests. induction n as [|n IH]; simpl; [apply keeps_ret|].
  apply keeps_bind; [apply okeeps_ClientImpl_tick | done].
Qed.

(** The publish [d] at [b] has gone out, and its response timer runs out within [ms],
    now and each time that it is restarted. *)
Record in_flight (ms : Z) (b : addr) (d : SendOp) (s : ClientImpl) : Prop := {
  if_op : ∃ t, g_store s !! b = Some (MkOp t (DSend d));
  if_unpaused : so_paused d = false;
  if_attempts : (0 ≤ so_sendAttempts d)%Z;
  if_total : (so_totalSendAttempts d ≤ u32_max)%Z;
  if_timer : ∃ i info, so_responseTimer d = Some i ∧ m_timers (m_timerMgr s) !! i = Some info ∧
    m_timeoutCb info = Some SendOp_recvTimeoutCb ∧ m_suspended info = false ∧
    (m_timeoutMs info ≤ ms)%Z;
  if_restart : (cfg_responseTimeoutMs (m_configState s) ≤ ms)%Z;
}.

Lemma in_flight_awaits ms b d s :
  Inv s → in_flight ms b d s →
  ∃ t i info, awaits (g_trace s) b t i (m_configState s) ms d info s.
Proof.
  intros Hinv [[t Hb] Hp _ _ (i & info & Htm & Hi & Hcb & Hon & Hdue) _]. exists t, i, info.
  pose proof (oi_timers _ (inv_obj _ Hinv)) as Hti.
  pose proof (shapes_lookup _ _ _ Hb) as Hsh.
  assert (Some i ∈ sh_timers (shape_of (DSend d))) as Hheld by (simpl; rewrite Htm; by left).
  split; [split; [done | split; [done|] | done] | done..| | done | done].
  - split; [done|]. split; [done|]. intros c oc Hoc Hin.
    eapply (ti_inj _ _ Hti c b _ _ i (shapes_lookup _ _ _ Hoc) Hsh); done.
  - destruct (ti_active _ _ Hti i info _ Hi Hcb) as (x & Hx & _ & Hin).
    assert (m_timeoutData info = b) as Hd by by eapply (ti_inj _ _ Hti).
    destruct info; simpl in *. by subst.
Qed.


End abandon.

(** ** Witness *)

(** Two publishes that the broker never acknowledges, with three attempts each. *)
Definition unheard_requests : list Request :=
  rq_session ++
  [RqPublishPrepare; RqPublishConfig 3 (publish_config 1); RqPublishSetResendAttempts 3 3;
   RqPublishSend 3 (Some 33)] ++ rq_publish 4 2.

Definition unheard_state : ClientImpl :=
  state_of DefaultConfig (run_new DefaultConfig unheard_requests).

Definition unheard_end : result ClientImpl unit :=
  ticks (H := DefaultConfig) (H0 := ExampleComms) (H2 := QuietApp) 3 2000 unheard_state.


(** The first of them. *)
Definition unheard_op : SendOp :=
  {| so_responseTimer := Some 0;
     so_pubMsg := {| pub_dup := false; pub_qos := 1; pub_retain := false; pub_topic := "t";
       pub_packetIdExists := true; pub_packetId := 1; pub_payload := [] |};
     so_cb := Some 33; so_totalSendAttempts := 3; so_sendAttempts := 1;
     so_published := true; so_acked := false; so_paused := false |}.


(** Both publishes are resent in the same ticks; the second has two attempts. *)
Example unheard_events :
  match unheard_end with
  | Ok _ s' => omap (λ e, match e with
      | EvSendOutputData (MPublish m) _ => Some (pub_packetId m, None)
      | EvPublishComplete a _ st => Some (Z.of_nat a, Some st)
      | _ => None
      end) (drop (length (g_trace unheard_state)) (g_trace s'))
  | Fault _ => []
  end = [(1%Z, None); (2%Z, None); (1%Z, None); (4%Z, Some AsyncOpStatus_Timeout);
         (3%Z, Some AsyncOpStatus_Timeout)].
Proof. vm_compute. reflexivity. Qed.
