(* ===== verification/Findings.v ===== *)
(** * Runs that end in undefined behaviour or against the documentation

    Each run makes only requests that the API allows, of an application that does
    nothing in its callbacks ([QuietApp]); the runs are evaluated by the kernel. *)

From S2P Require Import Prelude Config Protocol Topic PacketId TimerMgr State Lifecycle.
From S2P Require Import Completion Session SendOp RecvOp SubscribeOp ConnectOp Client.
From S2P Require Import Scenarios Ticking.

(** ** Requests *)

Definition rq_reconnect (op : addr) (sp : bool) : list Request :=
  rq_connect op reconnect_config ++ [rq_connack sp].

Definition rq_full_order : list Request :=
  RqSetCallbacks Callbacks_all :: RqSetPublishOrdering PublishOrdering_Full ::
  rq_connect 1 connect_config ++ [rq_connack false].

Definition sub_topic : CC_Mqtt311SubscribeTopicConfig :=
  {| st_topic := Some "t"; st_maxQos := 2 |}.

Definition rq_subscribe (op : addr) : list Request :=
  [RqSubscribePrepare; RqSubscribeConfigTopic op sub_topic; RqSubscribeSend op (Some op)].

(** A QoS 2 PUBLISH of topic "t" with packet identifier 7, and its duplicate. *)
Definition rq_publish2 (dup : bool) : Request :=
  RqProcessData ([if dup then x3c else x34; x05; x00; x01; x74; x00; x07])%byte.

Definition bytes_publish0 : bytes := [x30; x03; x00; x01; x74]%byte.

Definition timer_of (op : addr) (s : ClientImpl) : list (TimerInfo TimeoutCb) :=
  filter (λ info, m_timeoutData info = op) (m_timers (m_timerMgr s)).

Definition outputs (s : ClientImpl) : list ProtMessage :=
  omap (λ e, match e with EvSendOutputData msg _ => Some msg | _ => None end) (g_trace s).

Definition is_publish (m : ProtMessage) : bool :=
  match m with MPublish _ => true | _ => false end.

(** ** Faults *)

(** The publish is cancelled while the client is not inside a call, which leaves
    a null entry in [m_ops]; then the broker answers without a session. *)
Definition rq_null_entry (sp : bool) : list Request :=
  rq_session ++ rq_publish 3 1 ++ [RqNotifyNetworkDisconnected] ++
  rq_connect 4 reconnect_config ++ [RqPublishCancel 3; rq_connack sp].

(** [ClientImpl::brokerConnected] calls [op->type()] on the null entries of
    [m_ops]: cancelling a publish while a reconnection is in progress and
    receiving a CONNACK without a session dereferences a null pointer; with a
    session nothing of the kind happens. *)
Theorem brokerConnected_null_entry :
  fault_of (run_new DefaultConfig (rq_null_entry false)) = Some FNull ∧
  fault_of (run_new DefaultConfig (rq_null_entry true)) = None.
Proof. by vm_compute. Qed.

(** The same loop nullifies an entry itself: when terminating an
    unacknowledged publish resumes a paused QoS 0 publish after it, this one
    completes at once and its entry is null when the loop reaches it. *)
Theorem brokerConnected_null_by_resume :
  fault_of (run_new DefaultConfig
    (rq_full_order ++ rq_publish 3 1 ++ rq_publish 4 0 ++ [RqNotifyNetworkDisconnected] ++
     rq_reconnect 5 false)) = Some FNull.
Proof. by vm_compute. Qed.

(** [TimerMgr::tick] collects the timeout functions before it calls them: a
    ping timeout disconnects the client, which destroys a subscribe operation
    whose own timeout was collected in the same tick and is called next. *)
Theorem tick_calls_destroyed_operation :
  fault_of (run_new DefaultConfig
    (rq_session ++ rq_publish 3 1 ++
     [RqSubscribePrepare; RqSubscribeConfigTopic 4 sub_topic; RqSetResponseTimeout 4 62000;
      RqSubscribeSend 4 (Some 4); RqTick 60000; RqTick 2000])) = Some FDangling.
Proof. by vm_compute. Qed.

(** The range-for over [m_sendOps] in [brokerConnected] is invalidated when a
    publish that has used up its (lowered) number of attempts completes instead
    of being resent. *)
Theorem brokerConnected_invalidates_iterator :
  fault_of (run_new DefaultConfig
    (rq_session ++ rq_publish 3 1 ++
     [RqTick 2000; RqPublishSetResendAttempts 3 1; RqNotifyNetworkDisconnected] ++
     rq_reconnect 4 true)) = Some FIterator.
Proof. by vm_compute. Qed.

(** In a build with static storage (15 operations in the bare metal
    configuration) the null entries of [m_ops] are removed only when the outermost
    call returns, so that fifteen QoS 0 messages in one buffer overflow the
    vector, while fourteen do not. *)
Theorem static_ops_overflow :
  fault_of (run_new BareMetalConfig
    (rq_session ++ [RqProcessData (concat (repeat bytes_publish0 15))])) = Some FCapacity ∧
  fault_of (run_new BareMetalConfig
    (rq_session ++ [RqProcessData (concat (repeat bytes_publish0 14))])) = None.
Proof. by vm_compute. Qed.

(** A publish may be sent without a completion callback, but cancelling it is
    then taken for the cancellation of a prepared operation, and the assertion of
    [allowNextPrepare] fails. *)
Theorem publish_cancel_without_callback :
  fault_of (run_new DefaultConfig
    (rq_session ++ [RqPublishPrepare; RqPublishConfig 3 (publish_config 1);
                    RqPublishSend 3 None; RqPublishCancel 3])) = Some FAssert.
Proof. by vm_compute. Qed.

(** A PUBACK with packet identifier 0 from the broker matches an
    operation that is only prepared, and the assertion that it was published
    fails. *)
Theorem puback_zero_resends_prepared :
  fault_of (run_new DefaultConfig
    (rq_session ++ [RqPublishPrepare; RqPublishConfig 3 (publish_config 1);
                    RqProcessData [x40; x02; x00; x00]%byte])) = Some FAssert.
Proof. by vm_compute. Qed.

(** The guard of [SubscribeOp::send] is entered after the message is sent: an
    application that is late lets the ping timeout expire in its tick, which
    destroys the operation whose timer [send] restarts next. *)
Definition LateApp : App := {|
  app_react := λ _, mret tt;
  app_elapsed := λ _, 2000%Z;
  app_fuel := 0;
|}.

Theorem send_after_ping_timeout :
  let pinged := state_of DefaultConfig (run_new DefaultConfig (rq_session ++ [RqTick 60000])) in
  fault_of (run_requests (H := DefaultConfig) (H0 := ExampleComms) (H1 := LateApp)
    (rq_subscribe 3) pinged) = Some FDangling ∧
  fault_of (run_requests (H := DefaultConfig) (H0 := ExampleComms) (H1 := QuietApp)
    (rq_subscribe 3) pinged) = None.
Proof. by vm_compute. Qed.

(** A PUBACK with packet identifier 0 matches a paused publish of QoS 0: the
    publishes before it are resent, the first has used up its attempts and
    completes, which resumes and completes the paused one as well, and
    [resendAllUntil] reads the list past its end. *)
Theorem resend_past_the_end :
  fault_of (run_new DefaultConfig
    (rq_full_order ++ rq_publish 3 1 ++ rq_publish 4 0 ++
     [RqTick 2000; RqProcessData [x40; x02; x00; x00]%byte])) = Some FRange.
Proof. by vm_compute. Qed.

(** ** Timers that never fire *)

(** The response timer of a publish that was suspended by a
    disconnection stays suspended after a reconnection with the session: the
    publish is resent once, then neither resent nor completed, however long the
    broker keeps silent (here almost a minute, with a response timeout of two seconds). *)
Theorem publish_timer_stays_suspended :
  let s := state_of DefaultConfig (run_new DefaultConfig
    (rq_session ++ rq_publish 3 1 ++ [RqNotifyNetworkDisconnected] ++ rq_reconnect 4 true ++
     repeat (RqTick 2000) 29)) in
  m_suspended <$> timer_of 3 s = [true] ∧ ops_of Type_Send s = [3] ∧
  length (filter (λ m, is_publish m = true) (outputs s)) = 2.
Proof. by vm_compute. Qed.

(** A duplicate of a QoS 2 PUBLISH cancels the timer of its reception and
    nothing starts it again, so that the operation remains when no PUBREL
    follows; without the duplicate it ends after the response timeout. *)
Theorem duplicate_publish_stops_timer :
  let received dup := state_of DefaultConfig (run_new DefaultConfig
    (rq_session ++ rq_subscribe 3 ++ [RqProcessData [x90; x03; x00; x01; x02]%byte] ++
     [rq_publish2 false] ++ dup ++ [RqTick 2000; RqTick 2000])) in
  ops_of Type_Recv (received []) = [] ∧
  ops_of Type_Recv (received [rq_publish2 true]) = [4] ∧
  timer_of 4 (received [rq_publish2 true]) = [].
Proof. by vm_compute. Qed.

(** A response timeout of 0 is accepted for an operation, and no tick is then
    requested: the operation waits for a tick that the application has no reason
    to make. *)
Theorem zero_timeout_requests_no_tick :
  let s := state_of DefaultConfig (run_new DefaultConfig
    [RqSetCallbacks Callbacks_all; RqConnectPrepare; RqConnectConfig 1 connect_config;
     RqSetResponseTimeout 1 0; RqConnectSend 1 (Some 1)]) in
  m_timeoutCb <$> timer_of 1 s = [Some ConnectOp_opTimeoutCb] ∧
  Forall (λ e, match e with EvNextTickProgram _ => False | _ => True end) (g_trace s).
Proof. vm_compute. split; [done | repeat constructor]. Qed.

(** The response timeout set for a publish has no effect: the timer is
    started with the default of the client. *)
Theorem publish_response_timeout_ignored :
  let s := state_of DefaultConfig (run_new DefaultConfig
    (rq_session ++ [RqPublishPrepare; RqPublishConfig 3 (publish_config 1);
                    RqSetResponseTimeout 3 9000; RqPublishSend 3 (Some 3)])) in
  (op_responseTimeoutMs <$> g_store s !! 3) = Some 9000%Z ∧
  m_timeoutMs <$> timer_of 3 s = [2000%Z].
Proof. by vm_compute. Qed.

(** [SendOp::cancel] does not enter the guard: the publish that waits for the cancelled
    one is sent and its timer started, but the application still waits for the tick of
    the first, which may come much later. *)
Theorem cancel_programs_no_tick :
  let run := run_waiting (H := DefaultConfig) (H0 := ExampleComms) (H1 := QuietApp)
    (rq_full_order ++ [RqSetDefaultResponseTimeout 30000] ++ rq_publish 3 2 ++
     [RqSetDefaultResponseTimeout 2000] ++ rq_publish 4 1 ++ [RqPublishCancel 3])
    None (ClientImpl_new (H := DefaultConfig)) in
  match run with
  | Ok wait s => wait = Some 30000%Z ∧ getMinWait (m_timerMgr s) = 2000%Z ∧
      m_timeoutMs <$> timer_of 4 s = [2000%Z] ∧ length (filter (λ m, is_publish m = true) (outputs s)) = 2
  | Fault _ => False
  end.
Proof. vm_compute. done. Qed.

(** When the ping timer expires while the response to a ping is outstanding,
    [sendPing] returns without starting it again: with a response timeout longer than
    the keep alive period of 5 seconds a response after 7 seconds silences the client,
    which has sent nothing for 11.9 seconds here. *)
Theorem ping_timer_stops :
  let s := state_of DefaultConfig (run_new DefaultConfig
    ([RqSetCallbacks Callbacks_all; RqSetDefaultResponseTimeout 9000; RqConnectPrepare;
      RqConnectConfig 1 {| cc_clientId := Some "id"; cc_username := None; cc_password := None;
        cc_passwordLen := 0; cc_keepAlive := 5; cc_cleanSession := true |};
      RqConnectSend 1 (Some 1); rq_connack false] ++
     [RqTick 5000; RqTick 5000; RqTick 1990; RqProcessData [xd0; x00]%byte; RqTick 4900])) in
  length (omap (λ m, match m with MPingreq => Some tt | _ => None end) (outputs s)) = 1 ∧ ses_connected (m_sessionState s) = true ∧
  (λ info, (m_timeoutCb info, m_timeoutMs info)) <$> timer_of 2 s =
    [(Some KeepAliveOp_recvTimeoutCb, 100%Z)].
Proof. vm_compute. done. Qed.
